(* ===== verification/_CoqProject ===== *)
-Q . S2P
Prelude.v
GoFloat.v
GoString.v
Duration.v
Sha256.v
Model.v
Examples.v
Interfaces.v
Tokenizer.v
Prefix.v
Admission.v
Registry.v
Routing.v
Config.v
Wire.v
Protocol.v
Metrics.v
WorkerClient.v
Parse.v
Sse.v
Stream.v
Gateway.v
Chat.v
ChatMetrics.v
AttemptRun.v
Traffic.v
TrafficRun.v
TrafficMetrics.v
Quiescence.v
Progress.v
Termination.v
Directory.v
MockWorker.v
PrefixCache.v
Membership.v
Generation.v
WorkerRun.v
WorkerCalls.v
EndToEnd.v
Delivery.v
Fleet.v
Serving.v
LoadGen.v
Csv.v
LoadRun.v
Conformance.v
