(* ===== verification/Prelude.v ===== *)
(** * A verification library for the AetherServe router

    AetherServe is an HTTP gateway in front of language-model workers.  Workers
    register over gRPC and report their load; a chat request is parsed, charged
    to a token budget, routed to a worker by one of four policies, and answered
    as a stream of server-sent events.  This library models the Go code under
    [src/] as executable functions and small transition systems, and proves what
    makes each part correct.

    ** The files

    - [Prelude]: machine integers with their wrap-around, the [result] of a
      fallible function, sorting by a key, sums, and invariants over runs.
    - [GoFloat], [GoString], [Duration], [Sha256]: what the code uses of the language and its
      standard library: float64 as IEEE 754 binary64 (no rounding idealised),
      instants and durations, byte strings with UTF-8 decoding,
      [strings.Fields], [strings.Join], [strconv.ParseInt], [time.ParseDuration],
      hexadecimal, SHA-256.
    - [Model]: the structs of [internal/model].  [Examples]: concrete values.
    - [Interfaces]: two type classes with laws, [SnapshotSource] (a directory of
      workers) and [Limiter] (a limiter of tokens): what the gateway relies on.
      [Registry] and [Admission] are their instances; the gateway's theorems on
      selection and on leases use only the laws.
    - [Tokenizer], [Prefix]: [internal/tokenizer], [internal/prefix].
    - [Admission]: [internal/admission]; a lease is an index into the heap of
      leases, so that two holders of one lease are two uses of one index.
    - [Registry]: [internal/registry]; the iteration order of the Go map is an
      argument of the snapshot.
    - [Routing]: [internal/routing].
    - [Config]: [internal/config]: the records, the loading of a file, the
      durations and the validation.
    - [Wire], [Protocol]: the generated messages with their getters
      ([api/gen/aetherserve/v1/worker.pb.go]) and [internal/protocol].
    - [Metrics]: [internal/metrics].
    - [WorkerClient]: [internal/workerclient], a transition system over the
      critical sections of the pool.
    - [Parse], [Sse], [Stream], [Chat]: [internal/gateway/http.go]: the parsing of
      a request; the bytes of the response events; one attempt, with its receiver
      goroutine, channel, contexts and timer as a transition system; the handler
      with its retry loop and its lease.
    - [ChatMetrics]: the counters of the handler and of an attempt against the
      response.  [AttemptRun]: the interleavings of an attempt are the atomic
      attempts of [Chat].
    - [Traffic]: the running gateway with all its goroutines: any number of chat
      handlers, each at its own point with the receivers of its attempts, the calls
      of the control plane and the probes, action by action, and [Close]; what they
      log.  [TrafficRun]: each request of it is a run of [Chat.handleChat].
      [TrafficMetrics]: its counters against what the clients were sent.
      [Quiescence]: who owns a connection, and what a shutdown leaves.
      [Progress]: every request can return by its own steps, and [Close].
      [Termination]: the steps of the requests in any run are bounded.
      [Directory]: the entries of the registry in any run.
    - [Gateway]: [internal/gateway/server.go]: construction, readiness,
      registration, heartbeats, selection, shutdown.
    - [MockWorker], [Generation]: [internal/mockworker]: the accounting with its
      queue and dispatcher as a transition system, the prefix cache, the reported
      state; a job and the call that runs it, as one function.  [PrefixCache]: the
      cache against a reference queue.
    - [WorkerRun], [WorkerCalls]: the same worker with all its goroutines: the
      calls, the dispatcher with its job, the queue and the channels of results.
      The system of [MockWorker] and the function of [Generation] are proved to be
      abstractions of it.
    - [Membership]: the worker's registration loop against the gateway's control
      plane, over a network that refuses connections and loses calls, while others
      use the gateway, restart it or register under the same ID.
    - [EndToEnd]: the handler with mock workers behind it.  [Delivery]: the
      goroutines of a worker and those of an attempt, with a connection between
      them that may break.  [Fleet]: the whole system, the gateway of [Traffic]
      with a fleet of the workers of [WorkerRun].
    - [Serving]: the listeners, the routes, the start and the shutdown of both
      processes, and the commands [cmd/router] and [cmd/mock-worker].
    - [LoadGen], [Csv], [LoadRun]: [cmd/loadgen]: workloads, the routing simulator
      and the percentiles; the CSV writer over its buffer; traces, a request over
      HTTP, the loop and the summary of [main], the files that it writes.
    - [Conformance]: the repository's unit tests, and four of its five integration
      tests, replayed on the model.  [TestClientCancellationStopsWorker] waits for
      a state that a scheduler decides; [WorkerCalls] proves that it is reached.

    ** How the code is modelled

    A function of the code is a function of the same name, with the clock readings
    it makes as arguments.  A method that changes its receiver returns the new
    record.  An error is a constructor or, for an error that nobody inspects, its
    text.  An operation under a mutex is one step; where the code leaves the lock
    between two steps, so does the model, and a write to a client and the update of
    a metric that follows it are two steps ([WorkerClient.step], [Stream.step],
    [Traffic.step], [MockWorker.step], [WorkerRun.step], [Membership.step]), and a theorem about
    reachable states holds for every interleaving.  In [Chat] the environment of a
    request includes what the other requests do to the shared server between its
    own calls; [TrafficRun] shows that [Traffic] gives nothing else to it.

    ** What the theorems show

    - Admission: the in-flight counter is the sum of the unreleased leases and is
      within the limit; a lease gives back its cost once; only a granted
      reservation is charged.
    - Routing: a decision names an eligible worker, a metric policy selects the
      preferred one, round robin is fair while its cursor does not wrap, the trace
      is complete, and an error means that no worker may be routed to.
    - Prefixes: the longest match is the longest common prefix of whole blocks.
    - Registry: versions only grow, a snapshot does not depend on the map's order,
      readiness is the existence of a fresh healthy worker; in the running gateway
      every entry stays validated and none ever leaves.
    - Gateway: a registered worker is routable, a rejected heartbeat changes
      nothing, construction succeeds exactly for the valid configurations.
    - Streams: in every interleaving the client gets the headers, then the
      worker's tokens in order without gaps, then at most one ending; every run
      ends; the written bytes parse back to the events; the counters are never
      ahead of what was written, and behind it by at most the update that comes
      next.
    - Chat: exactly one response, at most two attempts on different workers, the
      lease released on every path, nothing left behind; a request is accepted
      exactly under the documented conditions; against mock workers an undisturbed
      client gets exactly the worker's output, also after a failover.
    - The running gateway: with every request at its own point, the tokens in
      flight are those of the requests that hold a lease and nobody releases twice;
      every connection that is open has one owner; a request that has returned
      is a run of [handleChat]; a handler makes at most 52 turns and waits for
      nothing but its own stream, so every request can return by its own steps, and
      then [Close] does, which after the end of its context waits for nobody; after
      [Close] and the last request no reservation, active handler or open connection
      is left. In any interleaving the counters of requests, cancellations, output
      tokens, failures and rejections are what the clients were sent, but for the
      refusals that are counted before they are written and one update that a
      handler makes next; and in any run the requests make at most 261 steps each
      and four for each message of a worker, and a request that has not returned has
      a step of its own or waits for the worker.
      With a fleet of mock workers behind it, the client of each request gets one
      error or the tokens that the worker it was routed to computes for it.
    - Workers: exact accounting of work that fits the counter, a cache that is a
      bounded queue, and a worker that the gateway accepts as long as nobody
      disturbs its entry and no malformed prefix is in its cache, and lists with
      what it reported.  With all goroutines
      running, each call's client receives a stream of the atomic [Generate], a
      beginning of it while the call runs, and a worker that is left to itself
      comes to rest with nothing running or waiting.  What reaches the client of
      the gateway in any interleaving of both sides are the worker's tokens in
      order, and a completion only after all of them.
    - Commands: the exit codes, the standard error with the gateway's log, what is
      left open; what the load generator sends, and its summary and files.
    - Protocol: the round trips of states and chunks and the errors of a chunk;
      the round trips of the event stream and of the CSV file.

    ** Parameters

    The protobuf timestamp ([Wire.TimestampPb], with its documented laws), the
    decoders of YAML and JSON, the file system, the sockets that [net.Listen]
    binds, the HTTP client, [status.Code], the texts of errors, the float
    format [%g], [strconv.Quote], the conversion of a float out of the range of an
    integer, and the random source are arguments; each theorem that needs a law
    has a witness with a concrete instance.

    ** Bounds and fuel

    [Prefix.fingerprints_from] runs with as much fuel as there are tokens and
    consumes sixteen of them each time; [GoString.runes_fuel] consumes at least a
    byte.  The percentiles of [LoadGen] are checked for at most a hundred samples,
    the command's default.  [Stream.stream_progress] bounds the steps of an
    attempt by the messages received.  The bound of 52 turns in [Progress] is two
    attempts of at most 19 turns, the updates of metrics among them, with the rest
    of the handler; that of 261 steps in [Termination] is five for each of the
    turns and one for the end of the context.  A multiply-add is taken to round twice, as
    Go does on amd64.

    ** Not modelled

    gRPC, HTTP, YAML and protobuf themselves, and the generated stubs
    ([worker_grpc.pb.go]), which hand the modelled functions their messages; the
    serving loops of the two servers; the encoding of log records.  [Traffic] relies on gRPC to open no stream for a context
    that is over.  A write deadline
    shows as a write that fails; a flush has no effect on what is written.  The
    reading of a request's headers by the load generator's client and the encoding
    of its JSON summary are the libraries'. *)

From Stdlib Require Export ZArith Lia.
From stdpp Require Export sorting.
From stdpp Require Export base tactics option list gmap strings relations numbers.

(** ** Machine integers

    Go's fixed-width integers are [Z] values kept in range by an explicit
    reduction after every operation that can leave the range. *)
Declare Scope go_scope.
Delimit Scope go_scope with go.

Definition wrap_u64 (z : Z) : Z := (z mod 2 ^ 64)%Z.
Definition wrap_u32 (z : Z) : Z := (z mod 2 ^ 32)%Z.
Definition wrap_i64 (z : Z) : Z := ((z + 2 ^ 63) mod 2 ^ 64 - 2 ^ 63)%Z.

Notation "a +u64 b" := (wrap_u64 (a + b)) (at level 50, left associativity) : go_scope.
Notation "a -u64 b" := (wrap_u64 (a - b)) (at level 50, left associativity) : go_scope.
Notation "a +u32 b" := (wrap_u32 (a + b)) (at level 50, left associativity) : go_scope.
Notation "a -u32 b" := (wrap_u32 (a - b)) (at level 50, left associativity) : go_scope.
Notation "a *u32 b" := (wrap_u32 (a * b)) (at level 40, left associativity) : go_scope.
Notation "a *i64 b" := (wrap_i64 (a * b)) (at level 40, left associativity) : go_scope.

Definition is_u64 (z : Z) : Prop := (0 <= z < 2 ^ 64)%Z.
Definition is_u32 (z : Z) : Prop := (0 <= z < 2 ^ 32)%Z.
Definition is_i64 (z : Z) : Prop := (- 2 ^ 63 <= z < 2 ^ 63)%Z.

Create HintDb go.
Create Rewrite HintDb go_wrap.

Lemma wrap_u64_id (z : Z) : is_u64 z -> wrap_u64 z = z.
Proof. unfold is_u64, wrap_u64. intros ?. by rewrite Z.mod_small. Qed.

Lemma wrap_u32_id (z : Z) : is_u32 z -> wrap_u32 z = z.
Proof. unfold is_u32, wrap_u32. intros ?. by rewrite Z.mod_small. Qed.

Lemma wrap_i64_id (z : Z) : is_i64 z -> wrap_i64 z = z.
Proof. unfold is_i64, wrap_i64. intros ?. rewrite Z.mod_small; lia. Qed.

Lemma wrap_u64_range (z : Z) : is_u64 (wrap_u64 z).
Proof. unfold is_u64, wrap_u64. apply Z.mod_pos_bound. lia. Qed.

Lemma wrap_u32_range (z : Z) : is_u32 (wrap_u32 z).
Proof. unfold is_u32, wrap_u32. apply Z.mod_pos_bound. lia. Qed.

Lemma wrap_i64_range (z : Z) : is_i64 (wrap_i64 z).
Proof.
  unfold is_i64, wrap_i64.
  pose proof (Z.mod_pos_bound (z + 2 ^ 63) (2 ^ 64) ltac:(lia)). lia.
Qed.

#[export] Hint Resolve wrap_u64_range wrap_u32_range wrap_i64_range : go.
#[export] Hint Rewrite wrap_u64_id wrap_u32_id wrap_i64_id using
  (unfold is_u64, is_u32, is_i64 in *; lia) : go_wrap.

(** Case analysis on the boolean tests of the code, turned into facts. *)
Ltac bool_facts :=
  repeat match goal with
  | H : (_ =? _)%Z = true |- _ => apply Z.eqb_eq in H
  | H : (_ =? _)%Z = false |- _ => apply Z.eqb_neq in H
  | H : (_ <? _)%Z = true |- _ => apply Z.ltb_lt in H
  | H : (_ <? _)%Z = false |- _ => apply Z.ltb_ge in H
  | H : (_ <=? _)%Z = true |- _ => apply Z.leb_le in H
  | H : (_ <=? _)%Z = false |- _ => apply Z.leb_gt in H
  | H : (_ =? _)%string = true |- _ => apply String.eqb_eq in H
  | H : (_ =? _)%string = false |- _ => apply String.eqb_neq in H
  | H : (_ || _) = true |- _ => apply orb_true_iff in H
  | H : (_ || _) = false |- _ => apply orb_false_iff in H; destruct H
  | H : (_ && _) = true |- _ => apply andb_true_iff in H; destruct H
  | H : (_ && _) = false |- _ => apply andb_false_iff in H
  | H : negb _ = true |- _ => apply negb_true_iff in H
  | H : negb _ = false |- _ => apply negb_false_iff in H
  end.

Ltac case_if :=
  match goal with
  | |- context [if ?b then _ else _] => destruct b eqn:?
  | H : context [if ?b then _ else _] |- _ => destruct b eqn:?
  end.

(** ** Results of fallible code

    A Go function returning [(T, error)] is a [result]: the value when the
    error is nil, the error otherwise. *)
Inductive result (E A : Type) : Type :=
| Ok (a : A)
| Err (e : E).
Arguments Ok {E A} a.
Arguments Err {E A} e.

#[export] Instance result_eq_dec {E A} `{EqDecision E} `{EqDecision A} :
  EqDecision (result E A).
Proof. solve_decision. Defined.

#[export] Instance result_ret {E} : MRet (result E) := fun A a => Ok a.
#[export] Instance result_bind {E} : MBind (result E) := fun A B f r =>
  match r with Ok a => f a | Err e => Err e end.

Definition is_ok {E A} (r : result E A) : bool :=
  match r with Ok _ => true | Err _ => false end.

Lemma result_bind_ok {E A B} (r : result E A) (f : A -> result E B) (b : B) :
  (r ≫= f) = Ok b <-> exists a, r = Ok a /\ f a = Ok b.
Proof. destruct r; simpl; naive_solver. Qed.

Lemma result_bind_err {E A B} (r : result E A) (f : A -> result E B) (e : E) :
  (r ≫= f) = Err e <-> r = Err e \/ exists a, r = Ok a /\ f a = Err e.
Proof. destruct r; simpl; naive_solver. Qed.

(** A test that fails with [e]: the [if cond { return err }] of the code. *)
Definition reject_if {E} (b : bool) (e : E) : result E unit :=
  if b then Err e else Ok tt.

Lemma reject_if_ok {E} (b : bool) (e : E) (u : unit) :
  reject_if b e = Ok u <-> b = false.
Proof. destruct b, u; simpl; naive_solver. Qed.

Lemma Forall_forallb {A} (P : A -> bool) (l : list A) :
  Forall (fun a => P a = true) l <-> forallb P l = true.
Proof. rewrite forallb_forall, list.Forall_forall. by setoid_rewrite list_elem_of_In. Qed.

(** ** Sorting by a string key

    [sort.Slice] and [sort.Strings] order by Go's byte-wise string order.  The
    result of the library sort is modelled by a merge sort; when the keys are
    distinct the sorted permutation is unique, so the algorithm is irrelevant. *)
Section SortByKey.
Context {A : Type} (key : A -> string).

Definition by_key : relation A := fun a b => String.le (key a) (key b).

#[export] Instance by_key_dec (a b : A) : Decision (by_key a b).
Proof. unfold by_key. apply _. Defined.
#[export] Instance by_key_trans : Transitive by_key.
Proof. intros a b c. unfold by_key. by intros ->. Qed.
#[export] Instance by_key_total : Total by_key.
Proof. intros a b. unfold by_key. apply (total String.le). Qed.

Definition sort_by_key (l : list A) : list A := merge_sort by_key l.

Lemma sort_by_key_perm (l : list A) : sort_by_key l ≡ₚ l.
Proof. apply merge_sort_Permutation. Qed.

Lemma sort_by_key_sorted (l : list A) : StronglySorted by_key (sort_by_key l).
Proof. apply (StronglySorted_merge_sort by_key). Qed.

Lemma elem_of_sort_by_key (x : A) (l : list A) : x ∈ sort_by_key l <-> x ∈ l.
Proof. by rewrite sort_by_key_perm. Qed.

Lemma NoDup_key_inj (l : list A) (x y : A) :
  NoDup (key <$> l) -> x ∈ l -> y ∈ l -> key x = key y -> x = y.
Proof.
  intros Hnd (i & Hi)%list_elem_of_lookup (j & Hj)%list_elem_of_lookup Hk.
  assert (i = j) as ->; [|congruence].
  eapply (NoDup_lookup (key <$> l)); [done| |];
    rewrite list_lookup_fmap; [by rewrite Hi|rewrite Hj; simpl; congruence].
Qed.

Lemma NoDup_key_filter (P : A -> Prop) `{!forall x, Decision (P x)} (l : list A) :
  NoDup (key <$> l) -> NoDup (key <$> filter P l).
Proof.
  intros Hnd. apply NoDup_fmap_2_strong.
  - intros x y Hx Hy. apply list_elem_of_filter in Hx as [_ Hx].
    apply list_elem_of_filter in Hy as [_ Hy]. by eapply NoDup_key_inj.
  - apply list.NoDup_filter. by eapply NoDup_fmap_1.
Qed.

Lemma sort_by_key_unique (l l' : list A) :
  NoDup (key <$> l) -> l' ≡ₚ l -> StronglySorted by_key l' -> l' = sort_by_key l.
Proof.
  intros Hnd Hp Hs. eapply (StronglySorted_unique_strong by_key); [|done| |].
  - intros x y Hx Hy Hxy Hyx. eapply NoDup_key_inj; [done| | |].
    + by rewrite <- Hp.
    + by apply elem_of_sort_by_key.
    + by apply (anti_symm String.le).
  - apply sort_by_key_sorted.
  - by rewrite sort_by_key_perm.
Qed.

Lemma sort_by_key_perm_eq (l l' : list A) :
  NoDup (key <$> l) -> l ≡ₚ l' -> sort_by_key l = sort_by_key l'.
Proof.
  intros Hnd Hp. apply sort_by_key_unique.
  - by rewrite <- Hp.
  - by rewrite sort_by_key_perm.
  - apply sort_by_key_sorted.
Qed.
End SortByKey.
#[export] Hint Resolve sort_by_key_sorted sort_by_key_perm : go.

(** ** Sums over lists and maps *)
Definition sum_list_Z (l : list Z) : Z := foldr Z.add 0%Z l.

Lemma sum_list_Z_cons (z : Z) (l : list Z) : sum_list_Z (z :: l) = (z + sum_list_Z l)%Z.
Proof. done. Qed.

Lemma sum_list_Z_app (l1 l2 : list Z) :
  sum_list_Z (l1 ++ l2) = (sum_list_Z l1 + sum_list_Z l2)%Z.
Proof. unfold sum_list_Z. induction l1; simpl; lia. Qed.

Lemma sum_list_Z_nonneg (l : list Z) :
  Forall (fun z => 0 <= z)%Z l -> (0 <= sum_list_Z l)%Z.
Proof. unfold sum_list_Z. induction 1; simpl; lia. Qed.

#[export] Instance sum_list_Z_perm : Proper ((≡ₚ) ==> (=)) sum_list_Z.
Proof. unfold sum_list_Z. induction 1; simpl; lia. Qed.

Lemma sum_list_Z_insert (l : list Z) (i : nat) (x y : Z) :
  l !! i = Some x -> sum_list_Z (<[i:=y]> l) = (sum_list_Z l - x + y)%Z.
Proof.
  revert i. unfold sum_list_Z. induction l as [|z l IH]; intros [|i] Hi; simpl in *;
    simplify_eq; [lia|]. rewrite (IH i) by done. lia.
Qed.

Lemma sum_list_Z_elem (l : list Z) (i : nat) (x : Z) :
  Forall (fun z => 0 <= z)%Z l -> l !! i = Some x -> (x <= sum_list_Z l)%Z.
Proof.
  intros Hl Hi. pose proof (sum_list_Z_insert l i x 0 Hi) as Hs.
  assert (0 <= sum_list_Z (<[i:=0%Z]> l))%Z; [|lia].
  apply sum_list_Z_nonneg. by apply Forall_insert.
Qed.

(** ** Lists updated in place *)
Lemma lookup_insert_cases {A} (l : list A) (k j : nat) (x y : A) :
  <[k := y]> l !! j = Some x -> (j = k /\ x = y) \/ (j <> k /\ l !! j = Some x).
Proof. intros [(-> & -> & _)|[? ?]]%list_lookup_insert_Some; auto. Qed.

Lemma lookup_insert_here {A} (l : list A) (k : nat) (x y : A) : l !! k = Some x -> <[k := y]> l !! k = Some y.
Proof. intros Hk. apply list_lookup_insert_eq. by eapply lookup_lt_Some. Qed.

Lemma last_insert {A} (l : list A) (i : nat) (x y z : A) :
  l !! i = Some x -> list.last l = Some z -> list.last (<[i := y]> l) = Some (if decide (i = pred (length l)) then y else z).
Proof.
  intros Hi Hl. rewrite list.last_lookup, length_insert in *. case_decide as E.
  - subst i. by apply (lookup_insert_here _ _ x).
  - by rewrite list_lookup_insert_ne.
Qed.

Lemma omap_insert {A B} (f : A -> option B) (l : list A) (k : nat) (c c' : A) :
  l !! k = Some c ->
  exists l', omap f l ≡ₚ option_list (f c) ++ l' /\ omap f (<[k := c']> l) ≡ₚ option_list (f c') ++ l'.
Proof.
  intros Hk. exists (omap f (take k l) ++ omap f (drop (S k) l)). split.
  - rewrite <- (take_drop_middle l k c Hk) at 1. rewrite omap_app. csimpl.
    destruct (f c); simpl; [solve_Permutation|done].
  - rewrite insert_take_drop by by eapply lookup_lt_Some. rewrite omap_app. csimpl.
    destruct (f c'); simpl; [solve_Permutation|done].
Qed.

Lemma sum_insert {A} (f : A -> Z) (l : list A) (k : nat) (x y : A) :
  l !! k = Some x -> sum_list_Z (f <$> <[k := y]> l) = (sum_list_Z (f <$> l) - f x + f y)%Z.
Proof.
  intros Hk. rewrite list_fmap_insert. apply sum_list_Z_insert. by rewrite list_lookup_fmap, Hk.
Qed.

Lemma sum_snoc {A} (f : A -> Z) (l : list A) (x : A) : sum_list_Z (f <$> l ++ [x]) = (sum_list_Z (f <$> l) + f x)%Z.
Proof. rewrite fmap_app, sum_list_Z_app. cbn. lia. Qed.

(** ** Invariants over runs

    A component is a transition system when it has a step relation; its runs
    are [rtc step] and an invariant that every step preserves holds throughout. *)
Lemma rtc_invariant {S : Type} (step : relation S) (Inv : S -> Prop) (s s' : S) :
  (forall x y, Inv x -> step x y -> Inv y) -> Inv s -> rtc step s s' -> Inv s'.
Proof. intros Hstep Hs Hr. revert Hs. induction Hr; eauto. Qed.
