(* ===== verification/GoFloat.v ===== *)
(** * Go's float64 and time values

    [float64] arithmetic is IEEE 754 binary64 with round-to-nearest-even, given
    by the Standard Library's executable specification ([SpecFloat], precision
    53, exponent bound 1024): no rounding is idealised and NaN, infinities and
    signed zeros behave as in Go.  A multiply-add is not fused.  Instants are
    nanoseconds since Go's zero [time.Time]; durations are int64 nanoseconds. *)

From Stdlib Require Import SpecFloat.
From S2P Require Import Prelude.

Abbreviation float64 := spec_float.

#[export] Instance float64_eq_dec : EqDecision float64.
Proof. solve_decision. Defined.

#[local] Open Scope Z_scope.

(** ** Arithmetic and comparison *)
Definition fadd : float64 -> float64 -> float64 := SFadd 53 1024.
Definition fsub : float64 -> float64 -> float64 := SFsub 53 1024.
Definition fmul : float64 -> float64 -> float64 := SFmul 53 1024.
Definition fdiv : float64 -> float64 -> float64 := SFdiv 53 1024.
Definition fabs : float64 -> float64 := SFabs.
Definition flt : float64 -> float64 -> bool := SFltb.
Definition fle : float64 -> float64 -> bool := SFleb.
Definition fzero : float64 := S754_zero false.

(** The conversion [float64(z)] of an integer. *)
Definition float_of_Z (z : Z) : float64 := binary_normalize 53 1024 z 0 false.

(** The truncation of a finite float towards zero; [None] for NaN and the
    infinities. *)
Definition float_trunc (x : float64) : option Z :=
  match x with
  | S754_zero _ => Some 0
  | S754_finite s m e =>
      let a := if 0 <=? e then Z.pos m * 2 ^ e else Z.pos m / 2 ^ (- e) in
      Some (if s then - a else a)
  | _ => None
  end.

(** [math.Ceil]. *)
Definition fceil (x : float64) : float64 :=
  match x with
  | S754_finite s m e =>
      if 0 <=? e then x
      else if s then
        let q := Z.pos m / 2 ^ (- e) in
        if q =? 0 then S754_zero true else float_of_Z (- q)
      else float_of_Z (- ((- Z.pos m) / 2 ^ (- e)))
  | _ => x
  end.

Notation "a <f b" := (flt a b) (at level 70) : go_scope.
Notation "a <=f b" := (fle a b) (at level 70) : go_scope.
Notation "a +f b" := (fadd a b) (at level 50, left associativity) : go_scope.
Notation "a -f b" := (fsub a b) (at level 50, left associativity) : go_scope.
Notation "a *f b" := (fmul a b) (at level 40, left associativity) : go_scope.
Notation "a /f b" := (fdiv a b) (at level 40, left associativity) : go_scope.
#[local] Open Scope go_scope.

(** The constant [1e-12] of the routing code. *)
Definition f_1em12 : float64 := S754_finite false 4951760157141521 (-92).
Definition f_1e9 : float64 := float_of_Z 1000000000.

(** ** Instants and durations *)
Abbreviation Time := Z (only parsing).
Abbreviation Duration := Z (only parsing).

Definition Millisecond : Duration := 1000000.
Definition Second : Duration := 1000000000.

Definition is_zero_time (t : Time) : bool := t =? 0.

(** [t.Sub(u)] saturates at the bounds of a Duration. *)
Definition time_sub (t u : Time) : Duration :=
  Z.max (- 2 ^ 63) (Z.min (2 ^ 63 - 1) (t - u)).

(** [d.Seconds()]: the whole seconds and the remainder converted apart. *)
Definition dur_seconds (d : Duration) : float64 :=
  float_of_Z (Z.quot d Second) +f float_of_Z (Z.rem d Second) /f f_1e9.

(** ** The order on floats that are not NaN *)
Definition is_nan (x : float64) : bool :=
  match x with S754_nan => true | _ => false end.

(** A lexicographic key whose order is the order of the float comparison. *)
Definition float_key (x : float64) : Z * Z * Z :=
  match x with
  | S754_infinity true => (-2, 0, 0)
  | S754_finite true m e => (-1, - e, - Z.pos m)
  | S754_zero _ | S754_nan => (0, 0, 0)
  | S754_finite false m e => (1, e, Z.pos m)
  | S754_infinity false => (2, 0, 0)
  end.

Definition key_lt (a b : Z * Z * Z) : Prop :=
  a.1.1 < b.1.1 \/
  (a.1.1 = b.1.1 /\ (a.1.2 < b.1.2 \/ (a.1.2 = b.1.2 /\ a.2 < b.2))).

Ltac solve_float_cmp :=
  simpl; unfold key_lt; simpl; try (split; intros; try done; lia);
  repeat match goal with
  | |- context [(?a ?= ?b)%Z] => destruct (Z.compare_spec a b)
  | |- context [Pos.compare_cont Eq ?a ?b] =>
      change (Pos.compare_cont Eq a b) with (Pos.compare a b);
      destruct (Pos.compare_spec a b)
  end; simpl; split; intros; try done; lia.

Lemma flt_key (x y : float64) :
  flt x y = true <-> is_nan x = false /\ is_nan y = false /\ key_lt (float_key x) (float_key y).
Proof.
  unfold flt, SFltb.
  destruct x as [[]|[]| |[] mx ex], y as [[]|[]| |[] my ey]; solve_float_cmp.
Qed.

Lemma fle_key (x y : float64) :
  fle x y = true <->
  is_nan x = false /\ is_nan y = false /\ ~ key_lt (float_key y) (float_key x).
Proof.
  unfold fle, SFleb.
  destruct x as [[]|[]| |[] mx ex], y as [[]|[]| |[] my ey]; solve_float_cmp.
Qed.

Ltac float_order :=
  repeat match goal with
  | H : flt _ _ = true |- _ => apply flt_key in H
  | H : fle _ _ = true |- _ => apply fle_key in H
  | H : flt _ _ = false |- _ => apply not_true_iff_false in H; rewrite flt_key in H
  | H : fle _ _ = false |- _ => apply not_true_iff_false in H; rewrite fle_key in H
  | |- flt _ _ = true => apply flt_key
  | |- fle _ _ = true => apply fle_key
  | |- flt _ _ = false => apply not_true_iff_false; rewrite flt_key
  | |- fle _ _ = false => apply not_true_iff_false; rewrite fle_key
  end; unfold key_lt in *; intuition (try congruence; try lia).

Lemma flt_irrefl (x : float64) : flt x x = false.
Proof. float_order. Qed.

Lemma flt_trans (x y z : float64) : flt x y = true -> flt y z = true -> flt x z = true.
Proof. intros. float_order. Qed.

Lemma fle_trans (x y z : float64) : fle x y = true -> fle y z = true -> fle x z = true.
Proof. intros. float_order. Qed.

Lemma flt_fle (x y : float64) : flt x y = true -> fle x y = true.
Proof. intros. float_order. Qed.

Lemma flt_fle_trans (x y z : float64) : flt x y = true -> fle y z = true -> flt x z = true.
Proof. intros. float_order. Qed.

Lemma fle_refl (x : float64) : is_nan x = false -> fle x x = true.
Proof. intros. float_order. Qed.

(** For numbers the two comparisons are complementary; for NaN both fail. *)
Lemma flt_negb_fle (x y : float64) :
  is_nan x = false -> is_nan y = false -> flt x y = negb (fle y x).
Proof.
  intros Hx Hy. apply eq_true_iff_eq. rewrite negb_true_iff.
  split; intros; float_order.
Qed.

Lemma flt_nan_l (x : float64) : flt S754_nan x = false.
Proof. by destruct x. Qed.

#[export] Hint Resolve flt_irrefl flt_trans fle_trans flt_fle fle_refl flt_fle_trans : go.

(** A positive number, as the code's guards [v <= 0] and [NaN] leave it. *)
Definition positive_float (x : float64) : Prop := flt fzero x = true.

(** The guard [v <= 0] rejects exactly the numbers that are not positive: it
    lets NaN through. *)
Lemma fle_zero_guard (x : float64) :
  fle x fzero = false <-> is_nan x = true \/ positive_float x.
Proof.
  unfold positive_float. destruct (is_nan x) eqn:E.
  - destruct x; try done. simpl. naive_solver.
  - rewrite (flt_negb_fle fzero x) by done.
    destruct (fle x fzero); simpl; naive_solver.
Qed.

(** ** The sign of results *)

