(* ===== verification/GoString.v ===== *)
(** * Go strings: bytes, UTF-8, white space and hexadecimal

    A Go string is a sequence of bytes ([Stdlib] strings, compared byte-wise).
    [for range] and package [strings] decode UTF-8: [runes] returns the code
    points with the bytes each one covers, an invalid byte being U+FFFD of width
    one.  [Fields], [Join] and [EncodeToString] are the functions of the Go
    standard library of those names. *)

From Stdlib Require Import Ascii String.
From stdpp Require Import pretty.
From S2P Require Import Prelude.

#[local] Open Scope Z_scope.

Abbreviation bytes := (list ascii).
Abbreviation to_bytes := String.list_ascii_of_string.
Abbreviation of_bytes := String.string_of_list_ascii.

#[global] Arguments String.append : simpl nomatch.

Definition byte_val (a : ascii) : Z := Z.of_N (N_of_ascii a).
Definition byte_of (z : Z) : ascii := ascii_of_N (Z.to_N (z mod 256)).

Definition len (s : string) : Z := Z.of_nat (String.length s).

(** ** UTF-8 decoding *)
Definition RuneError : Z := 65533.

Definition in_range (lo hi z : Z) : bool := (lo <=? z) && (z <=? hi).
#[global] Arguments in_range : simpl never.

Lemma in_range_true (lo hi z : Z) : in_range lo hi z = true <-> lo <= z <= hi.
Proof. unfold in_range. rewrite andb_true_iff, !Z.leb_le. done. Qed.

Definition decode2 (b0 b1 : ascii) : option Z :=
  let v0 := byte_val b0 in let v1 := byte_val b1 in
  if in_range 194 223 v0 && in_range 128 191 v1
  then Some (Z.shiftl (Z.land v0 31) 6 + Z.land v1 63) else None.

Definition decode3 (b0 b1 b2 : ascii) : option Z :=
  let v0 := byte_val b0 in let v1 := byte_val b1 in let v2 := byte_val b2 in
  let lo := if v0 =? 224 then 160 else 128 in
  let hi := if v0 =? 237 then 159 else 191 in
  if in_range 224 239 v0 && in_range lo hi v1 && in_range 128 191 v2
  then Some (Z.shiftl (Z.land v0 15) 12 + Z.shiftl (Z.land v1 63) 6 + Z.land v2 63)
  else None.

Definition decode4 (b0 b1 b2 b3 : ascii) : option Z :=
  let v0 := byte_val b0 in let v1 := byte_val b1 in
  let v2 := byte_val b2 in let v3 := byte_val b3 in
  let lo := if v0 =? 240 then 144 else 128 in
  let hi := if v0 =? 244 then 143 else 191 in
  if in_range 240 244 v0 && in_range lo hi v1 && in_range 128 191 v2 && in_range 128 191 v3
  then Some (Z.shiftl (Z.land v0 7) 18 + Z.shiftl (Z.land v1 63) 12
             + Z.shiftl (Z.land v2 63) 6 + Z.land v3 63)
  else None.

(** The code point at the head of [b0 :: l1] and the bytes after it. *)
Definition decode_rune (b0 : ascii) (l1 : bytes) : Z * bytes :=
  if byte_val b0 <? 128 then (byte_val b0, [b0])
  else match l1 with
  | b1 :: l2 =>
      match decode2 b0 b1 with
      | Some r => (r, [b0; b1])
      | None =>
          match l2 with
          | b2 :: l3 =>
              match decode3 b0 b1 b2 with
              | Some r => (r, [b0; b1; b2])
              | None =>
                  match l3 with
                  | b3 :: _ =>
                      match decode4 b0 b1 b2 b3 with
                      | Some r => (r, [b0; b1; b2; b3])
                      | None => (RuneError, [b0])
                      end
                  | [] => (RuneError, [b0])
                  end
              end
          | [] => (RuneError, [b0])
          end
      end
  | [] => (RuneError, [b0])
  end.

Fixpoint runes_fuel (fuel : nat) (l : bytes) : list (Z * bytes) :=
  match fuel, l with
  | S fuel, b0 :: l1 =>
      let seg := decode_rune b0 l1 in
      seg :: runes_fuel fuel (drop (length seg.2) l)
  | _, _ => []
  end.

(** Every step consumes at least one byte, so the length is enough fuel. *)
Definition runes (l : bytes) : list (Z * bytes) := runes_fuel (length l) l.

#[global] Arguments runes : simpl never.

(** [unicode.IsSpace] and [unicode.IsControl]. *)
Definition IsSpace (r : Z) : bool :=
  in_range 9 13 r || (r =? 32) || (r =? 133) || (r =? 160) || (r =? 5760)
  || in_range 8192 8202 r || in_range 8232 8233 r || (r =? 8239) || (r =? 8287)
  || (r =? 12288).

Definition IsControl (r : Z) : bool := in_range 0 31 r || in_range 127 159 r.

(** ** [strings.Fields] *)
Definition flush (cur : bytes) : list string :=
  match cur with [] => [] | _ => [of_bytes cur] end.

Fixpoint fields_go (cur : bytes) (rs : list (Z * bytes)) : list string :=
  match rs with
  | [] => flush cur
  | (r, seg) :: rs =>
      if IsSpace r then flush cur ++ fields_go [] rs
      else fields_go (cur ++ seg) rs
  end.

Definition Fields (s : string) : list string := fields_go [] (runes (to_bytes s)).

(** ** [strings.Join], hexadecimal and decimal *)
Fixpoint Join (l : list string) (sep : string) : string :=
  match l with
  | [] => ""
  | [s] => s
  | s :: l => s +:+ sep +:+ Join l sep
  end.

Definition hex_digit (z : Z) : ascii :=
  byte_of (if z <? 10 then 48 + z else 87 + z).

Definition EncodeToString (bs : list Z) : string :=
  of_bytes (mjoin ((fun b => [hex_digit (b / 16); hex_digit (b mod 16)]) <$> bs)).

Definition itoa (z : Z) : string := pretty z.

(** ** The decoder consumes its input *)
Lemma decode_rune_seg (b0 : ascii) (l1 : bytes) :
  exists l2, b0 :: l1 = (decode_rune b0 l1).2 ++ l2
    /\ (0 < length (decode_rune b0 l1).2)%nat.
Proof.
  unfold decode_rune.
  repeat case_match; simpl; eexists; (split; first reflexivity); simpl; lia.
Qed.

Lemma runes_fuel_enough (n m : nat) (l : bytes) :
  (length l <= n)%nat -> (length l <= m)%nat -> runes_fuel n l = runes_fuel m l.
Proof.
  revert m l. induction n as [|n IH]; intros m [|b0 l1] Hn Hm; [by destruct m| |by destruct m|].
  { simpl in *. lia. }
  destruct m as [|m]; [simpl in *; lia|].
  destruct (decode_rune_seg b0 l1) as (l2 & Hl & Hpos). cbn [runes_fuel].
  f_equal. apply IH; rewrite length_drop; simpl in *; lia.
Qed.

Lemma runes_cons (b0 : ascii) (l1 l2 : bytes) :
  b0 :: l1 = (decode_rune b0 l1).2 ++ l2 ->
  runes (b0 :: l1) = decode_rune b0 l1 :: runes l2.
Proof.
  intros Hl. unfold runes. cbn [length runes_fuel]. f_equal.
  rewrite Hl, drop_app_length.
  destruct (decode_rune_seg b0 l1) as (l2' & _ & Hpos).
  apply (f_equal length) in Hl. rewrite length_app in Hl. simpl in Hl.
  apply runes_fuel_enough; lia.
Qed.

(** The segments are a partition of the bytes. *)
Lemma runes_concat (l : bytes) : mjoin (runes l).*2 = l.
Proof.
  induction l as [l IH] using (induction_ltof1 _ length); unfold ltof in IH.
  destruct l as [|b0 l1]; [done|].
  destruct (decode_rune_seg b0 l1) as (l2 & Hl & Hpos).
  rewrite (runes_cons _ _ l2) by done. cbn [fmap list_fmap mjoin list_join].
  change (list_fmap _ _ snd) with (fmap (M:=list) (@snd Z bytes)).
  rewrite IH, <- Hl; [done|].
  apply (f_equal length) in Hl. rewrite length_app in Hl. simpl in *. lia.
Qed.

(** ** An ASCII byte is a code point wherever it occurs *)
Definition is_ascii (a : ascii) : bool := byte_val a <? 128.

Lemma decode2_ascii (b0 a : ascii) : is_ascii a = true -> decode2 b0 a = None.
Proof.
  unfold is_ascii, decode2, in_range. intros ?; bool_facts.
  case_if; [|done]. bool_facts. lia.
Qed.

Lemma decode3_ascii (b0 a b : ascii) :
  is_ascii a = true -> decode3 b0 a b = None /\ decode3 b0 b a = None.
Proof.
  unfold is_ascii, decode3, in_range. intros ?; bool_facts.
  split; repeat case_if; try done; bool_facts; lia.
Qed.

Lemma decode4_ascii (b0 a b c : ascii) :
  is_ascii a = true ->
  decode4 b0 a b c = None /\ decode4 b0 b a c = None /\ decode4 b0 b c a = None.
Proof.
  unfold is_ascii, decode4, in_range. intros ?; bool_facts.
  split_and!; repeat case_if; try done; bool_facts; lia.
Qed.

Lemma decode_rune_app_ascii (b0 a : ascii) (l1 l2 : bytes) :
  is_ascii a = true -> decode_rune b0 (l1 ++ a :: l2) = decode_rune b0 l1.
Proof.
  intros Ha. unfold decode_rune. case_if; [done|].
  destruct l1 as [|b1 [|b2 [|b3 l1]]]; simpl; [| | |done].
  - rewrite decode2_ascii by done. destruct l2 as [|c [|d l2]]; [done| |];
      rewrite (proj1 (decode3_ascii b0 a c Ha)); [done|].
    by rewrite (proj1 (decode4_ascii b0 a c d Ha)).
  - destruct (decode2 b0 b1); [done|].
    rewrite (proj2 (decode3_ascii b0 a b1 Ha)). destruct l2 as [|c l2]; [done|].
    by rewrite (proj1 (proj2 (decode4_ascii b0 a b1 c Ha))).
  - destruct (decode2 b0 b1); [done|]. destruct (decode3 b0 b1 b2); [done|].
    by rewrite (proj2 (proj2 (decode4_ascii b0 a b1 b2 Ha))).
Qed.

Lemma runes_app_ascii (a : ascii) (l1 l2 : bytes) :
  is_ascii a = true ->
  runes (l1 ++ a :: l2) = runes l1 ++ (byte_val a, [a]) :: runes l2.
Proof.
  intros Ha. induction l1 as [l1 IH] using (induction_ltof1 _ length).
  unfold ltof in IH. destruct l1 as [|b0 l1]; cbn [app].
  - assert (decode_rune a l2 = (byte_val a, [a])) as Hd.
    { unfold decode_rune. by unfold is_ascii in Ha; rewrite Ha. }
    rewrite (runes_cons a l2 l2) by (by rewrite Hd). by rewrite Hd.
  - destruct (decode_rune_seg b0 l1) as (l3 & Hl & Hpos).
    rewrite (runes_cons b0 (l1 ++ a :: l2) (l3 ++ a :: l2)).
    2: { rewrite decode_rune_app_ascii by done. by rewrite app_comm_cons, Hl, <- app_assoc. }
    rewrite decode_rune_app_ascii, (runes_cons b0 l1 l3) by done. simpl. f_equal.
    rewrite IH; [done|].
    apply (f_equal length) in Hl. rewrite length_app in Hl. simpl in *. lia.
Qed.

(** ** Fields around an ASCII space *)
Lemma fields_go_app_space (cur : bytes) (r : Z) (seg : bytes) (rs1 rs2 : list (Z * bytes)) :
  IsSpace r = true ->
  fields_go cur (rs1 ++ (r, seg) :: rs2) = fields_go cur rs1 ++ fields_go [] rs2.
Proof.
  intros Hr. revert cur. induction rs1 as [|[r1 seg1] rs1 IH]; intros cur; simpl.
  - by rewrite Hr.
  - case_if; rewrite IH; [|done]. by rewrite (assoc_L (++)).
Qed.

Lemma string_app_assoc (s1 s2 s3 : string) : s1 +:+ (s2 +:+ s3) = (s1 +:+ s2) +:+ s3.
Proof. induction s1; simpl; [done|]. by f_equal. Qed.

Lemma string_app_nil_r (s : string) : s +:+ "" = s.
Proof. induction s; simpl; [done|]. by f_equal. Qed.

Lemma to_bytes_app (s1 s2 : string) : to_bytes (s1 +:+ s2) = to_bytes s1 ++ to_bytes s2.
Proof. induction s1; simpl; [done|]. by rewrite <- IHs1. Qed.

Lemma Fields_app_space (s1 s2 : string) (a : ascii) :
  is_ascii a = true -> IsSpace (byte_val a) = true ->
  Fields (s1 +:+ String a s2) = Fields s1 ++ Fields s2.
Proof.
  intros Ha Hs. unfold Fields. rewrite to_bytes_app. simpl.
  rewrite runes_app_ascii by done. by apply fields_go_app_space.
Qed.

(** ** Splitting at a separator byte *)
Fixpoint no_char (c : ascii) (s : string) : bool :=
  match s with
  | EmptyString => true
  | String a s => negb (Ascii.eqb a c) && no_char c s
  end.

Lemma char_split (c : ascii) (s1 s2 t1 t2 : string) :
  no_char c s1 = true -> no_char c s2 = true ->
  s1 +:+ String c t1 = s2 +:+ String c t2 -> s1 = s2 /\ t1 = t2.
Proof.
  revert s2. induction s1 as [|a s1 IH]; intros [|b s2] H1 H2 Heq;
    simpl in *; bool_facts; simplify_eq/=; rewrite ?Ascii.eqb_refl in *; try done.
  destruct (IH s2) as [-> ->]; done.
Qed.

Lemma char_no_split (c : ascii) (s1 s2 t2 : string) :
  no_char c s1 = true -> s1 = s2 +:+ String c t2 -> False.
Proof.
  revert s2. induction s1 as [|a s1 IH]; intros [|b s2] H1 Heq;
    simpl in *; bool_facts; simplify_eq/=; rewrite ?Ascii.eqb_refl in *; try done.
  by eapply IH.
Qed.

Lemma Join_inj (c : ascii) (l1 l2 : list string) :
  l1 <> [] -> l2 <> [] ->
  Forall (fun s => no_char c s = true) l1 -> Forall (fun s => no_char c s = true) l2 ->
  Join l1 (String c "") = Join l2 (String c "") -> l1 = l2.
Proof.
  intros Hn1 Hn2 H1. revert l2 Hn2. induction H1 as [|s1 l1 Hs1 Hl1 IH]; [done|].
  intros [|s2 l2] Hn2 H2 Heq; [done|]. inversion H2 as [|? ? Hs2 Hl2]; subst.
  destruct l1 as [|s1' l1], l2 as [|s2' l2]; cbn [Join] in Heq;
    repeat match type of Heq with context [String c "" +:+ ?x] =>
      change (String c "" +:+ x) with (String c x) in Heq end.
  - by rewrite Heq.
  - exfalso. exact (char_no_split c _ _ _ Hs1 Heq).
  - exfalso. exact (char_no_split c _ _ _ Hs2 (eq_sym Heq)).
  - apply char_split in Heq as [-> Heq]; [|done..]. f_equal. by apply IH.
Qed.

(** ** The strict byte-wise order [<] *)
Lemma string_ltb_le (a b : string) : String.ltb a b = true <-> String.le a b /\ a <> b.
Proof.
  unfold String.le, String.ltb, String.leb.
  destruct (String.compare a b) eqn:E; split; try done.
  - apply String.compare_eq_iff in E. by intros [_ ?].
  - intros _. split; [done|]. intros ->.
    pose proof (String.compare_antisym b b) as Ha. rewrite E in Ha. done.
  - by intros [? _].
Qed.

Lemma string_ltb_irrefl (a : string) : String.ltb a a = false.
Proof. apply not_true_iff_false. rewrite string_ltb_le. tauto. Qed.

Lemma string_ltb_trans (a b c : string) :
  String.ltb a b = true -> String.ltb b c = true -> String.ltb a c = true.
Proof.
  rewrite !string_ltb_le. intros [H1 Hn1] [H2 Hn2]. split; [by etrans|].
  intros ->. apply Hn1. by apply (anti_symm String.le).
Qed.

Lemma string_ltb_total (a b : string) :
  a <> b -> String.ltb a b = true \/ String.ltb b a = true.
Proof. intros Hn. rewrite !string_ltb_le. destruct (total String.le a b); naive_solver. Qed.

#[export] Hint Resolve string_ltb_trans : go.

(** ** Text made of ASCII bytes *)
Lemma runes_ascii (l : bytes) :
  Forall (fun a => is_ascii a = true) l -> runes l = (fun a => (byte_val a, [a])) <$> l.
Proof.
  induction 1 as [|a l Ha _ IH]; [done|].
  rewrite (runes_app_ascii a [] l Ha : runes (a :: l) = _). simpl. by rewrite IH.
Qed.

Lemma to_bytes_substring (s : string) (n m : nat) :
  to_bytes (String.substring n m s) = take m (drop n (to_bytes s)).
Proof.
  revert n m. induction s as [|a s IH]; intros n m; [by destruct n, m|].
  destruct n as [|n]; simpl; [|apply IH]. destruct m as [|m]; [done|]. simpl.
  by rewrite IH, drop_0.
Qed.

Lemma length_to_bytes (s : string) : length (to_bytes s) = String.length s.
Proof. induction s; simpl; congruence. Qed.

(** The digits of [EncodeToString]. *)
Definition is_hex (a : ascii) : bool := in_range 48 57 (byte_val a) || in_range 97 102 (byte_val a).

Lemma byte_val_of (z : Z) : byte_val (byte_of z) = z mod 256.
Proof.
  unfold byte_val, byte_of. pose proof (Z.mod_pos_bound z 256 ltac:(lia)).
  rewrite N_ascii_embedding; [|apply N2Z.inj_lt; rewrite Z2N.id; simpl; lia].
  rewrite Z2N.id; lia.
Qed.

Lemma hex_digit_hex (z : Z) : 0 <= z < 16 -> is_hex (hex_digit z) = true.
Proof.
  intros Hz. unfold is_hex, hex_digit. rewrite byte_val_of, orb_true_iff, !in_range_true.
  destruct (z <? 10) eqn:E; bool_facts; rewrite Z.mod_small by lia; lia.
Qed.

Lemma EncodeToString_hex (bs : list Z) :
  Forall (fun b => 0 <= b < 256) bs ->
  Forall (fun a => is_hex a = true) (to_bytes (EncodeToString bs)).
Proof.
  unfold EncodeToString. rewrite String.list_ascii_of_string_of_list_ascii.
  induction 1 as [|b bs Hb _ IH]; csimpl; [constructor|].
  pose proof (Z.div_mod b 16 ltac:(lia)). pose proof (Z.mod_pos_bound b 16 ltac:(lia)).
  repeat constructor; [apply hex_digit_hex; lia..|exact IH].
Qed.

Lemma length_EncodeToString (bs : list Z) :
  String.length (EncodeToString bs) = (2 * length bs)%nat.
Proof.
  unfold EncodeToString. rewrite <- length_to_bytes, String.list_ascii_of_string_of_list_ascii.
  induction bs as [|b bs IH]; csimpl; [done|]. csimpl in IH. rewrite IH. lia.
Qed.

(** ** Decimal text *)
Definition digit_value (c : ascii) : option Z :=
  let v := byte_val c in if in_range 48 57 v then Some (v - 48) else None.

Fixpoint digits_value (acc : Z) (s : string) : option Z :=
  match s with
  | EmptyString => Some acc
  | String c s => d ← digit_value c; digits_value (acc * 10 + d) s
  end.

Definition unsigned_value (s : string) : option Z :=
  match s with EmptyString => None | _ => digits_value 0 s end.

(** [strconv.ParseInt(s, 10, 64)]: an optional sign and decimal digits, within
    the range of an int64. *)
Definition ParseInt (s : string) : option Z :=
  z ← match s with
      | String "+"%char s => unsigned_value s
      | String "-"%char s => Z.opp <$> unsigned_value s
      | _ => unsigned_value s
      end;
  if in_range (- 2 ^ 63) (2 ^ 63 - 1) z then Some z else None.

Lemma digit_value_char (n : N) :
  (n < 10)%N -> digit_value (pretty_N_char n) = Some (Z.of_N n).
Proof.
  intros Hn. assert (exists m, (m < 10)%nat /\ n = N.of_nat m) as (m & Hm & ->).
  { exists (N.to_nat n). lia. }
  do 10 (destruct m as [|m]; [reflexivity|]). lia.
Qed.

Lemma digits_value_pretty (n : N) (s : string) :
  digits_value 0 (pretty_N_go n s) = digits_value (Z.of_N n) s.
Proof.
  revert s. induction n as [n IH] using (well_founded_induction N.lt_wf_0). intros s.
  assert (n = 0 \/ 0 < n)%N as [->|Hn] by lia; [by rewrite pretty_N_go_0|].
  rewrite pretty_N_go_step by done. rewrite IH by (apply N.div_lt; lia). cbn [digits_value].
  rewrite digit_value_char by (apply N.mod_lt; lia). simpl. f_equal.
  rewrite N2Z.inj_mod, N2Z.inj_div. pose proof (Z.div_mod (Z.of_N n) 10). lia.
Qed.

Lemma itoa_pos (p : positive) : itoa (Z.pos p) = pretty_N_go (N.pos p) "".
Proof. reflexivity. Qed.

Lemma itoa_digits (z : Z) : 0 <= z -> digits_value 0 (itoa z) = Some z /\
  exists c s, itoa z = String c s /\ is_Some (digit_value c).
Proof.
  intros Hz. assert (digits_value 0 (itoa z) = Some z) as Hd.
  { destruct z as [|p|p]; [reflexivity| |lia]. rewrite itoa_pos. by rewrite digits_value_pretty. }
  split; [done|]. destruct (itoa z) as [|c s] eqn:E.
  - exfalso. destruct z as [|p|p]; [done| |lia]. simpl in Hd. done.
  - exists c, s. split; [done|]. cbn [digits_value] in Hd. destruct (digit_value c); [eauto|done].
Qed.

(** Reading back what was written. *)
Lemma ParseInt_itoa (z : Z) : 0 <= z < 2 ^ 63 -> ParseInt (itoa z) = Some z.
Proof.
  intros Hz. destruct (itoa_digits z) as (Hd & c & s & E & [v Hc]); [lia|]. unfold ParseInt.
  assert (match itoa z with
      | String "+"%char s => unsigned_value s
      | String "-"%char s => Z.opp <$> unsigned_value s
      | _ => unsigned_value (itoa z) end = Some z) as Hm.
  { rewrite E. destruct c as [[] [] [] [] [] [] [] []]; try done; by rewrite <- E; unfold unsigned_value; rewrite E, <- E. }
  rewrite Hm. simpl. rewrite (proj2 (in_range_true _ _ _)) by lia. done.
Qed.

(** ** The shape of a decoded segment *)
Lemma land_ones_sub (v m k q : Z) :
  0 <= k -> m = Z.ones k -> q * 2 ^ k <= v < (q + 1) * 2 ^ k -> Z.land v m = v - q * 2 ^ k.
Proof.
  intros Hk -> Hv. rewrite Z.land_ones by done. symmetry. apply (Z.mod_unique _ _ q); lia.
Qed.

Ltac utf8_arith :=
  rewrite ?Z.shiftl_mul_pow2 by lia;
  rewrite ?(land_ones_sub _ 63 6 2), ?(land_ones_sub _ 31 5 6), ?(land_ones_sub _ 15 4 14),
    ?(land_ones_sub _ 7 3 30) by (done || lia).

Lemma decode2_shape (b0 b1 : ascii) (r : Z) :
  decode2 b0 b1 = Some r -> 128 <= r /\ Forall (fun a => 128 <= byte_val a) [b0; b1].
Proof.
  unfold decode2. destruct (_ && _) eqn:E; [|done]. intros [= <-].
  rewrite !andb_true_iff, !in_range_true in E. split; [utf8_arith; lia|repeat constructor; lia].
Qed.

Lemma decode3_shape (b0 b1 b2 : ascii) (r : Z) :
  decode3 b0 b1 b2 = Some r -> 128 <= r /\ Forall (fun a => 128 <= byte_val a) [b0; b1; b2].
Proof.
  unfold decode3. destruct (_ && _) eqn:E; [|done]. intros [= <-].
  rewrite !andb_true_iff, !in_range_true in E.
  destruct (byte_val b0 =? 224) eqn:E0, (byte_val b0 =? 237) eqn:E1; bool_facts;
    (split; [utf8_arith; lia|repeat constructor; lia]).
Qed.

Lemma decode4_shape (b0 b1 b2 b3 : ascii) (r : Z) :
  decode4 b0 b1 b2 b3 = Some r ->
  128 <= r /\ Forall (fun a => 128 <= byte_val a) [b0; b1; b2; b3].
Proof.
  unfold decode4. destruct (_ && _) eqn:E; [|done]. intros [= <-].
  rewrite !andb_true_iff, !in_range_true in E.
  destruct (byte_val b0 =? 240) eqn:E0, (byte_val b0 =? 244) eqn:E1; bool_facts;
    (split; [utf8_arith; lia|repeat constructor; lia]).
Qed.

(** A segment is one ASCII byte that is its own code point, or bytes from 0x80 on
    of a code point from 0x80 on. *)
Definition segment_ok (rs : Z * bytes) : Prop :=
  (exists a, rs = (byte_val a, [a]) /\ byte_val a < 128) \/
  (128 <= rs.1 /\ Forall (fun a => 128 <= byte_val a) rs.2).

Lemma decode_rune_shape (b0 : ascii) (l : bytes) : segment_ok (decode_rune b0 l).
Proof.
  unfold segment_ok, decode_rune. destruct (byte_val b0 <? 128) eqn:E; bool_facts; [left; eauto|right].
  assert (128 <= RuneError /\ Forall (fun a => 128 <= byte_val a) [b0]) as Hbad
    by (split; [done|by repeat constructor]).
  repeat case_match; try exact Hbad;
    first [by eapply decode2_shape|by eapply decode3_shape|by eapply decode4_shape].
Qed.

Lemma runes_shape (l : bytes) : Forall segment_ok (runes l).
Proof.
  unfold runes. generalize (length l) as n. intros n. revert l.
  induction n as [|n IH]; intros [|b0 l]; try constructor; [apply decode_rune_shape|apply IH].
Qed.
