(* ===== verification/Duration.v ===== *)
(** * Durations in text: [time.ParseDuration] of the Go standard library

    A sign, then one or more decimal numbers, each with an optional fraction and
    a unit.  The accumulators are the library's unsigned 64-bit integers. *)

From Stdlib Require Import Ascii String.
From S2P Require Import Prelude GoFloat GoString.

#[local] Open Scope Z_scope.
#[local] Open Scope go_scope.

Inductive duration_error := InvalidDuration | MissingUnit | UnknownUnit (u : string).

Definition is_digit (c : ascii) : bool := in_range 48 57 (byte_val c).
Definition is_dot (c : ascii) : bool := byte_val c =? 46.

(** The digits at the head of [s]; [None] is an overflow. *)
Fixpoint leadingInt (x : Z) (s : bytes) : option (Z * bytes) :=
  match s with
  | c :: s' =>
      if is_digit c then
        if 2 ^ 63 / 10 <? x then None
        else
          let x := x * 10 + (byte_val c - 48) in
          if 2 ^ 63 <? x then None else leadingInt x s'
      else Some (x, s)
  | [] => Some (x, [])
  end.

(** The digits of a fraction, and ten to the number of those that count. *)
Fixpoint leadingFraction (x : Z) (scale : float64) (overflow : bool) (s : bytes) : Z * float64 * bytes :=
  match s with
  | c :: s' =>
      if is_digit c then
        if overflow then leadingFraction x scale true s'
        else if (2 ^ 63 - 1) / 10 <? x then leadingFraction x scale true s'
        else
          let y := x * 10 + (byte_val c - 48) in
          if 2 ^ 63 <? y then leadingFraction x scale true s'
          else leadingFraction y (scale *f float_of_Z 10) false s'
      else (x, scale, s)
  | [] => (x, scale, [])
  end.

Fixpoint unit_text (s : bytes) : bytes * bytes :=
  match s with
  | c :: s' => if is_dot c || is_digit c then ([], s) else let '(u, r) := unit_text s' in (c :: u, r)
  | [] => ([], [])
  end.

Definition Microsecond : Duration := 1000.
Definition Minute : Duration := 60 * Second.
Definition Hour : Duration := 60 * Minute.

(** [unitMap]; the two spellings of the micro sign are U+00B5 and U+03BC. *)
Definition units : list (string * Z) :=
  [("ns", 1); ("us", Microsecond); (of_bytes [byte_of 194; byte_of 181; byte_of 115], Microsecond);
   (of_bytes [byte_of 206; byte_of 188; byte_of 115], Microsecond); ("ms", Millisecond);
   ("s", Second); ("m", Minute); ("h", Hour)].

Definition unit_value (u : string) : option Z := snd <$> (snd <$> list_find (fun e => e.1 = u) units).

(** [uint64(float64(f) * (float64(unit) / scale))]. *)
Definition fraction_value (f : Z) (scale : float64) (unit : Z) : Z :=
  default 0 (float_trunc (float_of_Z f *f (float_of_Z unit /f scale))).

(** The fraction after the whole part, and whether it has digits. *)
Definition parse_fraction (s1 : bytes) : Z * float64 * bytes * bool :=
  match s1 with
  | d :: s1' =>
      if is_dot d then
        let '(f, scale, s2) := leadingFraction 0 (float_of_Z 1) false s1' in
        (f, scale, s2, negb (length s1' =? length s2)%nat)
      else (0, float_of_Z 1, s1, false)
  | [] => (0, float_of_Z 1, s1, false)
  end.

(** One number with its unit. *)
Definition parse_term (s : bytes) : result duration_error (Z * bytes) :=
  match s with
  | [] => Err InvalidDuration
  | c :: _ =>
      _ ← reject_if (negb (is_dot c || is_digit c)) InvalidDuration;
      match leadingInt 0 s with
      | None => Err InvalidDuration
      | Some (v, s1) =>
          let pre := negb (length s =? length s1)%nat in
          let '(f, scale, s2, post) := parse_fraction s1 in
          _ ← reject_if (negb pre && negb post) InvalidDuration;
          let '(u, rest) := unit_text s2 in
          _ ← reject_if (length u =? 0)%nat MissingUnit;
          match unit_value (of_bytes u) with
          | None => Err (UnknownUnit (of_bytes u))
          | Some unit =>
              _ ← reject_if (2 ^ 63 / unit <? v) InvalidDuration;
              let v := v * unit in
              let v' := if 0 <? f then v +u64 fraction_value f scale unit else v in
              _ ← reject_if ((0 <? f) && (2 ^ 63 <? v')) InvalidDuration;
              Ok (v', rest)
          end
      end
  end.

(** The numbers up to the end of the text; a number takes at least one byte, so
    the length is enough fuel. *)
Fixpoint parse_terms (fuel : nat) (d : Z) (s : bytes) : result duration_error Z :=
  match s, fuel with
  | [], _ => Ok d
  | _, O => Err InvalidDuration
  | _, S fuel =>
      t ← parse_term s;
      let d := d +u64 t.1 in
      _ ← reject_if (2 ^ 63 <? d) InvalidDuration;
      parse_terms fuel d t.2
  end.

Definition parse_sign (s : bytes) : bool * bytes :=
  match s with
  | c :: s' => if (byte_val c =? 45) || (byte_val c =? 43) then (byte_val c =? 45, s') else (false, s)
  | [] => (false, [])
  end.

Definition ParseDuration (text : string) : result duration_error Duration :=
  let '(neg, s) := parse_sign (to_bytes text) in
  if (of_bytes s =? "0")%string then Ok 0
  else
    _ ← reject_if (length s =? 0)%nat InvalidDuration;
    d ← parse_terms (length s) 0 s;
    if (neg : bool) then Ok (wrap_i64 (- d))
    else _ ← reject_if (2 ^ 63 - 1 <? d) InvalidDuration; Ok d.

(** ** Tests *)
Example parse_examples :
  ParseDuration "1.5s" = Ok 1500000000 /\ ParseDuration "1h2m3s" = Ok (3723 * Second) /\
  ParseDuration "-250ms" = Ok (- 250 * Millisecond) /\ ParseDuration "0" = Ok 0 /\
  ParseDuration "10" = Err MissingUnit /\ ParseDuration "1d" = Err (UnknownUnit "d") /\
  ParseDuration ".s" = Err InvalidDuration /\ ParseDuration "" = Err InvalidDuration /\
  ParseDuration "-9223372036854775808ns" = Ok (- 2 ^ 63) /\
  ParseDuration "9223372036854775808ns" = Err InvalidDuration /\
  ParseDuration "9223372036854775808ns9223372036854775808ns" = Ok 0.
Proof. repeat split; vm_compute; reflexivity. Qed.

(** ** Reading numbers *)
Lemma digit_value_digit (c : ascii) (d : Z) :
  digit_value c = Some d -> is_digit c = true /\ d = byte_val c - 48 /\ 0 <= d.
Proof.
  unfold digit_value, is_digit. destruct (in_range 48 57 (byte_val c)) eqn:E; [|done].
  apply in_range_true in E. intros [= <-]. split_and!; [done..|lia].
Qed.

Lemma digits_value_ge (s : string) (acc z : Z) : 0 <= acc -> digits_value acc s = Some z -> acc <= z.
Proof.
  revert acc. induction s as [|c s IH]; intros acc Ha; cbn [digits_value]; [intros [= ->]; lia|].
  destruct (digit_value c) as [d|] eqn:E; [|done]. cbn [mbind option_bind].
  apply digit_value_digit in E as (_ & _ & Hd). intros H. specialize (IH (acc * 10 + d) ltac:(lia) H). lia.
Qed.

(** A text that a number may precede: the next byte is neither a digit nor a dot. *)
Definition stops (s : bytes) : Prop :=
  match s with c :: _ => is_digit c = false /\ is_dot c = false | [] => True end.

Lemma leadingInt_spec (s : string) (acc z : Z) (rest : bytes) :
  0 <= acc <= 2 ^ 63 -> digits_value acc s = Some z -> stops rest ->
  leadingInt acc (to_bytes s ++ rest) = if z <=? 2 ^ 63 then Some (z, rest) else None.
Proof.
  intros Ha Hz Hs. revert acc Ha Hz.
  induction s as [|c s IH]; intros acc Ha Hz; cbn [digits_value] in Hz.
  - injection Hz as <-. rewrite (proj2 (Z.leb_le _ _)) by lia.
    destruct rest as [|c rest]; [done|]. simpl. by destruct Hs as [-> _].
  - destruct (digit_value c) as [d|] eqn:E; [|done]. cbn [mbind option_bind] in Hz.
    apply digit_value_digit in E as (Hc & Hd & H0). cbn [to_bytes app leadingInt]. rewrite Hc, <- Hd.
    pose proof (digits_value_ge s (acc * 10 + d) z ltac:(lia) Hz) as Hle.
    destruct (2 ^ 63 / 10 <? acc) eqn:E1; [bool_facts|].
    { rewrite (proj2 (Z.leb_gt _ _)); [done|]. change (2 ^ 63 / 10) with 922337203685477580 in E1. lia. }
    destruct (2 ^ 63 <? acc * 10 + d) eqn:E2; bool_facts; [by rewrite (proj2 (Z.leb_gt _ _)) by lia|].
    apply IH; [lia|done].
Qed.

Lemma unit_text_spec (u rest : bytes) :
  Forall (fun c => is_dot c || is_digit c = false) u ->
  match rest with c :: _ => is_digit c = true | [] => True end ->
  unit_text (u ++ rest) = (u, rest).
Proof.
  intros Hu Hr. induction Hu as [|c u Hc _ IH]; cbn [app unit_text].
  - destruct rest as [|c rest]; [done|]. cbn [unit_text]. by rewrite Hr, orb_true_r.
  - by rewrite Hc, IH.
Qed.

(** Every unit has a value, is not empty, and holds neither a digit nor a dot. *)
Definition unit_ok (e : string * Z) : Prop :=
  unit_value e.1 = Some e.2 /\ e.1 <> "" /\ 0 < e.2 /\
  Forall (fun c => is_dot c || is_digit c = false) (to_bytes e.1).

Lemma units_ok : Forall unit_ok units.
Proof. repeat (constructor; [repeat split; try discriminate; repeat constructor|]). constructor. Qed.

(** A whole number of a unit, and its text. *)
Record term := { t_number : Z; t_unit : string; t_value : Z }.

Definition term_ok (t : term) : Prop :=
  exists unit, 0 <= t_number t /\ (t_unit t, unit) ∈ units /\ t_value t = t_number t * unit.

Definition term_text (t : term) : string := itoa (t_number t) +:+ t_unit t.

(** What follows a term: nothing, or another one. *)
Definition starts_digit (s : bytes) : Prop :=
  match s with c :: _ => is_digit c = true | [] => True end.

Lemma term_text_starts (t : term) (rest : bytes) :
  term_ok t -> exists c s, to_bytes (term_text t) ++ rest = c :: s /\ is_digit c = true.
Proof.
  intros (unit & Hn & _). apply itoa_digits in Hn as (_ & c & s & E & [d Hd]).
  apply digit_value_digit in Hd as [Hd _]. unfold term_text. rewrite E. by exists c, (to_bytes (s +:+ t_unit t) ++ rest).
Qed.

Lemma parse_term_spec (t : term) (rest : bytes) :
  term_ok t -> starts_digit rest ->
  parse_term (to_bytes (term_text t) ++ rest) =
    if t_value t <=? 2 ^ 63 then Ok (t_value t, rest) else Err InvalidDuration.
Proof.
  intros Ht Hr. pose proof (term_text_starts t rest Ht) as (c & s & Hcs & Hc).
  destruct Ht as (unit & Hn & Hu & Hv). pose proof units_ok as Hok. rewrite list.Forall_forall in Hok.
  destruct (Hok _ Hu) as (Huv & Hne & Hpos & Hall). cbn [fst snd] in *.
  unfold parse_term. rewrite Hcs, Hc, orb_true_r. cbn [negb reject_if mbind result_bind]. rewrite <- Hcs.
  unfold term_text. rewrite to_bytes_app, <- app_assoc.
  assert (exists a ul, to_bytes (t_unit t) = a :: ul /\ is_dot a || is_digit a = false) as (a & ul & Eu & Ea).
  { destruct (t_unit t) as [|a ul]; [done|]. exists a, (to_bytes ul). split; [done|].
    by apply list.Forall_cons in Hall as [? _]. }
  pose proof Ea as [Ed Eg]%orb_false_iff.
  rewrite (leadingInt_spec _ 0 (t_number t)); [|lia|by apply itoa_digits|by rewrite Eu].
  destruct (t_number t <=? 2 ^ 63) eqn:E63; bool_facts.
  2: { rewrite (proj2 (Z.leb_gt _ _)); [done|]. rewrite Hv. nia. }
  assert (parse_fraction (to_bytes (t_unit t) ++ rest) = (0, float_of_Z 1, to_bytes (t_unit t) ++ rest, false))
    as -> by (rewrite Eu; simpl; by rewrite Ed).
  assert ((length (to_bytes (itoa (t_number t)) ++ to_bytes (t_unit t) ++ rest) =?
           length (to_bytes (t_unit t) ++ rest))%nat = false) as ->.
  { apply Nat.eqb_neq. rewrite length_app.
    destruct (itoa_digits (t_number t) Hn) as (_ & c' & s' & -> & _). simpl. lia. }
  cbn [negb andb reject_if mbind result_bind].
  rewrite unit_text_spec by done. rewrite (proj2 (Nat.eqb_neq _ _)) by (rewrite Eu; simpl; lia).
  cbn [reject_if mbind result_bind]. rewrite String.string_of_list_ascii_of_string, Huv.
  change (0 <? 0) with false. cbn [andb].
  rewrite Hv. destruct (2 ^ 63 / unit <? t_number t) eqn:E; bool_facts; cbn [reject_if mbind result_bind].
  - rewrite (proj2 (Z.leb_gt _ _)); [done|].
    pose proof (Z.mul_succ_div_gt (2 ^ 63) unit Hpos). nia.
  - rewrite (proj2 (Z.leb_le _ _)); [done|]. pose proof (Z.mul_div_le (2 ^ 63) unit Hpos). nia.
Qed.

(** ** The fuel is enough *)
Lemma leadingInt_rest (s : bytes) (x v : Z) (r : bytes) :
  leadingInt x s = Some (v, r) -> r `suffix_of` s.
Proof.
  revert x. induction s as [|c s IH]; intros x; cbn [leadingInt]; [by intros [= _ <-]|].
  repeat case_if; try done; [intros H; apply suffix_cons_r; by eapply IH|by intros [= _ <-]].
Qed.

Lemma leadingFraction_rest (s : bytes) (x : Z) (scale : float64) (o : bool) :
  (leadingFraction x scale o s).2 `suffix_of` s.
Proof.
  revert x scale o. induction s as [|c s IH]; intros x scale o; cbn [leadingFraction]; [done|].
  repeat case_if; try done; apply suffix_cons_r, IH.
Qed.

Lemma unit_text_rest (s : bytes) : (unit_text s).1 ++ (unit_text s).2 = s.
Proof.
  induction s as [|c s IH]; cbn [unit_text]; [done|]. case_if; [done|].
  destruct (unit_text s) as [u r]. simpl in *. by rewrite IH.
Qed.

Lemma parse_term_shorter (s : bytes) (v : Z) (rest : bytes) :
  parse_term s = Ok (v, rest) -> (length rest < length s)%nat.
Proof.
  unfold parse_term. destruct s as [|c s]; [done|]. intros ([] & _ & H)%result_bind_ok. revert H.
  destruct (leadingInt 0 (c :: s)) as [[n s1]|] eqn:E; [|done]. apply leadingInt_rest, suffix_length in E.
  assert (length (parse_fraction s1).1.2 <= length s1)%nat as Hm.
  { unfold parse_fraction. destruct s1 as [|d s1]; [done|]. destruct (is_dot d); [|done].
    pose proof (suffix_length _ _ (leadingFraction_rest s1 0 (float_of_Z 1) false)) as Hf.
    destruct (leadingFraction 0 (float_of_Z 1) false s1) as [[f sc] s2]. simpl in *. lia. }
  destruct (parse_fraction s1) as [[[f scale] s2] post]. simpl in Hm. intros ([] & _ & H)%result_bind_ok. revert H.
  pose proof (unit_text_rest s2) as Hu. destruct (unit_text s2) as [u r]. simpl in Hu.
  intros ([] & Hlen%reject_if_ok%Nat.eqb_neq & H)%result_bind_ok. revert H.
  destruct (unit_value (of_bytes u)); [|done].
  intros ([] & _ & ([] & _ & [= _ ->])%result_bind_ok)%result_bind_ok.
  rewrite <- Hu, length_app in Hm. simpl in *. lia.
Qed.

Lemma parse_terms_fuel (n m : nat) (d : Z) (s : bytes) :
  (length s <= n)%nat -> (length s <= m)%nat -> parse_terms n d s = parse_terms m d s.
Proof.
  revert m d s. induction n as [|n IH]; intros m d [|c s] Hn Hm; [by destruct m|simpl in Hn; lia|by destruct m|].
  destruct m as [|m]; [simpl in Hm; lia|]. cbn [parse_terms].
  destruct (parse_term (c :: s)) as [[v rest]|e] eqn:E; [|done]. cbn [mbind result_bind fst snd].
  apply parse_term_shorter in E. unfold reject_if. case_if; [done|]. cbn [mbind result_bind].
  apply IH; simpl in *; lia.
Qed.

(** ** Sums *)
Definition terms_text (ts : list term) : string := foldr (fun t s => term_text t +:+ s) "" ts.

Lemma terms_bytes (t : term) (ts : list term) :
  to_bytes (terms_text (t :: ts)) = to_bytes (term_text t) ++ to_bytes (terms_text ts).
Proof. exact (to_bytes_app _ _). Qed.

Definition total (ts : list term) : Z := sum_list_Z (t_value <$> ts).

Lemma terms_starts (ts : list term) : Forall term_ok ts -> starts_digit (to_bytes (terms_text ts)).
Proof.
  destruct 1 as [|t ts Ht _]; [done|]. rewrite terms_bytes.
  by destruct (term_text_starts t (to_bytes (terms_text ts)) Ht) as (c & s & -> & ?).
Qed.

Lemma term_value_nonneg (t : term) : term_ok t -> 0 <= t_value t.
Proof.
  intros (unit & Hn & Hu & ->). pose proof units_ok as Hok. rewrite list.Forall_forall in Hok.
  destruct (Hok _ Hu) as (_ & _ & Hpos & _). simpl in Hpos. nia.
Qed.

Lemma total_nonneg (ts : list term) : Forall term_ok ts -> 0 <= total ts.
Proof.
  intros H. apply sum_list_Z_nonneg, Forall_fmap. eapply list.Forall_impl; [exact H|]. apply term_value_nonneg.
Qed.

Lemma parse_terms_spec (ts : list term) (fuel : nat) (d : Z) :
  Forall term_ok ts -> Forall (fun t => t_value t <> 2 ^ 63) ts -> 0 <= d <= 2 ^ 63 ->
  (length (to_bytes (terms_text ts)) <= fuel)%nat ->
  parse_terms fuel d (to_bytes (terms_text ts)) =
    if d + total ts <=? 2 ^ 63 then Ok (d + total ts) else Err InvalidDuration.
Proof.
  intros Hok. revert fuel d. induction Hok as [|t ts Ht Hok IH]; intros fuel d Hne Hd Hf.
  { unfold total. simpl. rewrite Z.add_0_r, (proj2 (Z.leb_le _ _)) by lia. by destruct fuel. }
  apply list.Forall_cons in Hne as [Hne Hnes].
  pose proof (total_nonneg ts Hok) as Hts. pose proof (term_value_nonneg t Ht) as Htv.
  assert (total (t :: ts) = t_value t + total ts) as -> by done.
  destruct (term_text_starts t (to_bytes (terms_text ts)) Ht) as (c & s & Hcs & _).
  pose proof (parse_term_spec t (to_bytes (terms_text ts)) Ht (terms_starts ts Hok)) as Hp.
  rewrite terms_bytes in *. rewrite Hcs in *.
  destruct fuel as [|fuel]; [simpl in Hf; lia|]. cbn [parse_terms]. rewrite Hp.
  destruct (t_value t <=? 2 ^ 63) eqn:E; bool_facts; cbn [mbind result_bind];
    [|by rewrite (proj2 (Z.leb_gt _ _)) by lia].
  cbn [fst snd]. rewrite (wrap_u64_id (d + t_value t)) by (unfold is_u64; lia).
  destruct (2 ^ 63 <? d + t_value t) eqn:E2; bool_facts; cbn [reject_if mbind result_bind];
    [by rewrite (proj2 (Z.leb_gt _ _)) by lia|].
  rewrite IH; [by rewrite Z.add_assoc|done|lia|].
  assert (0 < length (to_bytes (term_text t)))%nat as Hl.
  { destruct (term_text_starts t [] Ht) as (c' & s' & E' & _). rewrite app_nil_r in E'. rewrite E'. simpl. lia. }
  rewrite <- Hcs, length_app in Hf. lia.
Qed.

(** The text of a sum of whole numbers of units. *)
Definition duration_text (neg : bool) (ts : list term) : string :=
  (if neg then "-" else "") +:+ terms_text ts.

Lemma parse_sign_digit (s : bytes) :
  match s with c :: _ => is_digit c = true | [] => False end -> parse_sign s = (false, s).
Proof.
  destruct s as [|c s]; [done|]. unfold is_digit. intros H%in_range_true. unfold parse_sign.
  rewrite !(proj2 (Z.eqb_neq _ _)) by lia. done.
Qed.

Lemma terms_not_zero (ts : list term) : ts <> [] -> Forall term_ok ts -> terms_text ts <> "0".
Proof.
  intros Hne [|t ts' Ht Hts]; [done|]. intros E.
  pose proof (f_equal to_bytes E) as Eb. rewrite terms_bytes in Eb. unfold term_text in Eb.
  rewrite to_bytes_app, <- app_assoc in Eb. destruct Ht as (unit & Hn & Hu & _).
  pose proof units_ok as Hok. rewrite list.Forall_forall in Hok. destruct (Hok _ Hu) as (_ & Hu0 & _).
  destruct (itoa_digits (t_number t) Hn) as (_ & c & s & Ec & _). rewrite Ec in Eb.
  destruct (t_unit t) as [|a u] eqn:Eu; [done|]. cbn [to_bytes app] in Eb. injection Eb as _ Eb.
  by destruct s.
Qed.

Lemma ParseDuration_spec (neg : bool) (ts : list term) :
  ts <> [] -> Forall term_ok ts -> Forall (fun t => t_value t <> 2 ^ 63) ts ->
  ParseDuration (duration_text neg ts) =
    let v := if neg then - total ts else total ts in
    if in_range (- 2 ^ 63) (2 ^ 63 - 1) v then Ok v else Err InvalidDuration.
Proof.
  intros Hne Hok Hv. pose proof (total_nonneg ts Hok) as H0.
  assert (parse_sign (to_bytes (duration_text neg ts)) = (neg, to_bytes (terms_text ts))) as Hs.
  { unfold duration_text. destruct neg; [done|]. apply parse_sign_digit.
    destruct Hok as [|t ts Ht _]; [done|]. cbn [String.append]. rewrite terms_bytes.
    by destruct (term_text_starts t (to_bytes (terms_text ts)) Ht) as (c & s & -> & ?). }
  unfold ParseDuration. rewrite Hs, String.string_of_list_ascii_of_string.
  rewrite (proj2 (String.eqb_neq _ _)) by by apply terms_not_zero.
  assert (length (to_bytes (terms_text ts)) <> 0)%nat as Hl.
  { destruct Hok as [|t ts Ht _]; [done|]. rewrite terms_bytes.
    by destruct (term_text_starts t (to_bytes (terms_text ts)) Ht) as (c & s & -> & ?). }
  rewrite (proj2 (Nat.eqb_neq _ _)) by done. cbn [reject_if mbind result_bind].
  rewrite parse_terms_spec by (done || lia). rewrite Z.add_0_l. cbn zeta. unfold in_range.
  destruct neg, (total ts <=? 2 ^ 63) eqn:E; bool_facts; cbn [mbind result_bind].
  - rewrite wrap_i64_id by (unfold is_i64; lia).
    by rewrite (proj2 (Z.leb_le (- 2 ^ 63) (- total ts))), (proj2 (Z.leb_le (- total ts) (2 ^ 63 - 1))) by lia.
  - rewrite (proj2 (Z.leb_gt (- 2 ^ 63) (- total ts))); [done|]. lia.
  - rewrite (proj2 (Z.leb_le (- 2 ^ 63) (total ts))) by lia. cbn [andb].
    destruct (2 ^ 63 - 1 <? total ts) eqn:E2; bool_facts; cbn [reject_if mbind result_bind].
    + by rewrite (proj2 (Z.leb_gt (total ts) (2 ^ 63 - 1))) by lia.
    + by rewrite (proj2 (Z.leb_le (total ts) (2 ^ 63 - 1))) by lia.
  - rewrite (proj2 (Z.leb_gt (total ts) (2 ^ 63 - 1))) by lia. by rewrite andb_false_r.
Qed.

(** Whatever the text, the value is a duration of the machine's width. *)
Lemma ParseDuration_range (text : string) (d : Duration) : ParseDuration text = Ok d -> is_i64 d.
Proof.
  unfold ParseDuration. destruct (parse_sign (to_bytes text)) as [neg s].
  case_if; [intros [= <-]; unfold is_i64; lia|].
  intros ([] & _ & (v & Hv & H)%result_bind_ok)%result_bind_ok.
  assert (forall fuel d s, 0 <= d -> parse_terms fuel d s = Ok v -> 0 <= v) as Hpos.
  { clear. induction fuel as [|fuel IH]; intros d [|c s] Hd; cbn [parse_terms]; try done; try (intros [= <-]; done).
    intros (t & _ & ([] & _ & H)%result_bind_ok)%result_bind_ok. eapply IH, H.
    unfold wrap_u64. apply Z.mod_pos_bound. lia. }
  specialize (Hpos _ 0 _ (Z.le_refl 0) Hv). destruct neg.
  - injection H as <-. apply wrap_i64_range.
  - apply result_bind_ok in H as ([] & Hr%reject_if_ok & [= <-]). bool_facts. unfold is_i64. lia.
Qed.
