(* ===== verification/Sha256.v ===== *)
(** * SHA-256, as [crypto/sha256] computes it

    [Sum256] is FIPS 180-4 on a list of byte values: padding, message schedule
    and compression on 32-bit words.  The fingerprints of package [prefix] and
    the mock tokens are built from it; the examples are published digests. *)

From S2P Require Import Prelude GoString.

#[local] Open Scope Z_scope.

Definition w32 (z : Z) : Z := Z.land z 4294967295.

Definition rotr (n x : Z) : Z :=
  w32 (Z.lor (Z.shiftr x n) (Z.shiftl x (32 - n))).

Definition initial_hash : list Z :=
  [
   1779033703; 3144134277; 1013904242; 2773480762; 1359893119; 2600822924;
   528734635; 1541459225
  ].

Definition round_constants : list Z :=
  [
   1116352408; 1899447441; 3049323471; 3921009573; 961987163; 1508970993;
   2453635748; 2870763221; 3624381080; 310598401; 607225278; 1426881987;
   1925078388; 2162078206; 2614888103; 3248222580; 3835390401; 4022224774;
   264347078; 604807628; 770255983; 1249150122; 1555081692; 1996064986;
   2554220882; 2821834349; 2952996808; 3210313671; 3336571891; 3584528711;
   113926993; 338241895; 666307205; 773529912; 1294757372; 1396182291;
   1695183700; 1986661051; 2177026350; 2456956037; 2730485921; 2820302411;
   3259730800; 3345764771; 3516065817; 3600352804; 4094571909; 275423344;
   430227734; 506948616; 659060556; 883997877; 958139571; 1322822218;
   1537002063; 1747873779; 1955562222; 2024104815; 2227730452; 2361852424;
   2428436474; 2756734187; 3204031479; 3329325298
  ].

Definition ch (x y z : Z) : Z := Z.lxor (Z.land x y) (Z.land (Z.lxor x 4294967295) z).
Definition maj (x y z : Z) : Z := Z.lxor (Z.lxor (Z.land x y) (Z.land x z)) (Z.land y z).
Definition big_sigma0 (x : Z) : Z := Z.lxor (Z.lxor (rotr 2 x) (rotr 13 x)) (rotr 22 x).
Definition big_sigma1 (x : Z) : Z := Z.lxor (Z.lxor (rotr 6 x) (rotr 11 x)) (rotr 25 x).
Definition small_sigma0 (x : Z) : Z :=
  Z.lxor (Z.lxor (rotr 7 x) (rotr 18 x)) (Z.shiftr x 3).
Definition small_sigma1 (x : Z) : Z :=
  Z.lxor (Z.lxor (rotr 17 x) (rotr 19 x)) (Z.shiftr x 10).

(** The big-endian bytes of a word, and the words of a list of bytes. *)
Definition word_bytes (w : Z) : list Z :=
  [Z.land (Z.shiftr w 24) 255; Z.land (Z.shiftr w 16) 255;
   Z.land (Z.shiftr w 8) 255; Z.land w 255].

Fixpoint to_words (bs : list Z) : list Z :=
  match bs with
  | a :: b :: c :: d :: bs =>
      (Z.shiftl a 24 + Z.shiftl b 16 + Z.shiftl c 8 + d) :: to_words bs
  | _ => []
  end.

(** One bit, zeros up to 56 modulo 64 bytes, the bit length on 64 bits. *)
Definition pad (msg : list Z) : list Z :=
  let n := Z.of_nat (length msg) in
  let zeros := Z.to_nat ((55 - n) mod 64) in
  let bits := (8 * n) mod 2 ^ 64 in
  msg ++ [128] ++ replicate zeros 0
    ++ word_bytes (Z.shiftr bits 32) ++ word_bytes (w32 bits).

(** The message schedule, kept as a reversed list: the newest word first. *)
Fixpoint schedule (n : nat) (ws : list Z) : list Z :=
  match n with
  | O => ws
  | S n =>
      let w2 := nth 1 ws 0 in let w7 := nth 6 ws 0 in
      let w15 := nth 14 ws 0 in let w16 := nth 15 ws 0 in
      schedule n (w32 (small_sigma1 w2 + w7 + small_sigma0 w15 + w16) :: ws)
  end.

Definition sha_round (s : list Z) (kw : Z * Z) : list Z :=
  match s with
  | [a; b; c; d; e; f; g; h] =>
      let t1 := h + big_sigma1 e + ch e f g + kw.1 + kw.2 in
      let t2 := big_sigma0 a + maj a b c in
      [w32 (t1 + t2); a; b; c; w32 (d + t1); e; f; g]
  | _ => s
  end.

Definition compress (hash : list Z) (block : list Z) : list Z :=
  let ws := reverse (schedule 48 (reverse block)) in
  zip_with (fun x y => w32 (x + y)) hash
    (foldl sha_round hash (zip round_constants ws)).

Fixpoint blocks (fuel : nat) (ws : list Z) : list (list Z) :=
  match fuel, ws with
  | S fuel, _ :: _ => take 16 ws :: blocks fuel (drop 16 ws)
  | _, _ => []
  end.

(** [sha256.Sum256]; the number of words is more than enough fuel. *)
Definition Sum256 (msg : list Z) : list Z :=
  let ws := to_words (pad msg) in
  mjoin (word_bytes <$> foldl compress initial_hash (blocks (length ws) ws)).

(** [hex.EncodeToString] of the digest of a string's bytes. *)
Definition sha256_hex (s : string) : string :=
  EncodeToString (Sum256 (byte_val <$> to_bytes s)).

Example sha256_empty :
  sha256_hex "" = "e3b0c44298fc1c149afbf4c8996fb92427ae41e4649b934ca495991b7852b855".
Proof. vm_compute. reflexivity. Qed.

Example sha256_abc :
  sha256_hex "abc" = "ba7816bf8f01cfea414140de5dae2223b00361a396177a9cb410ff61f20015ad".
Proof. vm_compute. reflexivity. Qed.

Example sha256_two_blocks :
  sha256_hex "abcdbcdecdefdefgefghfghighijhijkijkljklmklmnlmnomnopnopq"
  = "248d6a61d20638b8e5c026930c3e6039a33ce45964ff2167f6ecedd419db06c1".
Proof. vm_compute. reflexivity. Qed.

(** The hexadecimal digest has 64 characters, so it is never the empty string. *)
Lemma compress_length (hash block : list Z) :
  length hash = 8%nat -> length (compress hash block) = 8%nat.
Proof.
  intros Hh. unfold compress. rewrite length_zip_with.
  assert (forall kws s, length s = 8%nat -> length (foldl sha_round s kws) = 8%nat) as Hr.
  { induction kws as [|kw kws IH]; intros s Hs; simpl; [done|]. apply IH.
    unfold sha_round. repeat (destruct s as [|? s]; try done). }
  rewrite Hr by done. lia.
Qed.

Lemma Sum256_length (msg : list Z) : length (Sum256 msg) = 32%nat.
Proof.
  unfold Sum256.
  assert (forall bs h, length h = 8%nat -> length (foldl compress h bs) = 8%nat) as Hc.
  { induction bs as [|b bs IH]; intros h Hh; simpl; [done|].
    apply IH. by apply compress_length. }
  specialize (Hc (blocks (length (to_words (pad msg))) (to_words (pad msg))) initial_hash eq_refl).
  revert Hc. generalize (foldl compress initial_hash
    (blocks (length (to_words (pad msg))) (to_words (pad msg)))) as l.
  intros l Hl. repeat (destruct l as [|? l]; try done).
Qed.

Lemma sha256_hex_length (s : string) : String.length (sha256_hex s) = 64%nat.
Proof. unfold sha256_hex. by rewrite length_EncodeToString, Sum256_length. Qed.

Lemma sha256_hex_nonempty (s : string) : sha256_hex s <> "".
Proof. intros H. pose proof (sha256_hex_length s) as Hl. by rewrite H in Hl. Qed.

#[global] Arguments sha256_hex : simpl never.
#[export] Hint Resolve sha256_hex_nonempty : go.
