(* ===== verification/Model.v ===== *)
(** * The domain values of [src/internal/model/model.go]

    Every struct of package [model] as a record; the open string types
    ([WorkerStatus], [FinishReason]) as strings with the named constants. *)

From S2P Require Import Prelude GoFloat.

Definition ProtocolVersion : string := "1.0".

Record Message := { Role : string; Content : string }.

Record PrefixFingerprint := { TokenCount : Z; SHA256 : string }.

Abbreviation WorkerStatus := string (only parsing).
Definition WorkerHealthy : WorkerStatus := "healthy".
Definition WorkerDraining : WorkerStatus := "draining".
Definition WorkerUnhealthy : WorkerStatus := "unhealthy".

Record KVUsage := { CapacityTokens : Z; UsedTokens : Z }.

Record WorkerState := {
  StatusVersion : Z;
  Status : WorkerStatus;
  WaitingRequestCount : Z;
  WaitingTokenCount : Z;
  RunningRequestCount : Z;
  RunningWorkTokens : Z;
  ws_KVUsage : KVUsage;
  PrefillTokensPerSecond : float64;
  DecodeTokensPerSecond : float64;
  DecodeSchedulingQuantumTokens : Z;
  CachedPrefixes : list PrefixFingerprint;
  ObservedAt : Time;
}.

Record Worker := {
  w_ID : string;
  DataAddress : string;
  w_Model : string;
  w_ProtocolVersion : string;
  State : WorkerState;
  LastHeartbeat : Time;
  Stale : bool;
}.

Record Request := {
  r_ID : string;
  r_AttemptID : string;
  TenantID : string;
  r_Model : string;
  Messages : list Message;
  EstimatedInputToken : Z;
  ExpectedOutputToken : Z;
  MaxOutputTokens : Z;
  PrefixFingerprints : list PrefixFingerprint;
  Deadline : Time;
}.

Abbreviation FinishReason := string (only parsing).
Definition FinishStop : FinishReason := "stop".
Definition FinishLength : FinishReason := "length".
Definition FinishCancelled : FinishReason := "cancelled".
Definition FinishError : FinishReason := "error".

Record Chunk := {
  c_RequestID : string;
  c_AttemptID : string;
  c_WorkerID : string;
  TokenIndex : Z;
  TokenText : string;
  Final : bool;
  Reason : FinishReason;
  At : Time;
}.

Record CandidateEvaluation := {
  ce_WorkerID : string;
  Eligible : bool;
  RejectionReason : string;
  StateVersion : Z;
  MatchedTokens : Z;
  QueueDelay : float64;
  UncachedPrefill : Z;
  PrefillDelay : float64;
  OverloadPenalty : float64;
  PredictedTTFT : float64;
  Score : float64;
  TieBreak : string;
}.

(** [DecisionTime] is a measurement of the clock and is not part of the model. *)
Record RoutingDecision := {
  d_RequestID : string;
  d_Policy : string;
  SelectedWorker : string;
  Candidates : list CandidateEvaluation;
  WorkerVersions : gmap string Z;
  d_Cursor : Z;
}.

#[export] Instance Message_eq_dec : EqDecision Message.
Proof. solve_decision. Defined.
#[export] Instance PrefixFingerprint_eq_dec : EqDecision PrefixFingerprint.
Proof. solve_decision. Defined.
#[export] Instance KVUsage_eq_dec : EqDecision KVUsage.
Proof. solve_decision. Defined.
#[export] Instance WorkerState_eq_dec : EqDecision WorkerState.
Proof. solve_decision. Defined.
#[export] Instance Worker_eq_dec : EqDecision Worker.
Proof. solve_decision. Defined.
#[export] Instance Chunk_eq_dec : EqDecision Chunk.
Proof. solve_decision. Defined.
#[export] Instance CandidateEvaluation_eq_dec : EqDecision CandidateEvaluation.
Proof. solve_decision. Defined.

