(* ===== verification/Examples.v ===== *)
(** * Concrete values

    A worker, its state, a request and its chunks, on which the components'
    theorems are instantiated. *)

From S2P Require Import Prelude GoFloat Model.

#[local] Open Scope Z_scope.

Definition ex_kv : KVUsage := {| CapacityTokens := 8192; UsedTokens := 64 |}.

(** A healthy state of the given version and load. *)
Definition ex_state (version waiting running : Z) : WorkerState :=
  {| StatusVersion := version; Status := WorkerHealthy; WaitingRequestCount := 1;
     WaitingTokenCount := waiting; RunningRequestCount := 1; RunningWorkTokens := running;
     ws_KVUsage := ex_kv; PrefillTokensPerSecond := float_of_Z 1000;
     DecodeTokensPerSecond := float_of_Z 100; DecodeSchedulingQuantumTokens := 1;
     CachedPrefixes := [ {| TokenCount := 16; SHA256 := "a1" |} ]; ObservedAt := 5 |}.

Definition ex_worker (id : string) (state : WorkerState) : Worker :=
  {| w_ID := id; DataAddress := id +:+ ":9000"; w_Model := "mock-llm";
     w_ProtocolVersion := ProtocolVersion; State := state; LastHeartbeat := 100; Stale := false |}.

Definition ex_request : Request :=
  {| r_ID := "req"; r_AttemptID := "req-a1"; TenantID := "public"; r_Model := "mock-llm";
     Messages := [ {| Role := "user"; Content := "hello world" |} ];
     EstimatedInputToken := 3; ExpectedOutputToken := 2; MaxOutputTokens := 2;
     PrefixFingerprints := [ {| TokenCount := 16; SHA256 := "a1" |} ]; Deadline := 10 ^ 12 |}.

Definition ex_token : Chunk :=
  {| c_RequestID := "req"; c_AttemptID := "req-a1"; c_WorkerID := "w1"; TokenIndex := 0;
     TokenText := "hi"; Final := false; Reason := ""; At := 7 |}.
Definition ex_final : Chunk :=
  {| c_RequestID := "req"; c_AttemptID := "req-a1"; c_WorkerID := "w1"; TokenIndex := 1;
     TokenText := ""; Final := true; Reason := FinishStop; At := 8 |}.

Definition set_status (s : WorkerState) (status : string) : WorkerState :=
  {| StatusVersion := StatusVersion s; Status := status;
     WaitingRequestCount := WaitingRequestCount s; WaitingTokenCount := WaitingTokenCount s;
     RunningRequestCount := RunningRequestCount s; RunningWorkTokens := RunningWorkTokens s;
     ws_KVUsage := ws_KVUsage s; PrefillTokensPerSecond := PrefillTokensPerSecond s;
     DecodeTokensPerSecond := DecodeTokensPerSecond s;
     DecodeSchedulingQuantumTokens := DecodeSchedulingQuantumTokens s;
     CachedPrefixes := CachedPrefixes s; ObservedAt := ObservedAt s |}.
