(* ===== verification/Interfaces.v ===== *)
(** * What the components promise to the gateway

    The gateway uses a directory of workers and a limiter of tokens.  The classes
    state what it relies on; [Registry] and [Admission] give the instances and
    discharge the laws. *)

From S2P Require Import Prelude GoFloat Model.

#[local] Open Scope Z_scope.

(** A directory of workers that can be copied at an instant. *)
Class SnapshotSource (R : Type) := {
  source_snapshot : R -> Time -> list Worker;
  source_healthy : R -> Time -> nat;
  source_ok : R -> Prop;
}.

Class SnapshotSourceLaws (R : Type) `{SnapshotSource R} := {
  source_ids_unique (r : R) (now : Time) :
    source_ok r -> NoDup (w_ID <$> source_snapshot r now);
  source_healthy_spec (r : R) (now : Time) :
    (0 < source_healthy r now)%nat <->
    exists w, w ∈ source_snapshot r now /\ Stale w = false /\ Status (State w) = WorkerHealthy;
}.

(** A limiter that grants leases of a cost. *)
Class Limiter (C E : Type) := {
  lim_reserve : C -> Time -> string -> Z -> C * result E nat;
  lim_release : C -> option nat -> result string C;
  lim_in_flight : C -> Z;
  lim_ok : C -> Prop;
  lim_held : C -> nat -> option Z;   (* what a lease that was not released holds *)
}.

Class LimiterLaws (C E : Type) `{Limiter C E} := {
  reserve_granted (c c' : C) (now : Time) (tenant : string) (cost : Z) (i : nat) :
    lim_ok c -> is_u64 cost -> lim_reserve c now tenant cost = (c', Ok i) ->
    lim_ok c' /\ lim_held c i = None /\ lim_held c' i = Some cost /\
    (forall j, j <> i -> lim_held c' j = lim_held c j) /\
    lim_in_flight c' = lim_in_flight c + cost;
  reserve_refused (c c' : C) (now : Time) (tenant : string) (cost : Z) (e : E) :
    lim_ok c -> is_u64 cost -> lim_reserve c now tenant cost = (c', Err e) ->
    lim_ok c' /\ (forall j, lim_held c' j = lim_held c j) /\ lim_in_flight c' = lim_in_flight c;
  release_held (c : C) (i : nat) (cost : Z) :
    lim_ok c -> lim_held c i = Some cost ->
    exists c', lim_release c (Some i) = Ok c' /\ lim_ok c' /\ lim_held c' i = None /\
      (forall j, j <> i -> lim_held c' j = lim_held c j) /\
      lim_in_flight c' = lim_in_flight c - cost;
}.
