(* ===== verification/Tokenizer.v ===== *)
(** * The mock tokenizer: [src/internal/tokenizer/tokenizer.go]

    Canonical text of a conversation, its white-space tokens and their count.
    Tokens of a conversation extend the tokens of every earlier conversation,
    which is what makes cumulative prefix fingerprints comparable. *)

From Stdlib Require Import Ascii String.
From S2P Require Import Prelude GoString GoFloat Model.

#[local] Open Scope Z_scope.

Definition newline : ascii := "010"%char.
Definition nl : string := String newline "".

Definition canonical_message (m : Message) : string :=
  Role m +:+ nl +:+ Content m +:+ nl.

Definition Canonicalize (messages : list Message) : string :=
  foldl (fun b m => b +:+ canonical_message m) "" messages.

Definition Tokens (messages : list Message) : list string :=
  Fields (Canonicalize messages).

Definition Estimate (messages : list Message) : Z :=
  Z.of_nat (length (Tokens messages)).

#[global] Arguments Canonicalize : simpl never.

(** ** The canonical text is a concatenation *)

Lemma Canonicalize_snoc (ms : list Message) (m : Message) :
  Canonicalize (ms ++ [m]) = Canonicalize ms +:+ canonical_message m.
Proof. unfold Canonicalize. by rewrite foldl_snoc. Qed.

Lemma Canonicalize_cons (m : Message) (ms : list Message) :
  Canonicalize (m :: ms) = canonical_message m +:+ Canonicalize ms.
Proof.
  induction ms as [|m' ms IH] using rev_ind.
  - unfold Canonicalize; simpl. by rewrite string_app_nil_r.
  - rewrite app_comm_cons, !Canonicalize_snoc, IH. by rewrite string_app_assoc.
Qed.

(** ** Tokens *)
Lemma Fields_newline (s1 s2 : string) :
  Fields (s1 +:+ nl +:+ s2) = Fields s1 ++ Fields s2.
Proof. unfold nl. simpl. by apply Fields_app_space. Qed.

Lemma Fields_canonical_message (m : Message) (s : string) :
  Fields (canonical_message m +:+ s) = Fields (Role m) ++ Fields (Content m) ++ Fields s.
Proof.
  unfold canonical_message. rewrite <- !string_app_assoc.
  by rewrite !Fields_newline.
Qed.

Lemma Tokens_cons (m : Message) (ms : list Message) :
  Tokens (m :: ms) = Fields (Role m) ++ Fields (Content m) ++ Tokens ms.
Proof. unfold Tokens. by rewrite Canonicalize_cons, Fields_canonical_message. Qed.

Lemma Tokens_append (ms1 ms2 : list Message) :
  Tokens (ms1 ++ ms2) = Tokens ms1 ++ Tokens ms2.
Proof.
  induction ms1 as [|m ms1 IH]; [done|].
  simpl. by rewrite !Tokens_cons, IH, !(assoc_L (++)).
Qed.

(** The roles the gateway accepts. *)
Definition supported_role (r : string) : bool :=
  (r =? "system")%string || (r =? "user")%string || (r =? "assistant")%string.

Lemma supported_role_field (r : string) : supported_role r = true -> Fields r = [r].
Proof.
  unfold supported_role. rewrite !orb_true_iff, !String.eqb_eq. by intros [[-> | ->] | ->].
Qed.

Lemma Tokens_length_lower (ms : list Message) :
  Forall (fun m => supported_role (Role m) = true) ms ->
  (length ms <= length (Tokens ms))%nat.
Proof.
  induction 1 as [|m ms Hm _ IH]; [simpl; lia|].
  rewrite Tokens_cons, (supported_role_field _ Hm), !length_app. simpl. lia.
Qed.

(** ** Newline-free text has one reading *)
Definition no_newline : string -> bool := no_char newline.

Definition plain_message (m : Message) : bool :=
  no_newline (Role m) && no_newline (Content m).

Lemma canonical_message_split (m1 m2 : Message) (t1 t2 : string) :
  plain_message m1 = true -> plain_message m2 = true ->
  canonical_message m1 +:+ t1 = canonical_message m2 +:+ t2 -> m1 = m2 /\ t1 = t2.
Proof.
  destruct m1 as [r1 c1], m2 as [r2 c2]. unfold plain_message, canonical_message.
  cbn [Role Content].
  intros ? ? Heq. bool_facts. rewrite <- !string_app_assoc in Heq.
  apply (char_split newline) in Heq as [-> Heq]; [|done..].
  by apply (char_split newline) in Heq as [-> ->].
Qed.

Lemma canonical_message_nonempty (m : Message) (t : string) :
  canonical_message m +:+ t <> "".
Proof. unfold canonical_message, nl. by destruct (Role m). Qed.

(** ** Properties *)

(** The tokens of a conversation are the tokens of its beginning followed by
    the tokens of the rest: message boundaries never merge two tokens. *)
Theorem Tokens_extend (ms1 ms2 : list Message) :
  Tokens (ms1 ++ ms2) = Tokens ms1 ++ Tokens ms2 /\
  Estimate (ms1 ++ ms2) = Estimate ms1 + Estimate ms2.
Proof.
  split; [apply Tokens_append|].
  unfold Estimate. rewrite Tokens_append, length_app. lia.
Qed.

(** The canonical form determines the messages when no role or content holds a
    newline. *)
Theorem Canonicalize_injective (ms1 ms2 : list Message) :
  Forall (fun m => plain_message m = true) ms1 ->
  Forall (fun m => plain_message m = true) ms2 ->
  Canonicalize ms1 = Canonicalize ms2 -> ms1 = ms2.
Proof.
  intros H1. revert ms2. induction H1 as [|m1 ms1 Hm1 _ IH]; intros ms2 H2 Heq.
  - destruct H2 as [|m2 ms2]; [done|]. rewrite Canonicalize_cons in Heq.
    symmetry in Heq. by apply canonical_message_nonempty in Heq.
  - destruct H2 as [|m2 ms2 Hm2 H2].
    + rewrite Canonicalize_cons in Heq. by apply canonical_message_nonempty in Heq.
    + rewrite !Canonicalize_cons in Heq.
      apply canonical_message_split in Heq as [-> Heq]; [|done..].
      f_equal. by apply IH.
Qed.

Definition ambiguous_one : list Message :=
  [ {| Role := "user"; Content := "x" +:+ nl +:+ "assistant" +:+ nl +:+ "y" |} ].
Definition ambiguous_two : list Message :=
  [ {| Role := "user"; Content := "x" |}; {| Role := "assistant"; Content := "y" |} ].

(** A content that holds newlines can imitate a role boundary: two different
    conversations have one canonical form. *)
Theorem Canonicalize_ambiguous :
  ambiguous_one <> ambiguous_two /\ Canonicalize ambiguous_one = Canonicalize ambiguous_two.
Proof. split; [discriminate|reflexivity]. Qed.
