(* ===== verification/Prefix.v ===== *)
(** * Prefix fingerprints: [src/internal/prefix/prefix.go]

    Cumulative SHA-256 fingerprints at 16-token boundaries, and the longest
    match between the fingerprints of a request and those a worker reports. *)

From Stdlib Require Import Ascii String.
From S2P Require Import Prelude GoString GoFloat Sha256 Model.

#[local] Open Scope Z_scope.

Definition BlockTokens : nat := 16.
Definition unit_separator : string := String "031"%char "".

Definition fingerprint_at (tokens : list string) (end_ : nat) : PrefixFingerprint :=
  {| TokenCount := wrap_u32 (Z.of_nat end_);
     SHA256 := sha256_hex (Join (take end_ tokens) unit_separator) |}.

(** [for end := BlockTokens; end <= len(tokens); end += BlockTokens]. *)
Fixpoint fingerprints_from (fuel end_ : nat) (tokens : list string) : list PrefixFingerprint :=
  match fuel with
  | O => []
  | S fuel =>
      if decide (end_ <= length tokens)%nat
      then fingerprint_at tokens end_ :: fingerprints_from fuel (end_ + BlockTokens) tokens
      else []
  end.

Definition Fingerprints (tokens : list string) : list PrefixFingerprint :=
  fingerprints_from (S (length tokens)) BlockTokens tokens.

(** Reading a missing key of a Go map gives zero. *)
Definition cache_get (cache : gmap string Z) (sha : string) : Z :=
  default 0 (cache !! sha).

Definition cache_step (cache : gmap string Z) (f : PrefixFingerprint) : gmap string Z :=
  if negb (SHA256 f =? "")%string && (cache_get cache (SHA256 f) <? TokenCount f)
  then <[SHA256 f := TokenCount f]> cache else cache.

Definition longest_step (cache : gmap string Z) (longest : Z) (f : PrefixFingerprint) : Z :=
  if (cache_get cache (SHA256 f) =? TokenCount f) && (longest <? TokenCount f)
  then TokenCount f else longest.

Definition LongestMatch (request cached : list PrefixFingerprint) : Z :=
  let cache := foldl cache_step ∅ cached in
  foldl (longest_step cache) 0 request.

#[global] Arguments fingerprint_at : simpl never.

(** ** The loop of [Fingerprints] *)

Lemma fingerprints_from_lookup (fuel end_ i : nat) (tokens : list string) :
  (length tokens < fuel + end_)%nat ->
  fingerprints_from fuel end_ tokens !! i =
    if decide (end_ + i * BlockTokens <= length tokens)%nat
    then Some (fingerprint_at tokens (end_ + i * BlockTokens)) else None.
Proof.
  unfold BlockTokens. revert end_ i. induction fuel as [|fuel IH]; intros end_ i Hf; cbn [fingerprints_from].
  - rewrite decide_False by lia. done.
  - destruct (decide (end_ <= length tokens)%nat).
    + destruct i as [|i]; cbn [lookup list_lookup].
      * rewrite decide_True by lia. do 2 f_equal. lia.
      * rewrite IH by (unfold BlockTokens; lia). unfold BlockTokens.
        replace (end_ + 16 + i * 16)%nat with (end_ + S i * 16)%nat by lia. done.
    + rewrite decide_False by lia. done.
Qed.

Lemma Fingerprints_lookup (tokens : list string) (i : nat) :
  Fingerprints tokens !! i =
    if decide (S i * BlockTokens <= length tokens)%nat
    then Some (fingerprint_at tokens (S i * BlockTokens)) else None.
Proof.
  unfold Fingerprints. rewrite fingerprints_from_lookup; [done|]. unfold BlockTokens; lia.
Qed.

Lemma elem_of_Fingerprints (tokens : list string) (f : PrefixFingerprint) :
  f ∈ Fingerprints tokens <->
  exists i, (S i * BlockTokens <= length tokens)%nat /\ f = fingerprint_at tokens (S i * BlockTokens).
Proof.
  rewrite list_elem_of_lookup. setoid_rewrite Fingerprints_lookup.
  split; intros [i Hi]; exists i; case_decide; naive_solver.
Qed.

(** ** The cache map holds the largest reported count of every digest *)
Definition cached_count (cached : list PrefixFingerprint) (sha : string) : Z :=
  foldr (fun f n => if (SHA256 f =? sha)%string then Z.max (TokenCount f) n else n) 0 cached.

Lemma cache_get_step (cache : gmap string Z) (f : PrefixFingerprint) (sha : string) :
  sha <> "" ->
  cache_get (cache_step cache f) sha =
    if (SHA256 f =? sha)%string then Z.max (TokenCount f) (cache_get cache sha)
    else cache_get cache sha.
Proof.
  intros Hsha. unfold cache_step, cache_get. repeat case_if; bool_facts; subst;
    try (rewrite lookup_insert_eq; simpl; lia);
    try (by rewrite lookup_insert_ne); try done.
  match goal with H : _ \/ _ |- _ => destruct H end; bool_facts; [done|lia].
Qed.

Lemma cache_get_foldl (cached : list PrefixFingerprint) (cache : gmap string Z) (sha : string) :
  sha <> "" -> 0 <= cache_get cache sha ->
  cache_get (foldl cache_step cache cached) sha =
    Z.max (cache_get cache sha) (cached_count cached sha).
Proof.
  intros Hsha. revert cache. induction cached as [|f cached IH]; intros cache Hc; simpl; [lia|].
  rewrite IH; rewrite cache_get_step by done; case_if; lia.
Qed.

Lemma cache_get_foldl_empty (cached : list PrefixFingerprint) (cache : gmap string Z) :
  cache_get cache "" = 0 -> cache_get (foldl cache_step cache cached) "" = 0.
Proof.
  revert cache. induction cached as [|f cached IH]; intros cache Hc; simpl; [done|].
  apply IH. unfold cache_step, cache_get in *. case_if; [|done]. bool_facts.
  by rewrite lookup_insert_ne.
Qed.

Lemma cached_count_nonneg (cached : list PrefixFingerprint) (sha : string) :
  0 <= cached_count cached sha.
Proof. unfold cached_count. induction cached; simpl; [lia|]. case_if; lia. Qed.

Lemma cache_of_get (cached : list PrefixFingerprint) (sha : string) :
  sha <> "" -> cache_get (foldl cache_step ∅ cached) sha = cached_count cached sha.
Proof.
  intros Hsha. pose proof (cached_count_nonneg cached sha).
  rewrite cache_get_foldl; unfold cache_get; rewrite ?lookup_empty; simpl; done || lia.
Qed.

Lemma cache_of_get_empty (cached : list PrefixFingerprint) :
  cache_get (foldl cache_step ∅ cached) "" = 0.
Proof. by apply cache_get_foldl_empty. Qed.

(** ** The longest match *)

(** A request fingerprint counts as matched when the worker reports its digest
    and the largest count it reports for that digest is the same. *)
Definition matched (cached : list PrefixFingerprint) (f : PrefixFingerprint) : Prop :=
  SHA256 f <> "" /\ 0 < TokenCount f /\ cached_count cached (SHA256 f) = TokenCount f.

Lemma matched_cache (cached : list PrefixFingerprint) (f : PrefixFingerprint) :
  matched cached f <->
  0 < TokenCount f /\ cache_get (foldl cache_step ∅ cached) (SHA256 f) = TokenCount f.
Proof.
  unfold matched. destruct (decide (SHA256 f = "")) as [He|He].
  - rewrite He, cache_of_get_empty. split; [naive_solver|lia].
  - rewrite cache_of_get by done. naive_solver.
Qed.

Lemma longest_step_foldl (cache : gmap string Z) (request : list PrefixFingerprint) (n : Z) :
  let m := foldl (longest_step cache) n request in
  n <= m /\
  (m = n \/ exists f, f ∈ request /\ TokenCount f = m /\ cache_get cache (SHA256 f) = m) /\
  (forall f, f ∈ request -> cache_get cache (SHA256 f) = TokenCount f -> TokenCount f <= m).
Proof.
  revert n. induction request as [|f request IH]; intros n; simpl.
  - split_and!; [lia|by left|]. intros f Hf. by apply not_elem_of_nil in Hf.
  - destruct (IH (longest_step cache n f)) as (Hle & Hex & Hall).
    assert (n <= longest_step cache n f /\
      (longest_step cache n f = n \/
       (longest_step cache n f = TokenCount f /\ cache_get cache (SHA256 f) = TokenCount f)) /\
      (cache_get cache (SHA256 f) = TokenCount f -> TokenCount f <= longest_step cache n f))
      as (H1 & H2 & H3).
    { unfold longest_step. case_if; bool_facts; split_and!; try lia; destruct_or?; bool_facts; lia. }
    split_and!; [lia| |].
    + destruct Hex as [Hm|(g & Hg & Hc & Hm)].
      * rewrite Hm. destruct H2 as [H2|[H2 Hc]]; [by left|right].
        exists f. split_and!; [left|congruence|congruence].
      * right. exists g. split_and!; [by right|done..].
    + intros g [-> | Hg]%elem_of_cons Hm; [|by apply Hall]. specialize (H3 Hm). lia.
Qed.

Lemma LongestMatch_spec (request cached : list PrefixFingerprint) :
  let n := LongestMatch request cached in
  0 <= n /\
  (n = 0 \/ exists f, f ∈ request /\ matched cached f /\ TokenCount f = n) /\
  (forall f, f ∈ request -> matched cached f -> TokenCount f <= n).
Proof.
  destruct (longest_step_foldl (foldl cache_step ∅ cached) request 0) as (Hle & Hex & Hall).
  fold (LongestMatch request cached) in *. simpl in *. split_and!; [done| |].
  - destruct (decide (LongestMatch request cached = 0)) as [|Hne]; [by left|].
    destruct Hex as [Hm|(f & Hf & Hc & Hm)]; [done|]. right. exists f.
    split_and!; [done| |done]. apply matched_cache. split; [lia|congruence].
  - intros f Hf Hm. apply Hall; [done|]. by apply matched_cache.
Qed.

Lemma cached_count_elem (cached : list PrefixFingerprint) (sha : string) :
  cached_count cached sha = 0 \/
  exists f, f ∈ cached /\ SHA256 f = sha /\ TokenCount f = cached_count cached sha.
Proof.
  induction cached as [|f cached IH]; simpl; [by left|]. case_if; bool_facts.
  - destruct (Z.max_spec (TokenCount f) (cached_count cached sha)) as [[_ ->]|[_ ->]].
    + destruct IH as [IH|(g & Hg & IH)]; [by left|right]. exists g. split; [by right|done].
    + right. exists f. split_and!; [left|done..].
  - destruct IH as [IH|(g & Hg & IH)]; [by left|right]. exists g. split; [by right|done].
Qed.

Lemma cached_count_ge (cached : list PrefixFingerprint) (f : PrefixFingerprint) :
  f ∈ cached -> TokenCount f <= cached_count cached (SHA256 f).
Proof.
  induction cached as [|g cached IH]; [by intros ?%not_elem_of_nil|].
  intros [-> | Hf]%elem_of_cons; simpl.
  - rewrite String.eqb_refl. lia.
  - specialize (IH Hf). case_if; lia.
Qed.

(** The digest of a cumulative prefix of [16 * k] tokens. *)
Definition block_text (tokens : list string) (k : nat) : string :=
  Join (take (k * BlockTokens) tokens) unit_separator.

Definition block_texts (tokens : list string) : list string :=
  block_text tokens <$> seq 1 (length tokens / BlockTokens).

(** No two of the listed texts have one digest. *)
Definition collision_free (texts : list string) : Prop :=
  forall x y, x ∈ texts -> y ∈ texts -> sha256_hex x = sha256_hex y -> x = y.

(** The reported metadata gives every digest one token count. *)
Definition consistent (cached : list PrefixFingerprint) : Prop :=
  forall f g, f ∈ cached -> g ∈ cached -> SHA256 f = SHA256 g -> TokenCount f = TokenCount g.

Lemma block_bound (n k : nat) : (k * BlockTokens <= n)%nat <-> (k <= n / BlockTokens)%nat.
Proof. unfold BlockTokens. split; intros; [apply Nat.div_le_lower_bound; lia|].
  pose proof (Nat.Div0.mul_div_le n 16). lia. Qed.

Lemma matched_consistent (cached : list PrefixFingerprint) (f : PrefixFingerprint) :
  consistent cached -> matched cached f <-> SHA256 f <> "" /\ 0 < TokenCount f /\ f ∈ cached.
Proof.
  intros Hc. unfold matched. split; intros (Hs & Hp & Hm); split_and!; try done.
  - destruct (cached_count_elem cached (SHA256 f)) as [|(g & Hg & Hsg & Htg)]; [lia|].
    destruct f, g; simpl in *. by simplify_eq.
  - destruct (cached_count_elem cached (SHA256 f)) as [Hz|(g & Hg & Hsg & Htg)].
    + apply cached_count_ge in Hm. lia.
    + by rewrite <- Htg, (Hc g f).
Qed.

Lemma elem_of_block_texts (tokens : list string) (k : nat) :
  (0 < k)%nat -> (k * BlockTokens <= length tokens)%nat -> block_text tokens k ∈ block_texts tokens.
Proof.
  intros H0 Hk. apply list_elem_of_fmap. exists k. split; [done|].
  apply elem_of_seq. apply block_bound in Hk. lia.
Qed.

(** Equal block texts mean equal prefixes when the tokens hold no separator. *)
Lemma block_text_inj (t1 t2 : list string) (i j : nat) :
  Forall (fun s => no_char "031" s = true) (t1 ++ t2) ->
  (0 < i)%nat -> (i * BlockTokens <= length t1)%nat ->
  (0 < j)%nat -> (j * BlockTokens <= length t2)%nat ->
  block_text t1 i = block_text t2 j ->
  i = j /\ take (i * BlockTokens) t1 = take (j * BlockTokens) t2.
Proof.
  intros [Hf1 Hf2]%Forall_app Hi Hi' Hj Hj' Heq. unfold BlockTokens in *.
  apply Join_inj in Heq as Ht; unfold BlockTokens in *.
  - split; [|done]. apply (f_equal length) in Ht. rewrite !length_take in Ht. lia.
  - intros Hn%(f_equal length). rewrite length_take in Hn. simpl in Hn. lia.
  - intros Hn%(f_equal length). rewrite length_take in Hn. simpl in Hn. lia.
  - by apply Forall_take.
  - by apply Forall_take.
Qed.

(** ** Properties *)

(** [Fingerprints] emits one fingerprint per full block of 16 tokens, in order:
    the count of the cumulative prefix and the digest of its joined text. *)
Theorem Fingerprints_exact (tokens : list string) :
  length (Fingerprints tokens) = (length tokens / BlockTokens)%nat /\
  forall i, (i < length tokens / BlockTokens)%nat ->
    Fingerprints tokens !! i = Some
      {| TokenCount := wrap_u32 (16 * Z.of_nat (S i));
         SHA256 := sha256_hex (block_text tokens (S i)) |}.
Proof.
  assert (forall i, (i < length tokens / BlockTokens)%nat <->
                    (S i * BlockTokens <= length tokens)%nat) as Hb.
  { intros i. rewrite block_bound. lia. }
  split.
  - apply Nat.le_antisymm; apply Nat.nlt_ge; intros Hlt.
    + apply lookup_lt_is_Some in Hlt as [f Hf]. rewrite Fingerprints_lookup in Hf.
      case_decide as Hd; [|done]. apply Hb in Hd. lia.
    + apply Hb in Hlt.
      pose proof (lookup_ge_None_2 (Fingerprints tokens) _ (Nat.le_refl _)) as Hn.
      rewrite Fingerprints_lookup, decide_True in Hn; done.
  - intros i Hi%Hb. rewrite Fingerprints_lookup, decide_True by done.
    unfold fingerprint_at, block_text, BlockTokens. do 3 f_equal. lia.
Qed.

(** For metadata that gives each digest one count, the match is the largest
    token count among the fingerprints the request and the worker share. *)
Lemma LongestMatch_max_common (request cached : list PrefixFingerprint) :
  consistent cached -> Forall (fun f => SHA256 f <> "") cached ->
  let n := LongestMatch request cached in
  (n = 0 \/ exists f, f ∈ request /\ f ∈ cached /\ TokenCount f = n) /\
  (forall f, f ∈ request -> f ∈ cached -> TokenCount f <= n).
Proof.
  intros Hc Hne. destruct (LongestMatch_spec request cached) as (H0 & Hex & Hall). split.
  - destruct Hex as [|(f & Hf & Hm & Ht)]; [by left|right].
    apply matched_consistent in Hm; [|done]. naive_solver.
  - intros f Hf Hcf. destruct (decide (TokenCount f <= 0)); [lia|].
    apply Hall; [done|]. apply matched_consistent; [done|].
    rewrite list.Forall_forall in Hne. split_and!; [exact (Hne f Hcf)|lia|done].
Qed.

Lemma fingerprint_at_block (tokens : list string) (k : nat) :
  is_u32 (Z.of_nat (k * BlockTokens)) ->
  fingerprint_at tokens (k * BlockTokens) =
    {| TokenCount := Z.of_nat (k * BlockTokens); SHA256 := sha256_hex (block_text tokens k) |}.
Proof. intros Hk. unfold fingerprint_at. by rewrite wrap_u32_id. Qed.

(** The blocks of a conversation, as a request and as worker metadata. *)
Section Conversation.
Context (t1 t2 : list string).
Context (Hsep : Forall (fun s => no_char "031" s = true) (t1 ++ t2)).
Context (Hfree : collision_free (block_texts t1 ++ block_texts t2)).
Context (Hsize1 : Z.of_nat (length t1) < 2 ^ 32) (Hsize2 : Z.of_nat (length t2) < 2 ^ 32).

Lemma conversation_block (i : nat) (t : list string) :
  (t = t1 \/ t = t2) -> (S i * BlockTokens <= length t)%nat ->
  is_u32 (Z.of_nat (S i * BlockTokens)) /\
  block_text t (S i) ∈ block_texts t1 ++ block_texts t2.
Proof.
  intros Ht Hi. unfold is_u32. split.
  - destruct Ht; subst t; lia.
  - apply elem_of_app. destruct Ht; subst t; [left|right]; apply elem_of_block_texts; lia.
Qed.

Lemma conversation_consistent : consistent (Fingerprints t1).
Proof.
  intros f g (i & Hi & ->)%elem_of_Fingerprints (j & Hj & ->)%elem_of_Fingerprints.
  destruct (conversation_block i t1) as [Hui Hti]; [by left|done|].
  destruct (conversation_block j t1) as [Huj Htj]; [by left|done|].
  rewrite !fingerprint_at_block by done. cbn [SHA256 TokenCount]. intros Hs.
  apply Hfree in Hs; [|done..].
  apply block_text_inj in Hs as [Hs _]; [by rewrite Hs| |lia|done|lia|done].
  apply Forall_app in Hsep as [? _]. by apply Forall_app.
Qed.

Lemma conversation_common (f : PrefixFingerprint) :
  f ∈ Fingerprints t2 /\ f ∈ Fingerprints t1 <->
  exists k, (0 < k)%nat /\ (k * BlockTokens <= length t1)%nat /\ (k * BlockTokens <= length t2)%nat /\
    take (k * BlockTokens) t1 = take (k * BlockTokens) t2 /\ f = fingerprint_at t1 (k * BlockTokens).
Proof.
  rewrite !elem_of_Fingerprints. split.
  - intros [(j & Hj & ->) (i & Hi & Heq)].
    destruct (conversation_block i t1) as [Hui Hti]; [by left|done|].
    destruct (conversation_block j t2) as [Huj Htj]; [by right|done|].
    rewrite !fingerprint_at_block in Heq by done. injection Heq as _ Hs.
    symmetry in Hs. apply Hfree in Hs; [|done..].
    apply block_text_inj in Hs as [[=->] Htake]; [|done|lia|done|lia|done].
    exists (S j). split_and!; [lia|done..|].
    unfold fingerprint_at. by rewrite Htake.
  - intros (k & H0 & H1 & H2 & Htake & ->). destruct k as [|k]; [lia|]. split.
    + exists k. split; [done|]. unfold fingerprint_at. by rewrite Htake.
    + by exists k.
Qed.
End Conversation.

(** C23: A worker that holds the fingerprints of [t1] matches a request for [t2] on
    exactly the longest common prefix of full blocks, when SHA-256 does not
    collide on the texts involved and no token holds the separator. *)
Theorem LongestMatch_common_prefix (t1 t2 : list string) :
  Forall (fun s => no_char "031" s = true) (t1 ++ t2) ->
  collision_free (block_texts t1 ++ block_texts t2) ->
  Z.of_nat (length t1) < 2 ^ 32 -> Z.of_nat (length t2) < 2 ^ 32 ->
  exists k, LongestMatch (Fingerprints t2) (Fingerprints t1) = Z.of_nat (k * BlockTokens) /\
    take (k * BlockTokens) t1 = take (k * BlockTokens) t2 /\
    (k * BlockTokens <= length t1)%nat /\ (k * BlockTokens <= length t2)%nat /\
    forall j, (j * BlockTokens <= length t1)%nat -> (j * BlockTokens <= length t2)%nat ->
      take (j * BlockTokens) t1 = take (j * BlockTokens) t2 -> (j <= k)%nat.
Proof.
  intros Hsep Hfree Hs1 Hs2.
  assert (forall j f, (j * BlockTokens <= length t1)%nat -> f = fingerprint_at t1 (j * BlockTokens) ->
    TokenCount f = Z.of_nat (j * BlockTokens)) as Hcount.
  { intros j f Hj ->. rewrite fingerprint_at_block; [done|]. unfold is_u32. lia. }
  destruct (LongestMatch_spec (Fingerprints t2) (Fingerprints t1)) as (Hpos & Hex & Hall).
  pose proof (conversation_consistent t1 t2 Hsep Hfree Hs1 Hs2) as Hcons.
  assert (forall j, (0 < j)%nat -> (j * BlockTokens <= length t1)%nat -> (j * BlockTokens <= length t2)%nat ->
    take (j * BlockTokens) t1 = take (j * BlockTokens) t2 ->
    Z.of_nat (j * BlockTokens) <= LongestMatch (Fingerprints t2) (Fingerprints t1)) as Hub.
  { intros j Hj0 H1 H2 Ht. rewrite <- (Hcount j (fingerprint_at t1 (j * BlockTokens))) by done.
    destruct (proj2 (conversation_common t1 t2 Hsep Hfree Hs1 Hs2 (fingerprint_at t1 (j * BlockTokens)))) as [Hf2 Hf1].
    { by exists j. }
    apply Hall; [done|]. apply matched_consistent; [done|].
    split_and!; [apply sha256_hex_nonempty| |done]. rewrite (Hcount j) by done. unfold BlockTokens. lia. }
  destruct Hex as [Hz|(f & Hf & Hm & Ht)].
  - exists 0%nat. rewrite Hz. split_and!; [done|done|lia|lia|].
    intros [|j] H1 H2 Htk; [lia|]. specialize (Hub (S j) ltac:(lia) H1 H2 Htk). unfold BlockTokens in *. lia.
  - apply matched_consistent in Hm as (_ & _ & Hf1); [|done].
    destruct (proj1 (conversation_common t1 t2 Hsep Hfree Hs1 Hs2 f)) as (k & H0 & H1 & H2 & Htk & ->); [done|].
    exists k. rewrite <- Ht, (Hcount k) by done. split_and!; try done.
    intros [|j] H1' H2' Htk'; [lia|]. specialize (Hub (S j) ltac:(lia) H1' H2' Htk').
    rewrite <- Ht, (Hcount k) in Hub by done. unfold BlockTokens in *. lia.
Qed.

(** ** Witness *)
Definition collision_freeb (texts : list string) : bool :=
  let ds := (fun x => (x, sha256_hex x)) <$> texts in
  forallb (fun a => forallb (fun b => negb (a.2 =? b.2)%string || (a.1 =? b.1)%string) ds) ds.

Lemma collision_freeb_ok (texts : list string) : collision_freeb texts = true -> collision_free texts.
Proof.
  unfold collision_freeb. intros H x y Hx Hy Hd. rewrite forallb_forall in H.
  assert (forall z, z ∈ texts -> In (z, sha256_hex z) ((fun x => (x, sha256_hex x)) <$> texts)) as Hin.
  { intros z Hz. apply list_elem_of_In, list_elem_of_fmap. eauto. }
  specialize (H _ (Hin x Hx)). rewrite forallb_forall in H. specialize (H _ (Hin y Hy)). cbn [fst snd] in H.
  rewrite Hd, String.eqb_refl in H. by apply String.eqb_eq in H.
Qed.

(** Two conversations of two blocks that differ in the last token. *)
Definition ex_tokens (last : string) : list string := replicate 16 "a" ++ replicate 15 "b" ++ [last].

Lemma LongestMatch_common_prefix_witness : exists k,
  LongestMatch (Fingerprints (ex_tokens "x")) (Fingerprints (ex_tokens "y")) = Z.of_nat (k * BlockTokens) /\
  k = 1%nat.
Proof.
  destruct (LongestMatch_common_prefix (ex_tokens "y") (ex_tokens "x")) as (k & H & Ht & Hk & _ & Hmax).
  - apply Forall_forallb. vm_compute. reflexivity.
  - apply collision_freeb_ok. vm_compute. reflexivity.
  - vm_compute. reflexivity.
  - vm_compute. reflexivity.
  - exists k. split; [exact H|].
    specialize (Hmax 1%nat ltac:(vm_compute; lia) ltac:(vm_compute; lia) eq_refl).
    destruct k as [|[|[|k]]]; [lia|done|discriminate Ht|].
    exfalso. cbn in Hk. lia.
Defined.
