(* ===== verification/Admission.v ===== *)
(** * Token-aware admission: [src/internal/admission/admission.go]

    The controller's global in-flight counter and tenant token buckets, with the
    leases it hands out.  A lease is an index into the heap of allocated leases,
    because the same [*Lease] may be released from several places; its
    [sync.Once] is the [released] flag.  The mutex makes every operation one
    atomic step. *)

From S2P Require Import Prelude GoFloat Model Interfaces.

#[local] Open Scope Z_scope.
#[local] Open Scope go_scope.

Record Config := {
  GlobalInFlightTokens : Z;
  TenantRatePerSecond : float64;
  TenantBurstTokens : float64;
}.

Record bucket := { tokens : float64; last : Time }.

Record Lease := { cost : Z; released : bool }.

Record Controller := {
  config : Config;
  used : Z;
  buckets : gmap string bucket;
  leases : list Lease;
}.

Inductive AdmissionError :=
| ErrZeroCost        (* reservation cost must be positive *)
| ErrTenantLimit
| ErrGlobalLimit.

#[export] Instance AdmissionError_eq_dec : EqDecision AdmissionError.
Proof. solve_decision. Defined.

Definition New (c : Config) : result string Controller :=
  if (GlobalInFlightTokens c =? 0) || fle (TenantRatePerSecond c) fzero
     || fle (TenantBurstTokens c) fzero
  then Err "admission limits must be positive"
  else Ok {| config := c; used := 0; buckets := ∅; leases := [] |}.

(** The package's own [min]. *)
Definition min (a b : float64) : float64 := if a <f b then a else b.

Definition zero_bucket : bucket := {| tokens := fzero; last := 0 |}.

(** The tenant's bucket after the elapsed time is credited; a bucket never used
    before starts full. *)
Definition refill (c : Config) (b : bucket) (now : Time) : bucket :=
  if is_zero_time (last b)
  then {| tokens := TenantBurstTokens c; last := now |}
  else {| tokens := min (TenantBurstTokens c)
                        (tokens b +f dur_seconds (time_sub now (last b)) *f TenantRatePerSecond c);
          last := now |}.

Definition set_bucket (c : Controller) (tenant : string) (b : bucket) : Controller :=
  {| config := config c; used := used c; buckets := <[tenant := b]> (buckets c);
     leases := leases c |}.

Definition tenant_key (tenant : string) : string :=
  if (tenant =? "")%string then "public" else tenant.

Definition Reserve (c : Controller) (now : Time) (tenant : string) (cost : Z) :
  Controller * result AdmissionError nat :=
  if cost =? 0 then (c, Err ErrZeroCost)
  else
    let tenant := tenant_key tenant in
    let b := refill (config c) (default zero_bucket (buckets c !! tenant)) now in
    if tokens b <f float_of_Z cost then (set_bucket c tenant b, Err ErrTenantLimit)
    else if GlobalInFlightTokens (config c) -u64 used c <? cost
    then (set_bucket c tenant b, Err ErrGlobalLimit)
    else
      let b := {| tokens := tokens b -f float_of_Z cost; last := last b |} in
      ({| config := config c;
          used := used c +u64 cost;
          buckets := <[tenant := b]> (buckets c);
          leases := leases c ++ [{| cost := cost; released := false |}] |},
       Ok (length (leases c))).

Definition mark_released (l : Lease) : Lease := {| cost := cost l; released := true |}.

(** [Release] on a lease that may be nil; [Err] is the panic. *)
Definition Release (c : Controller) (l : option nat) : result string Controller :=
  match l ≫= fun i => pair i <$> leases c !! i with
  | None => Ok c
  | Some (i, lease) =>
      if released lease then Ok c
      else if used c <? cost lease then Err "admission reservation underflow"
      else Ok {| config := config c;
                 used := used c - cost lease;
                 buckets := buckets c;
                 leases := <[i := mark_released lease]> (leases c) |}
  end.

Definition InFlight (c : Controller) : Z := used c.

(** ** Runs of the controller *)
Inductive op :=
| OReserve (now : Time) (tenant : string) (cost : Z)
| ORelease (l : option nat).

Definition apply_op (c : Controller) (o : op) : result string Controller :=
  match o with
  | OReserve now tenant cost => Ok (Reserve c now tenant cost).1
  | ORelease l => Release c l
  end.

Inductive step : Controller -> Controller -> Prop :=
| step_reserve c now tenant cost :
    is_u64 cost -> step c (Reserve c now tenant cost).1
| step_release c l c' :
    Release c l = Ok c' -> step c c'.

Definition reachable (cfg : Config) (c : Controller) : Prop :=
  exists c0, New cfg = Ok c0 /\ rtc step c0 c.

(** The tokens held by the leases that were not released. *)
Definition outstanding (l : Lease) : Z := if released l then 0 else cost l.
Definition held (c : Controller) : Z := sum_list_Z (outstanding <$> leases c).

Record inv (cfg : Config) (c : Controller) : Prop := {
  inv_config : config c = cfg;
  inv_global : is_u64 (GlobalInFlightTokens cfg);
  inv_costs : Forall (fun l => 0 < cost l) (leases c);
  inv_used : used c = held c;
  inv_limit : 0 <= used c <= GlobalInFlightTokens cfg;
}.

Lemma outstanding_nonneg (ls : list Lease) :
  Forall (fun l => 0 < cost l) ls -> Forall (fun z => 0 <= z) (outstanding <$> ls).
Proof.
  intros H. apply Forall_fmap. eapply Forall_impl; [|exact H].
  simpl. intros l Hl. unfold outstanding. case_if; lia.
Qed.

Lemma outstanding_lookup (ls : list Lease) (i : nat) (l : Lease) :
  ls !! i = Some l -> released l = false -> (outstanding <$> ls) !! i = Some (cost l).
Proof. intros Hl Hr. rewrite list_lookup_fmap, Hl. simpl. unfold outstanding. by rewrite Hr. Qed.

Lemma held_ge (cfg : Config) (c : Controller) (i : nat) (l : Lease) :
  inv cfg c -> leases c !! i = Some l -> released l = false -> cost l <= used c.
Proof.
  intros Hi Hl Hr. rewrite (inv_used _ _ Hi). unfold held.
  eapply (sum_list_Z_elem _ i); [apply outstanding_nonneg, Hi|].
  by apply outstanding_lookup.
Qed.

Lemma admission_inv_new (cfg : Config) (c : Controller) :
  is_u64 (GlobalInFlightTokens cfg) -> New cfg = Ok c -> inv cfg c.
Proof.
  unfold New, is_u64. intros Hu H. case_if; [done|]. simplify_eq.
  split; simpl; try done; lia.
Qed.

Lemma reserve_ok (cfg : Config) (c c' : Controller) (now : Time) (t : string) (k : Z) (i : nat) :
  inv cfg c -> is_u64 k -> Reserve c now t k = (c', Ok i) ->
  0 < k /\ used c + k <= GlobalInFlightTokens cfg /\ used c' = used c + k /\
  i = length (leases c) /\ leases c' = leases c ++ [{| cost := k; released := false |}] /\
  config c' = cfg.
Proof.
  intros [Hcfg Hg _ _ Hl] Hk H. unfold Reserve in H. rewrite Hcfg in H.
  unfold is_u64 in *. repeat (case_if; [done|]). simplify_eq/=. bool_facts.
  repeat match goal with H : context [wrap_u64 _] |- _ =>
    rewrite wrap_u64_id in H by (unfold is_u64; lia) end.
  rewrite wrap_u64_id by (unfold is_u64; lia). split_and!; done || lia.
Qed.

Lemma reserve_err (c c' : Controller) (now : Time) (t : string) (k : Z) (e : AdmissionError) :
  Reserve c now t k = (c', Err e) ->
  used c' = used c /\ leases c' = leases c /\ config c' = config c.
Proof. unfold Reserve. intros H. repeat case_if; by simplify_eq. Qed.

Lemma inv_reserve (cfg : Config) (c : Controller) (now : Time) (t : string) (k : Z) :
  inv cfg c -> is_u64 k -> inv cfg (Reserve c now t k).1.
Proof.
  intros Hi Hk. pose proof Hi as [Hcfg Hg Hcosts Hused Hl].
  destruct (Reserve c now t k) as [c' [i|e]] eqn:H; simpl.
  - destruct (reserve_ok _ _ _ _ _ _ _ Hi Hk H) as (Hk0 & Hle & Hu & _ & Hls & Hc').
    split; rewrite ?Hls, ?Hu; try done; [| |lia].
    + apply Forall_app. by repeat constructor.
    + unfold held in *. rewrite Hls, fmap_app, sum_list_Z_app.
      change (sum_list_Z (outstanding <$> [_])) with (k + 0). lia.
  - destruct (reserve_err _ _ _ _ _ _ H) as (Hu & Hls & Hc').
    split; unfold held; rewrite ?Hu, ?Hls, ?Hc'; done.
Qed.

Lemma release_some (cfg : Config) (c : Controller) (i : nat) (l : Lease) :
  inv cfg c -> leases c !! i = Some l -> released l = false ->
  Release c (Some i) = Ok
    {| config := config c; used := used c - cost l; buckets := buckets c;
       leases := <[i := mark_released l]> (leases c) |}.
Proof.
  intros Hi Hl Hr. unfold Release. simpl. rewrite Hl. simpl. rewrite Hr.
  pose proof (held_ge _ _ _ _ Hi Hl Hr). case_if; [bool_facts; lia|done].
Qed.

Lemma inv_release (cfg : Config) (c c' : Controller) (l : option nat) :
  inv cfg c -> Release c l = Ok c' -> inv cfg c'.
Proof.
  intros Hi. pose proof Hi as [Hcfg Hg Hcosts Hused Hlim].
  destruct l as [i|]; [|intros [= <-]; done].
  destruct (leases c !! i) as [l|] eqn:Hl; [|unfold Release; simpl; rewrite Hl; by intros [= <-]].
  destruct (released l) eqn:Hr; [unfold Release; simpl; rewrite Hl; simpl; rewrite Hr; by intros [= <-]|].
  rewrite (release_some _ _ _ _ Hi Hl Hr). intros [= <-].
  pose proof (held_ge _ _ _ _ Hi Hl Hr).
  pose proof (Forall_lookup_1 _ _ _ _ Hcosts Hl) as Hp. simpl in Hp.
  split; simpl; try done; [| |lia].
  - by apply Forall_insert.
  - unfold held in *; simpl. rewrite list_fmap_insert.
    rewrite (sum_list_Z_insert _ i (cost l)) by (by apply outstanding_lookup).
    change (outstanding (mark_released l)) with 0. lia.
Qed.

Lemma admission_inv_step (cfg : Config) (c c' : Controller) : inv cfg c -> step c c' -> inv cfg c'.
Proof. intros Hi Hs. destruct Hs; [by apply inv_reserve|by eapply inv_release]. Qed.

Lemma admission_reachable_inv (cfg : Config) (c : Controller) :
  is_u64 (GlobalInFlightTokens cfg) -> reachable cfg c -> inv cfg c.
Proof.
  intros Hu (c0 & H0 & Hr). eapply rtc_invariant; [apply admission_inv_step| |exact Hr].
  by apply admission_inv_new.
Qed.

(** ** Properties *)

(** C17: Throughout every run the in-flight counter is the sum of the costs of the
    leases not yet released, and never exceeds the configured limit. *)
Theorem admission_accounting (cfg : Config) (c : Controller) :
  is_u64 (GlobalInFlightTokens cfg) -> reachable cfg c ->
  InFlight c = held c /\ 0 <= InFlight c <= GlobalInFlightTokens cfg.
Proof. intros Hu Hr. destruct (admission_reachable_inv _ _ Hu Hr). done. Qed.

(** C18: [Release] never panics; the first release of a lease gives its cost back,
    every later one (and that of a nil lease) changes nothing. *)
Theorem release_exactly_once (cfg : Config) (c : Controller) (i : nat) (l : Lease) :
  is_u64 (GlobalInFlightTokens cfg) -> reachable cfg c -> leases c !! i = Some l ->
  Release c None = Ok c /\
  exists c1, Release c (Some i) = Ok c1 /\
    InFlight c1 = InFlight c - outstanding l /\
    leases c1 !! i = Some (mark_released l) /\
    buckets c1 = buckets c /\
    Release c1 (Some i) = Ok c1.
Proof.
  intros Hu Hreach Hl. pose proof (admission_reachable_inv _ _ Hu Hreach) as Hi. split; [done|].
  pose proof (lookup_lt_Some _ _ _ Hl).
  destruct (released l) eqn:Hr.
  - assert (Release c (Some i) = Ok c) as Hc by (unfold Release; simpl; rewrite Hl; simpl; by rewrite Hr).
    exists c. unfold outstanding, mark_released. rewrite Hr. split_and!; try done; [lia|].
    rewrite Hl. destruct l; simpl in *; by subst.
  - eexists. split; [by apply (release_some cfg)|]. unfold outstanding, InFlight; simpl. rewrite Hr.
    rewrite list_lookup_insert_eq by done. split_and!; try done.
    unfold Release; simpl. rewrite list_lookup_insert_eq by done. done.
Qed.

(** The bucket level a reservation is judged against. *)
Definition level (c : Controller) (now : Time) (tenant : string) : bucket :=
  refill (config c) (default zero_bucket (buckets c !! tenant_key tenant)) now.

(** C19: A reservation succeeds exactly when the cost is positive, the refilled tenant
    bucket covers it and the global budget has room; only then is the bucket
    debited and the counter raised.  A refusal keeps the counter and the leases
    and charges nothing; the zero-cost refusal touches no bucket at all. *)
Theorem reserve_charges_only_on_success (cfg : Config) (c c' : Controller) (now : Time)
    (t : string) (k : Z) (r : result AdmissionError nat) :
  is_u64 (GlobalInFlightTokens cfg) -> reachable cfg c -> is_u64 k ->
  Reserve c now t k = (c', r) ->
  let b := level c now t in
  match r with
  | Ok i =>
      0 < k /\ (tokens b <f float_of_Z k) = false /\ InFlight c + k <= GlobalInFlightTokens cfg /\
      InFlight c' = InFlight c + k /\
      buckets c' = <[tenant_key t := {| tokens := tokens b -f float_of_Z k; last := last b |}]> (buckets c) /\
      leases c' !! i = Some {| cost := k; released := false |} /\ leases c !! i = None
  | Err ErrZeroCost => k = 0 /\ c' = c
  | Err ErrTenantLimit =>
      (tokens b <f float_of_Z k) = true /\ c' = set_bucket c (tenant_key t) b
  | Err ErrGlobalLimit =>
      (tokens b <f float_of_Z k) = false /\ GlobalInFlightTokens cfg < InFlight c + k /\
      c' = set_bucket c (tenant_key t) b
  end.
Proof.
  intros Hu Hreach Hk H. pose proof (admission_reachable_inv _ _ Hu Hreach) as Hi.
  pose proof Hi as [Hcfg _ _ _ Hl]. unfold is_u64, InFlight in *. destruct r as [i|e].
  - destruct (reserve_ok _ _ _ _ _ _ _ Hi Hk H) as (H0 & Hle & Hu' & -> & Hls & _).
    unfold Reserve in H. repeat (case_if; [done|]). simplify_eq/=. bool_facts.
    split_and!; try done.
    + by rewrite lookup_app_r, Nat.sub_diag by lia.
    + by apply lookup_ge_None_2.
  - unfold Reserve in H. rewrite Hcfg in H. fold (level c now t) in H.
    repeat (case_if; [simplify_eq; bool_facts; unfold level; rewrite ?Hcfg|]); try done.
    + split; [done|]. split; [|done].
      match goal with H : context [wrap_u64 _] |- _ =>
        rewrite wrap_u64_id in H by (unfold is_u64; lia) end. lia.
Qed.

(** ** The controller as the gateway's limiter *)
Definition held_by (c : Controller) (i : nat) : option Z :=
  l ← leases c !! i; if released l then None else Some (cost l).

#[global] Instance Controller_limiter : Limiter Controller AdmissionError := {|
  lim_reserve := Reserve;
  lim_release := Release;
  lim_in_flight := InFlight;
  lim_ok c := inv (config c) c;
  lim_held := held_by;
|}.

Lemma held_by_ge (c : Controller) (i : nat) : (length (leases c) <= i)%nat -> held_by c i = None.
Proof. intros H. unfold held_by. by rewrite lookup_ge_None_2. Qed.

#[global] Instance Controller_limiter_laws : LimiterLaws Controller AdmissionError.
Proof.
  split; simpl.
  - intros c c' now t k i Hi Hk H. pose proof (inv_reserve _ _ now t k Hi Hk) as Hi'. rewrite H in Hi'.
    destruct (reserve_ok _ _ _ _ _ _ _ Hi Hk H) as (_ & _ & Hu & -> & Hl & Hc).
    split; [by rewrite Hc|]. unfold held_by. rewrite Hl. split_and!.
    + by apply held_by_ge.
    + by rewrite lookup_app_r, Nat.sub_diag by lia.
    + intros j Hj. destruct (decide (j < length (leases c))%nat).
      * by rewrite lookup_app_l.
      * rewrite !lookup_ge_None_2; [done|lia|rewrite length_app; simpl; lia].
    + exact Hu.
  - intros c c' now t k e Hi Hk H. pose proof (inv_reserve _ _ now t k Hi Hk) as Hi'. rewrite H in Hi'.
    destruct (reserve_err _ _ _ _ _ _ H) as (Hu & Hl & Hc).
    split; [by rewrite Hc|]. split; [|done]. intros j. unfold held_by. by rewrite Hl.
  - intros c i k Hi Hh. unfold held_by in Hh. destruct (leases c !! i) as [l|] eqn:Hl; [|done].
    simpl in Hh. destruct (released l) eqn:Hr; [done|]. injection Hh as <-.
    pose proof (release_some _ _ _ _ Hi Hl Hr) as Hrel. eexists. split; [exact Hrel|].
    split; [by apply (inv_release _ _ _ _ Hi) in Hrel|]. unfold held_by; simpl.
    rewrite list_lookup_insert_eq by (by eapply lookup_lt_Some). split_and!; try done.
    intros j Hj. by rewrite list_lookup_insert_ne.
Qed.

(** ** A limit that is not a number *)
Definition all_nan (c : Controller) : Prop :=
  is_nan (TenantBurstTokens (config c)) = true /\ map_Forall (fun _ b => is_nan (tokens b) = true) (buckets c).

Lemma is_nan_eq (x : float64) : is_nan x = true -> x = SpecFloat.S754_nan.
Proof. by destruct x. Qed.

Lemma refill_nan (c : Config) (b : bucket) (now : Time) :
  is_nan (TenantBurstTokens c) = true -> is_nan (tokens b) = true \/ last b = 0 -> is_nan (tokens (refill c b now)) = true.
Proof.
  unfold refill, is_zero_time. intros Hb%is_nan_eq Ht. case_if; bool_facts; [cbn; by rewrite Hb|].
  destruct Ht as [Ht%is_nan_eq|]; [|done]. cbn [tokens]. rewrite Hb, Ht. unfold min. by rewrite flt_nan_l.
Qed.

(** A burst of NaN passes the test [<= 0] of [New], and then no reservation is
    ever refused for the tenant's sake: the tenant limit is off. *)
Theorem nan_burst_disables_limit (cfg : Config) (c : Controller) (now : Time) (t : string) (k : Z) :
  GlobalInFlightTokens cfg <> 0 -> fle (TenantRatePerSecond cfg) fzero = false ->
  TenantBurstTokens cfg = SpecFloat.S754_nan ->
  (exists c0, New cfg = Ok c0 /\ all_nan c0) /\
  (all_nan c -> (Reserve c now t k).2 <> Err ErrTenantLimit /\ all_nan (Reserve c now t k).1).
Proof.
  intros Hg%Z.eqb_neq Hr Hb. split.
  { unfold New. rewrite Hg, Hr, Hb. eexists. split; [done|]. split; [cbn; by rewrite Hb|apply map_Forall_empty]. }
  intros [Hc Hm]. unfold Reserve. destruct (k =? 0); [done|].
  set (b := refill _ _ _). assert (is_nan (tokens b) = true) as Hn.
  { apply refill_nan; [done|]. destruct (buckets c !! tenant_key t) as [b0|] eqn:E; [left; by apply (Hm _ _ E)|by right]. }
  apply is_nan_eq in Hn. rewrite Hn, flt_nan_l.
  case_if; (split; [done|]); (split; [done|]); apply map_Forall_insert_2; cbn; try done; by rewrite Hn.
Qed.

(** ** Witnesses *)
Definition ten : float64 := float_of_Z 10.
Definition example_config : Config :=
  {| GlobalInFlightTokens := 10; TenantRatePerSecond := ten; TenantBurstTokens := ten |}.
Definition example_start : Controller := {| config := example_config; used := 0; buckets := ∅; leases := [] |}.
Definition example_controller : Controller := (Reserve example_start 1 "tenant" 6).1.

Lemma example_reachable : reachable example_config example_controller.
Proof. exists example_start. split; [done|]. apply rtc_once. by apply step_reserve. Qed.

Lemma admission_accounting_witness : InFlight example_controller = 6 /\
  InFlight example_controller = held example_controller /\ 0 <= InFlight example_controller <= 10.
Proof.
  split; [vm_compute; reflexivity|].
  apply (admission_accounting example_config); [by vm_compute|exact example_reachable].
Defined.

Lemma release_exactly_once_witness : exists c1,
  Release example_controller (Some 0%nat) = Ok c1 /\ InFlight c1 = 0 /\ Release c1 (Some 0%nat) = Ok c1.
Proof.
  destruct (release_exactly_once example_config example_controller 0 {| cost := 6; released := false |})
    as (_ & c1 & H & Hf & _ & _ & Hr); [by vm_compute|exact example_reachable|by vm_compute|].
  exists c1. split; [exact H|]. split; [rewrite Hf; by vm_compute|exact Hr].
Defined.

Lemma reserve_charges_only_on_success_witness :
  (Reserve example_controller 1 "tenant" 5).2 = Err ErrTenantLimit /\
  (tokens (level example_controller 1 "tenant") <f float_of_Z 5) = true.
Proof.
  split; [by vm_compute|].
  apply (reserve_charges_only_on_success example_config example_controller
    (Reserve example_controller 1 "tenant" 5).1 1 "tenant" 5 (Err ErrTenantLimit));
    [by vm_compute|exact example_reachable|by vm_compute|by vm_compute].
Defined.
