(* ===== verification/Registry.v ===== *)
(** * The worker registry: [src/internal/registry/registry.go]

    Registered workers by ID, heartbeats with strictly increasing status
    versions, and copied, ID-sorted snapshots with the staleness computed at the
    time of the snapshot.  The read-write lock makes each operation one step;
    the clock reading of an operation is its argument. *)

From S2P Require Import Prelude GoFloat GoString Model Examples Interfaces.

#[local] Open Scope Z_scope.

Record Registry := {
  workers : gmap string Worker;
  staleAfter : Duration;
}.

(** The argument of a [%q] in a message is kept as it is: its quotation marks and
    escapes belong to the rendering of the error. *)
Inductive RegistryError :=
| ErrUnknownWorker
| ErrStateVersionRegression
| ErrInvalidWorker (message : string).

#[export] Instance RegistryError_eq_dec : EqDecision RegistryError.
Proof. solve_decision. Defined.

Definition New (staleAfter : Duration) : result string Registry :=
  if staleAfter <=? 0 then Err "stale timeout must be positive"
  else Ok {| workers := ∅; staleAfter := staleAfter |}.

Definition valid_status (s : WorkerStatus) : bool :=
  (s =? WorkerHealthy)%string || (s =? WorkerDraining)%string || (s =? WorkerUnhealthy)%string.

Definition invalid_cached (f : PrefixFingerprint) : bool :=
  (TokenCount f =? 0) || (SHA256 f =? "")%string.

Definition validateState (state : WorkerState) : result RegistryError unit :=
  _ ← reject_if (StatusVersion state =? 0)
        (ErrInvalidWorker "worker state version must be positive");
  _ ← reject_if (negb (valid_status (Status state)))
        (ErrInvalidWorker ("invalid worker status " +:+ Status state));
  _ ← reject_if ((CapacityTokens (ws_KVUsage state) =? 0)
                 || (CapacityTokens (ws_KVUsage state) <? UsedTokens (ws_KVUsage state)))
        (ErrInvalidWorker "invalid KV usage");
  _ ← reject_if (fle (PrefillTokensPerSecond state) fzero || fle (DecodeTokensPerSecond state) fzero)
        (ErrInvalidWorker "worker rates must be positive");
  _ ← reject_if (DecodeSchedulingQuantumTokens state =? 0)
        (ErrInvalidWorker "decode scheduling quantum must be positive");
  reject_if (existsb invalid_cached (CachedPrefixes state))
    (ErrInvalidWorker "invalid cached prefix metadata").

Definition validate (worker : Worker) : result RegistryError unit :=
  _ ← reject_if ((w_ID worker =? "")%string || (DataAddress worker =? "")%string
                 || (w_Model worker =? "")%string)
        (ErrInvalidWorker "worker id, data address, and model are required");
  _ ← reject_if (negb (w_ProtocolVersion worker =? ProtocolVersion)%string)
        (ErrInvalidWorker ("unsupported worker protocol " +:+ w_ProtocolVersion worker));
  validateState (State worker).

(** The slice of cached prefixes is the only shared part of a state; copying it
    makes a value equal to the original and independent of it.  In the model,
    where slices are immutable lists, the copy is the value itself. *)
Definition cloneState (state : WorkerState) : WorkerState :=
  {| StatusVersion := StatusVersion state; Status := Status state;
     WaitingRequestCount := WaitingRequestCount state;
     WaitingTokenCount := WaitingTokenCount state;
     RunningRequestCount := RunningRequestCount state;
     RunningWorkTokens := RunningWorkTokens state;
     ws_KVUsage := ws_KVUsage state;
     PrefillTokensPerSecond := PrefillTokensPerSecond state;
     DecodeTokensPerSecond := DecodeTokensPerSecond state;
     DecodeSchedulingQuantumTokens := DecodeSchedulingQuantumTokens state;
     CachedPrefixes := [] ++ CachedPrefixes state;
     ObservedAt := ObservedAt state |}.

Definition set_worker_state (w : Worker) (state : WorkerState) (heartbeat : Time) (stale : bool) : Worker :=
  {| w_ID := w_ID w; DataAddress := DataAddress w; w_Model := w_Model w;
     w_ProtocolVersion := w_ProtocolVersion w; State := state;
     LastHeartbeat := heartbeat; Stale := stale |}.

Definition cloneWorker (worker : Worker) : Worker :=
  set_worker_state worker (cloneState (State worker)) (LastHeartbeat worker) (Stale worker).

Definition set_workers (r : Registry) (ws : gmap string Worker) : Registry :=
  {| workers := ws; staleAfter := staleAfter r |}.

Definition Register (r : Registry) (now : Time) (worker : Worker) : Registry * result RegistryError unit :=
  match validate worker with
  | Err e => (r, Err e)
  | Ok _ =>
      let worker := cloneWorker (set_worker_state worker (State worker) now false) in
      (set_workers r (<[w_ID worker := worker]> (workers r)), Ok tt)
  end.

Definition Heartbeat (r : Registry) (now : Time) (workerID : string) (state : WorkerState) :
  Registry * result RegistryError unit :=
  match validateState state with
  | Err e => (r, Err e)
  | Ok _ =>
      match workers r !! workerID with
      | None => (r, Err ErrUnknownWorker)
      | Some worker =>
          if StatusVersion state <=? StatusVersion (State worker)
          then (r, Err ErrStateVersionRegression)
          else
            let worker := set_worker_state worker (cloneState state) now false in
            (set_workers r (<[workerID := worker]> (workers r)), Ok tt)
      end
  end.

(** One worker as a snapshot reports it. *)
Definition snapshot_worker (r : Registry) (now : Time) (worker : Worker) : Worker :=
  let copy := cloneWorker worker in
  set_worker_state copy (State copy) (LastHeartbeat copy)
    (staleAfter r <? time_sub now (LastHeartbeat copy)).

(** A Go map is iterated in an arbitrary order; [order] is the order of this
    call, a permutation of the map's entries. *)
Definition Snapshot_in_order (r : Registry) (now : Time) (order : list Worker) : list Worker :=
  sort_by_key w_ID (snapshot_worker r now <$> order).

Definition Snapshot (r : Registry) (now : Time) : list Worker :=
  Snapshot_in_order r now (map_to_list (workers r)).*2.

Definition is_healthy (worker : Worker) : bool :=
  negb (Stale worker) && (Status (State worker) =? WorkerHealthy)%string.

Definition HealthyCount (r : Registry) (now : Time) : nat :=
  length (filter (fun w => is_healthy w = true) (Snapshot r now)).

(** ** Runs of the registry *)
Inductive op :=
| ORegister (now : Time) (worker : Worker)
| OHeartbeat (now : Time) (workerID : string) (state : WorkerState).

Definition apply_op (r : Registry) (o : op) : Registry :=
  match o with
  | ORegister now worker => (Register r now worker).1
  | OHeartbeat now workerID state => (Heartbeat r now workerID state).1
  end.

Definition step (r r' : Registry) : Prop := exists o, r' = apply_op r o.

Definition reachable (r : Registry) : Prop :=
  exists d r0, New d = Ok r0 /\ rtc step r0 r.

(** Entries are filed under their own ID, were validated, and are stored fresh. *)
Definition entry_ok (id : string) (w : Worker) : Prop :=
  w_ID w = id /\ validate w = Ok tt /\ Stale w = false.

Record inv (r : Registry) : Prop := {
  inv_entries : map_Forall entry_ok (workers r);
  inv_stale : 0 < staleAfter r;
}.

(** ** Copies and validation *)
Lemma cloneState_id (s : WorkerState) : cloneState s = s.
Proof. by destruct s. Qed.

Lemma cloneWorker_id (w : Worker) : cloneWorker w = w.
Proof. unfold cloneWorker. rewrite cloneState_id. by destruct w. Qed.

Lemma snapshot_worker_eq (r : Registry) (now : Time) (w : Worker) :
  snapshot_worker r now w =
    set_worker_state w (State w) (LastHeartbeat w) (staleAfter r <? time_sub now (LastHeartbeat w)).
Proof. unfold snapshot_worker. by rewrite cloneWorker_id. Qed.

Lemma validate_set (w : Worker) (s : WorkerState) (t : Time) (b : bool) :
  validate w = Ok tt -> validateState s = Ok tt -> validate (set_worker_state w s t b) = Ok tt.
Proof. unfold validate, reject_if. simpl. intros. repeat case_if; simpl in *; done. Qed.

Lemma validate_state (w : Worker) : validate w = Ok tt -> validateState (State w) = Ok tt.
Proof. unfold validate, reject_if. intros. repeat case_if; simpl in *; done. Qed.

Lemma register_unfold (r : Registry) (now : Time) (w : Worker) :
  Register r now w =
    match validate w with
    | Err e => (r, Err e)
    | Ok _ => (set_workers r (<[w_ID w := set_worker_state w (State w) now false]> (workers r)), Ok tt)
    end.
Proof. unfold Register. rewrite cloneWorker_id. done. Qed.

Lemma registry_inv_new (d : Duration) (r : Registry) : New d = Ok r -> inv r.
Proof. unfold New. case_if; [done|]. intros [= <-]. bool_facts. by split. Qed.

Lemma inv_apply (r : Registry) (o : op) : inv r -> inv (apply_op r o).
Proof.
  intros [He Hs]. destruct o as [now w|now id s]; simpl.
  - rewrite register_unfold. destruct (validate w) as [[]|] eqn:Hv; [|done].
    split; [|done]. apply map_Forall_insert_2; [|done].
    split_and!; [done| |done]. by apply validate_set, validate_state.
  - unfold Heartbeat. destruct (validateState s) as [[]|] eqn:Hv; [|done].
    destruct (workers r !! id) as [w|] eqn:Hw; [|done]. case_if; [done|].
    split; [|done]. apply map_Forall_insert_2; [|done]. rewrite cloneState_id.
    destruct (He _ _ Hw) as (? & ? & ?). split_and!; [done| |done]. by apply validate_set.
Qed.

Lemma registry_reachable_inv (r : Registry) : reachable r -> inv r.
Proof.
  intros (d & r0 & H0 & Hr). eapply rtc_invariant; [|by eapply registry_inv_new|exact Hr].
  intros x y Hx [o ->]. by apply inv_apply.
Qed.

(** ** Snapshots *)
Lemma entries_keys (m : gmap string Worker) :
  map_Forall entry_ok m -> (w_ID <$> (map_to_list m).*2) = (map_to_list m).*1.
Proof.
  intros He. rewrite <- list_fmap_compose. apply list_fmap_ext. intros i [k w] Hi.
  apply list_elem_of_lookup_2, elem_of_map_to_list in Hi. by destruct (He _ _ Hi).
Qed.

Lemma snapshot_ids (r : Registry) (now : Time) (order : list Worker) :
  w_ID <$> (snapshot_worker r now <$> order) = w_ID <$> order.
Proof. rewrite <- list_fmap_compose. by apply list_fmap_ext. Qed.

Lemma entries_nodup (r : Registry) : inv r -> NoDup (w_ID <$> (map_to_list (workers r)).*2).
Proof. intros [He _]. rewrite entries_keys by done. apply NoDup_fst_map_to_list. Qed.

Lemma elem_of_Snapshot (r : Registry) (now : Time) (w : Worker) :
  w ∈ Snapshot r now <-> exists id w0, workers r !! id = Some w0 /\ w = snapshot_worker r now w0.
Proof.
  unfold Snapshot, Snapshot_in_order. rewrite elem_of_sort_by_key, list_elem_of_fmap.
  setoid_rewrite list_elem_of_fmap. split.
  - intros (w0 & -> & [k w0'] & -> & Hk%elem_of_map_to_list). eauto.
  - intros (id & w0 & Hw & ->). exists w0. split; [done|].
    exists (id, w0). split; [done|]. by apply elem_of_map_to_list.
Qed.

Lemma Snapshot_nodup (r : Registry) (now : Time) : inv r -> NoDup (w_ID <$> Snapshot r now).
Proof.
  intros Hi. unfold Snapshot, Snapshot_in_order.
  rewrite sort_by_key_perm, snapshot_ids. by apply entries_nodup.
Qed.

Lemma HealthyCount_pos (r : Registry) (now : Time) :
  (0 < HealthyCount r now)%nat <-> exists w, w ∈ Snapshot r now /\ is_healthy w = true.
Proof.
  unfold HealthyCount. split.
  - intros H. destruct (filter _ (Snapshot r now)) as [|w l] eqn:E; [simpl in H; lia|].
    exists w. assert (w ∈ w :: l) as Hw by left. rewrite <- E in Hw.
    apply list_elem_of_filter in Hw. tauto.
  - intros (w & Hw & Hh). destruct (filter _ (Snapshot r now)) as [|w' l] eqn:E; [|simpl; lia].
    exfalso. apply (not_elem_of_nil w). rewrite <- E. by apply list_elem_of_filter.
Qed.

(** What validation accepts.  The rate guards [rate <= 0] are stated as they
    are: they let NaN pass. *)
Record valid_state (s : WorkerState) : Prop := {
  vs_version : StatusVersion s <> 0;
  vs_status : Status s = WorkerHealthy \/ Status s = WorkerDraining \/ Status s = WorkerUnhealthy;
  vs_capacity : CapacityTokens (ws_KVUsage s) <> 0;
  vs_used : UsedTokens (ws_KVUsage s) <= CapacityTokens (ws_KVUsage s);
  vs_prefill : is_nan (PrefillTokensPerSecond s) = true \/ positive_float (PrefillTokensPerSecond s);
  vs_decode : is_nan (DecodeTokensPerSecond s) = true \/ positive_float (DecodeTokensPerSecond s);
  vs_quantum : DecodeSchedulingQuantumTokens s <> 0;
  vs_cached : Forall (fun f => TokenCount f <> 0 /\ SHA256 f <> "") (CachedPrefixes s);
}.

Lemma valid_status_spec (s : WorkerStatus) :
  valid_status s = true <-> s = WorkerHealthy \/ s = WorkerDraining \/ s = WorkerUnhealthy.
Proof. unfold valid_status. rewrite !orb_true_iff, !String.eqb_eq. tauto. Qed.

Lemma invalid_cached_spec (l : list PrefixFingerprint) :
  existsb invalid_cached l = false <-> Forall (fun f => TokenCount f <> 0 /\ SHA256 f <> "") l.
Proof.
  induction l as [|f l IH]; simpl; [by split|].
  rewrite orb_false_iff, IH, list.Forall_cons. unfold invalid_cached.
  by rewrite orb_false_iff, Z.eqb_neq, String.eqb_neq.
Qed.

Lemma validateState_conds (s : WorkerState) :
  validateState s = Ok tt <->
  (StatusVersion s =? 0) = false /\ negb (valid_status (Status s)) = false /\
  ((CapacityTokens (ws_KVUsage s) =? 0)
   || (CapacityTokens (ws_KVUsage s) <? UsedTokens (ws_KVUsage s))) = false /\
  (fle (PrefillTokensPerSecond s) fzero || fle (DecodeTokensPerSecond s) fzero) = false /\
  (DecodeSchedulingQuantumTokens s =? 0) = false /\
  existsb invalid_cached (CachedPrefixes s) = false.
Proof.
  unfold validateState. split.
  - intros H. repeat match type of H with context [reject_if ?b _] =>
      destruct b eqn:?; simpl in H; [discriminate H|] end. by split_and!.
  - intros (-> & -> & -> & -> & -> & ->). done.
Qed.

Lemma validateState_spec (s : WorkerState) : validateState s = Ok tt <-> valid_state s.
Proof.
  rewrite validateState_conds, invalid_cached_spec, !orb_false_iff, !fle_zero_guard,
    negb_false_iff, valid_status_spec, !Z.eqb_neq, Z.ltb_ge.
  split; [intros (? & ? & [? ?] & [? ?] & ? & ?); by split|].
  intros []. by split_and!.
Qed.

Lemma validateState_invalid (s : WorkerState) (e : RegistryError) :
  validateState s = Err e -> exists m, e = ErrInvalidWorker m.
Proof.
  unfold validateState. intros H. repeat match type of H with context [reject_if ?b _] =>
    destruct b; simpl in H; [injection H as <-; eauto|] end. done.
Qed.

Lemma heartbeat_ok (r r' : Registry) (now : Time) (id : string) (s : WorkerState) (u : unit) :
  Heartbeat r now id s = (r', Ok u) <->
  exists w, workers r !! id = Some w /\ valid_state s /\
    StatusVersion (State w) < StatusVersion s /\
    r' = set_workers r (<[id := set_worker_state w s now false]> (workers r)).
Proof.
  unfold Heartbeat. setoid_rewrite <- validateState_spec. rewrite cloneState_id. destruct u.
  destruct (validateState s) as [[]|] eqn:Hv; [|naive_solver].
  destruct (workers r !! id) as [w|]; [|naive_solver].
  case_if; bool_facts; split; [naive_solver lia|naive_solver lia| |].
  - intros [= <-]. eauto.
  - intros (? & [= <-] & _ & _ & ->). done.
Qed.

Lemma heartbeat_err (r r' : Registry) (now : Time) (id : string) (s : WorkerState) (e : RegistryError) :
  Heartbeat r now id s = (r', Err e) -> r' = r.
Proof. unfold Heartbeat. intros H. repeat case_match; by simplify_eq. Qed.

(** ** Properties *)

(** A snapshot does not depend on the order in which the map is iterated: it is
    sorted by ID, has one entry per registered worker, and every entry is the
    registered worker with the staleness of that instant. *)
Theorem snapshot_deterministic (r : Registry) (now : Time) (order : list Worker) :
  reachable r -> order ≡ₚ (map_to_list (workers r)).*2 ->
  Snapshot_in_order r now order = Snapshot r now /\
  StronglySorted (by_key w_ID) (Snapshot r now) /\
  NoDup (w_ID <$> Snapshot r now) /\
  forall id w, (w ∈ Snapshot r now /\ w_ID w = id) <->
    exists w0, workers r !! id = Some w0 /\
      w = set_worker_state w0 (State w0) (LastHeartbeat w0)
            (staleAfter r <? time_sub now (LastHeartbeat w0)).
Proof.
  intros Hr%registry_reachable_inv Hord. split_and!.
  - apply sort_by_key_perm_eq; [|by rewrite Hord].
    rewrite snapshot_ids, Hord. by apply entries_nodup.
  - apply sort_by_key_sorted.
  - by apply Snapshot_nodup.
  - intros id w. rewrite elem_of_Snapshot. split.
    + intros [(k & w0 & Hw & ->) <-]. exists w0. rewrite snapshot_worker_eq. split; [|done].
      destruct (inv_entries _ Hr _ _ Hw) as (Hid & _). cbn [w_ID set_worker_state]. by rewrite Hid.
    + intros (w0 & Hw & ->). destruct (inv_entries _ Hr _ _ Hw) as (Hid & _).
      split; [|done]. exists id, w0. by rewrite snapshot_worker_eq.
Qed.

(** C30: A heartbeat is accepted exactly when its state is valid, the worker is
    registered and the version is newer; it then replaces the state and the
    heartbeat time of that worker only.  A rejected heartbeat changes nothing. *)
Theorem heartbeat_spec (r r' : Registry) (now : Time) (id : string) (s : WorkerState)
    (res : result RegistryError unit) :
  Heartbeat r now id s = (r', res) ->
  match res with
  | Ok _ =>
      valid_state s /\
      (exists w, workers r !! id = Some w /\ StatusVersion (State w) < StatusVersion s /\
        workers r' !! id = Some (set_worker_state w s now false)) /\
      forall id', id' <> id -> workers r' !! id' = workers r !! id'
  | Err e =>
      r' = r /\
      match e with
      | ErrInvalidWorker _ => ~ valid_state s
      | ErrUnknownWorker => valid_state s /\ workers r !! id = None
      | ErrStateVersionRegression => valid_state s /\
          exists w, workers r !! id = Some w /\ StatusVersion s <= StatusVersion (State w)
      end
  end.
Proof.
  intros H. destruct res as [u|e].
  - apply heartbeat_ok in H as (w & Hw & Hs & Hv & ->). split_and!; [done| |].
    + exists w. split_and!; [done..|]. simpl. by rewrite lookup_insert_eq.
    + intros id' Hne. simpl. by rewrite lookup_insert_ne.
  - unfold Heartbeat in H. destruct (validateState s) as [[]|e'] eqn:Hv.
    + apply validateState_spec in Hv.
      destruct (workers r !! id) as [w|]; [|by simplify_eq].
      case_if; simplify_eq. bool_facts. split_and!; [done..|]. by exists w.
    + simplify_eq. split; [done|]. destruct (validateState_invalid _ _ Hv) as [m ->].
      rewrite <- validateState_spec. congruence.
Qed.

(** Between registrations of a worker its status version never decreases and its
    address, model and protocol do not change. *)
Theorem heartbeats_monotone (r r' : Registry) (id : string) (w : Worker) :
  rtc (fun a b => exists now id' s, b = (Heartbeat a now id' s).1) r r' ->
  workers r !! id = Some w ->
  exists w', workers r' !! id = Some w' /\
    StatusVersion (State w) <= StatusVersion (State w') /\
    w_ID w' = w_ID w /\ DataAddress w' = DataAddress w /\ w_Model w' = w_Model w /\
    w_ProtocolVersion w' = w_ProtocolVersion w.
Proof.
  intros Hr. revert w. induction Hr as [r|r r1 r' (now & id' & s & ->) _ IH]; intros w Hw.
  - exists w. by split_and!.
  - destruct (Heartbeat r now id' s) as [r1 res] eqn:H; simpl in *.
    destruct res as [u|e].
    + apply heartbeat_ok in H as (w0 & Hw0 & _ & Hv & ->). cbn [workers set_workers] in IH.
      destruct (decide (id = id')) as [->|Hne].
      * simplify_eq. destruct (IH (set_worker_state w0 s now false)) as (w' & ? & ? & ?);
          [by rewrite lookup_insert_eq|]. exists w'. simpl in *. naive_solver lia.
      * apply IH. by rewrite lookup_insert_ne.
    + apply heartbeat_err in H as ->. by apply IH.
Qed.

(** A worker is routable as long as its last heartbeat is recent: a snapshot
    within the timeout of an accepted heartbeat shows it fresh with the new
    state, a later one shows it stale. *)
Theorem heartbeat_refreshes (r r' : Registry) (t now : Time) (id : string) (s : WorkerState) :
  reachable r -> is_i64 (staleAfter r) -> t <= now ->
  Heartbeat r t id s = (r', Ok tt) ->
  exists w, w ∈ Snapshot r' now /\ w_ID w = id /\ State w = s /\ LastHeartbeat w = t /\
    (Stale w = true <-> staleAfter r < now - t /\ staleAfter r < 2 ^ 63 - 1).
Proof.
  intros Hr%registry_reachable_inv Hs Hle H. apply heartbeat_ok in H as (w & Hw & _ & _ & ->).
  destruct (inv_entries _ Hr _ _ Hw) as (Hid & _).
  exists (snapshot_worker (set_workers r (<[id := set_worker_state w s t false]> (workers r))) now
            (set_worker_state w s t false)).
  rewrite snapshot_worker_eq. split_and!; try done.
  - apply elem_of_Snapshot. exists id, (set_worker_state w s t false).
    simpl. rewrite lookup_insert_eq, snapshot_worker_eq. done.
  - simpl. unfold time_sub, is_i64 in *. pose proof (inv_stale _ Hr). rewrite Z.ltb_lt. lia.
Qed.

(** The router counts itself ready exactly when some registered worker is
    healthy and its last heartbeat is within the timeout. *)
Theorem healthy_iff_fresh_worker (r : Registry) (now : Time) :
  (0 < HealthyCount r now)%nat <->
  exists id w, workers r !! id = Some w /\ Status (State w) = WorkerHealthy /\
    time_sub now (LastHeartbeat w) <= staleAfter r.
Proof.
  rewrite HealthyCount_pos. unfold is_healthy. split.
  - intros (w & (id & w0 & Hw & ->)%elem_of_Snapshot & Hh). rewrite snapshot_worker_eq in Hh.
    simpl in Hh. bool_facts. eauto.
  - intros (id & w & Hw & Hst & Hf). exists (snapshot_worker r now w).
    rewrite elem_of_Snapshot, snapshot_worker_eq. split; [exists id, w; by rewrite snapshot_worker_eq|].
    simpl. rewrite Hst, andb_true_iff, negb_true_iff, Z.ltb_ge. done.
Qed.

(** ** The registry as the gateway's directory *)
#[global] Instance Registry_source : SnapshotSource Registry := {|
  source_snapshot := Snapshot;
  source_healthy := HealthyCount;
  source_ok := inv;
|}.

#[global] Instance Registry_source_laws : SnapshotSourceLaws Registry.
Proof.
  split.
  - intros r now Hr. by apply Snapshot_nodup.
  - intros r now. simpl. rewrite HealthyCount_pos. unfold is_healthy.
    setoid_rewrite andb_true_iff. setoid_rewrite negb_true_iff. by setoid_rewrite String.eqb_eq.
Qed.

(** ** Witnesses *)
Definition ex_registry : Registry :=
  (Register {| workers := ∅; staleAfter := 50 |} 100 (ex_worker "w1" (ex_state 1 10 5))).1.

Lemma ex_registry_reachable : reachable ex_registry.
Proof.
  exists 50, {| workers := ∅; staleAfter := 50 |}. split; [done|]. apply rtc_once.
  by exists (ORegister 100 (ex_worker "w1" (ex_state 1 10 5))).
Qed.

Lemma snapshot_deterministic_witness :
  Snapshot_in_order ex_registry 120 [ex_worker "w1" (ex_state 1 10 5)] = Snapshot ex_registry 120.
Proof.
  refine (proj1 (snapshot_deterministic ex_registry 120 [ex_worker "w1" (ex_state 1 10 5)]
    ex_registry_reachable _)).
  assert ((map_to_list (workers ex_registry)).*2 = [ex_worker "w1" (ex_state 1 10 5)]) as ->
    by (vm_compute; reflexivity).
  done.
Defined.

Lemma heartbeat_spec_witness :
  exists w, workers ex_registry !! "w1" = Some w /\ 1 <= StatusVersion (State w).
Proof.
  refine (proj2 (proj2 (heartbeat_spec ex_registry ex_registry 130 "w1" (ex_state 1 0 0)
    (Err ErrStateVersionRegression) _))).
  vm_compute. reflexivity.
Defined.

Lemma heartbeats_monotone_witness :
  exists w', workers (Heartbeat ex_registry 130 "w1" (ex_state 2 0 0)).1 !! "w1" = Some w' /\ 1 <= StatusVersion (State w').
Proof.
  destruct (heartbeats_monotone ex_registry (Heartbeat ex_registry 130 "w1" (ex_state 2 0 0)).1 "w1"
    (ex_worker "w1" (ex_state 1 10 5))) as (w' & H & Hv & _).
  - apply rtc_once. by exists 130, "w1", (ex_state 2 0 0).
  - vm_compute. reflexivity.
  - exists w'. split; [exact H|exact Hv].
Defined.

(** A registry with one registered worker. *)
Lemma ex_inv_of (r : Registry) :
  (exists now w, r = (Register {| workers := ∅; staleAfter := 3 * Second |} now w).1) -> inv r.
Proof. intros (now & w & ->). apply (inv_apply _ (ORegister now w)). by split. Qed.
