(* ===== verification/Routing.v ===== *)
(** * Worker selection: [src/internal/routing/routing.go]

    The four policies over a snapshot: eligibility with a recorded reason, the
    time-unit scores in float64, the scan for the best candidate with its
    tolerance and tie-breaks, and the atomic round-robin cursor. *)

From S2P Require Import Prelude GoFloat GoString Sha256 Model Examples Prefix.

#[local] Open Scope Z_scope.
#[local] Open Scope go_scope.

Abbreviation Policy := string (only parsing).
Definition RoundRobin : Policy := "round_robin".
Definition LeastWaitingTokens : Policy := "least_waiting_tokens".
Definition PrefixAffinity : Policy := "prefix_affinity".
Definition PredictedTTFT : Policy := "predicted_ttft".

Record Router := { policy : Policy; cursor : Z }.

Inductive RoutingError := ErrNoEligibleWorkers.

Definition known_policy (p : Policy) : bool :=
  (p =? RoundRobin)%string || (p =? LeastWaitingTokens)%string
  || (p =? PrefixAffinity)%string || (p =? PredictedTTFT)%string.

Definition New (p : Policy) (seed : Z) : result string Router :=
  if known_policy p then Ok {| policy := p; cursor := seed |}
  else Err "unknown routing policy".

(** The reason a worker may not be chosen; the empty string when it may. *)
Definition ineligibility (r : Router) (request : Request) (worker : Worker)
    (excluded : gset string) : string :=
  let st := State worker in
  if decide (w_ID worker ∈ excluded) then "excluded_attempt_worker"
  else if Stale worker then "stale_heartbeat"
  else if negb (w_ProtocolVersion worker =? ProtocolVersion)%string then "protocol_mismatch"
  else if (DataAddress worker =? "")%string || negb (w_Model worker =? r_Model request)%string
  then "incompatible_worker"
  else if negb (Status st =? WorkerHealthy)%string then "unhealthy"
  else if (CapacityTokens (ws_KVUsage st) =? 0)
          || (CapacityTokens (ws_KVUsage st) <? UsedTokens (ws_KVUsage st))
  then "invalid_kv_metadata"
  else if negb (policy r =? RoundRobin)%string
          && (fle (PrefillTokensPerSecond st) fzero || fle (DecodeTokensPerSecond st) fzero
              || (DecodeSchedulingQuantumTokens st =? 0))
  then "missing_metric"
  else "".

Definition less (score : float64) (matched : Z) (id : string)
    (bestScore : float64) (bestMatched : Z) (bestID : string) (preferPrefix : bool) : bool :=
  if f_1em12 <f fabs (score -f bestScore) then score <f bestScore
  else if preferPrefix && negb (matched =? bestMatched) then bestMatched <? matched
  else String.ltb id bestID.

Record candidate := { c_worker : Worker; c_trace : CandidateEvaluation }.

Definition rejected_trace (worker : Worker) (reason : string) : CandidateEvaluation :=
  {| ce_WorkerID := w_ID worker; Eligible := false; RejectionReason := reason;
     StateVersion := StatusVersion (State worker); MatchedTokens := 0;
     QueueDelay := fzero; UncachedPrefill := 0; PrefillDelay := fzero;
     OverloadPenalty := fzero; Model.PredictedTTFT := fzero; Score := fzero; TieBreak := "" |}.

Definition queue_delay (st : WorkerState) : float64 :=
  float_of_Z (WaitingTokenCount st +u64 RunningWorkTokens st) /f PrefillTokensPerSecond st.

Definition uncached_prefill (input matched : Z) : Z :=
  if matched <? input then input - matched else 0.

Definition overload_penalty (st : WorkerState) : float64 :=
  float_of_Z (RunningRequestCount st *u32 DecodeSchedulingQuantumTokens st)
  /f DecodeTokensPerSecond st.

Definition eligible_trace (request : Request) (worker : Worker) : CandidateEvaluation :=
  let st := State worker in
  let matched := LongestMatch (PrefixFingerprints request) (CachedPrefixes st) in
  let uncached := uncached_prefill (EstimatedInputToken request) matched in
  let queue := queue_delay st in
  let prefill := float_of_Z uncached /f PrefillTokensPerSecond st in
  let overload := overload_penalty st in
  {| ce_WorkerID := w_ID worker; Eligible := true; RejectionReason := "";
     StateVersion := StatusVersion st; MatchedTokens := matched;
     QueueDelay := queue; UncachedPrefill := uncached; PrefillDelay := prefill;
     OverloadPenalty := overload; Model.PredictedTTFT := queue +f prefill +f overload;
     Score := fzero; TieBreak := "" |}.

Definition set_score (c : candidate) (score : float64) : candidate :=
  let t := c_trace c in
  {| c_worker := c_worker c;
     c_trace := {| ce_WorkerID := ce_WorkerID t; Eligible := Eligible t;
       RejectionReason := RejectionReason t; StateVersion := StateVersion t;
       MatchedTokens := MatchedTokens t; QueueDelay := QueueDelay t;
       UncachedPrefill := UncachedPrefill t; PrefillDelay := PrefillDelay t;
       OverloadPenalty := OverloadPenalty t; Model.PredictedTTFT := Model.PredictedTTFT t;
       Score := score; TieBreak := TieBreak t |} |}.

Definition set_tie_break (c : candidate) (tb : string) : candidate :=
  let t := c_trace c in
  {| c_worker := c_worker c;
     c_trace := {| ce_WorkerID := ce_WorkerID t; Eligible := Eligible t;
       RejectionReason := RejectionReason t; StateVersion := StateVersion t;
       MatchedTokens := MatchedTokens t; QueueDelay := QueueDelay t;
       UncachedPrefill := UncachedPrefill t; PrefillDelay := PrefillDelay t;
       OverloadPenalty := OverloadPenalty t; Model.PredictedTTFT := Model.PredictedTTFT t;
       Score := Score t; TieBreak := tb |} |}.

(** The first loop: rejected traces and eligible candidates, in ID order. *)
Fixpoint evaluate (r : Router) (request : Request) (excluded : gset string)
    (sorted : list Worker) : list CandidateEvaluation * list candidate :=
  match sorted with
  | [] => ([], [])
  | worker :: sorted =>
      let '(rejected, eligible) := evaluate r request excluded sorted in
      let reason := ineligibility r request worker excluded in
      if (reason =? "")%string
      then (rejected, {| c_worker := worker; c_trace := eligible_trace request worker |} :: eligible)
      else (rejected_trace worker reason :: rejected, eligible)
  end.

(** [decision.WorkerVersions[worker.ID] = ...] for every worker. *)
Definition worker_versions (sorted : list Worker) : gmap string Z :=
  foldl (fun m w => <[w_ID w := StatusVersion (State w)]> m) ∅ sorted.

(** The score a policy gives to the [i]-th eligible candidate. *)
Definition policy_score (p : Policy) (i : nat) (c : candidate) : float64 :=
  let t := c_trace c in
  if (p =? RoundRobin)%string then float_of_Z (Z.of_nat i)
  else if (p =? LeastWaitingTokens)%string then float_of_Z (WaitingTokenCount (State (c_worker c)))
  else if (p =? PrefixAffinity)%string then QueueDelay t +f PrefillDelay t
  else if (p =? PredictedTTFT)%string then Model.PredictedTTFT t
  else Score t.

Definition candidate_less (preferPrefix : bool) (c best : candidate) : bool :=
  less (Score (c_trace c)) (MatchedTokens (c_trace c)) (w_ID (c_worker c))
       (Score (c_trace best)) (MatchedTokens (c_trace best)) (w_ID (c_worker best)) preferPrefix.

(** The scan [if i > 0 && less(eligible[i], eligible[selected]) { selected = i }]
    over the candidates from index [i] on. *)
Fixpoint scan (preferPrefix : bool) (best : candidate) (selected i : nat) (l : list candidate) : nat :=
  match l with
  | [] => selected
  | c :: l =>
      if candidate_less preferPrefix c best
      then scan preferPrefix c i (S i) l
      else scan preferPrefix best selected (S i) l
  end.

Definition select_index (p : Policy) (cur : Z) (eligible : list candidate) : nat :=
  match eligible with
  | [] => 0
  | first :: rest =>
      if (p =? RoundRobin)%string then Z.to_nat (cur mod Z.of_nat (length eligible))
      else if (p =? LeastWaitingTokens)%string then scan false first 0 1 rest
      else if (p =? PrefixAffinity)%string then scan true first 0 1 rest
      else if (p =? PredictedTTFT)%string then scan true first 0 1 rest
      else 0
  end.

Definition final_trace (selectedID : string) (c : candidate) : CandidateEvaluation :=
  if (w_ID (c_worker c) =? selectedID)%string && (TieBreak (c_trace c) =? "")%string
  then c_trace (set_tie_break c "minimum_score") else c_trace c.

Definition Select (r : Router) (request : Request) (workers : list Worker)
    (excluded : gset string) : Router * (RoutingDecision * option RoutingError) :=
  let sorted := sort_by_key w_ID workers in
  let '(rejected, eligible) := evaluate r request excluded sorted in
  let decision selected candidates cur :=
    {| d_RequestID := r_ID request; d_Policy := policy r; SelectedWorker := selected;
       Candidates := candidates; WorkerVersions := worker_versions sorted; d_Cursor := cur |} in
  match eligible with
  | [] => (r, (decision "" rejected 0, Some ErrNoEligibleWorkers))
  | _ =>
      let rr := (policy r =? RoundRobin)%string in
      let r' := if rr then {| policy := policy r; cursor := cursor r +u64 1 |} else r in
      let cur := if rr then cursor r else 0 in
      let scored := imap (fun i c => set_score c (policy_score (policy r) i c)) eligible in
      let selected := select_index (policy r) (cursor r) scored in
      let scored := if rr then alter (fun c => set_tie_break c "round_robin_cursor") selected scored
                    else scored in
      let selectedID := default "" ((fun c => w_ID (c_worker c)) <$> scored !! selected) in
      (r', (decision selectedID (rejected ++ (final_trace selectedID <$> scored)) cur, None))
  end.

(** ** The evaluation loop is a partition of the sorted workers *)
Definition may_route (r : Router) (request : Request) (excluded : gset string) (w : Worker) : Prop :=
  ineligibility r request w excluded = "".

#[export] Instance may_route_dec r request excluded w : Decision (may_route r request excluded w).
Proof. unfold may_route. apply _. Defined.

Definition fresh_candidate (request : Request) (w : Worker) : candidate :=
  {| c_worker := w; c_trace := eligible_trace request w |}.

Lemma evaluate_eq (r : Router) (request : Request) (excluded : gset string) (ws : list Worker) :
  evaluate r request excluded ws =
    ((fun w => rejected_trace w (ineligibility r request w excluded)) <$>
       filter (fun w => ~ may_route r request excluded w) ws,
     fresh_candidate request <$> filter (may_route r request excluded) ws).
Proof.
  induction ws as [|w ws IH]; [done|]. cbn [evaluate]. rewrite IH.
  destruct (decide (may_route r request excluded w)) as [Hm|Hm].
  - rewrite (filter_cons_True (may_route _ _ _)), filter_cons_False by tauto.
    unfold may_route in Hm. by rewrite Hm.
  - rewrite filter_cons_True, (filter_cons_False (may_route _ _ _)) by done.
    unfold may_route in Hm. apply String.eqb_neq in Hm. by rewrite Hm.
Qed.

(** The scored candidates, as the policies compare them. *)
Definition scored (r : Router) (request : Request) (excluded : gset string)
    (workers : list Worker) : list candidate :=
  imap (fun i c => set_score c (policy_score (policy r) i c))
    (fresh_candidate request <$> filter (may_route r request excluded) (sort_by_key w_ID workers)).

Lemma scored_workers (r : Router) (request : Request) (excluded : gset string) (ws : list Worker) :
  c_worker <$> scored r request excluded ws =
    filter (may_route r request excluded) (sort_by_key w_ID ws).
Proof.
  unfold scored. generalize (filter (may_route r request excluded) (sort_by_key w_ID ws)) as l.
  intros l. apply list_eq. intros i.
  rewrite list_lookup_fmap, list_lookup_imap, list_lookup_fmap. by destruct (l !! i).
Qed.

Lemma scored_id (r : Router) (request : Request) (excluded : gset string) (ws : list Worker) (c : candidate) :
  c ∈ scored r request excluded ws ->
  ce_WorkerID (c_trace c) = w_ID (c_worker c) /\ Eligible (c_trace c) = true /\
  TieBreak (c_trace c) = "" /\ may_route r request excluded (c_worker c) /\ c_worker c ∈ ws.
Proof.
  intros [i Hi]%list_elem_of_lookup. unfold scored in Hi.
  rewrite list_lookup_imap, list_lookup_fmap in Hi.
  destruct (_ !! i) as [w|] eqn:Hw; [|done]. simpl in Hi. injection Hi as <-.
  apply list_elem_of_lookup_2, list_elem_of_filter in Hw as [Hm Hw].
  apply elem_of_sort_by_key in Hw. done.
Qed.

Lemma scored_nodup (r : Router) (request : Request) (excluded : gset string) (ws : list Worker) :
  NoDup (w_ID <$> ws) ->
  NoDup ((fun c => w_ID (c_worker c)) <$> scored r request excluded ws).
Proof.
  intros Hnd. change (fun c => w_ID (c_worker c)) with (w_ID ∘ c_worker).
  rewrite list_fmap_compose, scored_workers.
  apply NoDup_key_filter. by rewrite sort_by_key_perm.
Qed.

(** ** The scan *)
Lemma scan_lookup (pf : bool) (l0 l : list candidate) (best : candidate) (sel : nat) :
  l0 !! sel = Some best ->
  exists c, (l0 ++ l) !! scan pf best sel (length l0) l = Some c.
Proof.
  revert l0 best sel. induction l as [|c l IH]; intros l0 best sel Hs; cbn [scan].
  - exists best. by rewrite app_nil_r.
  - replace (S (length l0)) with (length (l0 ++ [c])) by (rewrite length_app; simpl; lia).
    replace (l0 ++ c :: l) with ((l0 ++ [c]) ++ l) by (by rewrite <- (assoc_L (++))).
    destruct (candidate_less pf c best); apply IH.
    + by rewrite list_lookup_middle.
    + by apply lookup_app_l_Some.
Qed.

(** On candidates where the comparison is transitive the scan ends with one that
    no candidate beats. *)
Lemma scan_minimal (pf : bool) (L l0 l : list candidate) (best m : candidate) (sel : nat) :
  (forall a b c, a ∈ L -> b ∈ L -> c ∈ L ->
     candidate_less pf a b = true -> candidate_less pf b c = true -> candidate_less pf a c = true) ->
  (forall x, x ∈ l0 ++ l -> x ∈ L) ->
  l0 !! sel = Some best ->
  (forall x, x ∈ l0 -> candidate_less pf x best = false) ->
  (forall x, x ∈ L -> candidate_less pf x x = false) ->
  (l0 ++ l) !! scan pf best sel (length l0) l = Some m ->
  forall x, x ∈ l0 ++ l -> candidate_less pf x m = false.
Proof.
  intros Htr. revert l0 best sel. induction l as [|c l IH]; intros l0 best sel HL Hs Hb Hirr Hm; cbn [scan] in Hm.
  - rewrite app_nil_r in *. by simplify_eq.
  - replace (S (length l0)) with (length (l0 ++ [c])) in Hm by (rewrite length_app; simpl; lia).
    replace (l0 ++ c :: l) with ((l0 ++ [c]) ++ l) in * by (by rewrite <- (assoc_L (++))).
    assert (forall x, x ∈ l0 ++ [c] -> x ∈ L) as HL'.
    { intros x Hx. apply HL. apply elem_of_app. by left. }
    assert (best ∈ L) as HbL by (apply HL', elem_of_app; left; by eapply list_elem_of_lookup_2).
    assert (c ∈ L) as HcL by (apply HL', elem_of_app; right; by left).
    destruct (candidate_less pf c best) eqn:Hc.
    + eapply IH; [done|by rewrite list_lookup_middle| |done|exact Hm].
      intros x [Hx | ->%list_elem_of_singleton]%elem_of_app; [|by apply Hirr].
      destruct (candidate_less pf x c) eqn:Hxc; [|done].
      rewrite <- (Hb x Hx). symmetry. eapply Htr; [| | |exact Hxc|exact Hc]; try done.
      by apply HL', elem_of_app; left.
    + eapply IH; [done|by apply lookup_app_l_Some| |done|exact Hm].
      intros x [Hx | ->%list_elem_of_singleton]%elem_of_app; [by apply Hb|done].
Qed.

(** ** The comparison, for separated scores *)
Definition score_eq (x y : float64) : Prop := flt x y = false /\ flt y x = false.

(** Two scores are separated when the tolerance does not merge different ones. *)
Definition separated (x y : float64) : Prop :=
  is_nan x = false /\ is_nan y = false /\
  ((f_1em12 <f fabs (x -f y)) = false -> score_eq x y).

Lemma score_eq_tolerated (x y : float64) :
  is_nan x = false -> is_nan y = false -> score_eq x y -> (f_1em12 <f fabs (x -f y)) = false.
Proof.
  unfold score_eq. intros Hx Hy [H1 H2].
  destruct x as [sx|[]| |sx mx ex], y as [sy|[]| |sy my ey]; try done;
    try (by destruct sx); try (by destruct sy); try (by destruct sx, sy).
  assert (sx = sy /\ mx = my /\ ex = ey) as (-> & -> & ->).
  { destruct sx, sy; float_order; simpl in *; destruct (Z.lt_trichotomy ex ey) as [|[]];
      destruct (Pos.lt_total mx my) as [|[]]; lia || (split_and!; done || lia). }
  unfold fsub, SpecFloat.SFsub. rewrite Z.sub_diag. done.
Qed.

Lemma less_separated (s1 s2 : float64) (m1 m2 : Z) (i1 i2 : string) (pf : bool) :
  separated s1 s2 ->
  less s1 m1 i1 s2 m2 i2 pf = true <->
  flt s1 s2 = true \/
  (score_eq s1 s2 /\
   ((pf = true /\ m2 < m1) \/ ((pf = true -> m1 = m2) /\ String.ltb i1 i2 = true))).
Proof.
  intros (Hn1 & Hn2 & Hsep). unfold less. case_if.
  - split; [by left|]. intros [|[He _]]; [done|].
    rewrite score_eq_tolerated in *; done.
  - destruct Hsep as [Hlt Hgt]; [done|]. rewrite Hlt. unfold score_eq. rewrite Hlt, Hgt.
    destruct pf; simpl; [|naive_solver].
    destruct (Z.eqb_spec m1 m2) as [->|Hne]; simpl; [naive_solver lia|].
    rewrite Z.ltb_lt. naive_solver.
Qed.

(** What the documentation promises: a smaller score wins, then (for the prefix
    policies) the larger match, then the smaller ID. *)
Definition preferred (pf : bool) (a b : CandidateEvaluation) : Prop :=
  flt (Score a) (Score b) = true \/
  (score_eq (Score a) (Score b) /\
   ((pf = true /\ MatchedTokens b < MatchedTokens a) \/
    ((pf = true -> MatchedTokens a = MatchedTokens b) /\
     String.ltb (ce_WorkerID a) (ce_WorkerID b) = true))).

Definition pairwise_separated (ts : list CandidateEvaluation) : Prop :=
  forall a b, a ∈ ts -> b ∈ ts -> separated (Score a) (Score b).

Lemma score_eq_trans (x y z : float64) : is_nan y = false ->
  score_eq x y -> score_eq y z -> score_eq x z.
Proof.
  unfold score_eq. intros Hy [H1 H2] [H3 H4].
  destruct (is_nan x) eqn:Hx; [by destruct x, z as [| | |[]]|].
  destruct (is_nan z) eqn:Hz; [by destruct z, x as [| | |[]]|].
  split; float_order.
Qed.

Lemma flt_score_eq (x y z : float64) : is_nan x = false -> is_nan y = false -> is_nan z = false ->
  (flt x y = true -> score_eq y z -> flt x z = true) /\
  (score_eq x y -> flt y z = true -> flt x z = true).
Proof.
  unfold score_eq. intros Hx Hy Hz. split; [intros H1 [H2 H3]|intros [H1 H2] H3]; float_order.
Qed.

Lemma preferred_trans (pf : bool) (a b c : CandidateEvaluation) :
  is_nan (Score a) = false -> is_nan (Score b) = false -> is_nan (Score c) = false ->
  preferred pf a b -> preferred pf b c -> preferred pf a c.
Proof.
  intros Ha Hb Hc. unfold preferred.
  destruct (flt_score_eq (Score a) (Score b) (Score c) Ha Hb Hc) as [H1 H2].
  pose proof (score_eq_trans (Score a) (Score b) (Score c) Hb).
  pose proof (flt_trans (Score a) (Score b) (Score c)).
  intros [Hab|[Hab Hm]] [Hbc|[Hbc Hm']]; [naive_solver..|].
  right. split; [by auto|]. destruct pf.
  - destruct Hm as [[_ Hm]|[Hm Hi]], Hm' as [[_ Hm']|[Hm' Hi']];
      try specialize (Hm eq_refl); try specialize (Hm' eq_refl); [left; split; [done|lia]..|].
    right. split; [lia|]. by eapply string_ltb_trans.
  - destruct Hm as [[? _]|[_ Hi]], Hm' as [[? _]|[_ Hi']]; try done. right.
    split; [done|]. by eapply string_ltb_trans.
Qed.

Lemma preferred_irrefl (pf : bool) (a : CandidateEvaluation) : ~ preferred pf a a.
Proof.
  unfold preferred. rewrite flt_irrefl, string_ltb_irrefl. intros [|[_ [[_ ?]|[_ ?]]]]; done || lia.
Qed.

Lemma preferred_total (pf : bool) (a b : CandidateEvaluation) :
  is_nan (Score a) = false -> is_nan (Score b) = false ->
  ce_WorkerID a <> ce_WorkerID b -> preferred pf a b \/ preferred pf b a.
Proof.
  intros Ha Hb Hid. unfold preferred, score_eq.
  destruct (flt (Score a) (Score b)) eqn:H1; [naive_solver|].
  destruct (flt (Score b) (Score a)) eqn:H2; [naive_solver|].
  destruct (string_ltb_total _ _ Hid) as [Hl|Hl].
  - destruct pf; [|left; right; naive_solver].
    destruct (Z.lt_trichotomy (MatchedTokens a) (MatchedTokens b)) as [|[|]]; naive_solver.
  - destruct pf; [|right; right; naive_solver].
    destruct (Z.lt_trichotomy (MatchedTokens a) (MatchedTokens b)) as [|[|]]; naive_solver.
Qed.

(** The result of a scan over separated candidates is preferred to all others. *)
Lemma scan_preferred (pf : bool) (first : candidate) (rest : list candidate) :
  NoDup ((fun c => w_ID (c_worker c)) <$> first :: rest) ->
  (forall c, c ∈ first :: rest -> ce_WorkerID (c_trace c) = w_ID (c_worker c)) ->
  pairwise_separated (c_trace <$> first :: rest) ->
  exists m, (first :: rest) !! scan pf first 0 1 rest = Some m /\
    forall c, c ∈ first :: rest -> c <> m -> preferred pf (c_trace m) (c_trace c).
Proof.
  intros Hnd Hid Hsep. set (L := first :: rest) in *.
  assert (forall a b, a ∈ L -> b ∈ L -> candidate_less pf a b = true <-> preferred pf (c_trace a) (c_trace b)) as Hless.
  { intros a b Ha Hb. unfold candidate_less, preferred. rewrite !Hid by done.
    apply less_separated. apply Hsep; apply list_elem_of_fmap; eauto. }
  assert (forall a, a ∈ L -> is_nan (Score (c_trace a)) = false) as Hnan.
  { intros a Ha. apply (Hsep (c_trace a) (c_trace a)); apply list_elem_of_fmap; eauto. }
  assert (forall a, a ∈ L -> candidate_less pf a a = false) as Hirr.
  { intros a Ha. apply not_true_iff_false. rewrite Hless by done. apply preferred_irrefl. }
  destruct (scan_lookup pf [first] rest first 0 eq_refl) as [m Hm].
  exists m. split; [exact Hm|]. intros c Hc Hne.
  assert (m ∈ L) as HmL by (by eapply list_elem_of_lookup_2).
  assert (candidate_less pf c m = false) as Hcm.
  { eapply (scan_minimal pf L [first] rest first m 0); try done.
    - intros x y z Hx Hy Hz. rewrite !Hless by done. apply preferred_trans; by apply Hnan.
    - intros x ->%list_elem_of_singleton. apply Hirr. by left. }
  destruct (preferred_total pf (c_trace m) (c_trace c)) as [|Hp]; [by apply Hnan..| |done|].
  - rewrite !Hid by done. intros Heq. apply Hne. symmetry. by eapply (NoDup_key_inj (fun c => w_ID (c_worker c))).
  - apply Hless in Hp; [|done..]. congruence.
Qed.

(** ** What [Select] returns *)
Definition rejections (r : Router) (request : Request) (excluded : gset string)
    (ws : list Worker) : list CandidateEvaluation :=
  (fun w => rejected_trace w (ineligibility r request w excluded)) <$>
    filter (fun w => ~ may_route r request excluded w) (sort_by_key w_ID ws).

Definition is_rr (r : Router) : bool := (policy r =? RoundRobin)%string.

Definition chosen (r : Router) (l : list candidate) : nat := select_index (policy r) (cursor r) l.

Definition marked (r : Router) (l : list candidate) : list candidate :=
  if is_rr r then alter (fun c => set_tie_break c "round_robin_cursor") (chosen r l) l else l.

Definition id_at (l : list candidate) (i : nat) : string :=
  default "" ((fun c => w_ID (c_worker c)) <$> l !! i).

Lemma Select_eq (r : Router) (request : Request) (ws : list Worker) (excluded : gset string) :
  Select r request ws excluded =
    let l := scored r request excluded ws in
    let rej := rejections r request excluded ws in
    let decision selected candidates cur :=
      {| d_RequestID := r_ID request; d_Policy := policy r; SelectedWorker := selected;
         Candidates := candidates; WorkerVersions := worker_versions (sort_by_key w_ID ws);
         d_Cursor := cur |} in
    match l with
    | [] => (r, (decision "" rej 0, Some ErrNoEligibleWorkers))
    | _ => (if is_rr r then {| policy := policy r; cursor := cursor r +u64 1 |} else r,
            (decision (id_at (marked r l) (chosen r l))
               (rej ++ (final_trace (id_at (marked r l) (chosen r l)) <$> marked r l))
               (if is_rr r then cursor r else 0), None))
    end.
Proof.
  unfold Select, scored, rejections, marked, chosen, id_at, is_rr. rewrite evaluate_eq.
  by destruct (filter (may_route r request excluded) (sort_by_key w_ID ws)).
Qed.

Lemma scored_nil (r : Router) (request : Request) (excluded : gset string) (ws : list Worker) :
  scored r request excluded ws = [] <-> forall w, w ∈ ws -> ~ may_route r request excluded w.
Proof.
  pose proof (scored_workers r request excluded ws) as Hsw. split.
  - intros Hn w Hw Hm. rewrite Hn in Hsw. apply (not_elem_of_nil w). simpl in Hsw. rewrite Hsw.
    apply list_elem_of_filter. split; [done|]. by apply elem_of_sort_by_key.
  - intros Hall. destruct (scored r request excluded ws) as [|c l]; [done|]. exfalso.
    assert (c_worker c ∈ c_worker <$> c :: l) as Hw by (simpl; left). rewrite Hsw in Hw.
    apply list_elem_of_filter in Hw as [Hm Hw]. apply elem_of_sort_by_key in Hw. by eapply Hall.
Qed.

Lemma scan_bound (pf : bool) (best : candidate) (sel i : nat) (l : list candidate) :
  (sel < i)%nat -> (scan pf best sel i l < i + length l)%nat.
Proof.
  revert best sel i. induction l as [|c l IH]; intros best sel i Hs; cbn [scan length]; [lia|].
  case_if; [pose proof (IH c i (S i))|pose proof (IH best sel (S i))]; lia.
Qed.

Lemma chosen_bound (r : Router) (l : list candidate) : l <> [] -> (chosen r l < length l)%nat.
Proof.
  unfold chosen, select_index. destruct l as [|c l]; [done|]. intros _.
  case_if; [|repeat case_if; try (simpl; lia); by apply scan_bound; lia].
  pose proof (Z.mod_pos_bound (cursor r) (Z.of_nat (length (c :: l)))). simpl length in *. lia.
Qed.

Lemma marked_lookup (r : Router) (l : list candidate) (i : nat) :
  exists f, marked r l !! i = f <$> l !! i /\
    (f = id \/ f = fun c => set_tie_break c "round_robin_cursor").
Proof.
  unfold marked. case_if; [|exists id; by rewrite option_fmap_id; auto].
  destruct (decide (chosen r l = i)) as [->|Hne].
  - eexists. split; [apply list_lookup_alter_eq|by right].
  - exists id. rewrite list_lookup_alter_ne, option_fmap_id by done. auto.
Qed.

Lemma id_at_marked (r : Router) (l : list candidate) (i : nat) : id_at (marked r l) i = id_at l i.
Proof.
  unfold id_at. destruct (marked_lookup r l i) as (f & -> & Hf).
  by destruct (l !! i); destruct Hf as [-> | ->].
Qed.

(** A successful decision, with the list it was taken from kept symbolic. *)
Lemma select_some (r : Router) (request : Request) (ws : list Worker) (excluded : gset string)
    (r' : Router) (d : RoutingDecision) :
  Select r request ws excluded = (r', (d, None)) ->
  let l := scored r request excluded ws in
  exists c, l !! chosen r l = Some c /\
    SelectedWorker d = w_ID (c_worker c) /\
    Candidates d = rejections r request excluded ws
                   ++ (final_trace (w_ID (c_worker c)) <$> marked r l) /\
    r' = if is_rr r then {| policy := policy r; cursor := cursor r +u64 1 |} else r.
Proof.
  intros H l. rewrite Select_eq in H. fold l in H. cbn zeta in H.
  assert (l <> []) as Hne by (intros E; by rewrite E in H).
  apply (chosen_bound r), lookup_lt_is_Some in Hne as [c Hc].
  assert (id_at (marked r l) (chosen r l) = w_ID (c_worker c)) as Hid
    by (rewrite id_at_marked; unfold id_at; by rewrite Hc).
  rewrite Hid in H. exists c. split; [done|].
  destruct l; [done|]. inversion H; subst. done.
Qed.

(** The prefix policies break ties by the larger match, the others only by ID. *)
Definition prefers_prefix (p : Policy) : bool := negb (p =? LeastWaitingTokens)%string.

(** The observable fields of a final trace are those of its candidate. *)
Lemma final_trace_fields (id : string) (c : candidate) :
  let t := final_trace id c in
  Score t = Score (c_trace c) /\ MatchedTokens t = MatchedTokens (c_trace c) /\
  ce_WorkerID t = ce_WorkerID (c_trace c) /\ Eligible t = Eligible (c_trace c).
Proof. unfold final_trace. by case_if. Qed.

Lemma preferred_final (pf : bool) (id id' : string) (a b : candidate) :
  preferred pf (c_trace a) (c_trace b) -> preferred pf (final_trace id a) (final_trace id' b).
Proof.
  unfold preferred.
  destruct (final_trace_fields id a) as (-> & -> & -> & _).
  destruct (final_trace_fields id' b) as (-> & -> & -> & _). tauto.
Qed.

Lemma chosen_scan (r : Router) (first : candidate) (rest : list candidate) :
  known_policy (policy r) = true -> is_rr r = false ->
  chosen r (first :: rest) = scan (prefers_prefix (policy r)) first 0 1 rest.
Proof.
  unfold known_policy, is_rr, chosen, select_index, prefers_prefix. intros Hk Hr. revert Hk. rewrite Hr.
  destruct (policy r =? LeastWaitingTokens)%string; [done|].
  destruct (policy r =? PrefixAffinity)%string; [done|].
  by destruct (policy r =? PredictedTTFT)%string.
Qed.

Lemma rejections_ineligible (r : Router) (request : Request) (excluded : gset string)
    (ws : list Worker) (t : CandidateEvaluation) :
  t ∈ rejections r request excluded ws -> Eligible t = false.
Proof. unfold rejections. by intros (w & -> & _)%list_elem_of_fmap. Qed.

Lemma select_none (r r' : Router) (request : Request) (ws : list Worker)
    (excluded : gset string) (d : RoutingDecision) (e : RoutingError) :
  Select r request ws excluded = (r', (d, Some e)) ->
  r' = r /\ SelectedWorker d = "" /\ forall w, w ∈ ws -> ~ may_route r request excluded w.
Proof.
  rewrite Select_eq. destruct (scored r request excluded ws) eqn:E; [|done].
  intros H. inversion H; subst. split_and!; [done..|]. by apply scored_nil.
Qed.

Lemma select_worker (r r' : Router) (request : Request) (ws : list Worker)
    (excluded : gset string) (d : RoutingDecision) :
  Select r request ws excluded = (r', (d, None)) ->
  exists w, w ∈ ws /\ w_ID w = SelectedWorker d /\ may_route r request excluded w.
Proof.
  intros (c & Hc & -> & _)%select_some. apply list_elem_of_lookup_2, scored_id in Hc.
  destruct Hc as (_ & _ & _ & Hm & Hw). eauto.
Qed.

(** ** Properties *)

(** C20: A decision names a worker of the snapshot that may be routed to: not
    excluded, fresh, of the right protocol and model, healthy, with consistent
    KV usage and (metric policies) with rates that the guards accept.  The error
    is returned exactly when no worker may be routed to, and then the cursor
    does not move. *)
Theorem select_eligible (r r' : Router) (request : Request) (ws : list Worker)
    (excluded : gset string) (d : RoutingDecision) (e : option RoutingError) :
  Select r request ws excluded = (r', (d, e)) ->
  match e with
  | None => exists w, w ∈ ws /\ w_ID w = SelectedWorker d /\ (w_ID w ∉ excluded) /\
      Stale w = false /\ w_ProtocolVersion w = ProtocolVersion /\
      DataAddress w <> "" /\ w_Model w = r_Model request /\
      Status (State w) = WorkerHealthy /\
      CapacityTokens (ws_KVUsage (State w)) <> 0 /\
      UsedTokens (ws_KVUsage (State w)) <= CapacityTokens (ws_KVUsage (State w)) /\
      (policy r <> RoundRobin ->
         fle (PrefillTokensPerSecond (State w)) fzero = false /\
         fle (DecodeTokensPerSecond (State w)) fzero = false /\
         DecodeSchedulingQuantumTokens (State w) <> 0)
  | Some _ => r' = r /\ SelectedWorker d = "" /\
      forall w, w ∈ ws -> ineligibility r request w excluded <> ""
  end.
Proof.
  intros H. destruct e as [e|]; [by apply select_none in H|].
  - apply select_worker in H as (w & Hw & Hid & Hm). exists w. split; [done|]. split; [done|].
    unfold may_route, ineligibility in Hm. case_decide; [done|].
    repeat match type of Hm with (if ?b then _ else _) = _ => destruct b eqn:?; [done|] end.
    bool_facts. split_and!; try done.
    intros Hp. match goal with H : _ \/ _ |- _ => destruct H as [H|H] end; bool_facts; done.
Qed.

(** The decision depends on the snapshot as a set of workers: the order in which
    they are given is irrelevant. *)
Theorem select_order_irrelevant (r : Router) (request : Request) (ws ws' : list Worker)
    (excluded : gset string) :
  NoDup (w_ID <$> ws) -> ws ≡ₚ ws' ->
  Select r request ws excluded = Select r request ws' excluded.
Proof. intros Hnd Hp. unfold Select. by rewrite (sort_by_key_perm_eq w_ID ws ws'). Qed.

(** C21: A metric policy selects the candidate preferred to every other eligible one,
    provided the tolerance of the comparison does not merge different scores. *)
Theorem metric_policy_selects_minimum (r r' : Router) (request : Request) (ws : list Worker)
    (excluded : gset string) (d : RoutingDecision) :
  known_policy (policy r) = true -> policy r <> RoundRobin -> NoDup (w_ID <$> ws) ->
  Select r request ws excluded = (r', (d, None)) ->
  pairwise_separated (filter (fun t => Eligible t = true) (Candidates d)) ->
  r' = r /\ exists best, best ∈ Candidates d /\ Eligible best = true /\
    ce_WorkerID best = SelectedWorker d /\ TieBreak best = "minimum_score" /\
    forall t, t ∈ Candidates d -> Eligible t = true -> ce_WorkerID t <> SelectedWorker d ->
      preferred (prefers_prefix (policy r)) best t.
Proof.
  intros Hk Hrr Hnd HS Hsep. apply select_some in HS as (b & Hb & -> & Hc & ->).
  assert (is_rr r = false) as Hr by (unfold is_rr; by apply String.eqb_neq).
  unfold marked in Hc. rewrite Hr in *. split; [done|].
  pose proof (fun c => scored_id r request excluded ws c) as Hl.
  pose proof (scored_nodup r request excluded ws Hnd) as Hndl.
  pose proof (final_trace_fields (w_ID (c_worker b))) as Hf. cbn zeta in Hf.
  set (l := scored r request excluded ws) in *. set (fin := final_trace (w_ID (c_worker b))) in *.
  assert (forall c, c ∈ l -> fin c ∈ Candidates d /\ Eligible (fin c) = true) as Hin.
  { intros c Hcl. rewrite Hc. split; [apply elem_of_app; right; apply list_elem_of_fmap; eauto|].
    destruct (Hf c) as (_ & _ & _ & ->). by apply Hl. }
  destruct l as [|first rest] eqn:El; [done|].
  destruct (scan_preferred (prefers_prefix (policy r)) first rest) as (m & Hm & Hbest); [done| | |].
  { intros c Hcl. by apply Hl. }
  { intros x y (cx & -> & Hx)%list_elem_of_fmap (cy & -> & Hy)%list_elem_of_fmap.
    destruct (Hf cx) as (<- & _).
    destruct (Hf cy) as (<- & _).
    apply Hsep; apply list_elem_of_filter; split; by apply Hin. }
  rewrite chosen_scan, Hm in Hb by done. injection Hb as ->.
  assert (b ∈ first :: rest) as Hbl by (by eapply list_elem_of_lookup_2).
  destruct (Hl b Hbl) as (Hib & _ & Htb & _). exists (fin b).
  split_and!; [by apply Hin..| | |].
  - destruct (Hf b) as (_ & _ & -> & _). done.
  - unfold fin, final_trace. by rewrite String.eqb_refl, Htb.
  - intros t Ht Het Hne. rewrite Hc in Ht. apply elem_of_app in Ht as [Ht|Ht].
    { apply rejections_ineligible in Ht. congruence. }
    apply list_elem_of_fmap in Ht as (c & -> & Hcl). apply preferred_final, Hbest; [done|].
    intros ->. apply Hne. by destruct (Hf b) as (_ & _ & -> & _).
Qed.

(** The workers that successive decisions on one snapshot select. *)
Fixpoint select_run (n : nat) (r : Router) (request : Request) (ws : list Worker)
    (excluded : gset string) : list string :=
  match n with
  | O => []
  | S n =>
      let '(r', (d, _)) := Select r request ws excluded in
      SelectedWorker d :: select_run n r' request ws excluded
  end.

Definition eligible_ids (r : Router) (request : Request) (excluded : gset string)
    (ws : list Worker) : list string :=
  w_ID <$> filter (may_route r request excluded) (sort_by_key w_ID ws).

Lemma scored_ids (r : Router) (request : Request) (excluded : gset string) (ws : list Worker) :
  (fun c => w_ID (c_worker c)) <$> scored r request excluded ws = eligible_ids r request excluded ws.
Proof. unfold eligible_ids. by rewrite <- scored_workers, <- list_fmap_compose. Qed.

Lemma eligible_ids_policy (r r' : Router) (request : Request) (excluded : gset string) (ws : list Worker) :
  policy r = policy r' -> eligible_ids r request excluded ws = eligible_ids r' request excluded ws.
Proof.
  intros Hp. unfold eligible_ids. f_equal. apply list_filter_iff. intros w.
  unfold may_route, ineligibility. by rewrite Hp.
Qed.

Lemma rr_select (r : Router) (request : Request) (ws : list Worker) (excluded : gset string) :
  policy r = RoundRobin -> eligible_ids r request excluded ws <> [] ->
  exists d, Select r request ws excluded =
      ({| policy := RoundRobin; cursor := cursor r +u64 1 |}, (d, None)) /\
    let ids := eligible_ids r request excluded ws in
    ids !! Z.to_nat (cursor r mod Z.of_nat (length ids)) = Some (SelectedWorker d).
Proof.
  intros Hp Hne. rewrite <- scored_ids in *. set (l := scored r request excluded ws) in *.
  destruct (Select r request ws excluded) as [r' [d [[]|]]] eqn:HS.
  { rewrite Select_eq in HS. fold l in HS. by destruct l. }
  exists d. apply select_some in HS as (c & Hc & -> & _ & ->). fold l in Hc.
  unfold is_rr. rewrite Hp. split; [done|]. cbn zeta.
  rewrite list_lookup_fmap, length_fmap.
  assert (chosen r l = Z.to_nat (cursor r mod Z.of_nat (length l))) as <-.
  { unfold chosen, select_index. rewrite Hp. by destruct l. }
  by rewrite Hc.
Qed.

Lemma select_run_rotate (n : nat) (r : Router) (request : Request) (ws : list Worker)
    (excluded : gset string) (i : nat) :
  policy r = RoundRobin -> eligible_ids r request excluded ws <> [] ->
  0 <= cursor r -> cursor r + Z.of_nat n <= 2 ^ 64 -> (i < n)%nat ->
  let ids := eligible_ids r request excluded ws in
  select_run n r request ws excluded !! i =
    ids !! rotate_nat_add (Z.to_nat (cursor r)) i (length ids).
Proof.
  revert r i. induction n as [|n IH]; intros r i Hp Hne Hc Hn Hi; [lia|]. cbn zeta.
  destruct (rr_select r request ws excluded Hp Hne) as (d & HS & Hd). cbn [select_run]. rewrite HS.
  unfold rotate_nat_add in *. rewrite Z2Nat.id by lia. destruct i as [|i]; cbn [lookup list_lookup].
  - rewrite Z.add_0_r. symmetry. exact Hd.
  - set (r' := {| policy := RoundRobin; cursor := cursor r +u64 1 |}).
    pose proof (eligible_ids_policy r' r request excluded ws (eq_sym Hp)) as Hids.
    assert (cursor r' = cursor r + 1) as Hc'
      by (unfold r'; cbn [cursor]; apply wrap_u64_id; unfold is_u64; lia).
    change (select_run n r' request ws excluded !! i =
      eligible_ids r request excluded ws !! Z.to_nat ((cursor r + Z.of_nat (S i))
        mod Z.of_nat (length (eligible_ids r request excluded ws)))).
    rewrite (IH r' i); rewrite ?Hids, ?Hc'; try done; try lia.
    rewrite Z2Nat.id by lia. do 3 f_equal. lia.
Qed.

Lemma length_select_run (n : nat) (r : Router) (request : Request) (ws : list Worker)
    (excluded : gset string) : length (select_run n r request ws excluded) = n.
Proof.
  revert r. induction n as [|n IH]; intros r; [done|]. cbn [select_run].
  destruct (Select r request ws excluded) as [r' [d e]]. simpl. by rewrite IH.
Qed.

(** C22: Round robin is fair: as many decisions in a row, over the same workers, as there
    are eligible ones select each of them exactly once, in ID order starting at the
    cursor, as long as the cursor does not wrap around on the way (it is 64 bits
    wide and starts at the configured seed). *)
Theorem round_robin_fair (r : Router) (request : Request) (ws : list Worker)
    (excluded : gset string) :
  policy r = RoundRobin -> eligible_ids r request excluded ws <> [] -> 0 <= cursor r ->
  let ids := eligible_ids r request excluded ws in
  cursor r + Z.of_nat (length ids) <= 2 ^ 64 ->
  select_run (length ids) r request ws excluded = rotate (Z.to_nat (cursor r)) ids /\
  select_run (length ids) r request ws excluded ≡ₚ ids.
Proof.
  intros Hp Hne Hc ids Hn.
  assert (select_run (length ids) r request ws excluded = rotate (Z.to_nat (cursor r)) ids) as ->.
  { eapply list_eq_same_length; [by rewrite length_rotate|by rewrite length_select_run|].
    intros i x y Hi Hx Hy. rewrite select_run_rotate in Hx by (done || lia).
    rewrite lookup_rotate_r in Hy by done. fold ids in Hx. congruence. }
  split; [done|]. unfold rotate. rewrite (comm (++)). by rewrite take_drop.
Qed.

(** A trace without its score and its tie-break mark. *)
Definition erase (t : CandidateEvaluation) : CandidateEvaluation :=
  {| ce_WorkerID := ce_WorkerID t; Eligible := Eligible t;
     RejectionReason := RejectionReason t; StateVersion := StateVersion t;
     MatchedTokens := MatchedTokens t; QueueDelay := QueueDelay t;
     UncachedPrefill := UncachedPrefill t; PrefillDelay := PrefillDelay t;
     OverloadPenalty := OverloadPenalty t; Model.PredictedTTFT := Model.PredictedTTFT t;
     Score := fzero; TieBreak := "" |}.

Lemma erase_final (id : string) (r : Router) (request : Request) (excluded : gset string) (ws : list Worker) :
  erase <$> (final_trace id <$> marked r (scored r request excluded ws)) =
    eligible_trace request <$> filter (may_route r request excluded) (sort_by_key w_ID ws).
Proof.
  apply list_eq. intros i. rewrite !list_lookup_fmap.
  destruct (marked_lookup r (scored r request excluded ws) i) as (f & -> & Hf).
  unfold scored. rewrite list_lookup_imap, list_lookup_fmap. destruct (_ !! i) as [w|]; [|done].
  simpl. f_equal. unfold final_trace. destruct Hf as [-> | ->]; by case_if.
Qed.

Lemma erase_candidates (r r' : Router) (request : Request) (ws : list Worker)
    (excluded : gset string) (d : RoutingDecision) (e : option RoutingError) :
  Select r request ws excluded = (r', (d, e)) ->
  erase <$> Candidates d = rejections r request excluded ws ++
    (eligible_trace request <$> filter (may_route r request excluded) (sort_by_key w_ID ws)).
Proof.
  intros H. destruct e as [e|].
  - rewrite Select_eq in H. destruct (scored r request excluded ws) as [|c l] eqn:E; [|done].
    inversion H; subst. cbn [Candidates].
    rewrite <- (scored_workers r'), E, app_nil_r.
    unfold rejections. rewrite <- list_fmap_compose. by apply list_fmap_ext.
  - apply select_some in H as (c & _ & _ & -> & _). rewrite fmap_app, erase_final. f_equal.
    unfold rejections. rewrite <- list_fmap_compose. by apply list_fmap_ext.
Qed.

(** The trace is complete: every worker of the snapshot has exactly one entry, a
    rejected one carries its reason and an eligible one the formulas of the
    documentation. *)
Theorem select_trace_complete (r r' : Router) (request : Request) (ws : list Worker)
    (excluded : gset string) (d : RoutingDecision) (e : option RoutingError) :
  Select r request ws excluded = (r', (d, e)) ->
  (ce_WorkerID <$> Candidates d) ≡ₚ (w_ID <$> ws) /\
  forall t, t ∈ Candidates d -> exists w, w ∈ ws /\ ce_WorkerID t = w_ID w /\
    RejectionReason t = ineligibility r request w excluded /\
    (Eligible t = true <-> RejectionReason t = "") /\
    (Eligible t = true ->
       MatchedTokens t = LongestMatch (PrefixFingerprints request) (CachedPrefixes (State w)) /\
       UncachedPrefill t = Z.max (EstimatedInputToken request - MatchedTokens t) 0 /\
       QueueDelay t = queue_delay (State w) /\
       PrefillDelay t = float_of_Z (UncachedPrefill t) /f PrefillTokensPerSecond (State w) /\
       OverloadPenalty t = overload_penalty (State w) /\
       Model.PredictedTTFT t = QueueDelay t +f PrefillDelay t +f OverloadPenalty t).
Proof.
  intros H. apply erase_candidates in H. split.
  - assert ((ce_WorkerID <$> Candidates d) = ce_WorkerID <$> (erase <$> Candidates d)) as ->
      by (rewrite <- list_fmap_compose; by apply list_fmap_ext).
    rewrite H, fmap_app. unfold rejections. rewrite <- !list_fmap_compose.
    change (ce_WorkerID ∘ _) with w_ID at 1. change (ce_WorkerID ∘ _) with w_ID.
    rewrite <- fmap_app, (comm (++)), filter_app_complement. by rewrite sort_by_key_perm.
  - intros t Ht. assert (erase t ∈ erase <$> Candidates d) as He by (apply list_elem_of_fmap; eauto).
    rewrite H in He. apply elem_of_app in He as [He|He];
      apply list_elem_of_fmap in He as (w & Hw & Hin);
      apply list_elem_of_filter in Hin as [Hm Hin]; apply elem_of_sort_by_key in Hin;
      exists w; destruct t; unfold erase in Hw; simpl in *; inversion Hw; subst.
    + by split_and!.
    + unfold may_route in Hm. split_and!; try done. intros _. split_and!; try done.
      unfold uncached_prefill. case_if; bool_facts; lia.
Qed.

(** ** Witnesses *)
Definition separatedb (x y : float64) : bool :=
  negb (is_nan x) && negb (is_nan y)
  && ((f_1em12 <f fabs (x -f y)) || (negb (flt x y) && negb (flt y x))).

Lemma pairwise_separatedb_ok (ts : list CandidateEvaluation) :
  forallb (fun a => forallb (fun b => separatedb (Score a) (Score b)) ts) ts = true ->
  pairwise_separated ts.
Proof.
  rewrite <- Forall_forallb, list.Forall_forall. intros H a b Ha Hb. specialize (H a Ha).
  rewrite <- Forall_forallb, list.Forall_forall in H. specialize (H b Hb). unfold separatedb in H. bool_facts.
  split_and!; [done..|]. intros Ht. match goal with H : _ \/ _ |- _ => destruct H as [H|H] end; [congruence|].
  unfold score_eq. by bool_facts.
Qed.

(** A busy worker, an idle one and a draining one. *)
Definition ex_snapshot : list Worker :=
  [ex_worker "w2" (ex_state 3 10 5); ex_worker "w1" (ex_state 1 500 5);
   ex_worker "w0" (set_status (ex_state 1 0 0) WorkerDraining)].

Definition ex_decision (p : Policy) : Router * (RoutingDecision * option RoutingError) :=
  Select {| policy := p; cursor := 1 |} ex_request ex_snapshot ∅.

Lemma select_eligible_witness : exists w, w ∈ ex_snapshot /\ w_ID w = "w2" /\ Status (State w) = WorkerHealthy.
Proof.
  destruct (select_eligible {| policy := PredictedTTFT; cursor := 1 |} (ex_decision PredictedTTFT).1 ex_request
    ex_snapshot ∅ (ex_decision PredictedTTFT).2.1 None) as (w & Hw & Hid & _ & _ & _ & _ & _ & Hs & _).
  - vm_compute. reflexivity.
  - exists w. split; [exact Hw|]. split; [|exact Hs]. rewrite Hid. vm_compute. reflexivity.
Defined.

Lemma select_order_irrelevant_witness :
  Select {| policy := PredictedTTFT; cursor := 1 |} ex_request (reverse ex_snapshot) ∅ =
    ex_decision PredictedTTFT.
Proof.
  apply select_order_irrelevant.
  - apply (bool_decide_unpack _). vm_compute. exact I.
  - apply reverse_Permutation.
Defined.

Lemma metric_policy_selects_minimum_witness :
  exists best, best ∈ Candidates (ex_decision PredictedTTFT).2.1 /\ ce_WorkerID best = "w2" /\
    TieBreak best = "minimum_score".
Proof.
  destruct (metric_policy_selects_minimum {| policy := PredictedTTFT; cursor := 1 |}
    (ex_decision PredictedTTFT).1 ex_request ex_snapshot ∅ (ex_decision PredictedTTFT).2.1)
    as (_ & best & Hb & _ & Hid & Ht & _).
  - reflexivity.
  - discriminate.
  - apply (bool_decide_unpack _). vm_compute. exact I.
  - vm_compute. reflexivity.
  - apply pairwise_separatedb_ok. vm_compute. reflexivity.
  - exists best. split; [exact Hb|]. split; [|exact Ht]. rewrite Hid. vm_compute. reflexivity.
Defined.

Lemma round_robin_fair_witness :
  select_run 2 {| policy := RoundRobin; cursor := 1 |} ex_request ex_snapshot ∅ = ["w2"; "w1"].
Proof.
  assert (eligible_ids {| policy := RoundRobin; cursor := 1 |} ex_request ∅ ex_snapshot = ["w1"; "w2"]) as Hids
    by (vm_compute; reflexivity).
  destruct (round_robin_fair {| policy := RoundRobin; cursor := 1 |} ex_request ex_snapshot ∅) as [H _];
    [reflexivity|rewrite Hids; discriminate|done|rewrite Hids; cbn; lia|].
  rewrite Hids in H. exact H.
Defined.

Lemma select_trace_complete_witness :
  (ce_WorkerID <$> Candidates (ex_decision PrefixAffinity).2.1) ≡ₚ ["w2"; "w1"; "w0"].
Proof.
  refine (proj1 (select_trace_complete {| policy := PrefixAffinity; cursor := 1 |}
    (ex_decision PrefixAffinity).1 ex_request ex_snapshot ∅ (ex_decision PrefixAffinity).2.1 None _)).
  vm_compute. reflexivity.
Defined.

(** The cursor wraps at 2^64, whatever the number of eligible workers: with three of
    them, and a seed of 2^64 - 1, the first one is selected twice in a row. *)
Theorem round_robin_wraps :
  let workers := ex_worker "w3" (ex_state 1 10 5) :: ex_snapshot in
  eligible_ids {| policy := RoundRobin; cursor := 2 ^ 64 - 1 |} ex_request ∅ workers = ["w1"; "w2"; "w3"] /\
  select_run 3 {| policy := RoundRobin; cursor := 2 ^ 64 - 1 |} ex_request workers ∅ = ["w1"; "w1"; "w2"].
Proof. split; vm_compute; reflexivity. Qed.
