(* ===== verification/Config.v ===== *)
(** * Configuration: [src/internal/config/config.go]

    The router and worker configurations, the text of their durations, their
    validation and their loading.  The YAML decoder is a third-party package: a
    function of the unmarshaller of durations, which it calls, and of the bytes
    of the file. *)

From S2P Require Import Prelude GoFloat GoString Duration.
From S2P Require Admission Routing.

#[local] Open Scope Z_scope.

Record RoutingConfig := { Policy : Routing.Policy; RoundRobinSeed : Z }.

Record RouterConfig := {
  rc_HTTPAddress : string;
  rc_ControlAddress : string;
  rc_Model : string;
  DefaultMaxOutputTokens : Z;
  rc_MaxOutputTokens : Z;
  MaxInputTokens : Z;
  MaxContextTokens : Z;
  RequestTimeout : Duration;
  MinRequestTimeout : Duration;
  MaxRequestTimeout : Duration;
  HeartbeatStaleAfter : Duration;
  SSEBufferSize : Z;
  SlowClientTimeout : Duration;
  ShutdownTimeout : Duration;
  rc_Routing : RoutingConfig;
  rc_Admission : Admission.Config;
}.

Record FailureConfig := {
  FailBeforeFirstCount : Z;
  FailAfterTokens : Z;
  SlowdownMultiplier : float64;
}.

Record WorkerConfig := {
  wc_ID : string;
  wc_DataAddress : string;
  AdvertisedAddress : string;
  RouterControlAddress : string;
  wc_Model : string;
  HeartbeatInterval : Duration;
  QueueCapacity : Z;
  wc_PrefillTokensPerSecond : float64;
  wc_DecodeTokensPerSecond : float64;
  wc_DecodeSchedulingQuantumTokens : Z;
  CacheCapacityTokens : Z;
  CachePrefixLimit : Z;
  Seed : Z;
  Failure : FailureConfig;
}.

Definition ValidateRouter (c : RouterConfig) : result string unit :=
  _ ← reject_if ((rc_HTTPAddress c =? "")%string || (rc_ControlAddress c =? "")%string
                 || (rc_Model c =? "")%string)
        "http_address, control_address, and model are required";
  _ ← reject_if ((DefaultMaxOutputTokens c =? 0)
                 || (rc_MaxOutputTokens c <? DefaultMaxOutputTokens c)
                 || (rc_MaxOutputTokens c =? 0))
        "default_max_output_tokens must be positive and no greater than max_output_tokens";
  _ ← reject_if ((MaxInputTokens c =? 0) || (MaxContextTokens c <? MaxInputTokens c))
        "invalid input/context token limits";
  _ ← reject_if ((RequestTimeout c <=? 0) || (MinRequestTimeout c <=? 0)
                 || (MaxRequestTimeout c <? MinRequestTimeout c)
                 || (MaxRequestTimeout c <? RequestTimeout c))
        "invalid request timeout settings";
  _ ← reject_if ((HeartbeatStaleAfter c <=? 0) || (SSEBufferSize c <=? 0)
                 || (SlowClientTimeout c <=? 0) || (ShutdownTimeout c <=? 0))
        "heartbeat, SSE buffer, client timeout, and shutdown values must be positive";
  _ ← Routing.New (Policy (rc_Routing c)) (RoundRobinSeed (rc_Routing c));
  _ ← Admission.New (rc_Admission c);
  Ok tt.

Definition ValidateWorker (c : WorkerConfig) : result string unit :=
  _ ← reject_if ((wc_ID c =? "")%string || (wc_DataAddress c =? "")%string
                 || (RouterControlAddress c =? "")%string || (wc_Model c =? "")%string)
        "worker id, addresses, and model are required";
  _ ← reject_if ((HeartbeatInterval c <=? 0) || (QueueCapacity c <=? 0)
                 || (CachePrefixLimit c <=? 0) || (CacheCapacityTokens c =? 0))
        "worker heartbeat, queue, cache limit, and cache capacity must be positive";
  _ ← reject_if (fle (wc_PrefillTokensPerSecond c) fzero || fle (wc_DecodeTokensPerSecond c) fzero
                 || (wc_DecodeSchedulingQuantumTokens c =? 0))
        "worker rates and decode scheduling quantum must be positive";
  reject_if ((FailBeforeFirstCount (Failure c) <? 0) || (FailAfterTokens (Failure c) <? 0)
             || flt (SlowdownMultiplier (Failure c)) (float_of_Z 1))
    "invalid failure injection configuration".

(** ** Loading *)

(** [Duration.UnmarshalYAML] on a scalar node. *)
Definition UnmarshalYAML (value : string) : result duration_error Duration :=
  parsed ← ParseDuration value; Ok parsed.

Section Load.
(** The text of a file, or the error of reading it, and the decoder, which
    refuses unknown fields. *)
Context {A : Type} (ReadFile : string -> result string bytes)
  (Decode : (string -> result duration_error Duration) -> bytes -> result string A).

Definition load (path : string) : result string A :=
  match ReadFile path with
  | Err e => Err ("read configuration: " +:+ e)
  | Ok data =>
      match Decode UnmarshalYAML data with
      | Err e => Err ("decode configuration: " +:+ e)
      | Ok output => Ok output
      end
  end.
End Load.

Section Commands.
Context (ReadFile : string -> result string bytes).

Definition LoadRouter (Decode : (string -> result duration_error Duration) -> bytes -> result string RouterConfig)
    (path : string) : result string RouterConfig :=
  config ← load ReadFile Decode path; _ ← ValidateRouter config; Ok config.

Definition LoadWorker (Decode : (string -> result duration_error Duration) -> bytes -> result string WorkerConfig)
    (path : string) : result string WorkerConfig :=
  config ← load ReadFile Decode path; _ ← ValidateWorker config; Ok config.
End Commands.

(** ** What validation guarantees *)
Record valid_router (c : RouterConfig) : Prop := {
  vr_names : rc_HTTPAddress c <> "" /\ rc_ControlAddress c <> "" /\ rc_Model c <> "";
  vr_output : DefaultMaxOutputTokens c <> 0 /\ DefaultMaxOutputTokens c <= rc_MaxOutputTokens c /\
    rc_MaxOutputTokens c <> 0;
  vr_input : MaxInputTokens c <> 0 /\ MaxInputTokens c <= MaxContextTokens c;
  vr_timeouts : 0 < RequestTimeout c <= MaxRequestTimeout c /\
    0 < MinRequestTimeout c <= MaxRequestTimeout c;
  vr_positive : 0 < HeartbeatStaleAfter c /\ 0 < SSEBufferSize c /\ 0 < SlowClientTimeout c /\
    0 < ShutdownTimeout c;
  vr_policy : Routing.known_policy (Policy (rc_Routing c)) = true;
  vr_admission : Admission.GlobalInFlightTokens (rc_Admission c) <> 0 /\
    fle (Admission.TenantRatePerSecond (rc_Admission c)) fzero = false /\
    fle (Admission.TenantBurstTokens (rc_Admission c)) fzero = false;
}.

Ltac bool_iff := rewrite ?orb_false_iff, ?String.eqb_neq, ?Z.eqb_neq, ?Z.ltb_ge, ?Z.leb_gt.

Lemma bind_reject_ok {A} (b : bool) (e : string) (k : result string A) (a : A) :
  (_ ← reject_if b e; k) = Ok a <-> b = false /\ k = Ok a.
Proof. destruct b; simpl; naive_solver. Qed.

Lemma routing_new_ok (p : Routing.Policy) (seed : Z) (r : Routing.Router) :
  Routing.New p seed = Ok r <->
  Routing.known_policy p = true /\ r = {| Routing.policy := p; Routing.cursor := seed |}.
Proof. unfold Routing.New. case_if; naive_solver. Qed.

Lemma admission_new_ok (c : Admission.Config) (a : Admission.Controller) :
  Admission.New c = Ok a <->
  (Admission.GlobalInFlightTokens c <> 0 /\ fle (Admission.TenantRatePerSecond c) fzero = false /\
   fle (Admission.TenantBurstTokens c) fzero = false) /\
  a = {| Admission.config := c; Admission.used := 0; Admission.buckets := ∅;
         Admission.leases := [] |}.
Proof.
  unfold Admission.New. rewrite <- Z.eqb_neq.
  destruct (_ =? 0), (fle _ _), (fle _ _); simpl; naive_solver.
Qed.

(** A configuration is accepted exactly when it satisfies every documented
    constraint. *)
Lemma ValidateRouter_spec (c : RouterConfig) : ValidateRouter c = Ok tt <-> valid_router c.
Proof.
  unfold ValidateRouter. rewrite !bind_reject_ok, result_bind_ok.
  setoid_rewrite routing_new_ok. setoid_rewrite result_bind_ok.
  setoid_rewrite admission_new_ok. bool_iff. split.
  - intros ([[? ?] ?] & [[? ?] ?] & [? ?] & [[[? ?] ?] ?] & [[[? ?] ?] ?] & r & [? _] & a & [? _] & _).
    by split.
  - intros [(? & ? & ?) (? & ? & ?) [? ?] [[? ?] [? ?]] (? & ? & ? & ?) ? ?].
    split_and!; try done. eexists; split; [by split|]. eexists; split; [by split|done].
Qed.

(** ** Properties *)

Section LoadProps.
Context (ReadFile : string -> result string bytes).

Lemma load_ok {A} (Decode : (string -> result duration_error Duration) -> bytes -> result string A)
    (path : string) (a : A) :
  load ReadFile Decode path = Ok a <->
  exists data, ReadFile path = Ok data /\ Decode UnmarshalYAML data = Ok a.
Proof.
  unfold load. destruct (ReadFile path) as [data|e]; [|by split; [|intros (? & ? & _)]].
  destruct (Decode UnmarshalYAML data) as [x|e] eqn:E.
  - split; [intros [= ->]; eauto|intros (data' & [= <-] & H); congruence].
  - split; [done|intros (data' & [= <-] & H); congruence].
Qed.

(** [LoadRouter] returns a configuration only when the file was read and decoded
    to it, and it satisfies every constraint. *)
Theorem LoadRouter_valid
    (Decode : (string -> result duration_error Duration) -> bytes -> result string RouterConfig)
    (path : string) (c : RouterConfig) :
  LoadRouter ReadFile Decode path = Ok c <->
  (exists data, ReadFile path = Ok data /\ Decode UnmarshalYAML data = Ok c) /\ valid_router c.
Proof.
  unfold LoadRouter. rewrite result_bind_ok. setoid_rewrite result_bind_ok.
  setoid_rewrite load_ok. rewrite <- ValidateRouter_spec. split.
  - intros (c' & Hl & [] & Hv & Hc). injection Hc as ->. by split.
  - intros [Hl Hv]. exists c. split; [exact Hl|]. by exists tt.
Qed.

Lemma LoadWorker_ok
    (Decode : (string -> result duration_error Duration) -> bytes -> result string WorkerConfig)
    (path : string) (c : WorkerConfig) :
  LoadWorker ReadFile Decode path = Ok c <->
  (exists data, ReadFile path = Ok data /\ Decode UnmarshalYAML data = Ok c) /\ ValidateWorker c = Ok tt.
Proof.
  unfold LoadWorker. split.
  - intros (c' & Hl%load_ok & ([] & Hv & [= ->])%result_bind_ok)%result_bind_ok. by split.
  - intros [Hl%load_ok Hv]. rewrite Hl. cbn [mbind result_bind]. by rewrite Hv.
Qed.
End LoadProps.

(** The text of a duration in a configuration file, a sum of whole numbers of
    units with an optional sign, is read as exactly that duration; it is refused
    exactly when the sum does not fit 64 bits, whichever intermediate value
    overflows, and whatever the text, what is read fits. *)
Theorem duration_text_roundtrip (neg : bool) (ts : list term) (text : string) (d : Duration) :
  ts <> [] -> Forall term_ok ts -> Forall (fun t => t_value t <> 2 ^ 63) ts ->
  (UnmarshalYAML (duration_text neg ts) =
     let v := if neg then - total ts else total ts in
     if in_range (- 2 ^ 63) (2 ^ 63 - 1) v then Ok v else Err InvalidDuration) /\
  (UnmarshalYAML text = Ok d -> is_i64 d).
Proof.
  intros Hne Hok Hv. unfold UnmarshalYAML. split.
  - rewrite ParseDuration_spec by done. cbn zeta. by destruct (in_range _ _ _).
  - intros (v & Hd & [= <-])%result_bind_ok. by apply ParseDuration_range in Hd.
Qed.

(** A worker configuration that validates has positive sizes, rates that are not
    below or equal to zero, and failure-injection settings in range. *)
Lemma ValidateWorker_spec (c : WorkerConfig) :
  ValidateWorker c = Ok tt <->
  (wc_ID c <> "" /\ wc_DataAddress c <> "" /\ RouterControlAddress c <> "" /\ wc_Model c <> "") /\
  (0 < HeartbeatInterval c /\ 0 < QueueCapacity c /\ 0 < CachePrefixLimit c /\
   CacheCapacityTokens c <> 0) /\
  (fle (wc_PrefillTokensPerSecond c) fzero = false /\
   fle (wc_DecodeTokensPerSecond c) fzero = false /\ wc_DecodeSchedulingQuantumTokens c <> 0) /\
  (0 <= FailBeforeFirstCount (Failure c) /\ 0 <= FailAfterTokens (Failure c) /\
   flt (SlowdownMultiplier (Failure c)) (float_of_Z 1) = false).
Proof.
  unfold ValidateWorker. rewrite !bind_reject_ok, reject_if_ok. bool_iff. naive_solver.
Qed.

(** ** Concrete configurations *)
Definition ex_router_config : RouterConfig :=
  {| rc_HTTPAddress := ":8080"; rc_ControlAddress := ":9090"; rc_Model := "mock-llm";
     DefaultMaxOutputTokens := 16; rc_MaxOutputTokens := 64; MaxInputTokens := 4096;
     MaxContextTokens := 4160; RequestTimeout := 30 * Second; MinRequestTimeout := 1 * Second;
     MaxRequestTimeout := 60 * Second; HeartbeatStaleAfter := 3 * Second; SSEBufferSize := 4;
     SlowClientTimeout := 5 * Second; ShutdownTimeout := 10 * Second;
     rc_Routing := {| Policy := Routing.PredictedTTFT; RoundRobinSeed := 0 |};
     rc_Admission := {| Admission.GlobalInFlightTokens := 100000;
       Admission.TenantRatePerSecond := float_of_Z 1000;
       Admission.TenantBurstTokens := float_of_Z 10000 |} |}.

Definition ex_worker_config (fail_first fail_after : Z) : WorkerConfig :=
  {| wc_ID := "w1"; wc_DataAddress := "w1:9000"; AdvertisedAddress := "";
     RouterControlAddress := "router:9090"; wc_Model := "mock-llm"; HeartbeatInterval := 1 * Second;
     QueueCapacity := 2; wc_PrefillTokensPerSecond := float_of_Z 1000;
     wc_DecodeTokensPerSecond := float_of_Z 100; wc_DecodeSchedulingQuantumTokens := 1;
     CacheCapacityTokens := 64; CachePrefixLimit := 2; Seed := 7;
     Failure := {| FailBeforeFirstCount := fail_first; FailAfterTokens := fail_after;
                   SlowdownMultiplier := float_of_Z 1 |} |}.

Lemma ex_router_valid : valid_router ex_router_config.
Proof. by apply ValidateRouter_spec. Qed.

(** "1h2m3s". *)
Lemma duration_text_roundtrip_witness :
  let ts := [ {| t_number := 1; t_unit := "h"; t_value := Hour |};
              {| t_number := 2; t_unit := "m"; t_value := 2 * Minute |};
              {| t_number := 3; t_unit := "s"; t_value := 3 * Second |} ] in
  duration_text false ts = "1h2m3s" /\ UnmarshalYAML "1h2m3s" = Ok (3723 * Second).
Proof.
  cbn zeta. split; [vm_compute; reflexivity|].
  refine (proj1 (duration_text_roundtrip false [ {| t_number := 1; t_unit := "h"; t_value := Hour |};
    {| t_number := 2; t_unit := "m"; t_value := 2 * Minute |};
    {| t_number := 3; t_unit := "s"; t_value := 3 * Second |} ] "" 0 _ _ _)).
  - discriminate.
  - apply Forall_cons_2; [exists Hour|apply Forall_cons_2; [exists Minute|apply Forall_cons_2;
      [exists Second|apply Forall_nil_2]]]; (split; [simpl; lia|split; [|reflexivity]]);
      apply list_elem_of_In; vm_compute; tauto.
  - repeat apply Forall_cons_2; try apply Forall_nil_2; vm_compute; discriminate.
Defined.
