(* ===== verification/Wire.v ===== *)
(** * The generated messages: [src/api/gen/aetherserve/v1/worker.pb.go]

    Every message of the worker protocol as a record of its exported fields, and
    its getters.  A message pointer is an [option], nil being [None]; a getter on
    nil returns the zero value of its field.  An enumeration is an open int32.

    The well-known type [google.protobuf.Timestamp] is code of the protobuf
    library: its type and its three operations are the class [TimestampPb], and
    the documented behaviour the conversions rely on is [TimestampPbLaws]. *)

From S2P Require Import Prelude GoFloat GoString.

#[local] Open Scope Z_scope.

Class TimestampPb := {
  Timestamp : Type;
  NewTimestamp : Time -> Timestamp;        (* timestamppb.New *)
  CheckValid : Timestamp -> option string; (* the error text, None when valid *)
  AsTime : Timestamp -> Time;
}.

(** The instants a Timestamp can hold: from year 1 to the end of year 9999. *)
Definition timestamp_range (t : Time) : Prop := 0 <= t < 315537897600 * Second.

Class TimestampPbLaws (T : TimestampPb) := {
  NewTimestamp_valid : forall t, timestamp_range t -> CheckValid (NewTimestamp t) = None;
  AsTime_NewTimestamp : forall t, timestamp_range t -> AsTime (NewTimestamp t) = t;
  CheckValid_AsTime : forall x, CheckValid x = None -> timestamp_range (AsTime x);
}.

(** Seconds since 1970 and nanoseconds, with the range check of the
    documentation: an implementation that meets the laws. *)
#[local] Definition unix_epoch : Z := 62135596800.

Definition SecondsNanos : TimestampPb := {|
  Timestamp := Z * Z;
  NewTimestamp t := (t / Second - unix_epoch, t mod Second);
  CheckValid x :=
    if in_range (- unix_epoch) 253402300799 x.1 && in_range 0 999999999 x.2
    then None else Some "invalid timestamp";
  AsTime x := (x.1 + unix_epoch) * Second + x.2;
|}.

Lemma SecondsNanos_laws : TimestampPbLaws SecondsNanos.
Proof.
  split; unfold timestamp_range; simpl; unfold unix_epoch, Second.
  - intros t Ht. pose proof (Z.mod_pos_bound t 1000000000 ltac:(lia)).
    pose proof (Z.div_mod t 1000000000 ltac:(lia)).
    rewrite !(proj2 (in_range_true _ _ _)); [done|lia..].
  - intros t Ht. pose proof (Z.div_mod t 1000000000 ltac:(lia)). lia.
  - intros [s n]; simpl. destruct (_ && _) eqn:E; [|done]. intros _.
    apply andb_true_iff in E. rewrite !in_range_true in E. lia.
Qed.

Abbreviation pb_WorkerStatus := Z (only parsing).
Definition WORKER_STATUS_UNSPECIFIED : pb_WorkerStatus := 0.
Definition WORKER_STATUS_HEALTHY : pb_WorkerStatus := 1.
Definition WORKER_STATUS_DRAINING : pb_WorkerStatus := 2.
Definition WORKER_STATUS_UNHEALTHY : pb_WorkerStatus := 3.

Abbreviation pb_FinishReason := Z (only parsing).
Definition FINISH_REASON_UNSPECIFIED : pb_FinishReason := 0.
Definition FINISH_REASON_STOP : pb_FinishReason := 1.
Definition FINISH_REASON_LENGTH : pb_FinishReason := 2.
Definition FINISH_REASON_CANCELLED : pb_FinishReason := 3.
Definition FINISH_REASON_ERROR : pb_FinishReason := 4.

Section Messages.
Context {T : TimestampPb}.

Record pb_ChatMessage := {
  cm_Role : string;
  cm_Content : string;
}.

Definition ChatMessage_GetRole (x : option pb_ChatMessage) : string :=
  match x with Some x => cm_Role x | None => "" end.
Definition ChatMessage_GetContent (x : option pb_ChatMessage) : string :=
  match x with Some x => cm_Content x | None => "" end.

Record pb_PrefixFingerprint := {
  pf_TokenCount : Z;
  pf_Sha256 : string;
}.

Definition PrefixFingerprint_GetTokenCount (x : option pb_PrefixFingerprint) : Z :=
  match x with Some x => pf_TokenCount x | None => 0 end.
Definition PrefixFingerprint_GetSha256 (x : option pb_PrefixFingerprint) : string :=
  match x with Some x => pf_Sha256 x | None => "" end.

Record pb_KVUsageMetadata := {
  kv_CapacityTokens : Z;
  kv_UsedTokens : Z;
}.

Definition KVUsageMetadata_GetCapacityTokens (x : option pb_KVUsageMetadata) : Z :=
  match x with Some x => kv_CapacityTokens x | None => 0 end.
Definition KVUsageMetadata_GetUsedTokens (x : option pb_KVUsageMetadata) : Z :=
  match x with Some x => kv_UsedTokens x | None => 0 end.

Record pb_CachedPrefixMetadata := {
  cp_Prefix : option pb_PrefixFingerprint;
  cp_LastUsedUnixMillis : Z;
}.

Definition CachedPrefixMetadata_GetPrefix (x : option pb_CachedPrefixMetadata) : option pb_PrefixFingerprint :=
  match x with Some x => cp_Prefix x | None => None end.
Definition CachedPrefixMetadata_GetLastUsedUnixMillis (x : option pb_CachedPrefixMetadata) : Z :=
  match x with Some x => cp_LastUsedUnixMillis x | None => 0 end.

Record pb_WorkerState := {
  pws_StatusVersion : Z;
  pws_Status : pb_WorkerStatus;
  pws_WaitingRequestCount : Z;
  pws_WaitingTokenCount : Z;
  pws_RunningRequestCount : Z;
  pws_RunningWorkTokens : Z;
  pws_KvUsage : option pb_KVUsageMetadata;
  pws_PrefillTokensPerSecond : float64;
  pws_DecodeTokensPerSecond : float64;
  pws_DecodeSchedulingQuantumTokens : Z;
  pws_CachedPrefixes : list (option pb_CachedPrefixMetadata);
  pws_ObservedAt : option Timestamp;
}.

Definition WorkerState_GetStatusVersion (x : option pb_WorkerState) : Z :=
  match x with Some x => pws_StatusVersion x | None => 0 end.
Definition WorkerState_GetStatus (x : option pb_WorkerState) : pb_WorkerStatus :=
  match x with Some x => pws_Status x | None => WORKER_STATUS_UNSPECIFIED end.
Definition WorkerState_GetWaitingRequestCount (x : option pb_WorkerState) : Z :=
  match x with Some x => pws_WaitingRequestCount x | None => 0 end.
Definition WorkerState_GetWaitingTokenCount (x : option pb_WorkerState) : Z :=
  match x with Some x => pws_WaitingTokenCount x | None => 0 end.
Definition WorkerState_GetRunningRequestCount (x : option pb_WorkerState) : Z :=
  match x with Some x => pws_RunningRequestCount x | None => 0 end.
Definition WorkerState_GetRunningWorkTokens (x : option pb_WorkerState) : Z :=
  match x with Some x => pws_RunningWorkTokens x | None => 0 end.
Definition WorkerState_GetKvUsage (x : option pb_WorkerState) : option pb_KVUsageMetadata :=
  match x with Some x => pws_KvUsage x | None => None end.
Definition WorkerState_GetPrefillTokensPerSecond (x : option pb_WorkerState) : float64 :=
  match x with Some x => pws_PrefillTokensPerSecond x | None => fzero end.
Definition WorkerState_GetDecodeTokensPerSecond (x : option pb_WorkerState) : float64 :=
  match x with Some x => pws_DecodeTokensPerSecond x | None => fzero end.
Definition WorkerState_GetDecodeSchedulingQuantumTokens (x : option pb_WorkerState) : Z :=
  match x with Some x => pws_DecodeSchedulingQuantumTokens x | None => 0 end.
Definition WorkerState_GetCachedPrefixes (x : option pb_WorkerState) : list (option pb_CachedPrefixMetadata) :=
  match x with Some x => pws_CachedPrefixes x | None => [] end.
Definition WorkerState_GetObservedAt (x : option pb_WorkerState) : option Timestamp :=
  match x with Some x => pws_ObservedAt x | None => None end.

Record pb_GenerateRequest := {
  gr_ProtocolVersion : string;
  gr_RequestId : string;
  gr_AttemptId : string;
  gr_WorkerId : string;
  gr_TenantId : string;
  gr_Model : string;
  gr_Messages : list (option pb_ChatMessage);
  gr_EstimatedInputTokens : Z;
  gr_ExpectedOutputTokens : Z;
  gr_MaxOutputTokens : Z;
  gr_Deadline : option Timestamp;
  gr_PrefixFingerprints : list (option pb_PrefixFingerprint);
}.

Definition GenerateRequest_GetProtocolVersion (x : option pb_GenerateRequest) : string :=
  match x with Some x => gr_ProtocolVersion x | None => "" end.
Definition GenerateRequest_GetRequestId (x : option pb_GenerateRequest) : string :=
  match x with Some x => gr_RequestId x | None => "" end.
Definition GenerateRequest_GetAttemptId (x : option pb_GenerateRequest) : string :=
  match x with Some x => gr_AttemptId x | None => "" end.
Definition GenerateRequest_GetWorkerId (x : option pb_GenerateRequest) : string :=
  match x with Some x => gr_WorkerId x | None => "" end.
Definition GenerateRequest_GetTenantId (x : option pb_GenerateRequest) : string :=
  match x with Some x => gr_TenantId x | None => "" end.
Definition GenerateRequest_GetModel (x : option pb_GenerateRequest) : string :=
  match x with Some x => gr_Model x | None => "" end.
Definition GenerateRequest_GetMessages (x : option pb_GenerateRequest) : list (option pb_ChatMessage) :=
  match x with Some x => gr_Messages x | None => [] end.
Definition GenerateRequest_GetEstimatedInputTokens (x : option pb_GenerateRequest) : Z :=
  match x with Some x => gr_EstimatedInputTokens x | None => 0 end.
Definition GenerateRequest_GetExpectedOutputTokens (x : option pb_GenerateRequest) : Z :=
  match x with Some x => gr_ExpectedOutputTokens x | None => 0 end.
Definition GenerateRequest_GetMaxOutputTokens (x : option pb_GenerateRequest) : Z :=
  match x with Some x => gr_MaxOutputTokens x | None => 0 end.
Definition GenerateRequest_GetDeadline (x : option pb_GenerateRequest) : option Timestamp :=
  match x with Some x => gr_Deadline x | None => None end.
Definition GenerateRequest_GetPrefixFingerprints (x : option pb_GenerateRequest) : list (option pb_PrefixFingerprint) :=
  match x with Some x => gr_PrefixFingerprints x | None => [] end.

Record pb_GenerateChunk := {
  gc_ProtocolVersion : string;
  gc_RequestId : string;
  gc_AttemptId : string;
  gc_WorkerId : string;
  gc_TokenIndex : Z;
  gc_TokenText : string;
  gc_Final : bool;
  gc_FinishReason : pb_FinishReason;
  gc_WorkerTimestamp : option Timestamp;
}.

Definition GenerateChunk_GetProtocolVersion (x : option pb_GenerateChunk) : string :=
  match x with Some x => gc_ProtocolVersion x | None => "" end.
Definition GenerateChunk_GetRequestId (x : option pb_GenerateChunk) : string :=
  match x with Some x => gc_RequestId x | None => "" end.
Definition GenerateChunk_GetAttemptId (x : option pb_GenerateChunk) : string :=
  match x with Some x => gc_AttemptId x | None => "" end.
Definition GenerateChunk_GetWorkerId (x : option pb_GenerateChunk) : string :=
  match x with Some x => gc_WorkerId x | None => "" end.
Definition GenerateChunk_GetTokenIndex (x : option pb_GenerateChunk) : Z :=
  match x with Some x => gc_TokenIndex x | None => 0 end.
Definition GenerateChunk_GetTokenText (x : option pb_GenerateChunk) : string :=
  match x with Some x => gc_TokenText x | None => "" end.
Definition GenerateChunk_GetFinal (x : option pb_GenerateChunk) : bool :=
  match x with Some x => gc_Final x | None => false end.
Definition GenerateChunk_GetFinishReason (x : option pb_GenerateChunk) : pb_FinishReason :=
  match x with Some x => gc_FinishReason x | None => FINISH_REASON_UNSPECIFIED end.
Definition GenerateChunk_GetWorkerTimestamp (x : option pb_GenerateChunk) : option Timestamp :=
  match x with Some x => gc_WorkerTimestamp x | None => None end.

Record pb_RegisterWorkerRequest := {
  rw_ProtocolVersion : string;
  rw_WorkerId : string;
  rw_DataAddress : string;
  rw_Model : string;
  rw_RegisteredAt : option Timestamp;
  rw_InitialState : option pb_WorkerState;
}.

Definition RegisterWorkerRequest_GetProtocolVersion (x : option pb_RegisterWorkerRequest) : string :=
  match x with Some x => rw_ProtocolVersion x | None => "" end.
Definition RegisterWorkerRequest_GetWorkerId (x : option pb_RegisterWorkerRequest) : string :=
  match x with Some x => rw_WorkerId x | None => "" end.
Definition RegisterWorkerRequest_GetDataAddress (x : option pb_RegisterWorkerRequest) : string :=
  match x with Some x => rw_DataAddress x | None => "" end.
Definition RegisterWorkerRequest_GetModel (x : option pb_RegisterWorkerRequest) : string :=
  match x with Some x => rw_Model x | None => "" end.
Definition RegisterWorkerRequest_GetRegisteredAt (x : option pb_RegisterWorkerRequest) : option Timestamp :=
  match x with Some x => rw_RegisteredAt x | None => None end.
Definition RegisterWorkerRequest_GetInitialState (x : option pb_RegisterWorkerRequest) : option pb_WorkerState :=
  match x with Some x => rw_InitialState x | None => None end.

Record pb_RegisterWorkerResponse := {
  rr_Accepted : bool;
  rr_Message : string;
  rr_RouterTimestamp : option Timestamp;
}.

Definition RegisterWorkerResponse_GetAccepted (x : option pb_RegisterWorkerResponse) : bool :=
  match x with Some x => rr_Accepted x | None => false end.
Definition RegisterWorkerResponse_GetMessage (x : option pb_RegisterWorkerResponse) : string :=
  match x with Some x => rr_Message x | None => "" end.
Definition RegisterWorkerResponse_GetRouterTimestamp (x : option pb_RegisterWorkerResponse) : option Timestamp :=
  match x with Some x => rr_RouterTimestamp x | None => None end.

Record pb_HeartbeatRequest := {
  hb_ProtocolVersion : string;
  hb_WorkerId : string;
  hb_WorkerTimestamp : option Timestamp;
  hb_State : option pb_WorkerState;
}.

Definition HeartbeatRequest_GetProtocolVersion (x : option pb_HeartbeatRequest) : string :=
  match x with Some x => hb_ProtocolVersion x | None => "" end.
Definition HeartbeatRequest_GetWorkerId (x : option pb_HeartbeatRequest) : string :=
  match x with Some x => hb_WorkerId x | None => "" end.
Definition HeartbeatRequest_GetWorkerTimestamp (x : option pb_HeartbeatRequest) : option Timestamp :=
  match x with Some x => hb_WorkerTimestamp x | None => None end.
Definition HeartbeatRequest_GetState (x : option pb_HeartbeatRequest) : option pb_WorkerState :=
  match x with Some x => hb_State x | None => None end.

Record pb_HeartbeatResponse := {
  hr_Accepted : bool;
  hr_Message : string;
  hr_RouterTimestamp : option Timestamp;
}.

Definition HeartbeatResponse_GetAccepted (x : option pb_HeartbeatResponse) : bool :=
  match x with Some x => hr_Accepted x | None => false end.
Definition HeartbeatResponse_GetMessage (x : option pb_HeartbeatResponse) : string :=
  match x with Some x => hr_Message x | None => "" end.
Definition HeartbeatResponse_GetRouterTimestamp (x : option pb_HeartbeatResponse) : option Timestamp :=
  match x with Some x => hr_RouterTimestamp x | None => None end.
End Messages.
