(* ===== verification/Protocol.v ===== *)
(** * Domain values and messages: [src/internal/protocol/convert.go]

    The conversions between the records of [Model] and the generated messages of
    [Wire], with their validation errors, and the round trips that the two ends
    of the worker protocol rely on. *)

From S2P Require Import Prelude GoFloat Model Examples Wire.

#[local] Open Scope Z_scope.

Inductive ProtocolError :=
| MissingWorkerState
| InvalidWorkerStatus (status : pb_WorkerStatus)
| InvalidCachedPrefix
| MissingTimestamp (field : string)
| InvalidTimestamp (field cause : string)
| MissingChunk
| ChunkProtocolMismatch
| InvalidChunkTimestamp (cause : string)
| InvalidFinishReason (reason : pb_FinishReason)
| NonFinalFinishReason.

#[export] Instance ProtocolError_eq_dec : EqDecision ProtocolError.
Proof. solve_decision. Defined.

Definition statusToProto (status : WorkerStatus) : pb_WorkerStatus :=
  if (status =? WorkerHealthy)%string then WORKER_STATUS_HEALTHY
  else if (status =? WorkerDraining)%string then WORKER_STATUS_DRAINING
  else WORKER_STATUS_UNHEALTHY.

Definition statusFromProto (status : pb_WorkerStatus) : result ProtocolError WorkerStatus :=
  if status =? WORKER_STATUS_HEALTHY then Ok WorkerHealthy
  else if status =? WORKER_STATUS_DRAINING then Ok WorkerDraining
  else if status =? WORKER_STATUS_UNHEALTHY then Ok WorkerUnhealthy
  else Err (InvalidWorkerStatus status).

Definition finishToProto (reason : FinishReason) : pb_FinishReason :=
  if (reason =? FinishStop)%string then FINISH_REASON_STOP
  else if (reason =? FinishLength)%string then FINISH_REASON_LENGTH
  else if (reason =? FinishCancelled)%string then FINISH_REASON_CANCELLED
  else FINISH_REASON_ERROR.

Definition finishFromProto (reason : pb_FinishReason) : result ProtocolError FinishReason :=
  if reason =? FINISH_REASON_STOP then Ok FinishStop
  else if reason =? FINISH_REASON_LENGTH then Ok FinishLength
  else if reason =? FINISH_REASON_CANCELLED then Ok FinishCancelled
  else if reason =? FINISH_REASON_ERROR then Ok FinishError
  else Err (InvalidFinishReason reason).

Definition MessagesToProto (messages : list Message) : list (option pb_ChatMessage) :=
  (fun m => Some {| cm_Role := Role m; cm_Content := Content m |}) <$> messages.

Definition message_of (m : option pb_ChatMessage) : option Message :=
  _ ← m; Some {| Role := ChatMessage_GetRole m; Content := ChatMessage_GetContent m |}.

Definition MessagesFromProto (messages : list (option pb_ChatMessage)) : list Message :=
  omap message_of messages.

Definition prefixToProto (f : PrefixFingerprint) : pb_PrefixFingerprint :=
  {| pf_TokenCount := TokenCount f; pf_Sha256 := SHA256 f |}.

Definition prefix_of (p : option pb_PrefixFingerprint) : option PrefixFingerprint :=
  _ ← p; Some {| TokenCount := PrefixFingerprint_GetTokenCount p;
                 SHA256 := PrefixFingerprint_GetSha256 p |}.

Definition PrefixesToProto (prefixes : list PrefixFingerprint) : list (option pb_PrefixFingerprint) :=
  (fun f => Some (prefixToProto f)) <$> prefixes.

Definition PrefixesFromProto (prefixes : list (option pb_PrefixFingerprint)) : list PrefixFingerprint :=
  omap prefix_of prefixes.

Definition cachedToProto (f : PrefixFingerprint) : option pb_CachedPrefixMetadata :=
  Some {| cp_Prefix := Some (prefixToProto f); cp_LastUsedUnixMillis := 0 |}.

(** The loop over the cached prefixes stops at the first nil entry. *)
Fixpoint cachedFromProto (items : list (option pb_CachedPrefixMetadata)) :
  result ProtocolError (list PrefixFingerprint) :=
  match items with
  | [] => Ok []
  | item :: items =>
      match prefix_of (CachedPrefixMetadata_GetPrefix item) with
      | None => Err InvalidCachedPrefix
      | Some f => rest ← cachedFromProto items; Ok (f :: rest)
      end
  end.

Section Conversions.
Context {T : TimestampPb}.

Definition TimestampFromProto (timestamp : option Timestamp) (field : string) :
  result ProtocolError Time :=
  match timestamp with
  | None => Err (MissingTimestamp field)
  | Some ts =>
      match CheckValid ts with
      | Some cause => Err (InvalidTimestamp field cause)
      | None => Ok (AsTime ts)
      end
  end.

Definition StateToProto (state : WorkerState) : pb_WorkerState :=
  {| pws_StatusVersion := StatusVersion state;
     pws_Status := statusToProto (Status state);
     pws_WaitingRequestCount := WaitingRequestCount state;
     pws_WaitingTokenCount := WaitingTokenCount state;
     pws_RunningRequestCount := RunningRequestCount state;
     pws_RunningWorkTokens := RunningWorkTokens state;
     pws_KvUsage := Some {| kv_CapacityTokens := CapacityTokens (ws_KVUsage state);
                            kv_UsedTokens := UsedTokens (ws_KVUsage state) |};
     pws_PrefillTokensPerSecond := PrefillTokensPerSecond state;
     pws_DecodeTokensPerSecond := DecodeTokensPerSecond state;
     pws_DecodeSchedulingQuantumTokens := DecodeSchedulingQuantumTokens state;
     pws_CachedPrefixes := cachedToProto <$> CachedPrefixes state;
     pws_ObservedAt := Some (NewTimestamp (ObservedAt state)) |}.

Definition StateFromProto (state : option pb_WorkerState) : result ProtocolError WorkerState :=
  match state with
  | None => Err MissingWorkerState
  | Some _ =>
      status ← statusFromProto (WorkerState_GetStatus state);
      observed ← TimestampFromProto (WorkerState_GetObservedAt state) "state observed_at";
      cached ← cachedFromProto (WorkerState_GetCachedPrefixes state);
      let kv := WorkerState_GetKvUsage state in
      Ok {| StatusVersion := WorkerState_GetStatusVersion state;
            Status := status;
            WaitingRequestCount := WorkerState_GetWaitingRequestCount state;
            WaitingTokenCount := WorkerState_GetWaitingTokenCount state;
            RunningRequestCount := WorkerState_GetRunningRequestCount state;
            RunningWorkTokens := WorkerState_GetRunningWorkTokens state;
            ws_KVUsage := {| CapacityTokens := KVUsageMetadata_GetCapacityTokens kv;
                             UsedTokens := KVUsageMetadata_GetUsedTokens kv |};
            PrefillTokensPerSecond := WorkerState_GetPrefillTokensPerSecond state;
            DecodeTokensPerSecond := WorkerState_GetDecodeTokensPerSecond state;
            DecodeSchedulingQuantumTokens := WorkerState_GetDecodeSchedulingQuantumTokens state;
            CachedPrefixes := cached;
            ObservedAt := observed |}
  end.

Definition RequestToProto (request : Request) (workerID : string) : pb_GenerateRequest :=
  {| gr_ProtocolVersion := ProtocolVersion;
     gr_RequestId := r_ID request;
     gr_AttemptId := r_AttemptID request;
     gr_WorkerId := workerID;
     gr_TenantId := TenantID request;
     gr_Model := r_Model request;
     gr_Messages := MessagesToProto (Messages request);
     gr_EstimatedInputTokens := EstimatedInputToken request;
     gr_ExpectedOutputTokens := ExpectedOutputToken request;
     gr_MaxOutputTokens := MaxOutputTokens request;
     gr_Deadline := Some (NewTimestamp (Deadline request));
     gr_PrefixFingerprints := PrefixesToProto (PrefixFingerprints request) |}.

(** The arrival time of a chunk without a timestamp is the clock [now]. *)
Definition ChunkFromProto (now : Time) (chunk : option pb_GenerateChunk) : result ProtocolError Chunk :=
  match chunk with
  | None => Err MissingChunk
  | Some _ =>
      _ ← reject_if (negb (GenerateChunk_GetProtocolVersion chunk =? ProtocolVersion)%string)
            ChunkProtocolMismatch;
      at_ ← match GenerateChunk_GetWorkerTimestamp chunk with
            | None => Ok now
            | Some ts =>
                match CheckValid ts with
                | Some cause => Err (InvalidChunkTimestamp cause)
                | None => Ok (AsTime ts)
                end
            end;
      reason ← (if GenerateChunk_GetFinal chunk
                then finishFromProto (GenerateChunk_GetFinishReason chunk)
                else if negb (GenerateChunk_GetFinishReason chunk =? FINISH_REASON_UNSPECIFIED)
                then Err NonFinalFinishReason
                else Ok "");
      Ok {| c_RequestID := GenerateChunk_GetRequestId chunk;
            c_AttemptID := GenerateChunk_GetAttemptId chunk;
            c_WorkerID := GenerateChunk_GetWorkerId chunk;
            TokenIndex := GenerateChunk_GetTokenIndex chunk;
            TokenText := GenerateChunk_GetTokenText chunk;
            Final := GenerateChunk_GetFinal chunk;
            Reason := reason;
            At := at_ |}
  end.

Definition ChunkToProto (chunk : Chunk) : pb_GenerateChunk :=
  {| gc_ProtocolVersion := ProtocolVersion;
     gc_RequestId := c_RequestID chunk;
     gc_AttemptId := c_AttemptID chunk;
     gc_WorkerId := c_WorkerID chunk;
     gc_TokenIndex := TokenIndex chunk;
     gc_TokenText := TokenText chunk;
     gc_Final := Final chunk;
     gc_FinishReason := if Final chunk then finishToProto (Reason chunk)
                        else FINISH_REASON_UNSPECIFIED;
     gc_WorkerTimestamp := Some (NewTimestamp (At chunk)) |}.

(** ** Lists and enumerations *)
Lemma omap_fmap_id {A B} (f : A -> B) (g : B -> option A) (l : list A) :
  (forall a, g (f a) = Some a) -> omap g (f <$> l) = l.
Proof. intros H. induction l as [|a l IH]; [done|]. csimpl. by rewrite H, IH. Qed.

Lemma MessagesFromProto_ToProto (ms : list Message) : MessagesFromProto (MessagesToProto ms) = ms.
Proof. apply omap_fmap_id. by intros []. Qed.

Lemma PrefixesFromProto_ToProto (fs : list PrefixFingerprint) :
  PrefixesFromProto (PrefixesToProto fs) = fs.
Proof. apply omap_fmap_id. by intros []. Qed.

Lemma cachedFromProto_ToProto (fs : list PrefixFingerprint) :
  cachedFromProto (cachedToProto <$> fs) = Ok fs.
Proof. induction fs as [|[] fs IH]; [done|]. csimpl. by rewrite IH. Qed.

Definition known_status (s : WorkerStatus) : Prop :=
  s = WorkerHealthy \/ s = WorkerDraining \/ s = WorkerUnhealthy.

Definition known_reason (s : FinishReason) : Prop :=
  s = FinishStop \/ s = FinishLength \/ s = FinishCancelled \/ s = FinishError.

Lemma status_roundtrip (s : WorkerStatus) :
  statusFromProto (statusToProto s) = Ok s <-> known_status s.
Proof.
  unfold statusToProto, known_status. split.
  - repeat case_if; bool_facts; simpl; intros [= <-]; tauto.
  - intros [-> | [-> | ->]]; done.
Qed.

Lemma finish_roundtrip (s : FinishReason) :
  finishFromProto (finishToProto s) = Ok s <-> known_reason s.
Proof.
  unfold finishToProto, known_reason. split.
  - repeat case_if; bool_facts; simpl; intros [= <-]; tauto.
  - intros [-> | [-> | [-> | ->]]]; done.
Qed.

(** An unknown finish reason travels as an error. *)
Lemma finish_unknown (s : FinishReason) :
  ~ known_reason s -> finishFromProto (finishToProto s) = Ok FinishError.
Proof.
  unfold finishToProto, known_reason. intros H.
  repeat case_if; bool_facts; subst; try done; naive_solver.
Qed.

Lemma kv_eta (k : KVUsage) :
  {| CapacityTokens := CapacityTokens k; UsedTokens := UsedTokens k |} = k.
Proof. by destruct k. Qed.

(** ** Accepted messages *)

(** The chunks that the gateway accepts, and the value each one gives. *)
Record chunk_accepted (now : Time) (wire : pb_GenerateChunk) (c : Chunk) : Prop := {
  ca_version : gc_ProtocolVersion wire = ProtocolVersion;
  ca_ids : c_RequestID c = gc_RequestId wire /\ c_AttemptID c = gc_AttemptId wire /\
    c_WorkerID c = gc_WorkerId wire;
  ca_token : TokenIndex c = gc_TokenIndex wire /\ TokenText c = gc_TokenText wire /\
    Final c = gc_Final wire;
  ca_reason : if gc_Final wire then finishFromProto (gc_FinishReason wire) = Ok (Reason c)
    else gc_FinishReason wire = FINISH_REASON_UNSPECIFIED /\ Reason c = "";
  ca_time : match gc_WorkerTimestamp wire with
    | None => At c = now
    | Some ts => CheckValid ts = None /\ At c = AsTime ts
    end;
}.

Lemma ChunkFromProto_spec (now : Time) (wire : pb_GenerateChunk) (c : Chunk) :
  ChunkFromProto now (Some wire) = Ok c <-> chunk_accepted now wire c.
Proof.
  unfold ChunkFromProto. destruct wire as [v rid aid wid ix tx fin fr ts]. simpl.
  split.
  - intros (u & Hv%reject_if_ok & (t & Ht & (rs & Hr & [= <-])%result_bind_ok)%result_bind_ok)%result_bind_ok.
    bool_facts. split; simpl; try done.
    + destruct fin; [done|]. by destruct (fr =? FINISH_REASON_UNSPECIFIED) eqn:E; simplify_eq/=; bool_facts.
    + destruct ts as [ts|]; [|naive_solver]. destruct (CheckValid ts); naive_solver.
  - intros [Hv (? & ? & ?) (? & ? & ?) Hr Ht]; destruct c; simpl in *; subst.
    assert (match ts with
      | Some ts => match CheckValid ts with
                   | Some cause => Err (InvalidChunkTimestamp cause) | None => Ok (AsTime ts) end
      | None => Ok now end = Ok At) as ->.
    { destruct ts as [ts|]; [|naive_solver]. by destruct Ht as [-> ->]. }
    simpl. destruct fin; [by rewrite Hr|]. by destruct Hr as [-> ->].
Qed.

(** ** Round trips *)
Lemma StateFromProto_ToProto (L : TimestampPbLaws T) (s : WorkerState) :
  timestamp_range (ObservedAt s) ->
  StateFromProto (Some (StateToProto s)) = Ok s <-> known_status (Status s).
Proof.
  intros Ht. unfold StateFromProto, StateToProto. simpl.
  rewrite cachedFromProto_ToProto, NewTimestamp_valid, AsTime_NewTimestamp by done.
  rewrite <- status_roundtrip. destruct s as [? st]; simpl. rewrite result_bind_ok. split.
  - intros (st' & Hst & Hs). simpl in Hs. by inversion Hs; subst.
  - intros H. exists st. split; [done|]. simpl. by rewrite kv_eta.
Qed.

Lemma ChunkFromProto_ToProto (L : TimestampPbLaws T) (now : Time) (c : Chunk) :
  timestamp_range (At c) ->
  ChunkFromProto now (Some (ChunkToProto c)) = Ok c <->
   (if Final c then known_reason (Reason c) else Reason c = "").
Proof.
  intros Ht. rewrite ChunkFromProto_spec. split.
  - intros H. pose proof (ca_reason _ _ _ H) as Hr. unfold ChunkToProto in Hr. simpl in Hr.
    destruct (Final c); [by apply finish_roundtrip|tauto].
  - intros Hr. split; simpl; try done.
    + destruct (Final c); [by apply finish_roundtrip|done].
    + by rewrite NewTimestamp_valid, AsTime_NewTimestamp.
Qed.

(** ** Properties *)

(** A worker state arrives at the router as it was sent, exactly when its status
    is one of the three of the protocol; any other status arrives as unhealthy. *)
Theorem state_roundtrip (L : TimestampPbLaws T) (s : WorkerState) :
  timestamp_range (ObservedAt s) ->
  (StateFromProto (Some (StateToProto s)) = Ok s <-> known_status (Status s)) /\
  (~ known_status (Status s) -> exists s', StateFromProto (Some (StateToProto s)) = Ok s' /\
     Status s' = WorkerUnhealthy).
Proof.
  intros Ht. split; [by apply StateFromProto_ToProto|].
  intros Hk. unfold StateFromProto, StateToProto. simpl.
  rewrite cachedFromProto_ToProto, NewTimestamp_valid, AsTime_NewTimestamp by done.
  assert (statusFromProto (statusToProto (Status s)) = Ok WorkerUnhealthy) as ->; [|by eexists].
  unfold statusToProto, known_status in *. repeat case_if; bool_facts; try done; tauto.
Qed.

(** C37: A chunk sent by a worker is received as it was sent, exactly when a final
    chunk carries one of the four finish reasons and a token chunk none; a final
    chunk with any other reason arrives as an error. *)
Theorem chunk_roundtrip (L : TimestampPbLaws T) (now : Time) (c : Chunk) :
  timestamp_range (At c) ->
  (ChunkFromProto now (Some (ChunkToProto c)) = Ok c <->
   if Final c then known_reason (Reason c) else Reason c = "") /\
  (Final c = true -> ~ known_reason (Reason c) ->
   exists c', ChunkFromProto now (Some (ChunkToProto c)) = Ok c' /\ Reason c' = FinishError).
Proof.
  intros Ht. split; [by apply ChunkFromProto_ToProto|].
  intros Hf Hk%finish_unknown.
  exists {| c_RequestID := c_RequestID c; c_AttemptID := c_AttemptID c; c_WorkerID := c_WorkerID c;
            TokenIndex := TokenIndex c; TokenText := TokenText c; Final := Final c;
            Reason := FinishError; At := At c |}.
  split; [|done]. apply ChunkFromProto_spec. split; simpl; try done; [by rewrite Hf|].
  by rewrite NewTimestamp_valid, AsTime_NewTimestamp.
Qed.

(** A chunk is accepted only with the protocol version, a valid timestamp when it
    has one, a known finish reason when final and none otherwise; its identifiers
    and token are then taken over unchanged. *)
Theorem ChunkFromProto_accepts (now : Time) (chunk : option pb_GenerateChunk) :
  match ChunkFromProto now chunk with
  | Ok c => exists wire, chunk = Some wire /\ chunk_accepted now wire c
  | Err MissingChunk => chunk = None
  | Err ChunkProtocolMismatch => GenerateChunk_GetProtocolVersion chunk <> ProtocolVersion
  | Err (InvalidChunkTimestamp cause) => exists ts,
      GenerateChunk_GetWorkerTimestamp chunk = Some ts /\ CheckValid ts = Some cause
  | Err (InvalidFinishReason reason) =>
      GenerateChunk_GetFinal chunk = true /\ GenerateChunk_GetFinishReason chunk = reason /\
      (reason < 1 \/ 4 < reason)
  | Err NonFinalFinishReason =>
      GenerateChunk_GetFinal chunk = false /\
      GenerateChunk_GetFinishReason chunk <> FINISH_REASON_UNSPECIFIED
  | Err _ => False
  end.
Proof.
  destruct (ChunkFromProto now chunk) as [c|e] eqn:H.
  { destruct chunk as [wire|]; [|done]. exists wire. by rewrite <- ChunkFromProto_spec. }
  destruct chunk as [[v rid aid wid ix tx fin fr ts]|]; [|simpl in H; by simplify_eq].
  unfold ChunkFromProto in H. simpl in H.
  apply result_bind_err in H as [H|(u & _ & H)].
  { unfold reject_if in H. destruct (negb _) eqn:E; simplify_eq. by bool_facts. }
  apply result_bind_err in H as [H|(t & _ & H)].
  { destruct ts as [ts|]; [|done]. destruct (CheckValid ts) eqn:E; simplify_eq. eauto. }
  apply result_bind_err in H as [H|(rs & _ & H)]; [|done].
  destruct fin.
  - unfold finishFromProto, FINISH_REASON_STOP, FINISH_REASON_LENGTH, FINISH_REASON_CANCELLED,
      FINISH_REASON_ERROR in H.
    repeat case_if; simplify_eq. bool_facts. simpl. split_and!; try done; lia.
  - destruct (fr =? _) eqn:E; simplify_eq/=. by bool_facts.
Qed.

(** The worker reads from the generation request the identifiers, limits,
    messages and fingerprints of the gateway's request, and its own ID. *)
Theorem request_roundtrip (L : TimestampPbLaws T) (r : Request) (id : string) :
  timestamp_range (Deadline r) ->
  let wire := Some (RequestToProto r id) in
  GenerateRequest_GetProtocolVersion wire = ProtocolVersion /\
  GenerateRequest_GetWorkerId wire = id /\
  TimestampFromProto (GenerateRequest_GetDeadline wire) "deadline" = Ok (Deadline r) /\
  r = {| r_ID := GenerateRequest_GetRequestId wire;
         r_AttemptID := GenerateRequest_GetAttemptId wire;
         TenantID := GenerateRequest_GetTenantId wire;
         r_Model := GenerateRequest_GetModel wire;
         Messages := MessagesFromProto (GenerateRequest_GetMessages wire);
         EstimatedInputToken := GenerateRequest_GetEstimatedInputTokens wire;
         ExpectedOutputToken := GenerateRequest_GetExpectedOutputTokens wire;
         MaxOutputTokens := GenerateRequest_GetMaxOutputTokens wire;
         PrefixFingerprints := PrefixesFromProto (GenerateRequest_GetPrefixFingerprints wire);
         Deadline := Deadline r |}.
Proof.
  intros Ht. simpl. rewrite NewTimestamp_valid, AsTime_NewTimestamp by done.
  rewrite MessagesFromProto_ToProto, PrefixesFromProto_ToProto. by destruct r.
Qed.
End Conversions.

(** ** Witnesses *)
Lemma state_roundtrip_witness :
  @StateFromProto SecondsNanos (Some (@StateToProto SecondsNanos (ex_state 3 10 5))) = Ok (ex_state 3 10 5).
Proof.
  apply (@state_roundtrip SecondsNanos SecondsNanos_laws (ex_state 3 10 5)).
  - vm_compute. split; congruence.
  - left. reflexivity.
Defined.

Lemma chunk_roundtrip_witness :
  @ChunkFromProto SecondsNanos 0 (Some (@ChunkToProto SecondsNanos ex_final)) = Ok ex_final.
Proof.
  apply (@chunk_roundtrip SecondsNanos SecondsNanos_laws 0 ex_final).
  - vm_compute. split; congruence.
  - left. reflexivity.
Defined.

Lemma request_roundtrip_witness :
  @TimestampFromProto SecondsNanos (@GenerateRequest_GetDeadline SecondsNanos
    (Some (@RequestToProto SecondsNanos ex_request "w1"))) "deadline" = Ok (10 ^ 12).
Proof.
  apply (@request_roundtrip SecondsNanos SecondsNanos_laws ex_request "w1").
  vm_compute. split; congruence.
Defined.
