(* ===== verification/Metrics.v ===== *)
(** * The metrics registry: [src/internal/metrics/metrics.go]

    Counters, gauges and count/sum histograms by name (and by one label), and the
    text exposition of the handler.  The mutex makes every operation one step.
    The decimal rendering [%g] of a float and [strconv.Quote] are arguments of
    the exposition. *)

From Stdlib Require Import Ascii.
From S2P Require Import Prelude GoFloat GoString.

#[local] Open Scope Z_scope.
#[local] Open Scope go_scope.

Record Histogram := { Count : Z; Sum : float64 }.

Record labeledKey := { Name : string; Label : string; Value : string }.

#[export] Instance labeledKey_eq_dec : EqDecision labeledKey.
Proof. solve_decision. Defined.
#[export] Instance labeledKey_countable : Countable labeledKey.
Proof.
  apply (inj_countable' (fun k => (Name k, Label k, Value k))
           (fun p => {| Name := p.1.1; Label := p.1.2; Value := p.2 |})).
  by intros [].
Qed.

Record Registry := {
  counters : gmap string Z;
  labeledCounters : gmap labeledKey Z;
  gauges : gmap string float64;
  labeledGauges : gmap labeledKey float64;
  histograms : gmap string Histogram;
}.

Definition New : Registry :=
  {| counters := ∅; labeledCounters := ∅; gauges := ∅; labeledGauges := ∅; histograms := ∅ |}.

(** A missing key reads as the zero value. *)
Definition Add (r : Registry) (name : string) (value : Z) : Registry :=
  {| counters := <[name := default 0 (counters r !! name) +u64 value]> (counters r);
     labeledCounters := labeledCounters r; gauges := gauges r;
     labeledGauges := labeledGauges r; histograms := histograms r |}.

Definition Inc (r : Registry) (name : string) : Registry :=
  {| counters := <[name := default 0 (counters r !! name) +u64 1]> (counters r);
     labeledCounters := labeledCounters r; gauges := gauges r;
     labeledGauges := labeledGauges r; histograms := histograms r |}.

Definition IncLabel (r : Registry) (name label value : string) : Registry :=
  let k := {| Name := name; Label := label; Value := value |} in
  {| counters := counters r;
     labeledCounters := <[k := default 0 (labeledCounters r !! k) +u64 1]> (labeledCounters r);
     gauges := gauges r; labeledGauges := labeledGauges r; histograms := histograms r |}.

(** The operation [Set] of the code. *)
Definition SetGauge (r : Registry) (name : string) (value : float64) : Registry :=
  {| counters := counters r; labeledCounters := labeledCounters r;
     gauges := <[name := value]> (gauges r);
     labeledGauges := labeledGauges r; histograms := histograms r |}.

Definition SetLabel (r : Registry) (name label value : string) (number : float64) : Registry :=
  let k := {| Name := name; Label := label; Value := value |} in
  {| counters := counters r; labeledCounters := labeledCounters r; gauges := gauges r;
     labeledGauges := <[k := number]> (labeledGauges r); histograms := histograms r |}.

Definition zero_histogram : Histogram := {| Count := 0; Sum := fzero |}.

Definition observe_histogram (h : Histogram) (value : float64) : Histogram :=
  {| Count := Count h +u64 1; Sum := Sum h +f value |}.

Definition Observe (r : Registry) (name : string) (value : float64) : Registry :=
  {| counters := counters r; labeledCounters := labeledCounters r; gauges := gauges r;
     labeledGauges := labeledGauges r;
     histograms := <[name := observe_histogram (default zero_histogram (histograms r !! name)) value]>
                     (histograms r) |}.

(** ** The exposition *)
Definition sanitize_rune (r : Z) : ascii :=
  if in_range 97 122 r || in_range 65 90 r || in_range 48 57 r || (r =? 95)
  then byte_of r else byte_of 95.

Definition sanitize (name : string) : string :=
  of_bytes ((fun rs => sanitize_rune rs.1) <$> runes (to_bytes name)).

Section Exposition.
Context (format_g : float64 -> string) (Quote : string -> string).

Definition formatKey (key : labeledKey) : string :=
  sanitize (Name key) +:+ "{" +:+ sanitize (Label key) +:+ "=" +:+ Quote (Value key) +:+ "}".

(** One family of the exposition: the keys of a map in the order of their sort
    text, each with its line. A Go map is iterated in an arbitrary [order]. *)
Definition family {K V} (sort_text : K -> string) (line : K -> V -> list string)
    (order : list (K * V)) : list string :=
  mjoin ((fun kv => line kv.1 kv.2) <$> sort_by_key (fun kv => sort_text kv.1) order).

Definition counter_line (name : string) (v : Z) : list string :=
  [sanitize name +:+ " " +:+ itoa v].
Definition labeled_counter_line (key : labeledKey) (v : Z) : list string :=
  [formatKey key +:+ " " +:+ itoa v].
Definition gauge_line (name : string) (v : float64) : list string :=
  [sanitize name +:+ " " +:+ format_g v].
Definition labeled_gauge_line (key : labeledKey) (v : float64) : list string :=
  [formatKey key +:+ " " +:+ format_g v].
Definition histogram_lines (name : string) (h : Histogram) : list string :=
  [sanitize name +:+ "_count " +:+ itoa (Count h); sanitize name +:+ "_sum " +:+ format_g (Sum h)].

Record orders := {
  o_counters : list (string * Z);
  o_labeled_counters : list (labeledKey * Z);
  o_gauges : list (string * float64);
  o_labeled_gauges : list (labeledKey * float64);
  o_histograms : list (string * Histogram);
}.

(** The iteration orders of one call: each a permutation of its map's entries. *)
Record orders_of (r : Registry) (o : orders) : Prop := {
  oo_counters : o_counters o ≡ₚ map_to_list (counters r);
  oo_labeled_counters : o_labeled_counters o ≡ₚ map_to_list (labeledCounters r);
  oo_gauges : o_gauges o ≡ₚ map_to_list (gauges r);
  oo_labeled_gauges : o_labeled_gauges o ≡ₚ map_to_list (labeledGauges r);
  oo_histograms : o_histograms o ≡ₚ map_to_list (histograms r);
}.

(** The lines that the handler writes, each followed by a newline. *)
Definition Handler (o : orders) : list string :=
  family id counter_line (o_counters o)
  ++ family formatKey labeled_counter_line (o_labeled_counters o)
  ++ family id gauge_line (o_gauges o)
  ++ family formatKey labeled_gauge_line (o_labeled_gauges o)
  ++ family id histogram_lines (o_histograms o).

(** ** Determinism of the exposition *)
Lemma family_order {K V} (sort_text : K -> string) (line : K -> V -> list string)
    (order order' : list (K * V)) :
  NoDup ((fun kv => sort_text kv.1) <$> order) -> order ≡ₚ order' ->
  family sort_text line order = family sort_text line order'.
Proof. intros Hnd Hp. unfold family. by rewrite (sort_by_key_perm_eq _ order order'). Qed.

Lemma map_family_nodup `{Countable K} {V} (sort_text : K -> string) (m : gmap K V)
    (order : list (K * V)) :
  (forall k k', is_Some (m !! k) -> is_Some (m !! k') -> sort_text k = sort_text k' -> k = k') ->
  order ≡ₚ map_to_list m -> NoDup ((fun kv => sort_text kv.1) <$> order).
Proof.
  intros Hinj ->. change (fun kv : K * V => sort_text kv.1) with (sort_text ∘ @fst K V).
  rewrite list_fmap_compose.
  apply NoDup_fmap_2_strong; [|apply NoDup_fst_map_to_list].
  intros k k' ([? v] & -> & Hk%elem_of_map_to_list)%list_elem_of_fmap
    ([? v'] & -> & Hk'%elem_of_map_to_list)%list_elem_of_fmap. simpl in *. eauto.
Qed.

(** Label sets that are written differently. *)
Definition distinct_series {V} (m : gmap labeledKey V) : Prop :=
  forall k k', is_Some (m !! k) -> is_Some (m !! k') -> formatKey k = formatKey k' -> k = k'.

(** The exposition does not depend on the iteration orders of the Go maps, as
    long as no two label sets are written the same. *)
Theorem exposition_deterministic (r : Registry) (o o' : orders) :
  orders_of r o -> orders_of r o' ->
  distinct_series (labeledCounters r) -> distinct_series (labeledGauges r) ->
  Handler o = Handler o'.
Proof.
  intros [H1 H2 H3 H4 H5] [H1' H2' H3' H4' H5'] Hc Hg. unfold Handler.
  rewrite (family_order id counter_line _ (o_counters o')), (family_order id gauge_line _ (o_gauges o')),
    (family_order id histogram_lines _ (o_histograms o')),
    (family_order formatKey labeled_counter_line _ (o_labeled_counters o')),
    (family_order formatKey labeled_gauge_line _ (o_labeled_gauges o')); try done;
  solve [by eapply map_family_nodup | by etrans].
Qed.
End Exposition.

(** ** The registry against its history *)
Inductive op :=
| OInc (name : string)
| OAdd (name : string) (value : Z)
| OIncLabel (name label value : string)
| OSet (name : string) (value : float64)
| OSetLabel (name label value : string) (number : float64)
| OObserve (name : string) (value : float64).

Definition apply_op (r : Registry) (o : op) : Registry :=
  match o with
  | OInc n => Inc r n
  | OAdd n v => Add r n v
  | OIncLabel n l v => IncLabel r n l v
  | OSet n v => SetGauge r n v
  | OSetLabel n l v x => SetLabel r n l v x
  | OObserve n v => Observe r n v
  end.

Definition run_ops (r : Registry) (h : list op) : Registry := foldl apply_op r h.

(** What the history says of a name: the amount added to its counter, the
    observations of its histogram, the values its gauge was set to. *)
Definition counted (name : string) (o : op) : Z :=
  match o with
  | OInc n => if (n =? name)%string then 1 else 0
  | OAdd n v => if (n =? name)%string then v else 0
  | _ => 0
  end.

Definition observed (name : string) (o : op) : option float64 :=
  match o with OObserve n v => if (n =? name)%string then Some v else None | _ => None end.

Definition gauge_set (name : string) (o : op) : option float64 :=
  match o with OSet n v => if (n =? name)%string then Some v else None | _ => None end.

Definition counter_value (r : Registry) (name : string) : Z := default 0 (counters r !! name).
Definition histogram_value (r : Registry) (name : string) : Histogram :=
  default zero_histogram (histograms r !! name).

Lemma counter_step (r : Registry) (o : op) (name : string) :
  wrap_u64 (counter_value (apply_op r o) name) =
  wrap_u64 (counter_value r name + counted name o).
Proof.
  unfold counter_value, wrap_u64. destruct o; simpl; try (by rewrite Z.add_0_r);
  (destruct (_ =? _)%string eqn:E; bool_facts; subst;
   [rewrite lookup_insert_eq; simpl; unfold wrap_u64; by rewrite Z.mod_mod by lia
   |rewrite lookup_insert_ne by done; by rewrite Z.add_0_r]).
Qed.

Lemma counter_run (h : list op) (r : Registry) (name : string) :
  wrap_u64 (counter_value (run_ops r h) name) =
  wrap_u64 (counter_value r name + sum_list_Z (counted name <$> h)).
Proof.
  revert r. induction h as [|o h IH]; intros r; [by rewrite Z.add_0_r|].
  change (run_ops r (o :: h)) with (run_ops (apply_op r o) h). rewrite IH.
  change (sum_list_Z (counted name <$> o :: h)) with (counted name o + sum_list_Z (counted name <$> h)).
  rewrite Z.add_assoc. unfold wrap_u64 in *. rewrite <- (Z.add_mod_idemp_l (counter_value (apply_op r o) name)) by lia.
  pose proof (counter_step r o name) as Hs. unfold wrap_u64 in Hs. rewrite Hs.
  by rewrite Z.add_mod_idemp_l by lia.
Qed.

Lemma counter_range (h : list op) (name : string) : is_u64 (counter_value (run_ops New h) name).
Proof.
  assert (forall r, (forall n, is_u64 (counter_value r n)) ->
    forall n, is_u64 (counter_value (run_ops r h) n)) as H.
  2: { apply H. intros n. unfold counter_value, is_u64; simpl. rewrite lookup_empty. simpl. lia. }
  induction h as [|o h IH]; intros r Hr; [done|]. apply IH. intros n.
  unfold counter_value in *. destruct o; try apply Hr; simpl;
    (destruct (decide (name0 = n)) as [->|]; [rewrite lookup_insert_eq; simpl; auto with go
     |rewrite lookup_insert_ne by done; apply Hr]).
Qed.

Lemma histogram_run (h : list op) (r : Registry) (name : string) :
  histogram_value (run_ops r h) name =
  foldl observe_histogram (histogram_value r name) (omap (observed name) h).
Proof.
  revert r. induction h as [|o h IH]; intros r; [done|].
  change (run_ops r (o :: h)) with (run_ops (apply_op r o) h). rewrite IH.
  destruct o; try done. csimpl. unfold histogram_value. simpl.
  destruct (_ =? _)%string eqn:E; bool_facts; subst; simpl.
  - by rewrite lookup_insert_eq.
  - by rewrite lookup_insert_ne.
Qed.

Lemma histogram_count (vs : list float64) (g : Histogram) :
  is_u64 (Count g) ->
  Count (foldl observe_histogram g vs) = wrap_u64 (Count g + Z.of_nat (length vs)) /\
  Sum (foldl observe_histogram g vs) = foldl fadd (Sum g) vs.
Proof.
  revert g. induction vs as [|v vs IH]; intros g Hg; simpl.
  { by rewrite Z.add_0_r, wrap_u64_id. }
  destruct (IH (observe_histogram g v)) as [-> ->]; [simpl; auto with go|].
  split; [|done]. simpl. unfold wrap_u64. rewrite Z.add_mod_idemp_l by lia. f_equal. lia.
Qed.

Lemma gauge_run (h : list op) (r : Registry) (name : string) :
  gauges (run_ops r h) !! name =
  match list.last (omap (gauge_set name) h) with Some v => Some v | None => gauges r !! name end.
Proof.
  revert r. induction h as [|o h IH]; intros r; [done|].
  change (run_ops r (o :: h)) with (run_ops (apply_op r o) h). rewrite IH.
  destruct o; try done. csimpl.
  destruct (_ =? _)%string eqn:E; bool_facts; subst; csimpl.
  - rewrite lookup_insert_eq, list.last_cons. by destruct (list.last _).
  - by rewrite lookup_insert_ne.
Qed.

(** The registry is what its history says: a counter is the sum of its
    increments modulo 2^64, a histogram the number and the running sum of its
    observations, a gauge the value it was last set to. *)
Theorem metrics_history (h : list op) (name : string) :
  let r := run_ops New h in
  counter_value r name = wrap_u64 (sum_list_Z (counted name <$> h)) /\
  Count (histogram_value r name) = wrap_u64 (Z.of_nat (length (omap (observed name) h))) /\
  Sum (histogram_value r name) = foldl fadd fzero (omap (observed name) h) /\
  gauges r !! name = list.last (omap (gauge_set name) h).
Proof.
  cbn zeta. split_and!.
  - rewrite <- (wrap_u64_id (counter_value _ _)) by apply counter_range. by rewrite counter_run.
  - rewrite histogram_run. by apply histogram_count.
  - rewrite histogram_run. by apply histogram_count.
  - rewrite gauge_run. by destruct (list.last _).
Qed.

(** ** Witness: two iteration orders of one registry *)
Definition ex_metrics : Registry := run_ops New [OInc "a"; OAdd "b" 2].
Definition ex_orders (counters : list (string * Z)) : orders :=
  {| o_counters := counters; o_labeled_counters := []; o_gauges := []; o_labeled_gauges := [];
     o_histograms := [] |}.

Lemma exposition_deterministic_witness :
  Handler (fun _ => "0") id (ex_orders [("b", 2); ("a", 1)]) =
  Handler (fun _ => "0") id (ex_orders [("a", 1); ("b", 2)]).
Proof.
  apply (exposition_deterministic (fun _ => "0") id ex_metrics).
  - split; [|reflexivity..]. apply (bool_decide_unpack _). vm_compute. exact I.
  - split; [|reflexivity..]. apply (bool_decide_unpack _). vm_compute. exact I.
  - intros k k' [v Hv]. discriminate Hv.
  - intros k k' [v Hv]. discriminate Hv.
Defined.
