(* ===== verification/WorkerClient.v ===== *)
(** * The connection pool: [src/internal/workerclient/client.go]

    One gRPC connection per worker address.  [Client] dials outside the lock, so
    two requests may dial the same address; [Invalidate] and [Close] take
    connections out of the map under the lock and close them outside it.  The
    steps are the critical sections and the calls between them, so every
    interleaving of concurrent requests is a run.  Dialing and closing belong to
    the gRPC library: a connection is an index into the heap of dialed
    connections with a flag that says whether it is open. *)

From S2P Require Import Prelude.

Abbreviation conn := nat (only parsing).

Record Pool := { connections : gmap string conn }.

Definition NewPool : Pool := {| connections := ∅ |}.

(** The first critical section of [Client]. *)
Definition client_lookup (p : Pool) (address : string) : option conn := connections p !! address.

(** The second one, with a connection just dialed: the pool, the connection
    returned and the connection to close, if any. *)
Definition client_publish (p : Pool) (address : string) (dialed : conn) : Pool * conn * option conn :=
  match connections p !! address with
  | Some existing => (p, existing, Some dialed)
  | None => ({| connections := <[address := dialed]> (connections p) |}, dialed, None)
  end.

(** The critical section of [Invalidate], and the connection it then closes. *)
Definition Invalidate (p : Pool) (address : string) : Pool * option conn :=
  ({| connections := delete address (connections p) |}, connections p !! address).

(** The critical section of [Close], and the connections it then closes. *)
Definition Close (p : Pool) : Pool * list conn :=
  (NewPool, (map_to_list (connections p)).*2).

(** [Close] returns the first error of its closes, in the order it makes them. *)
Fixpoint first_error {E} (outcomes : list (option E)) : option E :=
  match outcomes with
  | [] => None
  | Some e :: _ => Some e
  | None :: outcomes => first_error outcomes
  end.

(** ** Runs *)
Record state := {
  pool : Pool;
  heap : list bool;                (* open connections *)
  dialing : list (string * conn);  (* dialed, not yet published *)
  closing : list conn;             (* taken out, not yet closed *)
}.

Definition initial : state := {| pool := NewPool; heap := []; dialing := []; closing := [] |}.

Inductive step : state -> state -> Prop :=
| step_dial s address :
    client_lookup (pool s) address = None ->
    step s {| pool := pool s; heap := heap s ++ [true];
              dialing := (address, length (heap s)) :: dialing s; closing := closing s |}
| step_publish s address dialed rest :
    dialing s ≡ₚ (address, dialed) :: rest ->
    step s (let '(p, _, extra) := client_publish (pool s) address dialed in
            {| pool := p; heap := heap s; dialing := rest;
               closing := option_list extra ++ closing s |})
| step_invalidate s address :
    step s (let '(p, c) := Invalidate (pool s) address in
            {| pool := p; heap := heap s; dialing := dialing s;
               closing := option_list c ++ closing s |})
| step_close_all s :
    step s (let '(p, cs) := Close (pool s) in
            {| pool := p; heap := heap s; dialing := dialing s; closing := cs ++ closing s |})
| step_close s c rest :
    closing s ≡ₚ c :: rest ->
    step s {| pool := pool s; heap := <[c := false]> (heap s);
              dialing := dialing s; closing := rest |}.

Definition reachable (s : state) : Prop := rtc step initial s.

Definition pooled (p : Pool) : list conn := (map_to_list (connections p)).*2.

(** Every connection that some part of the program still has to close or to keep. *)
Definition owned (s : state) : list conn := pooled (pool s) ++ (dialing s).*2 ++ closing s.

(** Each open connection has exactly one owner, and owners hold open connections. *)
Record inv (s : state) : Prop := {
  inv_nodup : NoDup (owned s);
  inv_open : forall c, c ∈ owned s <-> heap s !! c = Some true;
}.

Lemma pooled_insert (m : gmap string conn) (a : string) (c : conn) :
  m !! a = None -> pooled {| connections := <[a := c]> m |} ≡ₚ c :: pooled {| connections := m |}.
Proof. intros H. unfold pooled; simpl. by rewrite map_to_list_insert. Qed.

Lemma pooled_delete (m : gmap string conn) (a : string) (c : conn) :
  m !! a = Some c ->
  pooled {| connections := m |} ≡ₚ c :: pooled {| connections := delete a m |}.
Proof. intros H. unfold pooled; simpl. by rewrite <- (map_to_list_delete m a c). Qed.

(** A step that only moves connections between owners keeps the invariant. *)
Lemma inv_move (s s' : state) :
  inv s -> heap s' = heap s -> owned s' ≡ₚ owned s -> inv s'.
Proof.
  intros [Hnd Ho] Hh Hp. split; [by rewrite Hp|]. intros c. by rewrite Hp, Hh.
Qed.

Lemma owned_invalidate (s : state) (address : string) :
  pooled (Invalidate (pool s) address).1 ++ option_list (Invalidate (pool s) address).2
  ≡ₚ pooled (pool s).
Proof.
  destruct (pool s) as [m]. unfold Invalidate; simpl. destruct (m !! address) as [c|] eqn:E; simpl.
  - rewrite (pooled_delete m address c) by done. by rewrite (comm (++)).
  - by rewrite app_nil_r, delete_id.
Qed.

Lemma pool_inv_step (s s' : state) : inv s -> step s s' -> inv s'.
Proof.
  intros Hi Hs. pose proof Hi as [Hnd Ho]. destruct Hs as [s a Hl|s a d rest Hd|s a|s|s c rest Hc].
  - assert (owned {| pool := pool s; heap := heap s ++ [true];
      dialing := (a, length (heap s)) :: dialing s; closing := closing s |}
      ≡ₚ length (heap s) :: owned s) as Hp by (unfold owned; simpl; solve_Permutation).
    split.
    + rewrite Hp. apply list.NoDup_cons. split; [|done]. rewrite Ho.
      intros Hx%lookup_lt_Some. lia.
    + intros c. rewrite Hp, elem_of_cons, Ho. simpl. rewrite lookup_app_Some. split.
      * intros [-> | ?]; [right; split; [lia|by rewrite Nat.sub_diag]|by left].
      * intros [? | [? Hx%lookup_lt_Some]]; [by right|left]. simpl in Hx. lia.
  - unfold client_publish. destruct (connections (pool s) !! a) as [e|] eqn:E;
      apply (inv_move s); try done; unfold owned; simpl; rewrite Hd; simpl; [solve_Permutation|].
    destruct (pool s) as [m]; simpl in *. rewrite pooled_insert by done. solve_Permutation.
  - apply (inv_move s); try done. unfold owned; simpl.
    rewrite <- (owned_invalidate s a). unfold Invalidate; simpl. solve_Permutation.
  - apply (inv_move s); try done. unfold owned, Close; simpl. fold (pooled (pool s)).
    assert (pooled NewPool = []) as -> by (unfold pooled; simpl; by rewrite map_to_list_empty).
    solve_Permutation.
  - assert (owned s ≡ₚ c :: pooled (pool s) ++ (dialing s).*2 ++ rest) as Hp
      by (unfold owned; rewrite Hc; solve_Permutation).
    rewrite Hp in Hnd. apply list.NoDup_cons in Hnd as [Hc' Hnd]. split; [done|].
    intros c'. unfold owned; simpl. rewrite list_lookup_insert_Some.
    specialize (Ho c'). rewrite Hp, elem_of_cons in Ho. split.
    + intros Hin. right. split; [by intros ->|]. apply Ho. by right.
    + intros [(_ & ? & _)|[Hne Hx]]; [done|]. apply Ho in Hx. by destruct Hx.
Qed.

Lemma pool_reachable_inv (s : state) : reachable s -> inv s.
Proof.
  intros Hr. eapply rtc_invariant; [apply pool_inv_step| |exact Hr]. split; [constructor|].
  intros c. unfold owned, pooled; simpl. rewrite map_to_list_empty. simpl. by split; [intros ?%not_elem_of_nil|].
Qed.

(** ** Properties *)

(** Throughout every interleaving the pool hands out only open connections, no
    two addresses share one, nothing is closed twice, and once no call is in
    progress the open connections are exactly the pooled ones: none is leaked. *)
Theorem pool_owns_open_connections (s : state) :
  reachable s ->
  (forall a c, client_lookup (pool s) a = Some c -> heap s !! c = Some true) /\
  (forall a b c, client_lookup (pool s) a = Some c -> client_lookup (pool s) b = Some c -> a = b) /\
  (forall c, c ∈ closing s -> heap s !! c = Some true) /\ NoDup (closing s) /\
  (dialing s = [] -> closing s = [] ->
     forall c, heap s !! c = Some true <-> exists a, client_lookup (pool s) a = Some c).
Proof.
  intros [Hnd Ho]%pool_reachable_inv.
  assert (forall c, c ∈ pooled (pool s) <-> exists a, client_lookup (pool s) a = Some c) as Hp.
  { intros c. unfold pooled, client_lookup. rewrite list_elem_of_fmap. split.
    - intros ([a c'] & -> & H%elem_of_map_to_list). eauto.
    - intros [a H%elem_of_map_to_list]. by exists (a, c). }
  unfold owned in *. split_and!.
  - intros a c Hc. apply Ho, elem_of_app. left. apply Hp. eauto.
  - intros a b c Ha Hb. apply list.NoDup_app in Hnd as (Hnd & _ & _). unfold pooled, client_lookup in *.
    apply elem_of_map_to_list, list_elem_of_lookup in Ha as [i Hi], Hb as [j Hj].
    assert (i = j) as ->; [|congruence].
    apply (NoDup_lookup _ i j c Hnd); rewrite list_lookup_fmap; [by rewrite Hi|by rewrite Hj].
  - intros c Hc. apply Ho. rewrite !elem_of_app. tauto.
  - apply list.NoDup_app in Hnd as (_ & _ & Hnd). by apply list.NoDup_app in Hnd as (_ & _ & ?).
  - intros Hd Hcl c. rewrite <- Ho, Hd, Hcl. simpl. by rewrite app_nil_r, Hp.
Qed.

(** ** Witness: two requests dial one address *)
Definition ex_race : state :=
  {| pool := {| connections := {["w1:9000" := 1%nat]} |}; heap := [false; true]; dialing := []; closing := [] |}.

Lemma ex_race_reachable : reachable ex_race.
Proof.
  eapply rtc_l; [apply (step_dial initial "w1:9000"); reflexivity|].
  eapply rtc_l; [eapply (step_dial _ "w1:9000"); reflexivity|].
  eapply rtc_l; [eapply (step_publish _ "w1:9000" 1%nat [("w1:9000", 0%nat)]); reflexivity|].
  eapply rtc_l; [eapply (step_publish _ "w1:9000" 0%nat []); reflexivity|].
  eapply rtc_l; [eapply (step_close _ 0%nat []); reflexivity|].
  vm_compute. apply rtc_refl.
Qed.

Lemma pool_owns_open_connections_witness :
  heap ex_race !! 1%nat = Some true <-> exists a, client_lookup (pool ex_race) a = Some 1%nat.
Proof. apply (pool_owns_open_connections ex_race ex_race_reachable); reflexivity. Defined.
