(* ===== verification/Parse.v ===== *)
(** * Request parsing: the front end of [src/internal/gateway/http.go]

    [parseRequest] with its helpers [clientRequestID], [ensureEOF] and
    [effectiveTimeout].  The JSON decoder is given by its outcomes; the random
    bytes and the clock are arguments.  A rejection is the API error that the
    handler writes. *)

From Stdlib Require Import Ascii String.
From S2P Require Import Prelude GoFloat GoString Model.
From S2P Require Tokenizer Prefix Admission Routing Config.

#[local] Open Scope Z_scope.
#[local] Open Scope go_scope.

Record apiError := {
  ae_Status : Z;
  ae_RequestID : string;
  ae_Type : string;
  ae_Code : string;
  ae_Message : string;
}.

Definition StatusOK : Z := 200.
Definition StatusBadRequest : Z := 400.
Definition StatusTooManyRequests : Z := 429.
Definition StatusInternalServerError : Z := 500.
Definition StatusBadGateway : Z := 502.
Definition StatusServiceUnavailable : Z := 503.
Definition StatusGatewayTimeout : Z := 504.

(** ** The request ID *)
Definition slice (s : string) (lo hi : nat) : string := String.substring lo (hi - lo) s.

Definition set_version (bs : list Z) : list Z :=
  let bs := alter (fun b => Z.lor (Z.land b 15) 64) 6%nat bs in
  alter (fun b => Z.lor (Z.land b 63) 128) 8%nat bs.

Definition uuid_text (bs : list Z) : string :=
  let encoded := EncodeToString (set_version bs) in
  slice encoded 0 8 +:+ "-" +:+ slice encoded 8 12 +:+ "-" +:+ slice encoded 12 16 +:+ "-"
  +:+ slice encoded 16 20 +:+ "-" +:+ slice encoded 20 32.

Definition has_control (s : string) : bool :=
  existsb (fun rs => IsControl rs.1) (runes (to_bytes s)).

(** [random] are the 16 bytes that [rand.Read] returned, or its error. *)
Definition clientRequestID (random : result string (list Z)) (raw : string) : result string string :=
  if (raw =? "")%string then bs ← random; Ok (uuid_text bs)
  else if 128 <? len raw then Err "X-Request-ID exceeds 128 characters"
  else if has_control raw then Err "X-Request-ID contains a control character"
  else Ok raw.

(** ** The timeout *)
Definition timeout_error : string := "X-Aether-Timeout-Ms must be a positive integer".

Definition effectiveTimeout (c : Config.RouterConfig) (header : string) : result string Duration :=
  if (header =? "")%string then Ok (Config.RequestTimeout c)
  else
    match ParseInt header with
    | None => Err timeout_error
    | Some milliseconds =>
        if milliseconds <=? 0 then Err timeout_error
        else
          let timeout := milliseconds *i64 Millisecond in
          let timeout := if timeout <? Config.MinRequestTimeout c
                         then Config.MinRequestTimeout c else timeout in
          let timeout := if Config.MaxRequestTimeout c <? timeout
                         then Config.MaxRequestTimeout c else timeout in
          Ok timeout
    end.

(** ** The body *)
Record chatRequest := {
  in_Model : string;
  in_Messages : list Message;
  in_Stream : option bool;
  in_MaxTokens : option Z;
}.

(** What the second [Decode] of the body finds. *)
Inductive trailer := TrailerEOF | TrailerError (message : string) | TrailerValue.

Definition ensureEOF (t : trailer) : result string unit :=
  match t with
  | TrailerEOF => Ok tt
  | TrailerError message => Err message
  | TrailerValue => Err "multiple JSON values"
  end.

(** An incoming request: its headers (empty when absent) and the outcome of
    decoding its body, limited to 1 MiB, with unknown fields disallowed. *)
Record incoming := {
  h_RequestID : string;
  h_Timeout : string;
  h_Tenant : string;
  body : result string chatRequest;
  after_body : trailer;
}.

Definition valid_message (m : Message) : bool :=
  negb ((Content m =? "")%string
        || (negb (Role m =? "system")%string && negb (Role m =? "user")%string
            && negb (Role m =? "assistant")%string)).

Definition bad_request (requestID message : string) : apiError :=
  {| ae_Status := StatusBadRequest; ae_RequestID := requestID; ae_Type := "invalid_request_error";
     ae_Code := "invalid_request"; ae_Message := message |}.

Definition or_bad_request {A} (requestID : string) (message : string -> string)
    (r : result string A) : result apiError A :=
  match r with Ok a => Ok a | Err e => Err (bad_request requestID (message e)) end.

Definition parseRequest (c : Config.RouterConfig) (random : result string (list Z)) (now : Time)
    (r : incoming) : result apiError Request :=
  requestID ← or_bad_request "" id (clientRequestID random (h_RequestID r));
  let reject b message := reject_if b (bad_request requestID message) in
  input ← or_bad_request requestID (fun _ => "invalid JSON request") (body r);
  _ ← or_bad_request requestID (fun _ => "request must contain one JSON object")
        (ensureEOF (after_body r));
  _ ← reject (negb (in_Model input =? Config.rc_Model c)%string
              || negb (default false (in_Stream input))
              || (length (in_Messages input) =? 0)%nat)
        "model, non-empty messages, and stream:true are required";
  _ ← reject (negb (forallb valid_message (in_Messages input)))
        "messages require a supported role and non-empty text content";
  let maxTokens := default (Config.DefaultMaxOutputTokens c) (in_MaxTokens input) in
  _ ← reject ((maxTokens =? 0) || (Config.rc_MaxOutputTokens c <? maxTokens))
        "max_tokens is outside the configured limit";
  let estimate := Tokenizer.Estimate (in_Messages input) in
  _ ← reject ((Config.MaxInputTokens c <? estimate)
              || (Config.MaxContextTokens c <? estimate +u64 maxTokens))
        "request exceeds configured token limits";
  timeout ← or_bad_request requestID id (effectiveTimeout c (h_Timeout r));
  let tenant := if (h_Tenant r =? "")%string then "public" else h_Tenant r in
  Ok {| r_ID := requestID;
        r_AttemptID := "";
        TenantID := tenant;
        r_Model := in_Model input;
        Messages := in_Messages input;
        EstimatedInputToken := estimate;
        ExpectedOutputToken := maxTokens;
        MaxOutputTokens := maxTokens;
        PrefixFingerprints := Prefix.Fingerprints (Tokenizer.Tokens (in_Messages input));
        Deadline := now + timeout |}.

(** The cost that the handler reserves for a parsed request. *)
Definition reservation_cost (r : Request) : Z := EstimatedInputToken r +u64 MaxOutputTokens r.

(** ** Request IDs *)
Definition is_id_byte (a : ascii) : bool := is_hex a || Ascii.eqb a "-".

Lemma is_id_byte_plain (a : ascii) :
  is_id_byte a = true -> is_ascii a = true /\ IsControl (byte_val a) = false.
Proof.
  unfold is_id_byte, is_hex, is_ascii, IsControl. rewrite !orb_true_iff, !in_range_true.
  intros [Ha | ->%Ascii.eqb_eq]; [|done].
  assert (forall lo hi, in_range lo hi (byte_val a) = false <-> ~ (lo <= byte_val a <= hi)) as Hr
    by (intros; rewrite <- in_range_true; by destruct (in_range _ _ _)).
  rewrite orb_false_iff, !Hr, Z.ltb_lt. lia.
Qed.

Lemma id_bytes_no_control (s : string) :
  Forall (fun a => is_id_byte a = true) (to_bytes s) -> has_control s = false.
Proof.
  intros Hs. unfold has_control. rewrite runes_ascii.
  - induction Hs as [|a l Ha _ IH]; [done|]. csimpl. rewrite IH.
    by rewrite (proj2 (is_id_byte_plain a Ha)).
  - eapply Forall_impl; [|exact Hs]. intros a Ha. by apply is_id_byte_plain.
Qed.

(** The masks of the version and variant bytes, checked on every byte. *)
Definition bytes_256 : list Z := Z.of_nat <$> seq 0 256.

Definition mask_ok (b : Z) : bool :=
  (Z.lor (Z.land b 15) 64 / 16 =? 4) && in_range 8 11 (Z.lor (Z.land b 63) 128 / 16)
  && in_range 0 255 (Z.lor (Z.land b 15) 64) && in_range 0 255 (Z.lor (Z.land b 63) 128).

Lemma mask_all : forallb mask_ok bytes_256 = true.
Proof. vm_compute. reflexivity. Qed.

Lemma mask_byte (b : Z) : 0 <= b < 256 -> mask_ok b = true.
Proof.
  intros Hb. pose proof mask_all as H. rewrite forallb_forall in H. apply H.
  unfold bytes_256. apply in_map_iff. exists (Z.to_nat b). split; [lia|]. apply in_seq. lia.
Qed.

Definition random_bytes (bs : list Z) : Prop := length bs = 16%nat /\ Forall (fun b => 0 <= b < 256) bs.

Lemma set_version_bytes (bs : list Z) : random_bytes bs -> random_bytes (set_version bs).
Proof.
  intros [Hl Hb]. unfold set_version. split; [by rewrite !length_alter|].
  apply Forall_alter; [apply Forall_alter; [done|]|].
  - intros b _ Hx. apply mask_byte in Hx. unfold mask_ok in Hx. bool_facts.
    repeat match goal with H : in_range _ _ _ = true |- _ => apply in_range_true in H end. lia.
  - intros b _ Hx. apply mask_byte in Hx. unfold mask_ok in Hx. bool_facts.
    repeat match goal with H : in_range _ _ _ = true |- _ => apply in_range_true in H end. lia.
Qed.

Lemma slice_id_bytes (s : string) (lo hi : nat) :
  Forall (fun a => is_hex a = true) (to_bytes s) ->
  Forall (fun a => is_id_byte a = true) (to_bytes (slice s lo hi)).
Proof.
  intros Hs. unfold slice. rewrite to_bytes_substring. apply Forall_take, Forall_drop.
  eapply Forall_impl; [|exact Hs]. intros a Ha. unfold is_id_byte. by rewrite Ha.
Qed.

Lemma length_slice (s : string) (lo hi : nat) :
  (lo <= hi <= String.length s)%nat -> String.length (slice s lo hi) = (hi - lo)%nat.
Proof.
  intros H. unfold slice. rewrite <- length_to_bytes, to_bytes_substring, length_take, length_drop,
    length_to_bytes. lia.
Qed.

Lemma uuid_bytes (bs : list Z) :
  random_bytes bs -> Forall (fun a => is_id_byte a = true) (to_bytes (uuid_text bs)).
Proof.
  intros [_ Hb%EncodeToString_hex]%set_version_bytes. unfold uuid_text. rewrite !to_bytes_app.
  assert (Forall (fun a => is_id_byte a = true) (to_bytes "-")) by (by repeat constructor).
  repeat (apply Forall_app; split); try done; by apply slice_id_bytes.
Qed.

Lemma length_string_app (s t : string) :
  String.length (s +:+ t) = (String.length s + String.length t)%nat.
Proof. by rewrite <- !length_to_bytes, to_bytes_app, length_app. Qed.

Lemma length_uuid (bs : list Z) : random_bytes bs -> String.length (uuid_text bs) = 36%nat.
Proof.
  intros [Hl _]%set_version_bytes. unfold uuid_text. rewrite !length_string_app.
  rewrite !length_slice by (rewrite length_EncodeToString, Hl; lia). reflexivity.
Qed.

(** Positions 14 and 19 of the text hold the version and the variant. *)
Lemma uuid_version (bs : list Z) :
  random_bytes bs ->
  String.get 14 (uuid_text bs) = Some "4"%char /\
  exists c, String.get 19 (uuid_text bs) = Some c /\ c ∈ ["8"%char; "9"%char; "a"%char; "b"%char].
Proof.
  intros [Hl Hb]. do 16 (destruct bs as [|? bs]; [done|]). destruct bs; [|done].
  repeat match goal with H : Forall _ (_ :: _) |- _ => apply list.Forall_cons in H as [? ?] end.
  unfold uuid_text, set_version. cbn [alter list_alter].
  match goal with |- context [Z.lor (Z.land ?x 15) 64] =>
    pose proof (mask_byte x ltac:(lia)) as Hver end.
  match goal with |- context [Z.lor (Z.land ?x 63) 128] =>
    pose proof (mask_byte x ltac:(lia)) as Hvar end.
  unfold mask_ok in Hver, Hvar. bool_facts. cbn. split.
  - match goal with |- Some (hex_digit ?q) = _ =>
      assert (q = 4) as Hq by assumption; rewrite Hq; reflexivity end.
  - eexists. split; [reflexivity|].
    match goal with |- hex_digit ?q ∈ _ =>
      assert (in_range 8 11 q = true) as Hq by assumption; revert Hq; generalize q as q' end.
    intros q' Hq%in_range_true. assert (q' = 8 \/ q' = 9 \/ q' = 10 \/ q' = 11) as [-> | [-> | [-> | ->]]] by lia;
      vm_compute; set_solver.
Qed.

(** ** Properties *)

(** The ID of a request is never empty, has at most 128 bytes and no control
    character, and is stable: sending it back yields it again.  A client's ID is
    kept as it is; a generated one is a version 4 UUID. *)
Theorem clientRequestID_valid (random : result string (list Z)) (raw id : string) :
  (forall bs, random = Ok bs -> random_bytes bs) ->
  clientRequestID random raw = Ok id ->
  id <> "" /\ len id <= 128 /\ has_control id = false /\ clientRequestID random id = Ok id /\
  (raw <> "" -> id = raw) /\
  (raw = "" -> String.length id = 36%nat /\ String.get 14 id = Some "4"%char /\
     exists c, String.get 19 id = Some c /\ c ∈ ["8"%char; "9"%char; "a"%char; "b"%char]).
Proof.
  intros Hr H. unfold clientRequestID in H. destruct (raw =? "")%string eqn:E; bool_facts.
  - subst. apply result_bind_ok in H as (bs & Hbs%Hr & [= <-]).
    pose proof (length_uuid _ Hbs) as Hl. pose proof (id_bytes_no_control _ (uuid_bytes _ Hbs)) as Hc.
    assert (uuid_text bs <> "") as Hne by (intros Hz; by rewrite Hz in Hl).
    assert (len (uuid_text bs) = 36) as Hlen by (unfold len; by rewrite Hl).
    split_and!; try done; [lia| |by intros _; split; [|apply uuid_version]].
    unfold clientRequestID. apply String.eqb_neq in Hne. rewrite Hne, Hlen, Hc. done.
  - destruct (128 <? len raw) eqn:El; [done|]. destruct (has_control raw) eqn:Ec; [done|].
    injection H as <-. bool_facts. split_and!; try done.
    unfold clientRequestID. apply String.eqb_neq in E. apply Z.ltb_ge in El. by rewrite E, El, Ec.
Qed.

Definition clamp (lo hi t : Z) : Z := Z.min hi (Z.max lo t).

Lemma effectiveTimeout_spec (c : Config.RouterConfig) (header : string) (t : Duration) :
  header <> "" ->
  effectiveTimeout c header = Ok t <->
  exists ms, ParseInt header = Some ms /\ 0 < ms /\
    t = clamp (Config.MinRequestTimeout c) (Config.MaxRequestTimeout c) (ms *i64 Millisecond).
Proof.
  intros Hne%String.eqb_neq. unfold effectiveTimeout. rewrite Hne.
  destruct (ParseInt header) as [ms|]; [|naive_solver].
  destruct (ms <=? 0) eqn:E; bool_facts; [split; [done|]; intros (? & [= <-] & ? & _); lia|].
  split.
  - intros [= <-]. exists ms. split_and!; try done. unfold clamp.
    repeat case_if; bool_facts; lia.
  - intros (? & [= <-] & _ & ->). f_equal. unfold clamp. repeat case_if; bool_facts; lia.
Qed.

Lemma effectiveTimeout_pos (c : Config.RouterConfig) (header : string) (t : Duration) :
  Config.valid_router c -> effectiveTimeout c header = Ok t -> 0 < t <= Config.MaxRequestTimeout c.
Proof.
  intros Hv H. pose proof (Config.vr_timeouts _ Hv) as Ht.
  destruct (decide (header = "")) as [->|Hne].
  - injection H as <-. lia.
  - apply effectiveTimeout_spec in H as (ms & _ & _ & ->); [|done]. unfold clamp. lia.
Qed.

(** The timeout of an accepted request: the configured default without the
    header, else the header's milliseconds clamped to the configured bounds. The
    product is exact for at most 9223372036854 milliseconds. *)
Theorem effectiveTimeout_bounds (c : Config.RouterConfig) (header : string) (t : Duration) :
  Config.valid_router c -> effectiveTimeout c header = Ok t ->
  0 < t <= Config.MaxRequestTimeout c /\
  (header = "" -> t = Config.RequestTimeout c) /\
  (header <> "" -> Config.MinRequestTimeout c <= t /\
     exists ms, ParseInt header = Some ms /\ 0 < ms /\
       (ms * Millisecond < 2 ^ 63 ->
        t = clamp (Config.MinRequestTimeout c) (Config.MaxRequestTimeout c) (ms * Millisecond))).
Proof.
  intros Hv H. pose proof (Config.vr_timeouts _ Hv) as Ht.
  destruct (decide (header = "")) as [->|Hne].
  - injection H as <-. split_and!; try done; lia.
  - pose proof H as H0. apply effectiveTimeout_spec in H0 as (ms & Hp & Hms & ->); [|done].
    unfold clamp at 1 2. split; [lia|]. split; [done|]. intros _. unfold clamp at 1. split; [lia|].
    exists ms. split_and!; try done. intros Hb. rewrite wrap_i64_id; [done|].
    unfold is_i64, Millisecond in *. lia.
Qed.

(** Beyond that the product wraps: a header that asks for more than 292 years
    (and less than twice that) is granted the minimum instead of the maximum. *)
Theorem effectiveTimeout_overflow (c : Config.RouterConfig) (ms : Z) :
  Config.valid_router c -> 2 ^ 63 <= ms * Millisecond < 2 ^ 64 -> ms < 2 ^ 63 ->
  effectiveTimeout c (itoa ms) = Ok (Config.MinRequestTimeout c).
Proof.
  intros Hv Hms Hb. pose proof (Config.vr_timeouts _ Hv) as Ht. unfold Millisecond in *.
  apply effectiveTimeout_spec.
  { destruct (itoa_digits ms) as (_ & ch & s & -> & _); [lia|done]. }
  exists ms. rewrite ParseInt_itoa by lia. split_and!; try done; [lia|].
  unfold Millisecond. assert (ms *i64 1000000 = ms * 1000000 - 2 ^ 64) as ->.
  { unfold wrap_i64. rewrite <- (Z.mod_unique (ms * 1000000 + 2 ^ 63) (2 ^ 64) 1
      (ms * 1000000 + 2 ^ 63 - 2 ^ 64)); lia. }
  unfold clamp. lia.
Qed.

(** ** Accepted requests *)
Lemma or_bad_request_ok {A} (rid : string) (m : string -> string) (r : result string A) (a : A) :
  or_bad_request rid m r = Ok a <-> r = Ok a.
Proof. destruct r; simpl; naive_solver. Qed.

(** The conditions of acceptance as the code has them, and the value of the request. *)
Record accepts (c : Config.RouterConfig) (random : result string (list Z)) (now : Time)
    (r : incoming) (req : Request) : Prop := {
  ac_id : clientRequestID random (h_RequestID r) = Ok (r_ID req);
  ac_body : exists stream max, body r = Ok {| in_Model := r_Model req; in_Messages := Messages req;
      in_Stream := stream; in_MaxTokens := max |} /\ stream = Some true /\
      MaxOutputTokens req = default (Config.DefaultMaxOutputTokens c) max;
  ac_eof : after_body r = TrailerEOF;
  ac_model : r_Model req = Config.rc_Model c;
  ac_messages : Messages req <> [] /\ forallb valid_message (Messages req) = true;
  ac_output : MaxOutputTokens req <> 0 /\ MaxOutputTokens req <= Config.rc_MaxOutputTokens c /\
    ExpectedOutputToken req = MaxOutputTokens req;
  ac_estimate : EstimatedInputToken req = Tokenizer.Estimate (Messages req);
  ac_input : EstimatedInputToken req <= Config.MaxInputTokens c;
  ac_context : reservation_cost req <= Config.MaxContextTokens c;
  ac_deadline : effectiveTimeout c (h_Timeout r) = Ok (Deadline req - now);
  ac_tenant : TenantID req = if (h_Tenant r =? "")%string then "public" else h_Tenant r;
  ac_prefixes : PrefixFingerprints req = Prefix.Fingerprints (Tokenizer.Tokens (Messages req));
  ac_attempt : r_AttemptID req = "";
}.

Lemma stream_true (s : option bool) : negb (default false s) = false <-> s = Some true.
Proof. destruct s as [[]|]; simpl; naive_solver. Qed.

Lemma messages_nonempty (ms : list Message) : (length ms =? 0)%nat = false <-> ms <> [].
Proof. by destruct ms. Qed.

Lemma bind_reject_bad {A} (b : bool) (e : apiError) (k : result apiError A) (a : A) :
  (_ ← reject_if b e; k) = Ok a <-> b = false /\ k = Ok a.
Proof. destruct b; simpl; naive_solver. Qed.

Lemma accepts_iff (c : Config.RouterConfig) (random : result string (list Z)) (now : Time)
    (r : incoming) (req : Request) :
  parseRequest c random now r = Ok req <-> accepts c random now r req.
Proof.
  unfold parseRequest.
  repeat first [setoid_rewrite bind_reject_bad | setoid_rewrite result_bind_ok
               | setoid_rewrite or_bad_request_ok].
  repeat setoid_rewrite orb_false_iff.
  setoid_rewrite stream_true. setoid_rewrite messages_nonempty.
  setoid_rewrite negb_false_iff. setoid_rewrite String.eqb_eq. setoid_rewrite Z.eqb_neq.
  setoid_rewrite Z.ltb_ge. split.
  - intros (id & Hid & [m ms st mx] & Hb & [] & He & [[Hm Hs] Hms] & Hv & [Hz Hmx] & [Hi Hc] & t & Ht & [= <-]).
    simpl in *. split; simpl; try done; [eauto|by destruct (after_body r)|].
    rewrite Ht. f_equal. lia.
  - intros [Hid (st & mx & Hb & -> & Hmax) He Hm [Hne Hv] (Hz & Hmx & Hex) Hest Hi Hc Ht Hten Hp Ha].
    exists (r_ID req). split; [done|]. eexists. split; [exact Hb|]. exists tt. simpl.
    rewrite He, <- Hmax, <- Hest. split_and!; try done. eexists. split; [exact Ht|].
    f_equal. rewrite <- Hten, <- Hp. replace (now + (Deadline req - now)) with (Deadline req) by lia.
    destruct req; simpl in *; congruence.
Qed.

Lemma parseRequest_err (c : Config.RouterConfig) (random : result string (list Z)) (now : Time)
    (r : incoming) (e : apiError) :
  parseRequest c random now r = Err e ->
  match clientRequestID random (h_RequestID r) with
  | Ok id => e = bad_request id (ae_Message e)
  | Err m => e = bad_request "" m
  end.
Proof.
  unfold parseRequest. intros H.
  apply result_bind_err in H as [H|(id & Hid & H)].
  { destruct (clientRequestID random (h_RequestID r)); [done|]. by injection H as <-. }
  apply or_bad_request_ok in Hid. rewrite Hid. cbn zeta in H.
  repeat (apply result_bind_err in H as [H|(? & _ & H)];
    [first [unfold reject_if in H; case_if; [by injection H as <-|done]
           |unfold or_bad_request in H; case_match; [done|by injection H as <-]]|]).
  done.
Qed.

Lemma parseRequest_status (c : Config.RouterConfig) (random : result string (list Z)) (now : Time)
    (r : incoming) (e : apiError) :
  parseRequest c random now r = Err e -> ae_Status e = StatusBadRequest.
Proof. intros H%parseRequest_err. by case_match; rewrite H. Qed.

(** A rejection is always status 400; it echoes the request ID unless the ID
    itself is invalid. *)
Theorem parseRequest_rejects (c : Config.RouterConfig) (random : result string (list Z)) (now : Time)
    (r : incoming) (e : apiError) :
  parseRequest c random now r = Err e ->
  ae_Status e = StatusBadRequest /\ ae_Type e = "invalid_request_error" /\
  ae_Code e = "invalid_request" /\
  match clientRequestID random (h_RequestID r) with
  | Ok id => ae_RequestID e = id
  | Err m => ae_RequestID e = "" /\ ae_Message e = m
  end.
Proof.
  intros H%parseRequest_err. by case_match; rewrite H.
Qed.

(** ** What a client may send *)

(** The header [X-Request-ID]: absent, or at most 128 bytes without control characters. *)
Definition id_allowed (header : string) : Prop :=
  len header <= 128 /\ forall r bs, (r, bs) ∈ runes (to_bytes header) -> IsControl r = false.

(** A version 4 UUID: lower-case hexadecimal digits and dashes. *)
Definition is_uuid4 (id : string) : Prop :=
  String.length id = 36%nat /\ Forall (fun a => is_hex a = true \/ a = "-"%char) (to_bytes id) /\
  String.get 14 id = Some "4"%char /\
  exists a, String.get 19 id = Some a /\ a ∈ ["8"%char; "9"%char; "a"%char; "b"%char].

Definition message_allowed (m : Message) : Prop :=
  Content m <> "" /\ (Role m = "system" \/ Role m = "user" \/ Role m = "assistant").

(** The body, and the output tokens it asks for or gets by default. *)
Record body_allowed (c : Config.RouterConfig) (input : chatRequest) (outputs : Z) : Prop := {
  ba_model : in_Model input = Config.rc_Model c;
  ba_stream : in_Stream input = Some true;
  ba_messages : in_Messages input <> [] /\ Forall message_allowed (in_Messages input);
  ba_outputs : match in_MaxTokens input with Some n => outputs = n | None => outputs = Config.DefaultMaxOutputTokens c end;
  ba_limit : 1 <= outputs <= Config.rc_MaxOutputTokens c;
  ba_input : Z.of_nat (length (Tokenizer.Tokens (in_Messages input))) <= Config.MaxInputTokens c;
  ba_context : Z.of_nat (length (Tokenizer.Tokens (in_Messages input))) + outputs <= Config.MaxContextTokens c;
}.

(** The header [X-Aether-Timeout-Ms], and the time it grants: the configured one when
    it is absent, else its milliseconds within the configured bounds. *)
Definition timeout_granted (c : Config.RouterConfig) (header : string) (t : Duration) : Prop :=
  if decide (header = "") then t = Config.RequestTimeout c
  else exists ms, ParseInt header = Some ms /\ 0 < ms /\
    t = Z.min (Config.MaxRequestTimeout c) (Z.max (Config.MinRequestTimeout c) (wrap_i64 (ms * 1000000))).

Lemma id_allowed_iff (header : string) : id_allowed header <-> len header <= 128 /\ has_control header = false.
Proof.
  unfold id_allowed, has_control. split; intros [Hl Hc]; (split; [done|]).
  - apply not_true_iff_false. intros ([r bs] & Hin & Ht)%existsb_exists. apply list_elem_of_In in Hin.
    cbn in Ht. by rewrite (Hc r bs Hin) in Ht.
  - intros r bs Hin. apply not_true_iff_false. intros Ht. apply not_true_iff_false in Hc. apply Hc, existsb_exists.
    exists (r, bs). by rewrite <- list_elem_of_In.
Qed.

Lemma header_id (random : result string (list Z)) (raw : string) :
  raw <> "" -> (id_allowed raw -> clientRequestID random raw = Ok raw) /\
    forall id, clientRequestID random raw = Ok id -> id_allowed raw /\ id = raw.
Proof.
  intros Hne%String.eqb_neq. rewrite id_allowed_iff. unfold clientRequestID. rewrite Hne. split.
  - intros [Hl%Z.ltb_ge ->]. by rewrite Hl.
  - intros id. destruct (128 <? len raw) eqn:Hl; [done|]. destruct (has_control raw) eqn:Hc; [done|]. intros [= <-].
    apply Z.ltb_ge in Hl. by rewrite id_allowed_iff.
Qed.

Lemma uuid_is_uuid4 (bs : list Z) : random_bytes bs -> is_uuid4 (uuid_text bs).
Proof.
  intros Hb. destruct (uuid_version bs Hb) as [Hv Hw]. split_and!; [by apply length_uuid| |done|done].
  eapply list.Forall_impl; [by apply uuid_bytes|]. intros a. unfold is_id_byte.
  intros [H|H%Ascii.eqb_eq]%orb_true_iff; [by left|by right].
Qed.

Lemma valid_message_iff (m : Message) : valid_message m = true <-> message_allowed m.
Proof.
  unfold valid_message, message_allowed.
  rewrite negb_true_iff, orb_false_iff, !andb_false_iff, !negb_false_iff, String.eqb_neq, !String.eqb_eq. tauto.
Qed.

Lemma effectiveTimeout_granted (c : Config.RouterConfig) (header : string) (t : Duration) :
  effectiveTimeout c header = Ok t <-> timeout_granted c header t.
Proof.
  unfold timeout_granted. destruct (decide (header = "")) as [->|Hne].
  - cbn. split; [by intros [= <-]|by intros ->].
  - by apply effectiveTimeout_spec.
Qed.

Section Spec.
Context (c : Config.RouterConfig) (Hsum : Config.MaxInputTokens c + Config.rc_MaxOutputTokens c < 2 ^ 64).
Context (random : result string (list Z)) (Hrandom : forall bs, random = Ok bs -> random_bytes bs) (r : incoming).

(** The limits of the code, with its 64-bit sum, are those of [body_allowed]. *)
Lemma limits_iff (n out : Z) :
  0 <= n -> 0 <= out ->
  (out <> 0 /\ out <= Config.rc_MaxOutputTokens c /\ n <= Config.MaxInputTokens c /\ n +u64 out <= Config.MaxContextTokens c) <->
  1 <= out <= Config.rc_MaxOutputTokens c /\ n <= Config.MaxInputTokens c /\ n + out <= Config.MaxContextTokens c.
Proof.
  intros Hn Ho. split.
  - intros (H1 & H2 & H3 & H4). rewrite wrap_u64_id in H4 by (unfold is_u64; lia). lia.
  - intros (H1 & H2 & H3). rewrite wrap_u64_id by (unfold is_u64; lia). lia.
Qed.

Definition outputs_of_body (input : chatRequest) : Z := default (Config.DefaultMaxOutputTokens c) (in_MaxTokens input).

Lemma body_allowed_iff (input : chatRequest) (req : Request) :
  0 <= outputs_of_body input -> r_Model req = in_Model input -> Messages req = in_Messages input ->
  MaxOutputTokens req = outputs_of_body input -> EstimatedInputToken req = Tokenizer.Estimate (Messages req) ->
  body_allowed c input (MaxOutputTokens req) <->
  r_Model req = Config.rc_Model c /\ in_Stream input = Some true /\
  (Messages req <> [] /\ forallb valid_message (Messages req) = true) /\
  (MaxOutputTokens req <> 0 /\ MaxOutputTokens req <= Config.rc_MaxOutputTokens c /\
   EstimatedInputToken req <= Config.MaxInputTokens c /\ reservation_cost req <= Config.MaxContextTokens c).
Proof.
  intros H0 -> Hm Ho He. unfold reservation_cost. rewrite He, Hm, Ho.
  rewrite (limits_iff (Tokenizer.Estimate (in_Messages input))) by (unfold Tokenizer.Estimate; lia).
  assert (forallb valid_message (in_Messages input) = true <-> Forall message_allowed (in_Messages input)) as ->.
  { rewrite <- Forall_forallb. apply Forall_proper; [|done]. intros m. apply valid_message_iff. }
  unfold Tokenizer.Estimate. split.
  - intros [H1 H2 H3 H4 H5 H6 H7]. tauto.
  - intros (H1 & H2 & H3 & H4 & H5 & H6). split; try done. unfold outputs_of_body. by destruct (in_MaxTokens input).
Qed.
End Spec.

(** C32: With limits whose sum fits 64 bits, and a number of output tokens that the
    decoder can give, a request is accepted exactly when its ID header is absent
    (and the system has random bytes) or has at most 128 bytes without control
    characters, its body is one JSON object with the configured model, [stream]
    true and messages that all have text and a known role, its output tokens are
    between 1 and the limit, the tokens of its messages are within the input limit
    and with its output tokens within the context limit, and its timeout header is
    absent or a positive integer. The accepted request has the header's ID or a
    generated version 4 UUID, the tenant of its header or the public one, the
    messages as sent, the number of their tokens, its output tokens and the
    deadline that its timeout grants. Any other request is rejected with status 400. *)
Theorem parseRequest_accepts (c : Config.RouterConfig) (random : result string (list Z)) (now : Time) (r : incoming) :
  Config.MaxInputTokens c + Config.rc_MaxOutputTokens c < 2 ^ 64 -> 0 <= Config.DefaultMaxOutputTokens c ->
  (forall bs, random = Ok bs -> length bs = 16%nat /\ Forall (fun b => 0 <= b < 256) bs) ->
  (forall input n, body r = Ok input -> in_MaxTokens input = Some n -> 0 <= n) ->
  (is_ok (parseRequest c random now r) = true <->
     (if decide (h_RequestID r = "") then is_ok random = true else id_allowed (h_RequestID r)) /\
     (exists input outputs, body r = Ok input /\ after_body r = TrailerEOF /\ body_allowed c input outputs) /\
     exists t, timeout_granted c (h_Timeout r) t) /\
  match parseRequest c random now r with
  | Ok req =>
      (if decide (h_RequestID r = "") then is_uuid4 (r_ID req) else r_ID req = h_RequestID r) /\
      r_AttemptID req = "" /\ (TenantID req = if decide (h_Tenant r = "") then "public" else h_Tenant r) /\
      (exists input, body r = Ok input /\ body_allowed c input (MaxOutputTokens req) /\ Messages req = in_Messages input) /\
      r_Model req = Config.rc_Model c /\ ExpectedOutputToken req = MaxOutputTokens req /\
      EstimatedInputToken req = Z.of_nat (length (Tokenizer.Tokens (Messages req))) /\
      PrefixFingerprints req = Prefix.Fingerprints (Tokenizer.Tokens (Messages req)) /\
      timeout_granted c (h_Timeout r) (Deadline req - now)
  | Err e => ae_Status e = 400
  end.
Proof.
  intros Hsum Hdef Hrandom Hmax.
  assert (forall input, body r = Ok input -> 0 <= outputs_of_body c input) as Hout.
  { intros input Hb. unfold outputs_of_body. destruct (in_MaxTokens input) as [n|] eqn:E; [by eapply Hmax|done]. }
  assert (forall req, accepts c random now r req ->
    (if decide (h_RequestID r = "") then is_ok random = true /\ is_uuid4 (r_ID req)
     else id_allowed (h_RequestID r) /\ r_ID req = h_RequestID r) /\
    exists input, body r = Ok input /\ body_allowed c input (MaxOutputTokens req) /\ Messages req = in_Messages input) as Hacc.
  { intros req [Hid (st & mx & Hb & Hst & Hmx) He Hm Hms (Hz & Ho & Hex) Hest Hi Hc Ht Hten Hp Ha]. split.
    - case_decide as E.
      + rewrite E in Hid. unfold clientRequestID in Hid. cbn in Hid. destruct random as [bs|]; [|done].
        injection Hid as <-. split; [done|]. apply uuid_is_uuid4. by apply Hrandom.
      + by apply (proj2 (header_id random _ E)).
    - eexists. split; [exact Hb|]. split; [|done]. apply (body_allowed_iff c Hsum _ req (Hout _ Hb)); try done. }
  split.
  - split.
    + intros Hok. destruct (parseRequest c random now r) as [req|] eqn:E; [|done]. apply accepts_iff in E.
      destruct (Hacc req E) as [H1 (input & Hb & Hal & _)]. destruct E as [_ _ He _ _ _ _ _ _ Ht _ _ _].
      split; [case_decide; apply H1|]. split; [by exists input, (MaxOutputTokens req)|].
      eexists. by apply effectiveTimeout_granted.
    + intros (Hid & (input & outputs & Hb & He & Hal) & t & Ht%effectiveTimeout_granted).
      assert (exists id, clientRequestID random (h_RequestID r) = Ok id) as [id Hid'].
      { case_decide as E; [rewrite E; unfold clientRequestID; destruct random; [by eexists|done]|].
        exists (h_RequestID r). by apply (proj1 (header_id random _ E)). }
      set (req := {| r_ID := id; r_AttemptID := ""; TenantID := if (h_Tenant r =? "")%string then "public" else h_Tenant r;
        r_Model := in_Model input; Messages := in_Messages input; EstimatedInputToken := Tokenizer.Estimate (in_Messages input);
        ExpectedOutputToken := outputs; MaxOutputTokens := outputs;
        PrefixFingerprints := Prefix.Fingerprints (Tokenizer.Tokens (in_Messages input)); Deadline := now + t |}).
      assert (outputs = outputs_of_body c input) as Hou
        by (destruct Hal as [_ _ _ H _ _ _]; unfold outputs_of_body; by destruct (in_MaxTokens input)).
      destruct (proj1 (body_allowed_iff c Hsum input req (Hout _ Hb) eq_refl eq_refl Hou eq_refl) Hal) as (A1 & A2 & A3 & A4 & A5 & A6 & A7).
      rewrite (proj2 (accepts_iff c random now r req)); [done|]. split; try done.
      * exists (in_Stream input), (in_MaxTokens input). split; [by destruct input|done].
      * cbn. rewrite Ht. f_equal. lia.
  - destruct (parseRequest c random now r) as [req|e] eqn:E; [|by eapply parseRequest_status].
    apply accepts_iff in E. destruct (Hacc req E) as [H1 H2]. destruct E as [_ _ _ Hm _ (_ & _ & Hex) Hest _ _ Ht Hten Hp Ha].
    split_and!; try done.
    + case_decide; apply H1.
    + rewrite Hten. destruct (decide (h_Tenant r = "")) as [->|Hne%String.eqb_neq]; [done|by rewrite Hne].
    + by apply effectiveTimeout_granted.
Qed.

Lemma valid_message_role (m : Message) :
  valid_message m = true -> Tokenizer.supported_role (Role m) = true.
Proof.
  unfold valid_message, Tokenizer.supported_role.
  rewrite negb_true_iff, !orb_false_iff, !andb_false_iff, !negb_false_iff, !orb_true_iff. tauto.
Qed.

(** With limits whose sum fits 64 bits the cost of an accepted request is the
    exact sum of its estimate and its output limit: it is positive, covers every
    message, and is within the context limit. *)
Theorem accepted_cost (c : Config.RouterConfig) (random : result string (list Z)) (now : Time)
    (r : incoming) (req : Request) :
  Config.valid_router c -> Config.MaxInputTokens c + Config.rc_MaxOutputTokens c < 2 ^ 64 ->
  0 <= MaxOutputTokens req ->
  parseRequest c random now r = Ok req ->
  reservation_cost req = EstimatedInputToken req + MaxOutputTokens req /\
  Z.of_nat (length (Messages req)) <= EstimatedInputToken req <= Config.MaxInputTokens c /\
  0 < reservation_cost req <= Config.MaxContextTokens c /\
  now < Deadline req <= now + Config.MaxRequestTimeout c.
Proof.
  intros Hv Hb H0 Ha%accepts_iff.
  pose proof (ac_input _ _ _ _ _ Ha) as Hi. pose proof (ac_context _ _ _ _ _ Ha) as Hc.
  destruct (ac_output _ _ _ _ _ Ha) as (Hz & Hm & _). destruct (ac_messages _ _ _ _ _ Ha) as [Hne Hms].
  pose proof (ac_estimate _ _ _ _ _ Ha) as He.
  destruct (effectiveTimeout_pos c _ _ Hv (ac_deadline _ _ _ _ _ Ha)) as [Ht1 Ht2].
  assert (length (Messages req) <= length (Tokenizer.Tokens (Messages req)))%nat as Hlen.
  { apply Tokenizer.Tokens_length_lower, list.Forall_forall. intros m Hin.
    rewrite forallb_forall in Hms. by apply list_elem_of_In, Hms, valid_message_role in Hin. }
  unfold Tokenizer.Estimate in He. unfold reservation_cost in *.
  assert (0 < length (Messages req))%nat by (destruct (Messages req); [done|simpl; lia]).
  rewrite wrap_u64_id in * by (unfold is_u64; lia). lia.
Qed.

(** A configuration with a huge output limit, and a request with a given one. *)
Definition wide_config : Config.RouterConfig :=
  {| Config.rc_HTTPAddress := ":8080"; Config.rc_ControlAddress := ":9090"; Config.rc_Model := "mock-llm";
     Config.DefaultMaxOutputTokens := 16; Config.rc_MaxOutputTokens := 2 ^ 64 - 1;
     Config.MaxInputTokens := 4096; Config.MaxContextTokens := 8192;
     Config.RequestTimeout := 30 * Second; Config.MinRequestTimeout := 1 * Second;
     Config.MaxRequestTimeout := 60 * Second; Config.HeartbeatStaleAfter := 3 * Second;
     Config.SSEBufferSize := 32; Config.SlowClientTimeout := 5 * Second;
     Config.ShutdownTimeout := 10 * Second;
     Config.rc_Routing := {| Config.Policy := Routing.PredictedTTFT; Config.RoundRobinSeed := 0 |};
     Config.rc_Admission := {| Admission.GlobalInFlightTokens := 100000;
       Admission.TenantRatePerSecond := float_of_Z 1000; Admission.TenantBurstTokens := float_of_Z 10000 |} |}.

Definition incoming_request (max : Z) : incoming :=
  {| h_RequestID := "req-1"; h_Timeout := ""; h_Tenant := "";
     body := Ok {| in_Model := "mock-llm"; in_Messages := [ {| Role := "user"; Content := "hello" |} ];
                   in_Stream := Some true; in_MaxTokens := Some max |};
     after_body := TrailerEOF |}.

(** Without that bound the sum wraps: a valid configuration that allows outputs
    near 2^64 accepts a request far beyond its context limit, at cost zero, and
    admission then refuses it with an internal error. *)
Theorem context_limit_overflow :
  Config.valid_router wide_config /\
  exists req, parseRequest wide_config (Err "unused") 1 (incoming_request (2 ^ 64 - 2)) = Ok req /\
    MaxOutputTokens req = 2 ^ 64 - 2 /\ Config.MaxContextTokens wide_config = 8192 /\
    reservation_cost req = 0 /\
    forall a now tenant, Admission.Reserve a now tenant (reservation_cost req) =
      (a, Err Admission.ErrZeroCost).
Proof.
  split; [by apply Config.ValidateRouter_spec|].
  eexists. split; [vm_compute; reflexivity|]. by split_and!.
Qed.

(** ** Witnesses *)
Definition ex_parsed : result apiError Request :=
  parseRequest Config.ex_router_config (Err "unused") 100 (incoming_request 8).

Lemma parseRequest_accepts_witness :
  is_ok ex_parsed = true /\
  exists input, body (incoming_request 8) = Ok input /\ body_allowed Config.ex_router_config input 8.
Proof.
  destruct (parseRequest_accepts Config.ex_router_config (Err "unused") 100 (incoming_request 8)) as [_ H].
  - vm_compute. reflexivity.
  - vm_compute. discriminate.
  - discriminate.
  - intros input n [= <-] [= <-]. discriminate.
  - split; [vm_compute; reflexivity|]. fold ex_parsed in H. destruct ex_parsed as [req|e] eqn:E; [|vm_compute in E; discriminate E].
    assert (MaxOutputTokens req = 8) as Hm by (vm_compute in E; injection E as <-; reflexivity).
    destruct H as (_ & _ & _ & (input & Hb & Hal & _) & _). exists input. rewrite Hm in Hal. split; [exact Hb|exact Hal].
Defined.

Lemma accepted_cost_witness : exists req, ex_parsed = Ok req /\
  reservation_cost req = EstimatedInputToken req + MaxOutputTokens req /\ 100 < Deadline req.
Proof.
  destruct ex_parsed as [req|e] eqn:E; [|vm_compute in E; discriminate E].
  exists req. split; [reflexivity|].
  destruct (accepted_cost Config.ex_router_config (Err "unused") 100 (incoming_request 8) req) as (H1 & _ & _ & H2 & _).
  - exact Config.ex_router_valid.
  - vm_compute. reflexivity.
  - vm_compute in E. injection E as <-. vm_compute. discriminate.
  - exact E.
  - split; [exact H1|exact H2].
Defined.

Lemma effectiveTimeout_bounds_witness : 0 < 2 * Second <= 60 * Second.
Proof.
  apply (effectiveTimeout_bounds Config.ex_router_config "2000" (2 * Second)).
  - exact Config.ex_router_valid.
  - vm_compute. reflexivity.
Defined.

Lemma parseRequest_rejects_witness : exists e,
  parseRequest Config.ex_router_config (Err "unused") 100 (incoming_request 65) = Err e /\
  ae_Status e = StatusBadRequest.
Proof.
  destruct (parseRequest Config.ex_router_config (Err "unused") 100 (incoming_request 65)) as [req|e] eqn:E;
    [vm_compute in E; discriminate E|].
  exists e. split; [reflexivity|].
  apply (parseRequest_rejects _ _ _ _ _ E).
Defined.
