(* ===== verification/Sse.v ===== *)
(** * The response stream: JSON payloads and server-sent events

    The structs that [src/internal/gateway/http.go] writes, the text that
    [encoding/json] gives them (HTML escaping on, as [json.Marshal] does), and
    the frames of [writeSSE] and [writeDone].  A frame never holds a line break
    of its own, so a client that reads lines sees exactly the events written. *)

From Stdlib Require Import Ascii String.
From stdpp Require Import pretty.
From S2P Require Import Prelude GoFloat GoString Model Parse.

#[local] Open Scope Z_scope.

(** ** JSON strings *)
Definition backslash : ascii := byte_of 92.
Definition quote : ascii := byte_of 34.
Definition lf : ascii := byte_of 10.
Definition cr : ascii := byte_of 13.

(** The bytes below 0x80 written as they are. *)
Definition html_safe (v : Z) : bool :=
  (32 <=? v) && negb ((v =? 34) || (v =? 38) || (v =? 60) || (v =? 62) || (v =? 92)).

Definition hex4 (v : Z) : bytes :=
  [hex_digit (v / 4096 mod 16); hex_digit (v / 256 mod 16); hex_digit (v / 16 mod 16);
   hex_digit (v mod 16)].

Definition escape_u (v : Z) : bytes := backslash :: byte_of 117 :: hex4 v.

Definition escape_byte (v : Z) : bytes :=
  if (v =? 92) || (v =? 34) then [backslash; byte_of v]
  else if v =? 8 then [backslash; byte_of 98]
  else if v =? 12 then [backslash; byte_of 102]
  else if v =? 10 then [backslash; byte_of 110]
  else if v =? 13 then [backslash; byte_of 114]
  else if v =? 9 then [backslash; byte_of 116]
  else escape_u v.

(** One code point [r] of the string, with the bytes [seg] that spell it. *)
Definition json_rune (rs : Z * bytes) : bytes :=
  let '(r, seg) := rs in
  if r <? 128 then if html_safe r then seg else escape_byte r
  else if (r =? RuneError) && (length seg =? 1)%nat then escape_u RuneError
  else if (r =? 8232) || (r =? 8233) then escape_u r
  else seg.

Definition json_body (s : string) : bytes := mjoin (json_rune <$> runes (to_bytes s)).

Definition json_string (s : string) : string := of_bytes (quote :: json_body s ++ [quote]).

(** Objects and arrays, without white space. *)
Definition json_field (name value : string) : string := json_string name +:+ ":" +:+ value.
Definition json_object (fields : list string) : string := "{" +:+ Join fields "," +:+ "}".
Definition json_array (items : list string) : string := "[" +:+ Join items "," +:+ "]".

(** ** The payloads *)
Record streamChoice := {
  Index : Z;
  Delta : gmap string string;
  sc_FinishReason : option FinishReason;
}.

Record streamPayload := {
  sp_ID : string;
  Object : string;
  Created : Z;
  sp_Model : string;
  Choices : list streamChoice;
}.

(** A map is written with its keys in order. *)
Definition json_map (m : gmap string string) : string :=
  json_object ((fun kv => json_field kv.1 (json_string kv.2)) <$>
    sort_by_key fst (map_to_list m)).

Definition json_choice (c : streamChoice) : string :=
  json_object [json_field "index" (itoa (Index c)); json_field "delta" (json_map (Delta c));
    json_field "finish_reason" (from_option json_string "null" (sc_FinishReason c))].

Definition json_payload (p : streamPayload) : string :=
  json_object [json_field "id" (json_string (sp_ID p)); json_field "object" (json_string (Object p));
    json_field "created" (itoa (Created p)); json_field "model" (json_string (sp_Model p));
    json_field "choices" (json_array (json_choice <$> Choices p))].

Definition json_error (e : apiError) : string :=
  json_object [json_field "error" (json_object
    [json_field "message" (json_string (ae_Message e)); json_field "type" (json_string (ae_Type e));
     json_field "code" (json_string (ae_Code e));
     json_field "request_id" (json_string (ae_RequestID e))])].

(** ** Events *)
Inductive sse :=
| SSEToken (p : streamPayload)
| SSECompletion (p : streamPayload)
| SSEError (e : apiError)
| SSEDone.

Definition frame (event data : string) : string :=
  "event: " +:+ event +:+ String lf ("data: " +:+ data +:+ String lf (String lf "")).

Definition render (e : sse) : string :=
  match e with
  | SSEToken p => frame "token" (json_payload p)
  | SSECompletion p => frame "completion" (json_payload p)
  | SSEError e => frame "error" (json_error e)
  | SSEDone => "data: [DONE]" +:+ String lf (String lf "")
  end.

Definition render_all (es : list sse) : string := foldr String.append "" (render <$> es).

(** The lines a client reads, without their line feeds. *)
Definition frame_lines (event data : string) : list string :=
  ["event: " +:+ event; "data: " +:+ data; ""].

Definition lines_of (e : sse) : list string :=
  match e with
  | SSEToken p => frame_lines "token" (json_payload p)
  | SSECompletion p => frame_lines "completion" (json_payload p)
  | SSEError e => frame_lines "error" (json_error e)
  | SSEDone => ["data: [DONE]"; ""]
  end.

(** Splitting at line feeds; the text after the last one is a partial line. *)
Fixpoint split_lines (cur : bytes) (l : bytes) : list string :=
  match l with
  | [] => []
  | a :: l => if Ascii.eqb a lf then of_bytes cur :: split_lines [] l
              else split_lines (cur ++ [a]) l
  end.

Definition scan_lines (s : string) : list string := split_lines [] (to_bytes s).

(** ** No payload breaks its line *)
Definition inline_byte (a : ascii) : bool := negb (Ascii.eqb a lf) && negb (Ascii.eqb a cr).
Definition inline (s : string) : Prop := Forall (fun a => inline_byte a = true) (to_bytes s).

Lemma inline_app (s t : string) : inline (s +:+ t) <-> inline s /\ inline t.
Proof. unfold inline. by rewrite to_bytes_app, Forall_app. Qed.

Lemma byte_of_val (a : ascii) : byte_of (byte_val a) = a.
Proof.
  unfold byte_of, byte_val. pose proof (N_ascii_bounded a).
  rewrite Z.mod_small, N2Z.id by lia. apply ascii_N_embedding.
Qed.

Lemma inline_byte_val (a : ascii) : byte_val a <> 10 -> byte_val a <> 13 -> inline_byte a = true.
Proof.
  intros H1 H2. unfold inline_byte. rewrite andb_true_iff, !negb_true_iff, !Ascii.eqb_neq.
  split; intros ->; [by apply H1|by apply H2].
Qed.

Lemma high_inline (a : ascii) : 14 <= byte_val a -> inline_byte a = true.
Proof. intros H. apply inline_byte_val; lia. Qed.

Lemma ascii_segments (P : ascii -> bool) :
  forallb P (byte_of <$> (Z.of_nat <$> seq 0 128)) = true ->
  forall a, byte_val a < 128 -> P a = true.
Proof.
  intros H a Ha. rewrite forallb_forall in H. apply H.
  rewrite <- (byte_of_val a). apply in_map, in_map_iff.
  assert (0 <= byte_val a) by (unfold byte_val; lia).
  exists (Z.to_nat (byte_val a)). split; [lia|]. apply in_seq. lia.
Qed.

Lemma json_rune_ascii_inline (a : ascii) :
  byte_val a < 128 -> forallb inline_byte (json_rune (byte_val a, [a])) = true.
Proof. apply (ascii_segments (fun a => forallb inline_byte (json_rune (byte_val a, [a])))). vm_compute. reflexivity. Qed.

Lemma json_rune_inline (rs : Z * bytes) :
  segment_ok rs -> Forall (fun a => inline_byte a = true) (json_rune rs).
Proof.
  intros [(a & -> & Ha) | [Hr Hs]].
  - by apply Forall_forallb, json_rune_ascii_inline.
  - destruct rs as [r seg]; simpl in *. case_if; [bool_facts; lia|].
    assert (Forall (fun a => inline_byte a = true) seg) as Hseg
      by (eapply Forall_impl; [|exact Hs]; intros b Hb; apply high_inline; simpl in Hb; lia).
    destruct (_ && _); [by apply Forall_forallb; vm_compute|].
    destruct (r =? 8232) eqn:E1; bool_facts; [subst; by apply Forall_forallb; vm_compute|].
    destruct (r =? 8233) eqn:E2; bool_facts; [subst; by apply Forall_forallb; vm_compute|done].
Qed.

Lemma json_string_inline (s : string) : inline (json_string s).
Proof.
  unfold inline, json_string. rewrite String.list_ascii_of_string_of_list_ascii.
  constructor; [done|]. apply Forall_app. split; [|by repeat constructor].
  unfold json_body. pose proof (runes_shape (to_bytes s)) as Hr.
  induction Hr as [|rs l Hrs _ IH]; [constructor|]. csimpl. apply Forall_app.
  split; [by apply json_rune_inline|exact IH].
Qed.

Lemma itoa_inline (z : Z) : inline (itoa z).
Proof.
  assert (forall n s, inline s -> inline (pretty_N_go n s)) as Hgo.
  { intros n. induction n as [n IH] using (well_founded_induction N.lt_wf_0). intros s Hs.
    assert (n = 0 \/ 0 < n)%N as [->|Hn] by lia; [by rewrite pretty_N_go_0|].
    rewrite pretty_N_go_step by done. apply IH; [apply N.div_lt; lia|].
    constructor; [|done]. unfold pretty_N_char. by repeat case_match. }
  destruct z as [|p|p]; [by repeat constructor| |].
  - rewrite itoa_pos. apply Hgo. constructor.
  - change (itoa (Z.neg p)) with ("-" +:+ pretty_N_go (N.pos p) ""). apply inline_app.
    split; [by repeat constructor|]. apply Hgo. constructor.
Qed.

Lemma Join_inline (l : list string) : Forall inline l -> inline (Join l ",").
Proof.
  induction 1 as [|s l Hs Hl IH]; [constructor|]. destruct l as [|s' l]; [done|].
  change (Join (s :: s' :: l) ",") with (s +:+ "," +:+ Join (s' :: l) ",").
  rewrite !inline_app. split; [done|]. split; [by repeat constructor|done].
Qed.

Lemma json_field_inline (n v : string) : inline v -> inline (json_field n v).
Proof.
  intros Hv. unfold json_field. rewrite !inline_app. split; [apply json_string_inline|].
  by split; [repeat constructor|].
Qed.

Lemma json_object_inline (fs : list string) : Forall inline fs -> inline (json_object fs).
Proof.
  intros H%Join_inline. unfold json_object. rewrite !inline_app.
  split; [by repeat constructor|]. by split; [|repeat constructor].
Qed.

Lemma json_array_inline (fs : list string) : Forall inline fs -> inline (json_array fs).
Proof.
  intros H%Join_inline. unfold json_array. rewrite !inline_app.
  split; [by repeat constructor|]. by split; [|repeat constructor].
Qed.

#[local] Hint Resolve json_string_inline itoa_inline json_object_inline json_array_inline : go.

(** A list of fields is inline when its values are. *)
Ltac inline_fields :=
  repeat first [apply Forall_nil_2 | apply Forall_cons_2; [apply json_field_inline; auto with go|]].

Lemma json_map_inline (m : gmap string string) : inline (json_map m).
Proof.
  unfold json_map. apply json_object_inline, Forall_fmap, Forall_true. intros [k v].
  apply json_field_inline. auto with go.
Qed.

Lemma json_choice_inline (c : streamChoice) : inline (json_choice c).
Proof.
  unfold json_choice. apply json_object_inline. inline_fields; [apply json_map_inline|].
  destruct (sc_FinishReason c); simpl; [auto with go|by repeat constructor].
Qed.

Lemma json_payload_inline (p : streamPayload) : inline (json_payload p).
Proof.
  unfold json_payload. apply json_object_inline. inline_fields.
  apply json_array_inline, Forall_fmap, Forall_true. intros c. apply json_choice_inline.
Qed.

Lemma json_error_inline (e : apiError) : inline (json_error e).
Proof.
  unfold json_error. apply json_object_inline. inline_fields.
  apply json_object_inline. inline_fields.
Qed.

(** ** Lines *)
Lemma split_lines_app (cur : bytes) (s : string) (rest : bytes) :
  inline s -> split_lines cur (to_bytes s ++ lf :: rest) = of_bytes (cur ++ to_bytes s) :: split_lines [] rest.
Proof.
  unfold inline. revert cur. induction s as [|a s IH]; intros cur Hs; simpl.
  - by rewrite app_nil_r.
  - apply list.Forall_cons in Hs as [Ha Hs]. unfold inline_byte in Ha. bool_facts.
    rewrite H, IH by done. by rewrite <- app_assoc.
Qed.

Lemma to_bytes_line (s t : string) : to_bytes (s +:+ String lf t) = to_bytes s ++ lf :: to_bytes t.
Proof. by rewrite to_bytes_app. Qed.

Lemma split_frame (event data : string) (rest : bytes) :
  inline event -> inline data ->
  split_lines [] (to_bytes (frame event data) ++ rest) = frame_lines event data ++ split_lines [] rest.
Proof.
  intros He Hd. unfold frame, frame_lines.
  assert (inline ("event: " +:+ event)) as He' by (apply inline_app; split; [by repeat constructor|done]).
  assert (inline ("data: " +:+ data)) as Hd' by (apply inline_app; split; [by repeat constructor|done]).
  rewrite (string_app_assoc "event: "), to_bytes_line, <- app_assoc, <- app_comm_cons.
  rewrite split_lines_app by done. rewrite (string_app_assoc "data: "), to_bytes_line, <- app_assoc.
  rewrite <- app_comm_cons, split_lines_app by done.
  rewrite !app_nil_l, !String.string_of_list_ascii_of_string. done.
Qed.

(** ** Reading a JSON string back *)
Definition hex_value (a : ascii) : Z :=
  let v := byte_val a in if v <? 58 then v - 48 else v - 87.

(** The UTF-8 bytes of the code points that the writer escapes. *)
Definition utf8 (r : Z) : bytes :=
  if r <? 128 then [byte_of r]
  else if r <? 2048 then [byte_of (192 + r / 64); byte_of (128 + r mod 64)]
  else [byte_of (224 + r / 4096); byte_of (128 + r / 64 mod 64); byte_of (128 + r mod 64)].

Definition unescape (a : ascii) : bytes :=
  let v := byte_val a in
  if v =? 98 then [byte_of 8] else if v =? 102 then [byte_of 12]
  else if v =? 110 then [byte_of 10] else if v =? 114 then [byte_of 13]
  else if v =? 116 then [byte_of 9] else [a].

(** The text up to the closing quote. *)
Fixpoint json_unquote (l : bytes) : option bytes :=
  match l with
  | [] => None
  | a :: l =>
      if Ascii.eqb a quote then Some []
      else if Ascii.eqb a backslash then
        match l with
        | u :: l' =>
            if byte_val u =? 117 then
              match l' with
              | h1 :: h2 :: h3 :: h4 :: l'' =>
                  app (utf8 (((hex_value h1 * 16 + hex_value h2) * 16 + hex_value h3) * 16
                             + hex_value h4)) <$> json_unquote l''
              | _ => None
              end
            else app (unescape u) <$> json_unquote l'
        | [] => None
        end
      else cons a <$> json_unquote l
  end.

(** Valid UTF-8: no byte decodes to the replacement of an invalid one. *)
Definition valid_segment (rs : Z * bytes) : bool := negb ((rs.1 =? RuneError) && (length rs.2 =? 1)%nat).
Definition valid_utf8 (s : string) : bool := forallb valid_segment (runes (to_bytes s)).

Lemma unquote_ascii (a : ascii) (rest : bytes) :
  byte_val a < 128 ->
  json_unquote (json_rune (byte_val a, [a]) ++ rest) = cons a <$> json_unquote rest.
Proof.
  intros Ha. destruct a as [[] [] [] [] [] [] [] []]; try (exfalso; by vm_compute in Ha); reflexivity.
Qed.

Lemma unquote_raw (seg rest : bytes) :
  Forall (fun a => 128 <= byte_val a) seg ->
  json_unquote (seg ++ rest) = app seg <$> json_unquote rest.
Proof.
  induction 1 as [|a seg Ha _ IH]; simpl; [by destruct (json_unquote rest)|].
  assert (forall c, byte_val c < 128 -> Ascii.eqb a c = false) as Hne.
  { intros c Hc. apply Ascii.eqb_neq. intros ->. lia. }
  rewrite !Hne by done. rewrite IH. by destruct (json_unquote rest).
Qed.

(** The two line separators have one spelling. *)
Definition separator_ok (rs : Z * bytes) : Prop :=
  (rs.1 = 8232 -> rs.2 = utf8 8232) /\ (rs.1 = 8233 -> rs.2 = utf8 8233).

Lemma decode3_separator (b0 b1 b2 : ascii) (r : Z) :
  decode3 b0 b1 b2 = Some r -> separator_ok (r, [b0; b1; b2]).
Proof.
  unfold decode3. destruct (_ && _) eqn:E; [|done]. intros [= <-].
  rewrite !andb_true_iff, !in_range_true in E.
  assert (128 <= byte_val b1 <= 191) as H1 by (repeat case_match; lia).
  assert (forall v, byte_val b0 = 226 -> byte_val b1 = 128 -> byte_val b2 = v ->
    [b0; b1; b2] = [byte_of 226; byte_of 128; byte_of v]) as Hb.
  { intros v H0 H1' H2. by rewrite <- (byte_of_val b0), <- (byte_of_val b1), <- (byte_of_val b2), H0, H1', H2. }
  unfold separator_ok. cbn [fst snd]. utf8_arith. split; intros Hr; [apply (Hb 168)|apply (Hb 169)]; lia.
Qed.

Lemma decode_rune_separator (b0 : ascii) (l : bytes) : separator_ok (decode_rune b0 l).
Proof.
  unfold decode_rune. destruct (byte_val b0 <? 128) eqn:E; bool_facts.
  { split; simpl; lia. }
  repeat case_match; try (split; done).
  - split; simpl; intros ->; match goal with H : decode2 _ _ = Some _ |- _ => revert H end;
      unfold decode2; destruct (_ && _) eqn:E2; try done; intros [= Hr];
      rewrite !andb_true_iff, !in_range_true in E2; revert Hr; utf8_arith; lia.
  - by apply decode3_separator.
  - split; simpl; intros ->; match goal with H : decode4 _ _ _ _ = Some _ |- _ => revert H end;
      unfold decode4; destruct (_ && _) eqn:E2; try done; intros [= Hr];
      rewrite !andb_true_iff, !in_range_true in E2; revert Hr;
      destruct (byte_val b0 =? 240) eqn:E0, (byte_val b0 =? 244) eqn:E1; bool_facts; utf8_arith; lia.
Qed.

Lemma runes_separator (l : bytes) : Forall separator_ok (runes l).
Proof.
  unfold runes. generalize (length l) as n. intros n. revert l.
  induction n as [|n IH]; intros [|b0 l]; try constructor; [apply decode_rune_separator|apply IH].
Qed.

Lemma unquote_rune (rs : Z * bytes) (rest : bytes) :
  segment_ok rs -> separator_ok rs -> valid_segment rs = true ->
  json_unquote (json_rune rs ++ rest) = app rs.2 <$> json_unquote rest.
Proof.
  intros [(a & -> & Ha) | [Hr Hs]] [H1 H2] Hv; [by apply unquote_ascii|].
  destruct rs as [r seg]. unfold valid_segment in Hv. apply negb_true_iff in Hv.
  cbn [fst snd] in *. unfold json_rune. rewrite Hv. clear Hv.
  destruct (r <? 128) eqn:E; bool_facts; [lia|].
  destruct (r =? 8232) eqn:E1; bool_facts.
  { subst. rewrite H1 by done. reflexivity. }
  destruct (r =? 8233) eqn:E2; bool_facts.
  { subst. rewrite H2 by done. reflexivity. }
  by apply unquote_raw.
Qed.

Lemma unquote_body (l : list (Z * bytes)) (rest : bytes) :
  Forall segment_ok l -> Forall separator_ok l -> forallb valid_segment l = true ->
  json_unquote (mjoin (json_rune <$> l) ++ quote :: rest) = Some (mjoin l.*2).
Proof.
  induction l as [|rs l IH]; intros H1 H2 H3; [done|].
  apply list.Forall_cons in H1 as [? ?], H2 as [? ?]. cbn [forallb] in H3. bool_facts.
  csimpl. rewrite <- (assoc_L (++)), unquote_rune, IH by done. done.
Qed.

(** A client that reads the response line by line sees exactly the lines of the
    events written, in order: no payload breaks its line. *)
Lemma scan_render (es : list sse) : scan_lines (render_all es) = mjoin (lines_of <$> es).
Proof.
  unfold scan_lines. induction es as [|e es IH]; [done|].
  change (render_all (e :: es)) with (render e +:+ render_all es).
  csimpl. rewrite to_bytes_app. destruct e; simpl render; unfold lines_of.
  - rewrite split_frame, IH; [done|by repeat constructor|apply json_payload_inline].
  - rewrite split_frame, IH; [done|by repeat constructor|apply json_payload_inline].
  - rewrite split_frame, IH; [done|by repeat constructor|apply json_error_inline].
  - simpl. by rewrite IH.
Qed.

(** A client of the event-stream format: an [event:] line names the event, a
    [data:] line gives its data, and an empty line dispatches it; the name of an
    event without one is [message]. *)
Definition strip (prefix s : string) : option string :=
  if String.prefix prefix s
  then Some (substring (String.length prefix) (String.length s - String.length prefix) s) else None.

Fixpoint dispatch (event data : string) (lines : list string) : list (string * string) :=
  match lines with
  | [] => []
  | line :: lines =>
      if (line =? "")%string
      then (if (event =? "")%string then "message" else event, data) :: dispatch "" "" lines
      else match strip "event: " line with
           | Some name => dispatch name data lines
           | None => match strip "data: " line with
                     | Some value => dispatch event (data +:+ value) lines
                     | None => dispatch event data lines
                     end
           end
  end.

(** The event that a client should see. *)
Definition event_of (e : sse) : string * string :=
  match e with
  | SSEToken p => ("token", json_payload p)
  | SSECompletion p => ("completion", json_payload p)
  | SSEError e => ("error", json_error e)
  | SSEDone => ("message", "[DONE]")
  end.

Lemma substring_full (s : string) : substring 0 (String.length s) s = s.
Proof. induction s as [|a s IH]; [done|]. simpl. by rewrite IH. Qed.

Lemma strip_prefix (prefix s : string) : strip prefix (prefix +:+ s) = Some s.
Proof.
  unfold strip. assert (String.prefix prefix (prefix +:+ s) = true) as ->.
  { induction prefix as [|a p IH]; [by destruct s|]. simpl. by destruct (ascii_dec a a). }
  f_equal. induction prefix as [|a p IH]; [|exact IH].
  simpl. rewrite Nat.sub_0_r. apply substring_full.
Qed.

Lemma dispatch_event (name event data : string) (lines : list string) :
  dispatch event data (("event: " +:+ name) :: lines) = dispatch name data lines.
Proof. cbn [dispatch]. rewrite strip_prefix. done. Qed.

Lemma dispatch_data (value event data : string) (lines : list string) :
  dispatch event data (("data: " +:+ value) :: lines) = dispatch event (data +:+ value) lines.
Proof. cbn [dispatch]. rewrite strip_prefix. done. Qed.

Lemma dispatch_frame (event data : string) (lines : list string) : event <> "" ->
  dispatch "" "" (frame_lines event data ++ lines) = (event, data) :: dispatch "" "" lines.
Proof.
  intros Hn. unfold frame_lines. rewrite <- app_comm_cons, dispatch_event, <- app_comm_cons, dispatch_data.
  cbn [app dispatch]. apply String.eqb_neq in Hn. by rewrite Hn.
Qed.

(** ** Properties *)

(** C36: The written stream is read back: a client of the event-stream format sees
    exactly the events written, in order, each with its name and its payload,
    whatever bytes the tokens and the error messages contain. *)
Theorem sse_roundtrip (es : list sse) :
  dispatch "" "" (scan_lines (render_all es)) = event_of <$> es.
Proof.
  rewrite scan_render. induction es as [|e es IH]; [done|]. csimpl.
  destruct e; cbn [lines_of event_of]; [by rewrite dispatch_frame, IH..|].
  change ("data: [DONE]") with ("data: " +:+ "[DONE]"). rewrite <- app_comm_cons, dispatch_data. cbn. by rewrite <- IH.
Qed.

(** The text of a JSON string gives back the string, for valid UTF-8: generated
    tokens reach the client as the worker sent them. *)
Theorem json_string_roundtrip (s : string) (rest : bytes) :
  valid_utf8 s = true ->
  exists l, to_bytes (json_string s) ++ rest = quote :: l /\
    json_unquote l = Some (to_bytes s).
Proof.
  intros Hv. exists (json_body s ++ quote :: rest). split.
  - unfold json_string. rewrite String.list_ascii_of_string_of_list_ascii.
    by rewrite <- app_comm_cons, <- app_assoc.
  - unfold json_body. rewrite unquote_body; [by rewrite runes_concat| | |done].
    + apply runes_shape.
    + apply runes_separator.
Qed.

(** ** Witness: quotes, a line feed and a two-byte character *)
Definition ex_text : string := of_bytes (byte_of <$> [104; 34; 10; 92; 195; 169]).

Lemma json_string_roundtrip_witness :
  exists l, to_bytes (json_string ex_text) ++ [] = quote :: l /\ json_unquote l = Some (to_bytes ex_text).
Proof. apply (json_string_roundtrip ex_text []). vm_compute. reflexivity. Defined.
