(* ===== verification/Stream.v ===== *)
(** * One generation attempt: the streaming half of [src/internal/gateway/http.go]

    [receiveAttempt] turns what the worker's stream returns into attempt events
    and delivers them over a bounded channel; [handleChat] reads the first one
    and [forwardCommitted] the rest, and they write the response.  The loop
    bodies are functions; the two goroutines with their channel, the two
    contexts and the slow-client timer are a transition system. *)

From stdpp Require Import pretty.
From S2P Require Import Prelude GoFloat GoString Model Examples Wire Protocol Parse Sse.
From S2P Require Metrics.

#[local] Open Scope Z_scope.
#[local] Open Scope go_scope.

(** The errors that reach the gateway.  A gRPC error is a status; an error of
    another package is known by its text. *)
Inductive GoError :=
| EEOF
| EUnexpectedEOF
| ECanceled
| EDeadlineExceeded
| EStatus (code : Z) (message : string)
| EProtocol (e : ProtocolError)
| EIdentifiers
| EIndex (got expected : Z)
| ENoText
| EFinalText
| EOther (message : string).

Definition codes_Internal : Z := 13.

(** What the handler writes to the client.  Of a token the write may fail; the
    failed write is not part of the list. *)
Inductive http_event :=
| WriteJSON (status : Z) (fields : list (string * string))
| WriteAPIError (e : apiError)
| WriteStreamHeaders (requestID : string)
| WriteSSE (e : sse).

(** ** Receiving *)
Inductive attemptEvent :=
| EvChunk (chunk : Chunk)
| EvErr (err : GoError).

Definition validateChunk (chunk : Chunk) (request : Request) (workerID : string) (expected : Z) :
  result GoError unit :=
  _ ← reject_if (negb (c_RequestID chunk =? r_ID request)%string
                 || negb (c_AttemptID chunk =? r_AttemptID request)%string
                 || negb (c_WorkerID chunk =? workerID)%string) EIdentifiers;
  _ ← reject_if (negb (TokenIndex chunk =? expected)) (EIndex (TokenIndex chunk) expected);
  _ ← reject_if (negb (Final chunk) && (TokenText chunk =? "")%string) ENoText;
  reject_if (Final chunk && negb (TokenText chunk =? "")%string) EFinalText.

Section Attempt.
Context {T : TimestampPb}.

(** What [stream.Recv] returns: a message at a clock reading, or an error. *)
Inductive recv_outcome :=
| Received (now : Time) (wire : option pb_GenerateChunk)
| RecvErr (e : GoError).

Section Request.
Context (request : Request) (workerID : string).

Definition lift_protocol {A} (r : result ProtocolError A) : result GoError A :=
  match r with Ok a => Ok a | Err e => Err (EProtocol e) end.

(** The body of the loop: the event to deliver and, when the loop goes on after
    it, the next expected index. *)
Definition receive_step (expected : Z) (o : recv_outcome) : attemptEvent * option Z :=
  match o with
  | RecvErr EEOF => (EvErr EUnexpectedEOF, None)
  | RecvErr e => (EvErr e, None)
  | Received now wire =>
      match (chunk ← lift_protocol (ChunkFromProto now wire);
             _ ← validateChunk chunk request workerID expected; Ok chunk) with
      | Err e => (EvErr e, None)
      | Ok chunk =>
          if Final chunk then (EvChunk chunk, None)
          else (EvChunk chunk, Some (expected +u32 1))
      end
  end.

(** The events of the outcomes received, as long as the loop goes on. *)
Fixpoint receiveAttempt (expected : Z) (outcomes : list recv_outcome) : list attemptEvent :=
  match outcomes with
  | [] => []
  | o :: outcomes =>
      let '(e, next) := receive_step expected o in
      e :: match next with Some n => receiveAttempt n outcomes | None => [] end
  end.

(** ** Writing *)
Definition unix_seconds (t : Time) : Z := t / Second - 62135596800.

Definition chat_payload (created : Z) (choice : streamChoice) : streamPayload :=
  {| sp_ID := "chatcmpl-" +:+ r_ID request; Object := "chat.completion.chunk";
     Created := created; sp_Model := r_Model request; Choices := [choice] |}.

Definition token_payload (created : Z) (chunk : Chunk) : streamPayload :=
  chat_payload created {| Index := 0; Delta := {["content" := TokenText chunk]};
                          sc_FinishReason := None |}.

Definition completion_payload (created : Z) (chunk : Chunk) : streamPayload :=
  chat_payload created {| Index := 0; Delta := ∅; sc_FinishReason := Some (Reason chunk) |}.

(** The message text of an error is the error's own. *)
Context (error_text : GoError -> string).

Definition stream_error (message : string) : apiError :=
  {| ae_Status := StatusOK; ae_RequestID := r_ID request; ae_Type := "upstream_error";
     ae_Code := "worker_stream_failed"; ae_Message := message |}.

Definition terminal_generation_error : string := "worker reported terminal generation error".

(** What one step of the handler writes, counts, and whether the loop goes on. *)
Record effect := { writes : list http_event; counts : list Metrics.op; continues : bool }.

Definition elapsed (started now : Time) : float64 := dur_seconds (time_sub now started).

Definition complete (started now : Time) (chunk : Chunk) : effect :=
  {| writes := [WriteSSE (SSECompletion (completion_payload (unix_seconds now) chunk));
                WriteSSE SSEDone];
     counts := [Metrics.OObserve "aetherserve_end_to_end_seconds" (elapsed started now)];
     continues := false |}.

Definition fail_stream (message : string) : effect :=
  {| writes := [WriteSSE (SSEError (stream_error message)); WriteSSE SSEDone];
     counts := [Metrics.OInc "aetherserve_midstream_failures_total"];
     continues := false |}.

Definition abandon : effect :=
  {| writes := []; counts := [Metrics.OInc "aetherserve_client_cancellations_total"];
     continues := false |}.

(** [writeToken]; [write_ok] says whether the client's connection took it. *)
Definition write_token (now : Time) (write_ok : bool) (chunk : Chunk) : effect :=
  if write_ok
  then {| writes := [WriteSSE (SSEToken (token_payload (unix_seconds now) chunk))];
          counts := [Metrics.OInc "aetherserve_output_tokens_total"]; continues := true |}
  else abandon.

(** One iteration of [forwardCommitted]: an event, the closed channel, or the
    end of the request's context. *)
Inductive arrival :=
| Arrived (e : attemptEvent)
| ChannelClosed
| ContextDone.

Definition forward_step (started now : Time) (write_ok : bool) (a : arrival) : effect :=
  match a with
  | ChannelClosed => fail_stream "worker stream closed without completion"
  | Arrived (EvErr e) => fail_stream (error_text e)
  | Arrived (EvChunk chunk) =>
      if Final chunk then
        if (Reason chunk =? FinishError)%string then fail_stream terminal_generation_error
        else complete started now chunk
      else write_token now write_ok chunk
  | ContextDone => abandon
  end.

(** The reading of the first event: the error that keeps the attempt
    uncommitted, or the first chunk. *)
Definition first_event (e : option attemptEvent) : result GoError Chunk :=
  match e with
  | None => Err EUnexpectedEOF
  | Some (EvErr e) => Err e
  | Some (EvChunk chunk) =>
      if Final chunk && (Reason chunk =? FinishError)%string
      then Err (EStatus codes_Internal terminal_generation_error)
      else Ok chunk
  end.

Definition prepend (ws : list http_event) (f : effect) : effect :=
  {| writes := ws ++ writes f; counts := counts f; continues := continues f |}.

(** The commit: headers, then the first chunk. *)
Definition commit_step (started now : Time) (write_ok : bool) (chunk : Chunk) : effect :=
  prepend [WriteStreamHeaders (r_ID request)]
    (if Final chunk then complete started now chunk
     else
       let f := write_token now write_ok chunk in
       if continues f
       then {| writes := writes f;
               counts := counts f ++ [Metrics.OObserve "aetherserve_ttft_seconds" (elapsed started now)];
               continues := true |}
       else f).

(** A whole execution of the loop is a finite sequence of iterations: those that
    go on, and one that ends it. *)
Inductive arrivals :=
| ANext (now : Time) (write_ok : bool) (e : attemptEvent) (rest : arrivals)
| AEnd (now : Time) (a : arrival).

Definition join (f g : effect) : effect :=
  {| writes := writes f ++ writes g; counts := counts f ++ counts g; continues := continues g |}.

Fixpoint forwardCommitted (started : Time) (s : arrivals) : effect :=
  match s with
  | ANext now write_ok e rest =>
      let f := forward_step started now write_ok (Arrived e) in
      if continues f then join f (forwardCommitted started rest) else f
  | AEnd now a => forward_step started now false a
  end.

(** ** The two goroutines *)
Inductive receiver :=
| Receiving (expected : Z)
| Delivering (e : attemptEvent) (next : option Z)
| Stopped.

Inductive phase :=
| WaitFirst
| Forwarding
| Finished (uncommitted : option GoError).

Record pipe := {
  p_receiver : receiver;
  chan : list attemptEvent;
  ctx_done : bool;                 (* the context of the request *)
  cancelled : bool;                (* the context of the attempt, canceled on its own *)
  history : list recv_outcome;     (* what Recv returned so far *)
  consumed : list attemptEvent;    (* what the handler took from the channel *)
  p_phase : phase;
  out : list http_event;
  due : list Metrics.op;           (* the updates that the handler makes after its last write *)
  ops : list Metrics.op;           (* what both goroutines counted *)
}.

Definition open_pipe : pipe :=
  {| p_receiver := Receiving 0; chan := []; ctx_done := false; cancelled := false;
     history := []; consumed := []; p_phase := WaitFirst; out := []; due := []; ops := [] |}.

Definition is_finished (p : pipe) : bool :=
  match p_phase p with Finished _ => true | _ => false end.

(** The handler is through with the attempt. *)
Definition returned (p : pipe) : bool := is_finished p && (length (due p) =? 0)%nat.

Definition attempt_done (p : pipe) : bool := ctx_done p || cancelled p.

Definition set_receiver (p : pipe) (r : receiver) : pipe :=
  {| p_receiver := r; chan := chan p; ctx_done := ctx_done p; cancelled := cancelled p;
     history := history p; consumed := consumed p; p_phase := p_phase p; out := out p;
     due := due p; ops := ops p |}.

(** The deferred calls of [receiveAttempt]: cancel the attempt, close the channel
    (closed is [p_receiver = Stopped]). *)
Definition stop_receiver (p : pipe) : pipe :=
  {| p_receiver := Stopped; chan := chan p; ctx_done := ctx_done p; cancelled := true;
     history := history p; consumed := consumed p; p_phase := p_phase p; out := out p;
     due := due p; ops := ops p |}.

(** The timer of [deliverAttempt] fires: the event is lost. *)
Definition slow_client (p : pipe) : pipe :=
  {| p_receiver := Stopped; chan := chan p; ctx_done := ctx_done p; cancelled := true;
     history := history p; consumed := consumed p; p_phase := p_phase p; out := out p;
     due := due p; ops := ops p ++ [Metrics.OInc "aetherserve_slow_clients_total"] |}.

Definition received (p : pipe) (n : Z) (o : recv_outcome) : pipe :=
  let '(e, next) := receive_step n o in
  {| p_receiver := Delivering e next; chan := chan p; ctx_done := ctx_done p;
     cancelled := cancelled p; history := history p ++ [o]; consumed := consumed p;
     p_phase := p_phase p; out := out p;
     due := due p; ops := ops p |}.

Definition push (p : pipe) (e : attemptEvent) (next : option Z) : pipe :=
  let p' := {| p_receiver := p_receiver p; chan := chan p ++ [e]; ctx_done := ctx_done p;
               cancelled := cancelled p; history := history p; consumed := consumed p;
               p_phase := p_phase p; out := out p;
     due := due p; ops := ops p |} in
  match next with Some n => set_receiver p' (Receiving n) | None => stop_receiver p' end.

(** The handler writes, and ends or goes on; its updates come next, one by one.
    An end with none of them cancels the attempt at once. *)
Definition write (p : pipe) (took : list attemptEvent) (rest : list attemptEvent) (f : effect)
    (err : option GoError) : pipe :=
  {| p_receiver := p_receiver p; chan := rest; ctx_done := ctx_done p;
     cancelled := cancelled p || negb (continues f) && (length (counts f) =? 0)%nat;
     history := history p; consumed := consumed p ++ took;
     p_phase := if continues f then Forwarding else Finished err;
     out := out p ++ writes f; due := counts f; ops := ops p |}.

(** The next update; the deferred cancel comes after the last one. *)
Definition update (p : pipe) (o : Metrics.op) (rest : list Metrics.op) : pipe :=
  {| p_receiver := p_receiver p; chan := chan p; ctx_done := ctx_done p;
     cancelled := cancelled p || is_finished p && (length rest =? 0)%nat;
     history := history p; consumed := consumed p; p_phase := p_phase p; out := out p;
     due := rest; ops := ops p ++ [o] |}.

Definition cancel_attempt (b : bool) (p : pipe) : pipe :=
  {| p_receiver := p_receiver p; chan := chan p; ctx_done := ctx_done p; cancelled := cancelled p || b;
     history := history p; consumed := consumed p; p_phase := p_phase p; out := out p;
     due := due p; ops := ops p |}.

Definition no_effect : effect := {| writes := []; counts := []; continues := false |}.

(** A first token that cannot be written cancels the attempt before it is counted. *)
Definition take_first (p : pipe) (started now : Time) (write_ok : bool)
    (took rest : list attemptEvent) : pipe :=
  match first_event (head took) with
  | Err e => write p took rest no_effect (Some e)
  | Ok chunk =>
      let f := commit_step started now write_ok chunk in
      cancel_attempt (negb (continues f) && negb (Final chunk)) (write p took rest f None)
  end.

Definition close_context (p : pipe) : pipe :=
  {| p_receiver := p_receiver p; chan := chan p; ctx_done := true; cancelled := cancelled p;
     history := history p; consumed := consumed p; p_phase := p_phase p; out := out p;
     due := due p; ops := ops p |}.

Context (SSEBufferSize : nat) (started : Time).

Inductive step : pipe -> pipe -> Prop :=
| step_recv p n o :
    p_receiver p = Receiving n -> step p (received p n o)
| step_deliver p e next :
    p_receiver p = Delivering e next -> (length (chan p) < SSEBufferSize)%nat ->
    step p (push p e next)
| step_drop p e next :
    p_receiver p = Delivering e next -> attempt_done p = true ->
    step p (stop_receiver p)
| step_slow p e next :
    p_receiver p = Delivering e next ->
    step p (slow_client p)
| step_first p e rest now write_ok :
    p_phase p = WaitFirst -> due p = [] -> chan p = e :: rest ->
    step p (take_first p started now write_ok [e] rest)
| step_first_closed p now :
    p_phase p = WaitFirst -> due p = [] -> chan p = [] -> p_receiver p = Stopped ->
    step p (take_first p started now false [] [])
| step_forward p e rest now write_ok :
    p_phase p = Forwarding -> due p = [] -> chan p = e :: rest ->
    step p (write p [e] rest (forward_step started now write_ok (Arrived e)) None)
| step_forward_closed p now :
    p_phase p = Forwarding -> due p = [] -> chan p = [] -> p_receiver p = Stopped ->
    step p (write p [] [] (forward_step started now false ChannelClosed) None)
| step_forward_done p now :
    p_phase p = Forwarding -> due p = [] -> ctx_done p = true ->
    step p (write p [] (chan p) (forward_step started now false ContextDone) None)
| step_update p o rest :
    due p = o :: rest -> step p (update p o rest)
| step_context p :
    ctx_done p = false -> step p (close_context p).

Definition reachable (p : pipe) : Prop := rtc step open_pipe p.

(** The updates that are due, made one after the other. *)
Fixpoint settle (n : nat) (p : pipe) : pipe :=
  match n, due p with S n, o :: rest => settle n (update p o rest) | _, _ => p end.

Lemma settle_steps (n : nat) (p : pipe) : (n <= length (due p))%nat -> nsteps step n p (settle n p).
Proof.
  revert p. induction n as [|n IH]; intros p Hn; [by apply nsteps_O|]. cbn [settle].
  destruct (due p) as [|o rest] eqn:Hw; [cbn in Hn; lia|].
  eapply nsteps_l; [by apply step_update|]. apply IH. cbn in *. lia.
Qed.

(** ** The events of an attempt *)
Fixpoint goes_on (expected : Z) (outcomes : list recv_outcome) : option Z :=
  match outcomes with
  | [] => Some expected
  | o :: outcomes => n ← (receive_step expected o).2; goes_on n outcomes
  end.

Lemma receiveAttempt_snoc (n : Z) (h : list recv_outcome) (o : recv_outcome) :
  receiveAttempt n (h ++ [o]) =
  receiveAttempt n h ++ match goes_on n h with Some m => [(receive_step m o).1] | None => [] end.
Proof.
  revert n. induction h as [|o' h IH]; intros n; simpl.
  - destruct (receive_step n o) as [e [m|]]; done.
  - destruct (receive_step n o') as [e [m|]]; simpl; [by rewrite IH|done].
Qed.

Lemma goes_on_snoc (n : Z) (h : list recv_outcome) (o : recv_outcome) :
  goes_on n (h ++ [o]) = m ← goes_on n h; (receive_step m o).2.
Proof.
  revert n. induction h as [|o' h IH]; intros n; simpl.
  - by destruct (receive_step n o) as [e [m|]].
  - destruct (receive_step n o') as [e [m|]]; simpl; [apply IH|done].
Qed.

(** A chunk of this attempt: the identifiers match, and the text is that of a
    token or, in the final chunk, empty. *)
Record own_chunk (c : Chunk) (index : Z) : Prop := {
  oc_ids : c_RequestID c = r_ID request /\ c_AttemptID c = r_AttemptID request /\
    c_WorkerID c = workerID;
  oc_index : TokenIndex c = index;
  oc_text : Final c = false <-> TokenText c <> "";
}.

Lemma validateChunk_spec (c : Chunk) (n : Z) :
  validateChunk c request workerID n = Ok tt <-> own_chunk c n.
Proof.
  unfold validateChunk. split.
  - intros (? & ?%reject_if_ok & (? & ?%reject_if_ok & (? & ?%reject_if_ok & ?%reject_if_ok)%result_bind_ok)%result_bind_ok)%result_bind_ok.
    bool_facts. split; try done. destruct (Final c), (TokenText c =? "")%string eqn:E; bool_facts;
      simpl in *; naive_solver.
  - intros [(-> & -> & ->) -> Ht]. rewrite !String.eqb_refl, Z.eqb_refl. simpl.
    destruct (Final c), (TokenText c =? "")%string eqn:E; bool_facts; simpl; naive_solver.
Qed.

Lemma receive_step_chunk (n : Z) (o : recv_outcome) (c : Chunk) (next : option Z) :
  receive_step n o = (EvChunk c, next) ->
  own_chunk c n /\ next = if Final c then None else Some (n +u32 1).
Proof.
  unfold receive_step. destruct o as [now wire|[]]; try done.
  destruct (lift_protocol _) as [c'|]; simpl; [|done].
  destruct (validateChunk c' request workerID n) as [[]|] eqn:Hv; simpl; [|done].
  apply validateChunk_spec in Hv. destruct (Final c') eqn:Hf; intros [= <- <-]; by rewrite Hf.
Qed.

Lemma receive_step_err (n : Z) (o : recv_outcome) (e : GoError) (next : option Z) :
  receive_step n o = (EvErr e, next) -> next = None.
Proof.
  unfold receive_step. destruct o as [now wire|[]]; try by intros [= <- <-].
  destruct (_ ≫= _) as [c|e']; [case_if; done|by intros [= <- <-]].
Qed.

(** The [i]-th event, when it is a chunk, is the attempt's chunk of index [i];
    a chunk that is final, like an error, is the last event. *)
Lemma receiveAttempt_lookup (h : list recv_outcome) (n : Z) (i : nat) (ev : attemptEvent) :
  is_u32 n -> receiveAttempt n h !! i = Some ev ->
  match ev with
  | EvChunk c => own_chunk c (wrap_u32 (n + Z.of_nat i)) /\
      (Final c = true -> length (receiveAttempt n h) = S i)
  | EvErr _ => length (receiveAttempt n h) = S i
  end.
Proof.
  revert n i. induction h as [|o h IH]; intros n i Hn; [done|]. cbn [receiveAttempt].
  destruct (receive_step n o) as [e next] eqn:Hs. destruct i as [|i]; cbn [lookup list_lookup].
  - intros [= ->]. destruct ev as [c|e].
    + apply receive_step_chunk in Hs as [Hc ->]. rewrite Z.add_0_r, wrap_u32_id by done.
      split; [done|]. by intros ->.
    + apply receive_step_err in Hs as ->. done.
  - destruct next as [m|]; [|done]. intros Hi.
    assert (m = n +u32 1) as ->.
    { destruct e as [c|e]; [|by apply receive_step_err in Hs].
      apply receive_step_chunk in Hs as [_ Hs]. destruct (Final c); congruence. }
    apply IH in Hi; [|auto with go].
    assert (wrap_u32 (wrap_u32 (n + 1) + Z.of_nat i) = wrap_u32 (n + Z.of_nat (S i))) as Hw.
    { unfold wrap_u32. rewrite Z.add_mod_idemp_l by lia. f_equal. lia. }
    rewrite Hw in Hi. cbn [length]. destruct ev; [|lia]. destruct Hi as [? Hi]. split; [done|].
    intros ?. rewrite Hi; done.
Qed.

(** ** The invariant *)
Definition is_token (c : Chunk) (w : http_event) : Prop :=
  exists created, w = WriteSSE (SSEToken (token_payload created c)).

(** What the handler has written after it took the token chunks [cs]. *)
Definition tokens_out (cs : list Chunk) (ws : list http_event) : Prop :=
  Forall2 is_token cs ws /\ Forall (fun c => Final c = false) cs.

Definition ended (cs : list Chunk) (took : list attemptEvent) (tail : list http_event) : Prop :=
  tail = [] \/
  (exists e, tail = [WriteSSE (SSEError e); WriteSSE SSEDone]) \/
  (exists created fin, took = (EvChunk <$> cs) ++ [EvChunk fin] /\ Final fin = true /\
     Reason fin <> FinishError /\
     tail = [WriteSSE (SSECompletion (completion_payload created fin)); WriteSSE SSEDone]).

Definition headers : http_event := WriteStreamHeaders (r_ID request).

Definition phase_inv (p : pipe) : Prop :=
  match p_phase p with
  | WaitFirst => consumed p = [] /\ out p = []
  | Finished (Some _) => out p = []
  | Forwarding => exists cs ws, consumed p = EvChunk <$> cs /\ tokens_out cs ws /\
      out p = headers :: ws
  | Finished None => exists cs ws tail, EvChunk <$> cs `prefix_of` consumed p /\
      tokens_out cs ws /\ ended cs (consumed p) tail /\ out p = headers :: ws ++ tail
  end.

Definition events_inv (p : pipe) : Prop :=
  match p_receiver p with
  | Receiving n => consumed p ++ chan p = receiveAttempt 0 (history p) /\
      goes_on 0 (history p) = Some n
  | Delivering e next => (consumed p ++ chan p) ++ [e] = receiveAttempt 0 (history p) /\
      goes_on 0 (history p) = next
  | Stopped => consumed p ++ chan p `prefix_of` receiveAttempt 0 (history p)
  end.

Lemma events_inv_same (p p' : pipe) :
  p_receiver p' = p_receiver p -> history p' = history p ->
  consumed p' ++ chan p' = consumed p ++ chan p -> events_inv p -> events_inv p'.
Proof. unfold events_inv. by intros -> -> ->. Qed.

(** Every step but the receiver's own keeps the events. *)
Lemma write_events (p : pipe) (took rest : list attemptEvent) (f : effect) (err : option GoError) :
  chan p = took ++ rest -> events_inv p -> events_inv (write p took rest f err).
Proof. intros Hc. apply events_inv_same; try done. simpl. by rewrite <- app_assoc, Hc. Qed.

Lemma take_first_events (p : pipe) (st now : Time) (ok : bool) (took rest : list attemptEvent) :
  chan p = took ++ rest -> events_inv p -> events_inv (take_first p st now ok took rest).
Proof. intros Hc Hi. unfold take_first. destruct (first_event _); by apply write_events. Qed.

Lemma step_events (p p' : pipe) : step p p' -> events_inv p -> events_inv p'.
Proof.
  intros Hs Hi. destruct Hs as [p n o Hr|p e next Hr _|p e next Hr _|p e next Hr|p e rest now ok Hp Hw Hc|
    p now Hp Hw Hc Hr|p e rest now ok Hp Hw Hc|p now Hp Hw Hc Hr|p now Hp Hw Hd|p o rest Hw|p Hd].
  - unfold events_inv in *. rewrite Hr in Hi. destruct Hi as [Hi Hg]. unfold received.
    destruct (receive_step n o) as [e next] eqn:E. simpl.
    by rewrite receiveAttempt_snoc, goes_on_snoc, Hg, Hi; simpl; rewrite E.
  - unfold events_inv in *. rewrite Hr in Hi. destruct Hi as [Hi Hg].
    destruct next as [n|]; simpl; rewrite (assoc_L (++)); [done|by rewrite Hi].
  - unfold events_inv in *. rewrite Hr in Hi. destruct Hi as [Hi Hg]. simpl.
    rewrite <- Hi. by apply prefix_app_r.
  - unfold events_inv in *. rewrite Hr in Hi. destruct Hi as [Hi Hg]. simpl.
    rewrite <- Hi. by apply prefix_app_r.
  - by apply take_first_events.
  - by apply take_first_events.
  - by apply write_events.
  - by apply write_events.
  - by apply write_events.
  - by apply (events_inv_same p).
  - by apply (events_inv_same p).
Qed.

Lemma complete_ended (cs : list Chunk) (fin : Chunk) (st now : Time) :
  Final fin = true -> Reason fin <> FinishError ->
  ended cs ((EvChunk <$> cs) ++ [EvChunk fin]) (writes (complete st now fin)).
Proof. intros Hf Hr. right; right. by exists (unix_seconds now), fin. Qed.

Lemma tokens_snoc (cs : list Chunk) (ws : list http_event) (c : Chunk) (now : Time) :
  tokens_out cs ws -> Final c = false ->
  tokens_out (cs ++ [c]) (ws ++ writes (write_token now true c)).
Proof.
  intros [H1 H2] Hf. split; [apply Forall2_app; [done|]|apply Forall_app; split; [done|by constructor]].
  constructor; [|constructor]. by exists (unix_seconds now).
Qed.

(** An iteration of [forwardCommitted] on an event. *)
Lemma forward_event (p : pipe) (e : attemptEvent) (rest : list attemptEvent) (st now : Time) (ok : bool) :
  p_phase p = Forwarding -> phase_inv p ->
  phase_inv (write p [e] rest (forward_step st now ok (Arrived e)) None).
Proof.
  unfold phase_inv. intros -> (cs & ws & Hc & Ht & Ho).
  assert (forall f, continues f = false -> ended cs ((EvChunk <$> cs) ++ [e]) (writes f) ->
    phase_inv (write p [e] rest f None)) as Hend.
  { intros f Hf He. unfold phase_inv, write; simpl. rewrite Hf. exists cs, ws, (writes f).
    rewrite Hc, Ho. split_and!; try done. by apply prefix_app_r. }
  destruct e as [c|e]; cbn [forward_step]; [|apply Hend; [done|right; left; eexists; done]].
  destruct (Final c) eqn:Hf.
  - destruct (Reason c =? FinishError)%string eqn:Hr; bool_facts.
    + apply Hend; [done|right; left; eexists; done].
    + apply Hend; [done|]. by apply complete_ended.
  - destruct ok; [|apply Hend; [done|by left]].
    exists (cs ++ [c]), (ws ++ writes (write_token now true c)).
    rewrite fmap_app. split_and!; [by rewrite <- Hc|by apply tokens_snoc|]. simpl. by rewrite Ho.
Qed.

Lemma take_first_phase (p : pipe) (st now : Time) (ok : bool) (took rest : list attemptEvent) :
  (length took <= 1)%nat -> p_phase p = WaitFirst -> phase_inv p ->
  phase_inv (take_first p st now ok took rest).
Proof.
  intros Hl Hp Hi. unfold phase_inv in Hi. rewrite Hp in Hi. destruct Hi as [Hc Ho].
  unfold take_first. destruct took as [|e [|? ?]]; [by unfold phase_inv; simpl; rewrite Ho| |simpl in *; lia].
  destruct e as [c|e]; cbn [head first_event]; [|by unfold phase_inv; simpl; rewrite Ho].
  destruct (Final c && (Reason c =? FinishError)%string) eqn:E;
    [by unfold phase_inv; simpl; rewrite Ho|].
  unfold commit_step, phase_inv, write; simpl. rewrite Hc, Ho. simpl.
  destruct (Final c) eqn:Hf; simpl.
  - exists [], [], (writes (complete st now c)). split_and!;
      [apply prefix_nil|by split; constructor| |done].
    apply (complete_ended []); [done|]. simpl in E. by bool_facts.
  - unfold write_token. destruct ok; simpl.
    + exists [c], (writes (write_token now true c)). split_and!; try done.
      apply (tokens_snoc [] [] c now); [by split; constructor|done].
    + exists [], [], []. split_and!; [apply prefix_nil|by split; constructor|by left|done].
Qed.

Lemma step_phase (p p' : pipe) : step p p' -> phase_inv p -> phase_inv p'.
Proof.
  intros Hs Hi. destruct Hs as [p n o Hr|p e next Hr _|p e next Hr _|p e next Hr|p e rest now ok Hp Hw Hc|
    p now Hp Hw Hc Hr|p e rest now ok Hp Hw Hc|p now Hp Hw Hc Hr|p now Hp Hw Hd|p o rest Hw|p Hd]; try exact Hi.
  - unfold received. by destruct (receive_step n o).
  - by destruct next.
  - by apply take_first_phase; simpl; [lia| |].
  - by apply take_first_phase; simpl; [lia| |].
  - by apply forward_event.
  - unfold phase_inv in *. rewrite Hp in Hi. destruct Hi as (cs & ws & Hcs & Ht & Ho). simpl.
    rewrite Ho, app_nil_r, Hcs. exists cs, ws, (writes (fail_stream "worker stream closed without completion")).
    split_and!; try done. right; left. eexists; done.
  - unfold phase_inv in *. rewrite Hp in Hi. destruct Hi as (cs & ws & Hcs & Ht & Ho). simpl.
    rewrite Ho, app_nil_r, Hcs. exists cs, ws, []. rewrite !app_nil_r.
    split_and!; try done. by left.
Qed.

Lemma stream_reachable_inv (p : pipe) : reachable p -> events_inv p /\ phase_inv p.
Proof.
  intros Hr. eapply (rtc_invariant step (fun p => events_inv p /\ phase_inv p)); [| |exact Hr].
  - intros x y [] Hs. split; [by eapply step_events|by eapply step_phase].
  - by split.
Qed.

Lemma consumed_prefix (p : pipe) :
  events_inv p -> consumed p `prefix_of` receiveAttempt 0 (history p).
Proof.
  unfold events_inv. destruct (p_receiver p); intros H.
  - destruct H as [<- _]. by apply prefix_app_r.
  - destruct H as [<- _]. rewrite <- app_assoc. by apply prefix_app_r.
  - etrans; [|exact H]. by apply prefix_app_r.
Qed.

(** ** Every run ends *)

(** The steps that can still be made without a further Recv: an event costs its
    delivery, its write and an update; the first one has another update. *)
Definition effort (p : pipe) : nat := match p_phase p with WaitFirst => 3 | Forwarding => 2 | Finished _ => 0 end.

Definition budget (p : pipe) : nat :=
  (match p_receiver p with Delivering _ _ => 3 | _ => 0 end)
  + 2 * length (chan p) + length (due p) + effort p + (if ctx_done p then 0 else 1).

Lemma write_budget (p : pipe) (took rest : list attemptEvent) (f : effect) (err : option GoError) :
  due p = [] -> chan p = took ++ rest ->
  (length (counts f) + (if continues f then 2 else 0) < 2 * length took + effort p)%nat ->
  (budget (write p took rest f err) < budget p)%nat.
Proof.
  intros Hw Hc Ht. unfold budget. rewrite Hw, Hc, length_app. unfold effort at 1.
  cbn [write p_receiver chan due ctx_done p_phase length]. destruct (continues f); lia.
Qed.

Lemma take_first_budget (p : pipe) (st now : Time) (ok : bool) (took rest : list attemptEvent) :
  p_phase p = WaitFirst -> due p = [] -> chan p = took ++ rest ->
  (budget (take_first p st now ok took rest) < budget p)%nat.
Proof.
  intros Hp Hw Hc. unfold take_first. destruct (first_event (head took)) as [c|] eqn:E.
  - change (budget (cancel_attempt ?b ?q)) with (budget q). apply write_budget; try done. unfold effort. rewrite Hp.
    assert (took <> []) as Ht by (by intros ->). destruct took; [done|]. cbn [length].
    unfold commit_step, prepend, write_token. destruct (Final c); [|destruct ok]; cbn; lia.
  - apply write_budget; try done. unfold effort. rewrite Hp. cbn. lia.
Qed.

Lemma forward_budget (p : pipe) (st now : Time) (ok : bool) (a : arrival) (rest : list attemptEvent) :
  p_phase p = Forwarding -> due p = [] -> chan p = match a with Arrived e => [e] | _ => [] end ++ rest ->
  (budget (write p (match a with Arrived e => [e] | _ => [] end) rest (forward_step st now ok a) None) < budget p)%nat.
Proof.
  intros Hp Hw Hc. apply write_budget; try done. unfold effort. rewrite Hp.
  destruct a as [[c|e]| |]; cbn; try lia. destruct (Final c); [destruct (_ =? _)%string|destruct ok]; cbn; lia.
Qed.

Lemma take_first_history (p : pipe) (st now : Time) (ok : bool) (took rest : list attemptEvent) :
  history (take_first p st now ok took rest) = history p.
Proof. unfold take_first. by destruct (first_event _). Qed.

Lemma step_budget (p p' : pipe) :
  step p p' ->
  (S (budget p' + 4 * length (history p)) <= budget p + 4 * length (history p'))%nat.
Proof.
  intros Hs. destruct Hs as [p n o Hr|p e next Hr _|p e next Hr _|p e next Hr|p e rest now ok Hp Hw Hc|
    p now Hp Hw Hc Hr|p e rest now ok Hp Hw Hc|p now Hp Hw Hc Hr|p now Hp Hw Hd|p o rest Hw|p Hd].
  - unfold received, budget, effort. destruct (receive_step n o) as [e next].
    simpl. rewrite Hr, length_app. simpl. lia.
  - unfold budget, effort. rewrite Hr. destruct next; simpl; rewrite length_app; simpl; lia.
  - unfold budget, effort. rewrite Hr. simpl. lia.
  - unfold budget, effort. rewrite Hr. simpl. lia.
  - pose proof (take_first_budget p started now ok [e] rest Hp Hw Hc). rewrite take_first_history. lia.
  - pose proof (take_first_budget p started now false [] [] Hp Hw Hc). rewrite take_first_history. lia.
  - pose proof (forward_budget p started now ok (Arrived e) rest Hp Hw Hc). cbn [history write]. lia.
  - pose proof (forward_budget p started now false ChannelClosed [] Hp Hw Hc). cbn [history write]. lia.
  - pose proof (forward_budget p started now false ContextDone (chan p) Hp Hw eq_refl). cbn [history write]. lia.
  - unfold budget. rewrite Hw. cbn. change (effort (update p o rest)) with (effort p). lia.
  - unfold budget, effort; simpl. rewrite Hd. lia.
Qed.

(** ** Properties *)

(** C7: What the client gets in every interleaving of the receiver, the channel, the
    contexts and the handler: nothing before the commit; then the headers once,
    the worker's tokens 0, 1, 2, ... in order, without gap or repetition, and at
    most one ending. A completion is written only after every token that the
    worker sent and for its final chunk. *)
Theorem stream_contract (p : pipe) :
  reachable p ->
  (out p = [] /\ p_phase p <> Forwarding /\ p_phase p <> Finished None) \/
  exists cs ws tail,
    out p = headers :: ws ++ tail /\ Forall2 is_token cs ws /\
    EvChunk <$> cs `prefix_of` receiveAttempt 0 (history p) /\
    (forall i c, cs !! i = Some c -> own_chunk c (wrap_u32 (Z.of_nat i)) /\ TokenText c <> "") /\
    (p_phase p = Forwarding /\ tail = [] \/
     p_phase p = Finished None /\
       (tail = [] \/
        (exists e, tail = [WriteSSE (SSEError e); WriteSSE SSEDone]) \/
        (exists created fin,
           tail = [WriteSSE (SSECompletion (completion_payload created fin)); WriteSSE SSEDone] /\
           receiveAttempt 0 (history p) = (EvChunk <$> cs) ++ [EvChunk fin] /\
           Final fin = true /\ Reason fin <> FinishError /\
           own_chunk fin (wrap_u32 (Z.of_nat (length cs)))))).
Proof.
  intros [He Hp]%stream_reachable_inv. apply consumed_prefix in He. unfold phase_inv in Hp.
  assert (forall cs ws, EvChunk <$> cs `prefix_of` consumed p -> tokens_out cs ws ->
    EvChunk <$> cs `prefix_of` receiveAttempt 0 (history p) /\ Forall2 is_token cs ws /\
    forall i c, cs !! i = Some c -> own_chunk c (wrap_u32 (Z.of_nat i)) /\ TokenText c <> "") as Hcs.
  { intros cs ws Hpre [Hw Hf]. assert (EvChunk <$> cs `prefix_of` receiveAttempt 0 (history p)) as Hpre'
      by (by etrans). split_and!; try done. intros i c Hi.
    pose proof (Forall_lookup_1 _ _ _ _ Hf Hi) as Hc. simpl in Hc.
    assert (receiveAttempt 0 (history p) !! i = Some (EvChunk c)) as Hl
      by (eapply prefix_lookup_Some; [|exact Hpre']; by rewrite list_lookup_fmap, Hi).
    apply receiveAttempt_lookup in Hl as [Hown _]; [|unfold is_u32; lia].
    split; [exact Hown|]. by apply (oc_text _ _ Hown). }
  destruct (p_phase p) as [| |[e|]].
  - left. by destruct Hp.
  - destruct Hp as (cs & ws & Hc & Ht & Ho). right. exists cs, ws, [].
    destruct (Hcs cs ws) as (? & ? & ?); [by rewrite Hc|done|]. rewrite app_nil_r.
    split_and!; try done. by left.
  - by left.
  - destruct Hp as (cs & ws & tail & Hpre & Ht & Hend & Ho). right. exists cs, ws, tail.
    destruct (Hcs cs ws) as (? & ? & ?); [done..|]. split_and!; try done. right. split; [done|].
    destruct Hend as [? | [? | (created & fin & Htook & Hf & Hr & Htail)]]; [by left|by right; left|].
    right; right. exists created, fin. split; [done|]. rewrite Htook in He.
    assert (receiveAttempt 0 (history p) !! length cs = Some (EvChunk fin)) as Hl.
    { eapply prefix_lookup_Some; [|exact He]. rewrite lookup_app_r by (by rewrite length_fmap).
      by rewrite length_fmap, Nat.sub_diag. }
    apply receiveAttempt_lookup in Hl as [Hown Hlast]; [|unfold is_u32; lia].
    split_and!; try done. destruct He as [k Hk]. specialize (Hlast Hf). rewrite Hk in Hlast.
    rewrite !length_app, length_fmap in Hlast. simpl in Hlast.
    destruct k; [by rewrite app_nil_r in Hk|simpl in Hlast; lia].
Qed.

(** Until the handler has returned, some step other than [Recv] is possible, or
    the receiver waits in [Recv]; the step leaves the context alone. *)
Lemma stream_live (p : pipe) :
  (0 < SSEBufferSize)%nat ->
  returned p = true \/ (exists m, p_receiver p = Receiving m /\ chan p = [] /\ due p = [] /\ is_finished p = false) \/
  exists p', step p p' /\ history p' = history p /\ ctx_done p' = ctx_done p.
Proof.
  intros Hcap. unfold returned, is_finished. destruct (due p) as [|o os] eqn:Hw.
  2: { right; right. eexists. split; [by apply (step_update p o os)|done]. }
  destruct (p_phase p) as [| |err] eqn:Hp; [..|by left]; right; (destruct (chan p) as [|e rest] eqn:Hc;
    [destruct (p_receiver p) as [m|e next|] eqn:Hr; [left; eauto|right..]|right]).
  - exists (push p e next). split; [apply step_deliver; [done|rewrite Hc; simpl; lia]|by destruct next].
  - exists (take_first p started 0 false [] []).
    split; [by apply step_first_closed|unfold take_first; by destruct (first_event _)].
  - exists (take_first p started 0 false [e] rest).
    split; [by apply step_first|unfold take_first; by destruct (first_event _)].
  - exists (push p e next). split; [apply step_deliver; [done|rewrite Hc; simpl; lia]|by destruct next].
  - eexists. split; [by apply (step_forward_closed p 0)|done].
  - eexists. split; [by apply (step_forward p e rest 0 false)|done].
Qed.

(** The attempt cannot hang: a run makes at most four steps for every outcome of
    [Recv] and four more, and as long as the handler has not returned some step
    other than [Recv] is possible, or the receiver is waiting in [Recv] (which
    returns when the attempt is cancelled). *)
Theorem stream_progress (n : nat) (p : pipe) :
  (0 < SSEBufferSize)%nat -> nsteps step n open_pipe p ->
  (n <= 4 * length (history p) + 4)%nat /\
  (returned p = true \/ (exists m, p_receiver p = Receiving m /\ chan p = []) \/
   exists p', step p p' /\ history p' = history p).
Proof.
  intros Hcap Hn. split.
  - assert (forall p0, nsteps step n p0 p ->
      n + budget p + 4 * length (history p0) <= budget p0 + 4 * length (history p))%nat as H.
    { clear Hn. intros p0 Hn. induction Hn as [|n x y z Hxy _ IH]; [lia|].
      apply step_budget in Hxy. lia. }
    apply H in Hn. unfold open_pipe, budget at 2 in Hn. simpl in Hn. lia.
  - destruct (stream_live p Hcap) as [?|[(m & ? & ? & _)|(p' & ? & ? & _)]]; [by left|right; left; eauto|right; right; by exists p'].
Qed.
End Request.
End Attempt.

(** ** Witnesses: a token and the final chunk, received and forwarded *)
Definition ex_recv (c : Chunk) : @recv_outcome SecondsNanos :=
  Received 9 (Some (@ChunkToProto SecondsNanos c)).

Definition ex_text_of (e : GoError) : string := "error".

Definition ex_pipe_1 : @pipe SecondsNanos :=
  @push SecondsNanos (@received SecondsNanos ex_request "w1" open_pipe 0 (ex_recv ex_token)) (EvChunk ex_token) (Some 1).
Definition ex_pipe_2 : @pipe SecondsNanos :=
  settle 2 (@take_first SecondsNanos ex_request ex_pipe_1 5 11 true [EvChunk ex_token] []).
Definition ex_pipe_3 : @pipe SecondsNanos :=
  @push SecondsNanos (@received SecondsNanos ex_request "w1" ex_pipe_2 1 (ex_recv ex_final)) (EvChunk ex_final) None.
Definition ex_pipe : @pipe SecondsNanos :=
  settle 1 (@write SecondsNanos ex_pipe_3 [EvChunk ex_final] []
    (forward_step ex_request ex_text_of 5 12 true (Arrived (EvChunk ex_final))) None).

Lemma ex_pipe_steps : nsteps (@step SecondsNanos ex_request "w1" ex_text_of 4 5) 9 open_pipe ex_pipe.
Proof.
  eapply nsteps_l; [by apply (step_recv ex_request "w1" ex_text_of 4 5 open_pipe 0 (ex_recv ex_token))|].
  eapply nsteps_l; [eapply (step_deliver ex_request "w1" ex_text_of 4 5 _ (EvChunk ex_token) (Some 1));
    [vm_compute; reflexivity|simpl; lia]|].
  change (push _ (EvChunk ex_token) (Some 1)) with ex_pipe_1.
  eapply nsteps_l; [apply (step_first ex_request "w1" ex_text_of 4 5 ex_pipe_1 (EvChunk ex_token) [] 11 true); by vm_compute|].
  eapply (nsteps_trans 2); [apply settle_steps; vm_compute; lia|].
  eapply nsteps_l; [by apply (step_recv ex_request "w1" ex_text_of 4 5 ex_pipe_2 1 (ex_recv ex_final)); vm_compute|].
  eapply nsteps_l; [eapply (step_deliver ex_request "w1" ex_text_of 4 5 _ (EvChunk ex_final) None);
    [vm_compute; reflexivity|vm_compute; lia]|].
  change (push _ (EvChunk ex_final) None) with ex_pipe_3.
  eapply nsteps_l; [apply (step_forward ex_request "w1" ex_text_of 4 5 ex_pipe_3 (EvChunk ex_final) [] 12 true); by vm_compute|].
  apply settle_steps. vm_compute. lia.
Qed.

Lemma stream_contract_witness : exists cs ws tail,
  out ex_pipe = @headers ex_request :: ws ++ tail /\ length cs = 1%nat /\
  Forall2 (is_token ex_request) cs ws.
Proof.
  destruct (@stream_contract SecondsNanos ex_request "w1" ex_text_of 4 5 ex_pipe) as [(H & _)|(cs & ws & tail & Ho & Ht & Hp & _ & He)].
  - apply rtc_nsteps; exists 9%nat; exact ex_pipe_steps.
  - vm_compute in H. discriminate H.
  - exists cs, ws, tail. split; [exact Ho|]. split; [|exact Ht].
    assert (length (out ex_pipe) = 4%nat) as Hl by (vm_compute; reflexivity).
    rewrite Ho in Hl. cbn [length] in Hl. rewrite length_app in Hl.
    apply Forall2_length in Ht. rewrite Ht.
    destruct He as [[He _]|[_ [->|[[e ->]|(cr & fin & -> & _)]]]]; [vm_compute in He; discriminate He| |simpl in Hl; lia..].
    exfalso. simpl in Hl. assert (length ws = 3%nat) as Hw by lia. rewrite Hw in Ht.
    apply prefix_length in Hp. rewrite length_fmap, Ht in Hp. vm_compute in Hp. lia.
Defined.

Lemma stream_progress_witness : (9 <= 4 * 2 + 4)%nat /\ returned ex_pipe = true.
Proof.
  split; [|vm_compute; reflexivity].
  exact (proj1 (@stream_progress SecondsNanos ex_request "w1" ex_text_of 4 5 9 ex_pipe ltac:(lia) ex_pipe_steps)).
Defined.
