(* ===== verification/Gateway.v ===== *)
(** * The gateway server: [src/internal/gateway/server.go]

    Construction, readiness, the control-plane handlers through which workers
    register and report, worker selection, and shutdown.  [Serving] adds the
    listeners and the routes; the handlers are called with the clock readings they make. *)

From S2P Require Import Prelude GoFloat GoString Model Examples Interfaces Wire Protocol Parse Sse Stream.
From S2P Require Config Registry Admission Routing Metrics WorkerClient.

#[local] Open Scope Z_scope.

Record Server := {
  s_config : Config.RouterConfig;
  s_registry : Registry.Registry;
  s_admission : Admission.Controller;
  s_router : Routing.Router;
  s_clients : WorkerClient.Pool;
  s_metrics : Metrics.Registry;
  root_canceled : bool;
  ready : bool;
  closed_once : bool;
}.

Definition with_registry (s : Server) (r : Registry.Registry) : Server :=
  {| s_config := s_config s; s_registry := r; s_admission := s_admission s; s_router := s_router s;
     s_clients := s_clients s; s_metrics := s_metrics s; root_canceled := root_canceled s;
     ready := ready s; closed_once := closed_once s |}.

Definition with_admission (s : Server) (a : Admission.Controller) : Server :=
  {| s_config := s_config s; s_registry := s_registry s; s_admission := a; s_router := s_router s;
     s_clients := s_clients s; s_metrics := s_metrics s; root_canceled := root_canceled s;
     ready := ready s; closed_once := closed_once s |}.

Definition with_router (s : Server) (r : Routing.Router) : Server :=
  {| s_config := s_config s; s_registry := s_registry s; s_admission := s_admission s; s_router := r;
     s_clients := s_clients s; s_metrics := s_metrics s; root_canceled := root_canceled s;
     ready := ready s; closed_once := closed_once s |}.

Definition with_clients (s : Server) (p : WorkerClient.Pool) : Server :=
  {| s_config := s_config s; s_registry := s_registry s; s_admission := s_admission s;
     s_router := s_router s; s_clients := p; s_metrics := s_metrics s;
     root_canceled := root_canceled s; ready := ready s; closed_once := closed_once s |}.

Definition count (s : Server) (ops : list Metrics.op) : Server :=
  {| s_config := s_config s; s_registry := s_registry s; s_admission := s_admission s;
     s_router := s_router s; s_clients := s_clients s;
     s_metrics := Metrics.run_ops (s_metrics s) ops;
     root_canceled := root_canceled s; ready := ready s; closed_once := closed_once s |}.

Definition set_ready (s : Server) (b : bool) : Server :=
  {| s_config := s_config s; s_registry := s_registry s; s_admission := s_admission s;
     s_router := s_router s; s_clients := s_clients s; s_metrics := s_metrics s;
     root_canceled := root_canceled s; ready := b; closed_once := closed_once s |}.

Definition New (cfg : Config.RouterConfig) : result string Server :=
  _ ← Config.ValidateRouter cfg;
  reg ← Registry.New (Config.HeartbeatStaleAfter cfg);
  adm ← Admission.New (Config.rc_Admission cfg);
  router ← Routing.New (Config.Policy (Config.rc_Routing cfg))
             (Config.RoundRobinSeed (Config.rc_Routing cfg));
  Ok {| s_config := cfg; s_registry := reg; s_admission := adm; s_router := router;
        s_clients := WorkerClient.NewPool; s_metrics := Metrics.New;
        root_canceled := false; ready := false; closed_once := false |}.

(** ** Health *)
Definition handleLive : list http_event := [WriteJSON StatusOK [("status", "live")]].

Definition handleReady (s : Server) (now : Time) : Server * list http_event :=
  let ok := (0 <? Registry.HealthyCount (s_registry s) now)%nat && negb (root_canceled s) in
  (set_ready s ok,
   if ok then [WriteJSON StatusOK [("status", "ready")]]
   else [WriteJSON StatusServiceUnavailable [("status", "not_ready")]]).

Definition HealthyWorkers (s : Server) (now : Time) : nat := Registry.HealthyCount (s_registry s) now.

(** ** Worker selection *)
Section Selection.
Context {R : Type} `{SnapshotSource R}.

Definition select_from (source : R) (now : Time) (router : Routing.Router) (request : Request)
    (excluded : gset string) :
  Routing.Router * (RoutingDecision * result Routing.RoutingError Worker) :=
  let workers := source_snapshot source now in
  let '(router, (decision, err)) := Routing.Select router request workers excluded in
  (router, (decision,
    match err with
    | Some e => Err e
    | None =>
        match list_find (fun w => w_ID w = SelectedWorker decision) workers with
        | Some (_, worker) => Ok worker
        | None => Err Routing.ErrNoEligibleWorkers
        end
    end)).
End Selection.

Definition selectWorker (s : Server) (now : Time) (request : Request) (excluded : gset string) :
  Server * (RoutingDecision * result Routing.RoutingError Worker) :=
  let '(router, outcome) := select_from (s_registry s) now (s_router s) request excluded in
  (with_router s router, outcome).

(** ** The control plane *)
Definition codes_InvalidArgument : Z := 3.
Definition codes_FailedPrecondition : Z := 9.

(** The clock readings of one call: of the operation, of the two healthy counts,
    and of the response. *)
Record readings := { at_operation : Time; at_ready : Time; at_gauge : Time; at_response : Time }.

Section ControlPlane.
Context {T : TimestampPb} (registry_error_text : Registry.RegistryError -> string).

Definition modelWorker (request : option pb_RegisterWorkerRequest) (state : WorkerState) : Worker :=
  {| w_ID := RegisterWorkerRequest_GetWorkerId request;
     DataAddress := RegisterWorkerRequest_GetDataAddress request;
     w_Model := RegisterWorkerRequest_GetModel request;
     w_ProtocolVersion := RegisterWorkerRequest_GetProtocolVersion request;
     State := state; LastHeartbeat := 0; Stale := false |}.

Definition grpc_error {A} (code : Z) (e : GoError) : result (Z * GoError) A := Err (code, e).

Definition invalid_argument {A} (r : result ProtocolError A) : result (Z * GoError) A :=
  match r with Ok a => Ok a | Err e => Err (codes_InvalidArgument, EProtocol e) end.

Definition unsupported_version : GoError := EOther "unsupported protocol version".

(** The gauge and the readiness flag after a change of the registry. *)
Definition publish_health (s : Server) (t : readings) (counter : list Metrics.op) : Server :=
  let s := set_ready s (0 <? Registry.HealthyCount (s_registry s) (at_ready t))%nat in
  count s (counter ++
    [Metrics.OSet "aetherserve_healthy_workers"
       (float_of_Z (Z.of_nat (Registry.HealthyCount (s_registry s) (at_gauge t))))]).

Definition register_response (accepted : bool) (message : string) (at_ : Time) : pb_RegisterWorkerResponse :=
  {| rr_Accepted := accepted; rr_Message := message; rr_RouterTimestamp := Some (NewTimestamp at_) |}.

Definition RegisterWorker (s : Server) (t : readings) (request : option pb_RegisterWorkerRequest) :
  Server * result (Z * GoError) pb_RegisterWorkerResponse :=
  if negb (RegisterWorkerRequest_GetProtocolVersion request =? ProtocolVersion)%string
  then (s, grpc_error codes_FailedPrecondition unsupported_version)
  else
    match (_ ← invalid_argument (TimestampFromProto (RegisterWorkerRequest_GetRegisteredAt request)
                "registration timestamp");
           invalid_argument (StateFromProto (RegisterWorkerRequest_GetInitialState request))) with
    | Err e => (s, Err e)
    | Ok state =>
        match Registry.Register (s_registry s) (at_operation t) (modelWorker request state) with
        | (_, Err e) =>
            (count s [Metrics.OInc "aetherserve_worker_registration_failures_total"],
             Ok (register_response false (registry_error_text e) (at_response t)))
        | (registry, Ok _) =>
            (publish_health (with_registry s registry) t
               [Metrics.OInc "aetherserve_worker_registrations_total"],
             Ok (register_response true "" (at_response t)))
        end
    end.

Definition heartbeat_response (accepted : bool) (message : string) (at_ : Time) : pb_HeartbeatResponse :=
  {| hr_Accepted := accepted; hr_Message := message; hr_RouterTimestamp := Some (NewTimestamp at_) |}.

Definition Heartbeat (s : Server) (t : readings) (request : option pb_HeartbeatRequest) :
  Server * result (Z * GoError) pb_HeartbeatResponse :=
  if negb (HeartbeatRequest_GetProtocolVersion request =? ProtocolVersion)%string
  then (s, grpc_error codes_FailedPrecondition unsupported_version)
  else
    match (_ ← invalid_argument (TimestampFromProto (HeartbeatRequest_GetWorkerTimestamp request)
                "heartbeat timestamp");
           invalid_argument (StateFromProto (HeartbeatRequest_GetState request))) with
    | Err e => (s, Err e)
    | Ok state =>
        match Registry.Heartbeat (s_registry s) (at_operation t)
                (HeartbeatRequest_GetWorkerId request) state with
        | (_, Err e) =>
            (count s [Metrics.OInc "aetherserve_worker_heartbeat_rejected_total"],
             Ok (heartbeat_response false (registry_error_text e) (at_response t)))
        | (registry, Ok _) =>
            (publish_health (with_registry s registry) t [],
             Ok (heartbeat_response true "" (at_response t)))
        end
    end.
End ControlPlane.

(** ** Shutdown *)

(** How the calls that [Close] makes end: [Shutdown] of the HTTP server, whether
    the gRPC server and the active requests stop before the context, the error
    of that context, and the close of the pool. *)
Record close_outcome := {
  shutdown_error : option GoError;
  control_stopped : bool;
  active_done : bool;
  context_error : option GoError;
  pool_error : option GoError;
}.

Definition first_of (a b : option GoError) : option GoError :=
  match a with Some e => Some e | None => b end.

Definition Close (s : Server) (o : close_outcome) : Server * option GoError :=
  if closed_once s then (s, None)
  else
    ({| s_config := s_config s; s_registry := s_registry s; s_admission := s_admission s;
        s_router := s_router s; s_clients := (WorkerClient.Close (s_clients s)).1;
        s_metrics := s_metrics s; root_canceled := true; ready := false; closed_once := true |},
     first_of (first_of (first_of (shutdown_error o)
       (if control_stopped o then None else context_error o))
       (if active_done o then None else context_error o))
       (pool_error o)).

(** ** Properties *)

(** A server is built exactly from the configurations that validation accepts:
    no component refuses what it let through. It starts without workers, leases
    or connections. *)
Theorem New_total (cfg : Config.RouterConfig) (s : Server) :
  New cfg = Ok s <->
  Config.valid_router cfg /\
  s = {| s_config := cfg;
         s_registry := {| Registry.workers := ∅; Registry.staleAfter := Config.HeartbeatStaleAfter cfg |};
         s_admission := {| Admission.config := Config.rc_Admission cfg; Admission.used := 0;
                           Admission.buckets := ∅; Admission.leases := [] |};
         s_router := {| Routing.policy := Config.Policy (Config.rc_Routing cfg);
                        Routing.cursor := Config.RoundRobinSeed (Config.rc_Routing cfg) |};
         s_clients := WorkerClient.NewPool; s_metrics := Metrics.New;
         root_canceled := false; ready := false; closed_once := false |}.
Proof.
  unfold New. split.
  - intros ([] & Hv%Config.ValidateRouter_spec & (reg & Hr & (adm & Ha & (rt & Ht & [= <-])
      %result_bind_ok)%result_bind_ok)%result_bind_ok)%result_bind_ok.
    apply Config.admission_new_ok in Ha as [_ ->]. apply Config.routing_new_ok in Ht as [_ ->].
    unfold Registry.New in Hr. case_if; [done|]. by injection Hr as <-.
  - intros [Hv ->]. destruct (Config.vr_positive _ Hv) as [Hst _].
    pose proof (proj2 (Config.ValidateRouter_spec cfg) Hv) as ->. simpl.
    unfold Registry.New. apply Z.leb_gt in Hst. rewrite Hst. simpl.
    rewrite (proj2 (Config.admission_new_ok _ _) (conj (Config.vr_admission _ Hv) eq_refl)). simpl.
    by rewrite (proj2 (Config.routing_new_ok _ _ _) (conj (Config.vr_policy _ Hv) eq_refl)).
Qed.

(** Against any directory of workers, selection returns a worker of the snapshot
    that the router chose and that may be routed to, and fails only when no
    worker may: the fall-through of the search is unreachable. *)
Theorem select_from_spec {R} `{SnapshotSourceLaws R} (source : R) (now : Time)
    (router router' : Routing.Router) (request : Request) (excluded : gset string)
    (d : RoutingDecision) (r : result Routing.RoutingError Worker) :
  source_ok source -> select_from source now router request excluded = (router', (d, r)) ->
  match r with
  | Ok w => w ∈ source_snapshot source now /\ w_ID w = SelectedWorker d /\
      Routing.may_route router request excluded w
  | Err _ => forall w, w ∈ source_snapshot source now -> ~ Routing.may_route router request excluded w
  end.
Proof.
  intros Hok Hs. unfold select_from in Hs.
  destruct (Routing.Select router request (source_snapshot source now) excluded) as [r1 [d1 e]] eqn:HS.
  pose proof (source_ids_unique source now Hok) as Hnd.
  destruct e as [e|].
  - injection Hs as _ _ <-. intros w Hw. apply Routing.select_none in HS. by apply HS.
  - apply Routing.select_worker in HS as (w & Hw & Hid & Hm).
    destruct (list_find _ _) as [[i w']|] eqn:Hf.
    + injection Hs as _ <- <-. apply list_find_Some in Hf as (Hi & Hid' & _).
      apply list_elem_of_lookup_2 in Hi. split_and!; try done.
      assert (w' = w) as -> by (eapply NoDup_key_inj; [done..|congruence]). done.
    + apply list_find_None in Hf. rewrite list.Forall_forall in Hf. by apply Hf in Hw.
Qed.

Lemma ineligibility_none (router : Routing.Router) (request : Request) (w : Worker) (excluded : gset string) :
  w_ID w ∉ excluded -> Stale w = false -> w_ProtocolVersion w = ProtocolVersion ->
  DataAddress w <> "" -> w_Model w = r_Model request -> Status (State w) = WorkerHealthy ->
  Registry.valid_state (State w) -> Routing.may_route router request excluded w.
Proof.
  intros He Hst Hv Ha%String.eqb_neq Hm Hs Hval. unfold Routing.may_route, Routing.ineligibility.
  rewrite decide_False by done. rewrite Hst, Hv, Hm, Hs, Ha, !String.eqb_refl. cbn [negb orb].
  pose proof (proj2 (Registry.validateState_spec _) Hval) as Hok.
  apply Registry.validateState_conds in Hok as (_ & _ & -> & -> & -> & _).
  by rewrite andb_false_r.
Qed.

Section Registration.
Context {T : TimestampPb} (registry_error_text : Registry.RegistryError -> string).

Definition registration (id address llm : string) (at_ : Time) (st : WorkerState) :
  option pb_RegisterWorkerRequest :=
  Some {| rw_ProtocolVersion := ProtocolVersion; rw_WorkerId := id; rw_DataAddress := address;
          rw_Model := llm; rw_RegisteredAt := Some (NewTimestamp at_);
          rw_InitialState := Some (StateToProto st) |}.

(** What a registration with a valid state stores. *)
Definition registered (id address llm : string) (st : WorkerState) (now : Time) : Worker :=
  {| w_ID := id; DataAddress := address; w_Model := llm; w_ProtocolVersion := ProtocolVersion;
     State := st; LastHeartbeat := now; Stale := false |}.

Lemma register_ok (L : TimestampPbLaws T) (s : Server) (t : readings)
    (id address llm : string) (at_ : Time) (st : WorkerState) :
  id <> "" -> address <> "" -> llm <> "" ->
  timestamp_range at_ -> timestamp_range (ObservedAt st) ->
  Registry.valid_state st -> known_status (Status st) ->
  RegisterWorker registry_error_text s t (registration id address llm at_ st) =
    (publish_health (with_registry s (Registry.set_workers (s_registry s)
        (<[id := registered id address llm st (at_operation t)]> (Registry.workers (s_registry s))))) t
       [Metrics.OInc "aetherserve_worker_registrations_total"],
     Ok (register_response true "" (at_response t))).
Proof.
  intros Hid Haddr Hllm Hat Hobs Hval Hk. unfold RegisterWorker.
  cbn [registration RegisterWorkerRequest_GetProtocolVersion RegisterWorkerRequest_GetRegisteredAt
    RegisterWorkerRequest_GetInitialState rw_ProtocolVersion rw_RegisteredAt rw_InitialState].
  unfold TimestampFromProto. rewrite NewTimestamp_valid, AsTime_NewTimestamp, String.eqb_refl by done.
  cbn [negb mbind result_bind invalid_argument].
  rewrite (proj2 (StateFromProto_ToProto L st Hobs) Hk). cbn [invalid_argument].
  set (w0 := modelWorker (registration id address llm at_ st) st).
  assert (Registry.validate w0 = Ok tt) as Hv0.
  { unfold Registry.validate. simpl. apply String.eqb_neq in Hid, Haddr, Hllm.
    rewrite Hid, Haddr, Hllm. simpl. by apply Registry.validateState_spec. }
  by rewrite Registry.register_unfold, Hv0.
Qed.

(** A registration with an invalid state changes nothing but a counter. *)
Lemma register_bad (L : TimestampPbLaws T) (s : Server) (t : readings)
    (id address llm : string) (at_ : Time) (st : WorkerState) (e : Registry.RegistryError) :
  id <> "" -> address <> "" -> llm <> "" ->
  timestamp_range at_ -> timestamp_range (ObservedAt st) ->
  Registry.validateState st = Err e -> known_status (Status st) ->
  exists m, RegisterWorker registry_error_text s t (registration id address llm at_ st) =
    (count s [Metrics.OInc "aetherserve_worker_registration_failures_total"],
     Ok (register_response false m (at_response t))).
Proof.
  intros Hid Haddr Hllm Hat Hobs Hval Hk. unfold RegisterWorker.
  cbn [registration RegisterWorkerRequest_GetProtocolVersion RegisterWorkerRequest_GetRegisteredAt
    RegisterWorkerRequest_GetInitialState rw_ProtocolVersion rw_RegisteredAt rw_InitialState].
  unfold TimestampFromProto. rewrite NewTimestamp_valid, AsTime_NewTimestamp, String.eqb_refl by done.
  cbn [negb mbind result_bind invalid_argument].
  rewrite (proj2 (StateFromProto_ToProto L st Hobs) Hk). cbn [invalid_argument].
  set (w0 := modelWorker (registration id address llm at_ st) st).
  assert (exists e', Registry.validate w0 = Err e') as [e' Hv0].
  { destruct (Registry.validate w0) as [[]|e'] eqn:Hv; [|by exists e'].
    apply Registry.validate_state in Hv. change (State w0) with st in Hv. congruence. }
  rewrite Registry.register_unfold, Hv0. by eexists.
Qed.

(** A fresh entry is in the snapshot as it was stored. *)
Lemma fresh_in_snapshot (r : Registry.Registry) (id : string) (w : Worker) (now : Time) :
  Registry.workers r !! id = Some w -> Stale w = false -> LastHeartbeat w <= now ->
  now - LastHeartbeat w <= Registry.staleAfter r -> is_i64 (Registry.staleAfter r) ->
  w ∈ Registry.Snapshot r now.
Proof.
  intros Hw Hs Hle Hst H64. apply Registry.elem_of_Snapshot. exists id, w. split; [done|].
  rewrite Registry.snapshot_worker_eq. unfold Registry.set_worker_state.
  assert ((Registry.staleAfter r <? time_sub now (LastHeartbeat w)) = false) as ->.
  { apply Z.ltb_ge. unfold time_sub, is_i64 in *. lia. }
  rewrite <- Hs. by destruct w.
Qed.

(** C31: A worker that registers with a valid healthy state is accepted, and from then
    on and until its heartbeat is stale it is in every snapshot, with the state
    it sent, the gateway is ready, and every policy may route to it any request
    for its model that does not exclude it. *)
Theorem register_makes_routable (L : TimestampPbLaws T) (s : Server) (t : readings) (now : Time)
    (id address llm : string) (at_ : Time) (st : WorkerState) :
  id <> "" -> address <> "" -> llm <> "" ->
  timestamp_range at_ -> timestamp_range (ObservedAt st) ->
  Registry.valid_state st -> Status st = WorkerHealthy ->
  at_operation t <= now -> now - at_operation t <= Registry.staleAfter (s_registry s) ->
  is_i64 (Registry.staleAfter (s_registry s)) ->
  exists s', RegisterWorker registry_error_text s t (registration id address llm at_ st) =
      (s', Ok (register_response true "" (at_response t))) /\
    (handleReady s' now).2 = (if root_canceled s
       then [WriteJSON StatusServiceUnavailable [("status", "not_ready")]]
       else [WriteJSON StatusOK [("status", "ready")]]) /\
    exists w, w ∈ Registry.Snapshot (s_registry s') now /\ w_ID w = id /\ DataAddress w = address /\
      w_Model w = llm /\ State w = st /\ Stale w = false /\
      forall router request excluded, r_Model request = llm -> id ∉ excluded ->
        Routing.may_route router request excluded w.
Proof.
  intros Hid Haddr Hllm Hat Hobs Hval Hh Hle Hst Hw64.
  rewrite (register_ok L) by (done || (unfold known_status; tauto)). eexists. split; [reflexivity|].
  set (w := registered id address llm st (at_operation t)).
  set (reg := Registry.set_workers (s_registry s) (<[id := w]> (Registry.workers (s_registry s)))).
  assert (w ∈ Registry.Snapshot reg now) as Hin.
  { apply (fresh_in_snapshot _ id); try done. simpl. by rewrite lookup_insert_eq. }
  split.
  - unfold handleReady. match goal with |- context [Registry.HealthyCount ?x now] => change x with reg end.
    assert (0 < Registry.HealthyCount reg now)%nat as Hc.
    { apply Registry.HealthyCount_pos. exists w. split; [done|]. unfold Registry.is_healthy. simpl.
      by rewrite Hh. }
    apply Nat.ltb_lt in Hc. rewrite Hc. simpl. by destruct (root_canceled s).
  - exists w. split_and!; try done. intros router request excluded Hm He.
    by apply ineligibility_none.
Qed.

(** The heartbeat call changes the registry only through an accepted heartbeat of
    the state it carries; every other outcome, a gRPC error or a response that is
    not accepted, leaves it as it was. *)
Theorem heartbeat_rpc (s s' : Server) (t : readings) (request : option pb_HeartbeatRequest)
    (r : result (Z * GoError) pb_HeartbeatResponse) :
  Heartbeat registry_error_text s t request = (s', r) ->
  match r with
  | Ok resp =>
      exists st, StateFromProto (HeartbeatRequest_GetState request) = Ok st /\
        HeartbeatRequest_GetProtocolVersion request = ProtocolVersion /\
        exists res, Registry.Heartbeat (s_registry s) (at_operation t)
            (HeartbeatRequest_GetWorkerId request) st = (s_registry s', res) /\
          hr_Accepted resp = is_ok res /\ (is_ok res = false -> s_registry s' = s_registry s) /\
          (is_ok res = true ->
             ready s' = (0 <? Registry.HealthyCount (s_registry s') (at_ready t))%nat)
  | Err (code, _) => s' = s /\
      (code = codes_FailedPrecondition /\
         HeartbeatRequest_GetProtocolVersion request <> ProtocolVersion \/
       code = codes_InvalidArgument)
  end.
Proof.
  unfold Heartbeat. destruct (_ =? _)%string eqn:Ev; cbn [negb]; bool_facts;
    [|intros [= <- <-]; by split; [|left]].
  destruct (TimestampFromProto _ _) as [u|e]; cbn [invalid_argument mbind result_bind];
    [|intros [= <- <-]; by split; [|right]].
  destruct (StateFromProto _) as [st|e]; cbn [invalid_argument];
    [|intros [= <- <-]; by split; [|right]].
  destruct (Registry.Heartbeat _ _ _ _) as [reg [[]|e]] eqn:Hh; intros [= <- <-].
  - exists st. split_and!; try done. eexists. by split_and!.
  - exists st. split_and!; try done. eexists. rewrite Hh.
    assert (reg = s_registry s) as ->.
    { unfold Registry.Heartbeat in Hh. repeat case_match; by simplify_eq. }
    by split_and!.
Qed.
End Registration.

(** Closing happens once: afterwards the gateway is not ready whatever its
    workers report, the pool is empty, and closing again does nothing. *)
Theorem Close_once (s s' : Server) (o o' : close_outcome) (now : Time) (e : option GoError) :
  closed_once s = false -> Close s o = (s', e) ->
  root_canceled s' = true /\ ready s' = false /\
  (handleReady s' now).2 = [WriteJSON StatusServiceUnavailable [("status", "not_ready")]] /\
  s_clients s' = WorkerClient.NewPool /\ Close s' o' = (s', None) /\
  (e = None <-> shutdown_error o = None /\ pool_error o = None /\
     (context_error o = None \/ control_stopped o = true /\ active_done o = true)).
Proof.
  unfold Close. intros -> [= <- <-]. split_and!; try done.
  - unfold handleReady. simpl. by rewrite andb_false_r.
  - destruct (shutdown_error o), (control_stopped o), (active_done o), (context_error o), (pool_error o);
      simpl; naive_solver.
Qed.

(** ** Witnesses *)
Definition ex_server : Server :=
  {| s_config := Config.ex_router_config;
     s_registry := {| Registry.workers := ∅; Registry.staleAfter := 3 * Second |};
     s_admission := {| Admission.config := Config.rc_Admission Config.ex_router_config; Admission.used := 0;
                       Admission.buckets := ∅; Admission.leases := [] |};
     s_router := {| Routing.policy := Routing.PredictedTTFT; Routing.cursor := 0 |};
     s_clients := WorkerClient.NewPool; s_metrics := Metrics.New;
     root_canceled := false; ready := false; closed_once := false |}.

Definition ex_readings : readings :=
  {| at_operation := 100; at_ready := 101; at_gauge := 102; at_response := 103 |}.
Definition ex_registry_text (e : Registry.RegistryError) : string := "rejected".

Definition ex_registered : Server :=
  (@RegisterWorker SecondsNanos ex_registry_text ex_server ex_readings
     (@registration SecondsNanos "w1" "w1:9000" "mock-llm" 100 (ex_state 1 10 5))).1.

Lemma ex_state_valid (version waiting running : Z) : version <> 0 -> Registry.valid_state (ex_state version waiting running).
Proof.
  intros Hv. split; try done; [by left|by right|by right|].
  apply Forall_cons_2; [done|apply Forall_nil_2].
Qed.

Lemma select_from_spec_witness :
  exists w, w ∈ Registry.Snapshot (s_registry ex_registered) 200 /\ w_ID w = "w1".
Proof.
  destruct (select_from (s_registry ex_registered) 200 (s_router ex_registered) ex_request ∅) as [r [d [w|e]]] eqn:E.
  - exists w. destruct (select_from_spec (s_registry ex_registered) 200 (s_router ex_registered) r ex_request ∅ d (Ok w)) as (Hw & Hid & _).
    + apply Registry.ex_inv_of. exists 100, (ex_worker "w1" (ex_state 1 10 5)). vm_compute. reflexivity.
    + exact E.
    + split; [exact Hw|]. vm_compute in E. injection E as _ <- _. exact Hid.
  - vm_compute in E. discriminate E.
Defined.

Lemma register_makes_routable_witness : exists s',
  @RegisterWorker SecondsNanos ex_registry_text ex_server ex_readings
    (@registration SecondsNanos "w1" "w1:9000" "mock-llm" 100 (ex_state 1 10 5)) =
    (s', Ok (@register_response SecondsNanos true "" 103)) /\
  (handleReady s' 200).2 = [WriteJSON StatusOK [("status", "ready")]].
Proof.
  destruct (@register_makes_routable SecondsNanos ex_registry_text SecondsNanos_laws ex_server ex_readings 200
    "w1" "w1:9000" "mock-llm" 100 (ex_state 1 10 5)) as (s' & H & Hr & _);
    [discriminate|discriminate|discriminate|vm_compute; split; congruence|vm_compute; split; congruence
    |by apply ex_state_valid|reflexivity|vm_compute; discriminate|vm_compute; discriminate
    |vm_compute; split; congruence|].
  exists s'. split; [exact H|exact Hr].
Defined.

Definition ex_heartbeat (version : Z) : option (@pb_HeartbeatRequest SecondsNanos) :=
  Some {| hb_ProtocolVersion := ProtocolVersion; hb_WorkerId := "w1";
          hb_WorkerTimestamp := Some (@NewTimestamp SecondsNanos 150);
          hb_State := Some (@StateToProto SecondsNanos (ex_state version 20 0)) |}.

(** A regressed version is refused and leaves the registry as it was. *)
Lemma heartbeat_rpc_witness : exists s' resp,
  @Heartbeat SecondsNanos ex_registry_text ex_registered ex_readings (ex_heartbeat 1) = (s', Ok resp) /\
  hr_Accepted resp = false /\ s_registry s' = s_registry ex_registered.
Proof.
  assert (match (@Heartbeat SecondsNanos ex_registry_text ex_registered ex_readings (ex_heartbeat 1)).2 with
    | Ok resp => hr_Accepted resp = false | Err _ => False end) as Hf by (vm_compute; reflexivity).
  destruct (@Heartbeat SecondsNanos ex_registry_text ex_registered ex_readings (ex_heartbeat 1)) as [s' [resp|e]] eqn:E;
    [|destruct Hf].
  exists s', resp. split; [reflexivity|].
  destruct (@heartbeat_rpc SecondsNanos ex_registry_text ex_registered s' ex_readings (ex_heartbeat 1) (Ok resp) E)
    as (st & _ & _ & res & _ & Ha & Hs & _).
  cbn [snd] in Hf. split; [exact Hf|]. apply Hs. rewrite <- Ha. exact Hf.
Defined.

Lemma Close_once_witness : (Close (Close ex_registered {| shutdown_error := Some ECanceled; control_stopped := true;
    active_done := true; context_error := None; pool_error := None |}).1
  {| shutdown_error := None; control_stopped := false; active_done := false; context_error := None; pool_error := None |}).2 = None.
Proof.
  match goal with |- (Close ?s' ?o').2 = None =>
    destruct (Close_once ex_registered s' {| shutdown_error := Some ECanceled; control_stopped := true;
      active_done := true; context_error := None; pool_error := None |} o' 300 (Some ECanceled)) as (_ & _ & _ & _ & H & _);
    [vm_compute; reflexivity|vm_compute; reflexivity|rewrite H; reflexivity] end.
Defined.
