(* ===== verification/Chat.v ===== *)
(** * A chat request from end to end: [handleChat] of [src/internal/gateway/http.go]

    Parsing, the lease on the admission budget, at most two attempts on different
    workers, and the response.  The code is run against an environment: the clock
    readings, the answers of the worker and of the gRPC library, and what other
    requests do to the shared server between this one's calls. *)

From S2P Require Import Prelude GoFloat GoString Model Examples Interfaces Wire Protocol Parse Sse Stream Gateway.
From S2P Require Config Registry Admission Routing Metrics WorkerClient.

#[local] Open Scope Z_scope.
#[local] Open Scope go_scope.

(** ** Retry and errors before the commit *)
Definition codes_OK : Z := 0.
Definition codes_Unknown : Z := 2.
Definition codes_DeadlineExceeded : Z := 4.
Definition codes_Unavailable : Z := 14.

Section Chat.
Context {T : TimestampPb}.

(** [status.Code] of the gRPC library, and the text of an error. *)
Context (Code : GoError -> Z) (error_text : GoError -> string).

Definition is_canceled (e : GoError) : bool := match e with ECanceled => true | _ => false end.

(** [ctx] is the error of the request's context, none while it is live. *)
Definition shouldRetry (ctx : option GoError) (err : GoError) (attempt : Z) : bool :=
  if (2 <=? attempt) || bool_decide (is_Some ctx) then false
  else if is_canceled err then false
  else
    let code := Code err in
    if (code =? codes_Unavailable) || (code =? codes_Unknown) || (code =? codes_Internal)
       || (code =? codes_DeadlineExceeded) then true
    else (code =? codes_Unknown) || (Code err =? codes_OK).

Definition api_error (status : Z) (requestID kind code message : string) : apiError :=
  {| ae_Status := status; ae_RequestID := requestID; ae_Type := kind; ae_Code := code;
     ae_Message := message |}.

Definition no_workers (requestID : string) : apiError :=
  api_error StatusServiceUnavailable requestID "service_unavailable" "no_healthy_workers"
    "no eligible healthy workers".

Definition writePrecommitAttemptError (s : Server) (requestID : string) (ctx : option GoError)
    (err : GoError) : Server * list http_event :=
  match ctx with
  | Some EDeadlineExceeded =>
      (s, [WriteAPIError (api_error StatusGatewayTimeout requestID "timeout_error" "deadline_exceeded"
             "request deadline expired")])
  | _ =>
      (count s [Metrics.OInc "aetherserve_precommit_worker_failures_total"],
       [WriteAPIError (api_error StatusBadGateway requestID "upstream_error" "worker_unavailable"
          (error_text err))])
  end.

(** ** One attempt *)

(** What the environment does during one attempt; an interference is what the
    other goroutines do to the server meanwhile. *)
Record attempt_env := {
  e_before : Server -> Server;
  e_select_now : Time;
  e_decision_seconds : float64;
  e_dial : result GoError WorkerClient.conn;
  e_dialing : Server -> Server;
  e_generate : option GoError;
  e_waiting : Server -> Server;
  e_first : option attemptEvent;
  e_ctx_retry : option GoError;
  e_ctx_write : option GoError;
  e_commit_now : Time;
  e_write_ok : bool;
  e_rest : arrivals;
}.

(** The metrics of a routing decision. *)
Definition candidate_metrics (t : CandidateEvaluation) : list Metrics.op :=
  [Metrics.OObserve "aetherserve_predicted_ttft_seconds" (PredictedTTFT t);
   Metrics.OAdd "aetherserve_prefix_matched_tokens_total" (MatchedTokens t)]
  ++ (if 0 <? MatchedTokens t
      then [Metrics.OInc "aetherserve_reported_prefix_cache_matches_total"] else []).

Definition decision_metrics (seconds : float64) (d : RoutingDecision) (w : Worker) : list Metrics.op :=
  [Metrics.OObserve "aetherserve_routing_decision_seconds" seconds;
   Metrics.OIncLabel "aetherserve_worker_requests_total" "worker_id" (w_ID w);
   Metrics.OSetLabel "aetherserve_worker_waiting_tokens" "worker_id" (w_ID w)
     (float_of_Z (WaitingTokenCount (State w)));
   Metrics.OSetLabel "aetherserve_worker_running_requests" "worker_id" (w_ID w)
     (float_of_Z (RunningRequestCount (State w)))]
  ++ match list_find (fun t => ce_WorkerID t = w_ID w) (Candidates d) with
     | Some (_, t) => candidate_metrics t
     | None => []
     end.

(** [s.clients.Client]: the connection of the pool, or one dialed now. *)
Definition client (env : attempt_env) (s : Server) (address : string) :
  Server * result GoError WorkerClient.conn :=
  match WorkerClient.client_lookup (s_clients s) address with
  | Some c => (s, Ok c)
  | None =>
      let s := e_dialing env s in
      match e_dial env with
      | Err e => (s, Err e)
      | Ok dialed =>
          let '(p, c, _) := WorkerClient.client_publish (s_clients s) address dialed in
          (with_clients s p, Ok c)
      end
  end.

Definition openAttempt (env : attempt_env) (s : Server) (address : string) :
  Server * result GoError unit :=
  let '(s, connection) := client env s address in
  (s, _ ← connection; match e_generate env with Some e => Err e | None => Ok tt end).

(** The attempt up to its first event: an error, or the first chunk. *)
Definition start_attempt (env : attempt_env) (s : Server) (address : string) :
  Server * result GoError Chunk :=
  match openAttempt env s address with
  | (s, Err e) => (s, Err e)
  | (s, Ok _) => (e_waiting env s, first_event (e_first env))
  end.

Definition invalidate (s : Server) (address : string) : Server :=
  with_clients s (WorkerClient.Invalidate (s_clients s) address).1.

(** The committed part: the first chunk and the rest of the stream. *)
Definition respond (env : attempt_env) (request : Request) (started : Time) (chunk : Chunk) : effect :=
  let f := commit_step request started (e_commit_now env) (e_write_ok env) chunk in
  if continues f then join f (forwardCommitted request error_text started (e_rest env)) else f.

Definition with_attempt (request : Request) (number : Z) : Request :=
  {| r_ID := r_ID request; r_AttemptID := r_ID request +:+ "-a" +:+ itoa number;
     TenantID := TenantID request; r_Model := r_Model request; Messages := Messages request;
     EstimatedInputToken := EstimatedInputToken request;
     ExpectedOutputToken := ExpectedOutputToken request;
     MaxOutputTokens := MaxOutputTokens request;
     PrefixFingerprints := PrefixFingerprints request; Deadline := Deadline request |}.

(** An attempt that was opened: its ID and its worker. *)
Abbreviation attempt := (string * string)%type.

(** The loop over the attempts, one environment per turn. *)
Fixpoint attempts (envs : list attempt_env) (number : Z) (s : Server) (request : Request)
    (excluded : gset string) (previous : option GoError) (started : Time) :
  Server * list http_event * list attempt :=
  match envs with
  | [] => (s, [], [])
  | env :: envs =>
      let s := e_before env s in
      let request := with_attempt request number in
      let '(s, (decision, chosen)) := selectWorker s (e_select_now env) request excluded in
      match chosen with
      | Err _ =>
          match previous with
          | Some e =>
              let '(s, ws) := writePrecommitAttemptError s (r_ID request) (e_ctx_write env) e in
              (s, ws, [])
          | None =>
              (count s [Metrics.OInc "aetherserve_request_rejections_total"],
               [WriteAPIError (no_workers (r_ID request))], [])
          end
      | Ok worker =>
          let s := count s (decision_metrics (e_decision_seconds env) decision worker) in
          let this := (r_AttemptID request, w_ID worker) in
          match start_attempt env s (DataAddress worker) with
          | (s, Err e) =>
              let s := invalidate s (DataAddress worker) in
              if shouldRetry (e_ctx_retry env) e number then
                let s := count s [Metrics.OInc "aetherserve_request_retries_total"] in
                let '(s, ws, opened) :=
                  attempts envs (number + 1) s request ({[w_ID worker]} ∪ excluded) (Some e) started in
                (s, ws, this :: opened)
              else
                let '(s, ws) := writePrecommitAttemptError s (r_ID request) (e_ctx_write env) e in
                (s, ws, [this])
          | (s, Ok chunk) =>
              let f := respond env request started chunk in
              (count s (counts f), writes f, [this])
          end
      end
  end.

(** ** The handler *)
Record chat_env := {
  c_started : Time;
  c_random : result string (list Z);
  c_parse_now : Time;
  c_incoming : incoming;
  c_healthy_now : Time;
  c_reserving : Server -> Server;
  c_reserve_now : Time;
  c_first : attempt_env;
  c_second : attempt_env;
  c_releasing : Server -> Server;
}.

Record chat_result := {
  cr_server : Server;
  cr_writes : list http_event;
  cr_attempts : list attempt;
  cr_lease : option nat;
  cr_panic : option string;
}.

Definition admission_text (e : Admission.AdmissionError) : string :=
  match e with
  | Admission.ErrZeroCost => "reservation cost must be positive"
  | Admission.ErrTenantLimit => "tenant token bucket limit"
  | Admission.ErrGlobalLimit => "global in-flight token limit"
  end.

Definition admission_error (requestID : string) (e : Admission.AdmissionError) : apiError :=
  match e with
  | Admission.ErrGlobalLimit | Admission.ErrTenantLimit =>
      api_error StatusTooManyRequests requestID "rate_limit_error" "admission_rejected" (admission_text e)
  | Admission.ErrZeroCost =>
      api_error StatusInternalServerError requestID "internal_error" "internal_error" (admission_text e)
  end.

Definition reservations (s : Server) : Metrics.op :=
  Metrics.OSet "aetherserve_active_reservations" (float_of_Z (Admission.InFlight (s_admission s))).

Definition refused (s : Server) (e : apiError) (counter : list Metrics.op) : chat_result :=
  {| cr_server := count s counter; cr_writes := [WriteAPIError e]; cr_attempts := [];
     cr_lease := None; cr_panic := None |}.

(** The deferred release. *)
Definition finish (s : Server) (lease : nat) (ws : list http_event) (opened : list attempt) : chat_result :=
  match Admission.Release (s_admission s) (Some lease) with
  | Ok a =>
      let s := with_admission s a in
      {| cr_server := count s [reservations s]; cr_writes := ws; cr_attempts := opened;
         cr_lease := Some lease; cr_panic := None |}
  | Err m => {| cr_server := s; cr_writes := ws; cr_attempts := opened; cr_lease := Some lease;
                cr_panic := Some m |}
  end.

Definition rejection : list Metrics.op := [Metrics.OInc "aetherserve_request_rejections_total"].

Definition handleChat (s : Server) (env : chat_env) : chat_result :=
  let s := count s [Metrics.OInc "aetherserve_requests_total"] in
  match parseRequest (s_config s) (c_random env) (c_parse_now env) (c_incoming env) with
  | Err e => refused s e []
  | Ok request =>
      if (Registry.HealthyCount (s_registry s) (c_healthy_now env) =? 0)%nat
      then refused s (no_workers (r_ID request)) rejection
      else
        let s := c_reserving env s in
        match Admission.Reserve (s_admission s) (c_reserve_now env) (TenantID request)
                (reservation_cost request) with
        | (a, Err e) => refused (with_admission s a) (admission_error (r_ID request) e) rejection
        | (a, Ok lease) =>
            let s := with_admission s a in
            let s := count s [Metrics.OAdd "aetherserve_input_tokens_total" (EstimatedInputToken request);
                              reservations s] in
            let '(s, ws, opened) :=
              attempts [c_first env; c_second env] 1 s request ∅ None (c_started env) in
            finish (c_releasing env s) lease ws opened
        end
  end.

(** ** The lease *)
Abbreviation held s i := (lim_held (E := Admission.AdmissionError) (s_admission s) i).

Definition server_ok (s : Server) : Prop :=
  lim_ok (E := Admission.AdmissionError) (s_admission s).

(** A relation between the server before and after, which the handler's own calls
    satisfy because they leave the controller alone. *)
Section Frame.
Context (R : relation Server) {HT : Transitive R}.
Context (Hsame : forall s s', s_admission s' = s_admission s -> R s s').

Definition attempt_within (env : attempt_env) : Prop :=
  (forall s, R s (e_before env s)) /\ (forall s, R s (e_dialing env s)) /\
  (forall s, R s (e_waiting env s)).

Lemma selectWorker_admission (s : Server) (now : Time) (request : Request) (excluded : gset string) :
  s_admission (selectWorker s now request excluded).1 = s_admission s.
Proof. unfold selectWorker. by destruct (select_from _ _ _ _ _). Qed.

Lemma precommit_admission (s : Server) (id : string) (ctx : option GoError) (e : GoError) :
  s_admission (writePrecommitAttemptError s id ctx e).1 = s_admission s.
Proof. unfold writePrecommitAttemptError. by destruct ctx as [[]|]. Qed.

Lemma client_within (env : attempt_env) (s : Server) (address : string) :
  attempt_within env -> R s (client env s address).1.
Proof.
  intros (_ & Hk & _). unfold client. destruct (WorkerClient.client_lookup _ _); [by apply Hsame|].
  transitivity (e_dialing env s); [done|].
  destruct (e_dial env) as [d|e]; [|by apply Hsame].
  destruct (WorkerClient.client_publish _ _ _) as [[p c] x]. by apply Hsame.
Qed.

Lemma start_attempt_within (env : attempt_env) (s : Server) (address : string) :
  attempt_within env -> R s (start_attempt env s address).1.
Proof.
  intros Henv. pose proof (client_within env s address Henv) as Hc. destruct Henv as (_ & _ & Hw).
  unfold start_attempt, openAttempt. destruct (client env s address) as [s1 c]. simpl in Hc.
  destruct c as [c|e]; cbn [mbind result_bind]; [|done]. destruct (e_generate env); [done|].
  simpl. transitivity s1; [done|apply Hw].
Qed.

Lemma attempts_within (envs : list attempt_env) (n : Z) (s : Server) (request : Request)
    (excluded : gset string) (previous : option GoError) (started : Time) :
  Forall attempt_within envs ->
  R s (attempts envs n s request excluded previous started).1.1.
Proof.
  intros Hk. revert n s request excluded previous.
  induction Hk as [|env envs Henv _ IH]; intros n s request excluded previous; [by apply Hsame|].
  cbn [attempts]. transitivity (e_before env s); [apply Henv|].
  pose proof (selectWorker_admission (e_before env s) (e_select_now env) (with_attempt request n) excluded) as Hs.
  destruct (selectWorker _ _ _ _) as [s1 [d chosen]]. simpl in Hs.
  transitivity s1; [by apply Hsame|].
  destruct chosen as [w|e].
  - pose proof (start_attempt_within env (count s1 (decision_metrics (e_decision_seconds env) d w)) (DataAddress w) Henv) as Ha.
    transitivity (count s1 (decision_metrics (e_decision_seconds env) d w)); [by apply Hsame|].
    destruct (start_attempt _ _ _) as [s2 [chunk|e]]; simpl in Ha; (transitivity s2; [exact Ha|]);
      [by apply Hsame|].
    destruct (shouldRetry _ _ _).
    + specialize (IH (n + 1) (count (invalidate s2 (DataAddress w)) [Metrics.OInc "aetherserve_request_retries_total"])
        (with_attempt request n) ({[w_ID w]} ∪ excluded) (Some e)).
      destruct (attempts _ _ _ _ _ _ _) as [[s3 ws] opened]. simpl in IH |- *.
      etransitivity; [|exact IH]. by apply Hsame.
    + pose proof (precommit_admission (invalidate s2 (DataAddress w)) (r_ID (with_attempt request n)) (e_ctx_write env) e) as Hp.
      destruct (writePrecommitAttemptError _ _ _ _) as [s3 ws]. by apply Hsame.
  - destruct previous as [e'|]; [|by apply Hsame].
    pose proof (precommit_admission s1 (r_ID (with_attempt request n)) (e_ctx_write env) e') as Hp.
    destruct (writePrecommitAttemptError _ _ _ _) as [s3 ws]. by apply Hsame.
Qed.
End Frame.

(** Other requests keep the controller consistent and do not release lease [i]. *)
Definition preserves (i : nat) (s s' : Server) : Prop :=
  server_ok s -> server_ok s' /\ held s' i = held s i.

Definition keeps (i : nat) (env : chat_env) : Prop :=
  attempt_within (preserves i) (c_first env) /\ attempt_within (preserves i) (c_second env) /\
  forall s, preserves i s (c_releasing env s).

Lemma preserves_same (i : nat) (s s' : Server) : s_admission s' = s_admission s -> preserves i s s'.
Proof. unfold preserves, server_ok. by intros ->. Qed.

#[local] Instance preserves_trans (i : nat) : Transitive (preserves i).
Proof.
  intros a b c Hab Hbc Ha. destruct (Hab Ha) as [Hb Eb]. destruct (Hbc Hb) as [Hc Ec].
  split; [done|]. by rewrite Ec.
Qed.

(** The server with no other request: nobody else touches the controller. *)
Definition same_admission (s s' : Server) : Prop := s_admission s' = s_admission s.

#[local] Instance same_admission_trans : Transitive same_admission.
Proof. intros a b c Hab Hbc. unfold same_admission in *. congruence. Qed.

Definition alone (env : chat_env) : Prop :=
  attempt_within same_admission (c_first env) /\ attempt_within same_admission (c_second env) /\
  (forall s, same_admission s (c_reserving env s)) /\ (forall s, same_admission s (c_releasing env s)).

(** ** Properties *)

(** C6: On every path, whatever the workers, the client and the other requests do,
    the lease that admission granted is released exactly when the handler
    returns, and the release does not panic; a request that was refused or
    rejected holds no lease. *)
Theorem chat_releases_lease (s : Server) (env : chat_env) :
  server_ok s -> (forall s, server_ok s -> server_ok (c_reserving env s)) ->
  let r := handleChat s env in
  (forall i, cr_lease r = Some i -> keeps i env) ->
  cr_panic r = None /\ server_ok (cr_server r) /\
  match cr_lease r with Some i => held (cr_server r) i = None | None => cr_attempts r = [] end.
Proof.
  intros Hok Hres. cbn zeta. unfold handleChat.
  destruct (parseRequest _ _ _ _) as [request|e]; [|intros _; by split_and!].
  destruct (_ =? 0)%nat; [intros _; by split_and!|].
  set (s1 := c_reserving env _). assert (server_ok s1) as Hok1 by (by apply Hres).
  destruct (Admission.Reserve (s_admission s1) _ _ _) as [a [lease|e]] eqn:Hr; [|].
  - destruct (reserve_granted (s_admission s1) a (c_reserve_now env) (TenantID request)
      (reservation_cost request) lease Hok1 (wrap_u64_range _) Hr) as (Ha & _ & Hheld & _ & _).
    set (s2 := count _ _). assert (server_ok s2) as Hok2 by exact Ha.
    assert (held s2 lease = Some (reservation_cost request)) as Hh2 by exact Hheld.
    pose proof (attempts_within (preserves lease) (preserves_same lease) [c_first env; c_second env] 1 s2
      request ∅ None (c_started env)) as Hp.
    destruct (attempts _ _ _ _ _ _ _) as [[s3 ws] opened]. simpl in Hp. intros Hk.
    assert (forall x y z, cr_lease (finish x lease y z) = Some lease) as Hl
      by (intros; unfold finish; by destruct (Admission.Release _ _)).
    specialize (Hk lease (Hl _ _ _)) as (Hk1 & Hk2 & Hk3).
    destruct Hp as [Hok3 Hh3]; [do 2 (apply Forall_cons_2; [done|]); apply Forall_nil_2|done|].
    destruct (Hk3 s3 Hok3) as [Hok4 Hh4].
    destruct (release_held (s_admission (c_releasing env s3)) lease (reservation_cost request) Hok4)
      as (a' & Hrel & Hok5 & Hnone & _); [by rewrite Hh4, Hh3|].
    change (Admission.Release (s_admission (c_releasing env s3)) (Some lease) = Ok a') in Hrel.
    unfold finish. rewrite Hrel. by split_and!.
  - destruct (reserve_refused (s_admission s1) a (c_reserve_now env) (TenantID request)
      (reservation_cost request) e Hok1 (wrap_u64_range _) Hr) as (Ha & _). intros _. by split_and!.
Qed.

(** A request leaves no residue: when nobody else reserves or releases, the
    in-flight tokens and every lease are as they were before it, whatever path it
    took. *)
Theorem chat_no_residue (s : Server) (env : chat_env) :
  server_ok s -> alone env ->
  let s' := cr_server (handleChat s env) in
  server_ok s' /\
  Admission.InFlight (s_admission s') = Admission.InFlight (s_admission s) /\
  forall j, held s' j = held s j.
Proof.
  intros Hok (Hf & Hs & Hres & Hrel). cbn zeta. unfold handleChat.
  destruct (parseRequest _ _ _ _) as [request|e]; [|by split_and!].
  destruct (_ =? 0)%nat; [by split_and!|].
  set (s1 := c_reserving env _). assert (s_admission s1 = s_admission s) as E1 by exact (Hres _).
  assert (server_ok s1) as Hok1 by (unfold server_ok; by rewrite E1).
  destruct (Admission.Reserve (s_admission s1) _ _ _) as [a [lease|e]] eqn:Hr.
  - destruct (reserve_granted (s_admission s1) a (c_reserve_now env) (TenantID request)
      (reservation_cost request) lease Hok1 (wrap_u64_range _) Hr) as (Ha & Hfree & Hheld & Hoth & Hin).
    set (s2 := count _ _). assert (s_admission s2 = a) as E2 by done.
    pose proof (attempts_within same_admission (fun _ _ H => H) [c_first env; c_second env] 1 s2
      request ∅ None (c_started env)) as Hp.
    destruct (attempts _ _ _ _ _ _ _) as [[s3 ws] opened]. simpl in Hp.
    assert (s_admission (c_releasing env s3) = a) as E3.
    { transitivity (s_admission s3); [apply Hrel|]. rewrite <- E2. apply Hp.
      do 2 (apply Forall_cons_2; [done|]). apply Forall_nil_2. }
    unfold finish. rewrite E3.
    destruct (release_held a lease (reservation_cost request) Ha Hheld)
      as (a' & Hrl & Hok' & Hnone & Hoth' & Hin').
    change (Admission.Release a (Some lease) = Ok a') in Hrl. rewrite Hrl. simpl.
    rewrite E1 in *. split_and!; [exact Hok'| |].
    + change (Admission.InFlight a' = Admission.InFlight a - reservation_cost request) in Hin'.
      change (Admission.InFlight a = Admission.InFlight (s_admission s) + reservation_cost request) in Hin.
      lia.
    + intros j. destruct (decide (j = lease)) as [->|Hj]; [exact (eq_trans Hnone (eq_sym Hfree))|].
      exact (eq_trans (Hoth' j Hj) (Hoth j Hj)).
  - destruct (reserve_refused (s_admission s1) a (c_reserve_now env) (TenantID request)
      (reservation_cost request) e Hok1 (wrap_u64_range _) Hr) as (Ha & Hh & Hin).
    rewrite E1 in *. by split_and!.
Qed.

(** ** Responses *)
Lemma forward_writes (request : Request) (started : Time) (l : arrivals) :
  exists es, writes (forwardCommitted request error_text started l) = WriteSSE <$> es.
Proof.
  assert (forall now ok a, exists es,
    writes (forward_step request error_text started now ok a) = WriteSSE <$> es) as Hstep.
  { intros now ok [[c|e]| |]; simpl; [|by exists [SSEError (stream_error request (error_text e)); SSEDone]
      |by exists [SSEError (stream_error request "worker stream closed without completion"); SSEDone]
      |by exists []].
    destruct (Final c); [destruct (_ =? _)%string|unfold write_token; destruct ok].
    - by exists [SSEError (stream_error request terminal_generation_error); SSEDone].
    - by eexists [_; _].
    - by eexists [_].
    - by exists []. }
  induction l as [now ok e l [es IH]|now a]; [|apply Hstep]. cbn [forwardCommitted].
  destruct (Hstep now ok (Arrived e)) as [es' H']. destruct (continues _); [|eauto].
  exists (es' ++ es). cbn [writes join]. by rewrite H', IH, fmap_app.
Qed.

Lemma respond_writes (env : attempt_env) (request : Request) (started : Time) (chunk : Chunk) :
  exists es, writes (respond env request started chunk) =
    WriteStreamHeaders (r_ID request) :: (WriteSSE <$> es).
Proof.
  unfold respond. destruct (forward_writes request started (e_rest env)) as [es Hes].
  assert (exists es0, writes (commit_step request started (e_commit_now env) (e_write_ok env) chunk) =
    WriteStreamHeaders (r_ID request) :: (WriteSSE <$> es0)) as [es0 H0].
  { unfold commit_step, prepend, write_token. destruct (Final chunk); simpl; [by eexists [_; _]|].
    destruct (e_write_ok env); simpl; [by eexists [_]|by exists []]. }
  destruct (continues _); [|eauto]. exists (es0 ++ es). cbn [writes join]. by rewrite H0, Hes, fmap_app.
Qed.

(** The response of a request is one API error, or the headers and events. *)
Definition one_response (id : string) (statuses : list Z) (ws : list http_event) : Prop :=
  (exists e, ws = [WriteAPIError e] /\ ae_RequestID e = id /\ ae_Status e ∈ statuses) \/
  exists es, ws = WriteStreamHeaders id :: (WriteSSE <$> es).

Definition attempt_statuses : list Z :=
  [StatusBadGateway; StatusServiceUnavailable; StatusGatewayTimeout].

Lemma precommit_writes (s : Server) (id : string) (ctx : option GoError) (e : GoError) :
  one_response id attempt_statuses (writePrecommitAttemptError s id ctx e).2.
Proof.
  left. unfold writePrecommitAttemptError. destruct ctx as [[]|]; eexists; (split; [done|]);
    (split; [done|]); unfold attempt_statuses; simpl; set_solver.
Qed.

Lemma attempts_writes (envs : list attempt_env) (n : Z) (s : Server) (request : Request)
    (excluded : gset string) (previous : option GoError) (started : Time) :
  n + Z.of_nat (length envs) = 3 -> envs <> [] ->
  one_response (r_ID request) attempt_statuses
    (attempts envs n s request excluded previous started).1.2.
Proof.
  revert n s request excluded previous.
  induction envs as [|env envs IH]; intros n s request excluded previous Hn Hne; [done|].
  cbn [attempts]. destruct (selectWorker _ _ _ _) as [s1 [d [w|e]]].
  - destruct (start_attempt _ _ _) as [s2 [chunk|e]].
    + right. exact (respond_writes env (with_attempt request n) started chunk).
    + destruct (shouldRetry _ _ n) eqn:Hs.
      * specialize (IH (n + 1) (count (invalidate s2 (DataAddress w)) [Metrics.OInc "aetherserve_request_retries_total"])
          (with_attempt request n) ({[w_ID w]} ∪ excluded) (Some e)).
        destruct (attempts _ _ _ _ _ _ _) as [[s3 ws] opened]. apply IH; simpl in *; [lia|].
        intros ->. simpl in Hn. unfold shouldRetry in Hs.
        rewrite (proj2 (Z.leb_le 2 n)) in Hs by lia. done.
      * pose proof (precommit_writes (invalidate s2 (DataAddress w)) (r_ID (with_attempt request n)) (e_ctx_write env) e) as Hp.
        by destruct (writePrecommitAttemptError _ _ _ _) as [s3 ws].
  - destruct previous as [e'|].
    + pose proof (precommit_writes s1 (r_ID (with_attempt request n)) (e_ctx_write env) e') as Hp.
      by destruct (writePrecommitAttemptError _ _ _ _) as [s3 ws].
    + left. eexists. split; [done|]. split; [done|]. unfold attempt_statuses; simpl. set_solver.
Qed.

(** C15: Every request gets exactly one response, never a mixture: an API error with a
    documented status, or the stream headers followed by events only. After the
    headers no status can be written, so nothing is retried once committed. *)
Theorem chat_one_response (s : Server) (env : chat_env) :
  (exists e, cr_writes (handleChat s env) = [WriteAPIError e] /\
     ae_Status e ∈ StatusBadRequest :: StatusTooManyRequests :: StatusInternalServerError :: attempt_statuses) \/
  exists id es, cr_writes (handleChat s env) = WriteStreamHeaders id :: (WriteSSE <$> es).
Proof.
  unfold handleChat. destruct (parseRequest _ _ _ _) as [request|e] eqn:Hp.
  2: { left. exists e. split; [done|]. rewrite (parseRequest_status _ _ _ _ _ Hp). set_solver. }
  destruct (_ =? 0)%nat; [left; eexists; split; [done|]; unfold attempt_statuses; simpl; set_solver|].
  destruct (Admission.Reserve _ _ _ _) as [a [lease|e]].
  - match goal with |- context [attempts ?l 1 ?x request ∅ None ?t] =>
      pose proof (attempts_writes l 1 x request ∅ None t eq_refl ltac:(discriminate)) as Hw;
      destruct (attempts l 1 x request ∅ None t) as [[s3 ws] opened] end.
    assert (forall x, cr_writes (finish x lease ws opened) = ws) as ->
      by (intros; unfold finish; by destruct (Admission.Release _ _)).
    destruct Hw as [(e & Hw & _ & He) | [es Hw]]; simpl in Hw; subst; [left|right; eauto].
    exists e. split; [done|]. set_solver.
  - left. eexists. split; [done|]. destruct e; unfold attempt_statuses; simpl; set_solver.
Qed.

(** ** Attempts *)
Lemma selectWorker_not_excluded (s s' : Server) (now : Time) (request : Request) (excluded : gset string)
    (d : RoutingDecision) (w : Worker) :
  selectWorker s now request excluded = (s', (d, Ok w)) -> w_ID w ∉ excluded.
Proof.
  unfold selectWorker, select_from.
  destruct (Routing.Select _ _ _ _) as [r [d' [e|]]] eqn:HS; [done|].
  apply Routing.select_worker in HS as (w' & _ & Hid & Hm).
  destruct (list_find _ _) as [[i w'']|] eqn:Hf; [|done]. intros [= _ <- <-].
  apply list_find_Some in Hf as (_ & Hid' & _). rewrite Hid', <- Hid.
  unfold Routing.may_route, Routing.ineligibility in Hm. by case_decide.
Qed.

Definition attempt_name (id : string) (n : Z) : string := id +:+ "-a" +:+ itoa n.

(** The attempts that the loop opens, seen from its first turn. *)
Lemma attempts_opened (env : attempt_env) (envs : list attempt_env) (n : Z) (s : Server) (request : Request)
    (excluded : gset string) (previous : option GoError) (started : Time) :
  let opened := (attempts (env :: envs) n s request excluded previous started).2 in
  opened = [] \/
  exists w, (w ∉ excluded) /\
    (opened = [(attempt_name (r_ID request) n, w)] \/
     exists e s1 address s2 r2 excluded2,
       (start_attempt env s1 address).2 = Err e /\ shouldRetry (e_ctx_retry env) e n = true /\
       w ∈ excluded2 /\ r_ID r2 = r_ID request /\
       opened = (attempt_name (r_ID request) n, w) ::
                (attempts envs (n + 1) s2 r2 excluded2 (Some e) started).2).
Proof.
  cbn [attempts]. destruct (selectWorker _ _ _ _) as [s1 [d [w|e]]] eqn:Hsel.
  - right. exists (w_ID w). split; [by eapply selectWorker_not_excluded|].
    set (sc := count s1 (decision_metrics (e_decision_seconds env) d w)).
    destruct (start_attempt env sc (DataAddress w)) as [s2 [chunk|e]] eqn:Hst; [by left|].
    destruct (shouldRetry _ _ _) eqn:Hr.
    + right. set (s3 := count _ _).
      exists e, sc, (DataAddress w), s3, (with_attempt request n), ({[w_ID w]} ∪ excluded).
      rewrite Hst. destruct (attempts _ _ _ _ _ _ _) as [[s4 ws] opened]. split_and!; try done. set_solver.
    + left. by destruct (writePrecommitAttemptError _ _ _ _).
  - left. destruct previous; [|done]. by destruct (writePrecommitAttemptError _ _ _ _).
Qed.

(** C16: A request is tried at most twice. The second attempt has its own ID and runs
    on another worker, and is made only when the first failed before anything was
    sent to the client, with an error worth a retry and a live context. *)
Theorem chat_attempts (s : Server) (env : chat_env) :
  let opened := cr_attempts (handleChat s env) in
  opened = [] \/
  exists id w1, opened = [(attempt_name id 1, w1)] \/
    exists w2 e s1 address, opened = [(attempt_name id 1, w1); (attempt_name id 2, w2)] /\ w1 <> w2 /\
      (start_attempt (c_first env) s1 address).2 = Err e /\
      shouldRetry (e_ctx_retry (c_first env)) e 1 = true.
Proof.
  cbn zeta. unfold handleChat. destruct (parseRequest _ _ _ _) as [request|e]; [|by left].
  destruct (_ =? 0)%nat; [by left|].
  destruct (Admission.Reserve _ _ _ _) as [a [lease|e]]; [|by left].
  match goal with |- context [attempts [?e1; ?e2] 1 ?x request ∅ None ?t] =>
    pose proof (attempts_opened e1 [e2] 1 x request ∅ None t) as H1;
    destruct (attempts [e1; e2] 1 x request ∅ None t) as [[s3 ws] opened] end.
  assert (forall x, cr_attempts (finish x lease ws opened) = opened) as ->
    by (intros; unfold finish; by destruct (Admission.Release _ _)).
  cbn [snd] in H1. destruct H1 as [->|(w1 & _ & [-> | (e & s1 & address & s2 & r2 & ex & He & Hr & Hw & Hid & ->)])];
    [by left|right; eexists; eexists; by left|right].
  exists (r_ID request), w1.
  destruct (attempts_opened (c_second env) [] (1 + 1) s2 r2 ex (Some e) (c_started env))
    as [->|(w2 & Hw2 & [-> | (e2 & s4 & a4 & s5 & r5 & ex5 & _ & Hr2 & _)])]; [by left| |].
  - right. exists w2, e, s1, address. rewrite Hid. split_and!; try done. by intros ->.
  - by unfold shouldRetry in Hr2.
Qed.

(** With the documented behaviour of [status.Code] - the code of a status error,
    Unknown for every other error - an attempt is retried exactly once, for every
    error but a cancellation and the statuses that blame the request. *)
Theorem shouldRetry_spec (ctx : option GoError) (e : GoError) (n : Z) :
  (forall c m, Code (EStatus c m) = c) ->
  (forall e, (forall c m, e <> EStatus c m) -> Code e = codes_Unknown) ->
  shouldRetry ctx e n = true <->
  n < 2 /\ ctx = None /\
  match e with
  | ECanceled => False
  | EStatus c _ => c = codes_OK \/ c = codes_Unknown \/ c = codes_DeadlineExceeded \/
      c = codes_Internal \/ c = codes_Unavailable
  | _ => True
  end.
Proof.
  intros Hst Hunk. unfold shouldRetry.
  destruct (2 <=? n) eqn:Hn; bool_facts; [split; [done|lia]|].
  destruct ctx as [c|]; [by split; [|intros (_ & ? & _)]|].
  cbn [orb bool_decide]. rewrite bool_decide_false by (by intros [? ?]).
  destruct e; try (rewrite Hunk by done; simpl; by split_and!);
    try (by split; [|intros (_ & _ & ?)]).
  rewrite Hst. cbn [is_canceled].
  unfold codes_OK, codes_Unknown, codes_DeadlineExceeded, codes_Internal, codes_Unavailable.
  rewrite <- (Z.eqb_eq code 0), <- (Z.eqb_eq code 2), <- (Z.eqb_eq code 4), <- (Z.eqb_eq code 13),
    <- (Z.eqb_eq code 14).
  destruct (code =? 14), (code =? 2), (code =? 13), (code =? 4), (code =? 0); simpl; intuition.
Qed.
End Chat.

(** ** Witnesses: one request, served or failed over, with nobody else around *)
Definition ex_attempt_env (first : option attemptEvent) : attempt_env :=
  {| e_before := id; e_select_now := 200; e_decision_seconds := fzero; e_dial := Ok 0%nat;
     e_dialing := id; e_generate := None; e_waiting := id; e_first := first;
     e_ctx_retry := None; e_ctx_write := None; e_commit_now := 300; e_write_ok := true;
     e_rest := AEnd 400 (Arrived (EvChunk ex_final)) |}.

Definition ex_chat_env (first : attemptEvent) : chat_env :=
  {| c_started := 150; c_random := Err "unused"; c_parse_now := 160; c_incoming := incoming_request 8;
     c_healthy_now := 170; c_reserving := id; c_reserve_now := 180;
     c_first := ex_attempt_env (Some first); c_second := ex_attempt_env None; c_releasing := id |}.

Definition ex_code (e : GoError) : Z := match e with EStatus c _ => c | _ => codes_Unknown end.

Lemma ex_server_ok : server_ok ex_registered.
Proof. split; [done|by vm_compute|constructor|done|by vm_compute]. Qed.

Lemma ex_alone (first : attemptEvent) : alone (ex_chat_env first).
Proof. by split_and!. Qed.

(** The lease of a request served to the end is released. *)
Lemma chat_releases_lease_witness :
  let r := handleChat ex_code ex_text_of ex_registered (ex_chat_env (EvChunk ex_token)) in
  cr_lease r = Some 0%nat /\ cr_panic r = None /\ lim_held (E := Admission.AdmissionError) (s_admission (cr_server r)) 0%nat = None.
Proof.
  intros r. assert (cr_lease r = Some 0%nat) as Hl by (vm_compute; reflexivity).
  destruct (chat_releases_lease ex_code ex_text_of ex_registered (ex_chat_env (EvChunk ex_token))) as (Hp & _ & Hh).
  - exact ex_server_ok.
  - intros s Hs. exact Hs.
  - intros i _. split; [|split]; [split_and!; intros s Hs; split; done..|intros s Hs; split; done].
  - fold r in Hp, Hh. rewrite Hl in Hh. split; [exact Hl|]. split; [exact Hp|exact Hh].
Defined.

(** A failed first attempt, no second worker: an error, and no residue. *)
Lemma chat_no_residue_witness :
  let r := handleChat ex_code ex_text_of ex_registered (ex_chat_env (EvErr (EStatus codes_Unavailable "down"))) in
  cr_attempts r = [("req-1-a1", "w1")] /\ Admission.InFlight (s_admission (cr_server r)) = 0.
Proof.
  intros r. split; [vm_compute; reflexivity|].
  exact (proj1 (proj2 (chat_no_residue ex_code ex_text_of ex_registered
    (ex_chat_env (EvErr (EStatus codes_Unavailable "down"))) ex_server_ok (ex_alone _)))).
Defined.

Lemma shouldRetry_spec_witness : shouldRetry ex_code None (EStatus codes_Unavailable "down") 1 = true.
Proof.
  apply (shouldRetry_spec ex_code).
  - reflexivity.
  - intros [] H; try reflexivity. exfalso. exact (H _ _ eq_refl).
  - split; [reflexivity|]. split; [reflexivity|]. right; right; right; right. reflexivity.
Defined.
