(* ===== verification/ChatMetrics.v ===== *)
(** * The metrics of a chat request: [handleChat] of [src/internal/gateway/http.go]

    The counters against the response: those of an attempt in every interleaving
    of its two goroutines, and those of the whole handler for a request with
    nobody else around. *)

From S2P Require Import Prelude GoFloat GoString Model Examples Interfaces Wire Protocol Parse Sse Stream Gateway Chat.
From S2P Require Config Registry Admission Routing Metrics WorkerClient.

#[local] Open Scope Z_scope.
#[local] Open Scope go_scope.

Definition requests_total : string := "aetherserve_requests_total".
Definition rejections_total : string := "aetherserve_request_rejections_total".
Definition input_tokens_total : string := "aetherserve_input_tokens_total".
Definition output_tokens_total : string := "aetherserve_output_tokens_total".
Definition midstream_failures_total : string := "aetherserve_midstream_failures_total".
Definition precommit_failures_total : string := "aetherserve_precommit_worker_failures_total".
Definition cancellations_total : string := "aetherserve_client_cancellations_total".

(** The counters that follow the events of the response one by one. *)
Definition followed : list string :=
  [rejections_total; output_tokens_total; midstream_failures_total; precommit_failures_total].

Definition on (name : string) (b : bool) (this : string) : Z := if b && (this =? name)%string then 1 else 0.

(** What an event of the response adds to a counter. *)
Definition event_amount (this : string) (w : http_event) : Z :=
  match w with
  | WriteSSE (SSEToken _) => on output_tokens_total true this
  | WriteSSE (SSEError _) => on midstream_failures_total true this
  | WriteAPIError e =>
      on precommit_failures_total (ae_Status e =? StatusBadGateway) this +
      on rejections_total ((ae_Status e =? StatusServiceUnavailable) || (ae_Status e =? StatusTooManyRequests) ||
        (ae_Status e =? StatusInternalServerError)) this
  | _ => 0
  end.

Definition tally (this : string) (ws : list http_event) : Z := sum_list_Z (event_amount this <$> ws).

Definition is_headers (w : http_event) : bool := match w with WriteStreamHeaders _ => true | _ => false end.
Definition is_done (w : http_event) : bool := match w with WriteSSE SSEDone => true | _ => false end.

(** A stream that was begun and has no end marker: the client went away. *)
Definition abandoned (ws : list http_event) : bool := existsb is_headers ws && negb (existsb is_done ws).

Definition amount (name : string) (ops : list Metrics.op) : Z := sum_list_Z (Metrics.counted name <$> ops).

Lemma amount_app (name : string) (o1 o2 : list Metrics.op) : amount name (o1 ++ o2) = amount name o1 + amount name o2.
Proof. unfold amount. by rewrite fmap_app, sum_list_Z_app. Qed.

Lemma tally_app (name : string) (w1 w2 : list http_event) : tally name (w1 ++ w2) = tally name w1 + tally name w2.
Proof. unfold tally. by rewrite fmap_app, sum_list_Z_app. Qed.

Lemma run_ops_app (m : Metrics.Registry) (o1 o2 : list Metrics.op) :
  Metrics.run_ops m (o1 ++ o2) = Metrics.run_ops (Metrics.run_ops m o1) o2.
Proof. apply foldl_app. Qed.

(** ** One step of the handler *)

(** The counters of a log agree with a response. *)
Record agrees (ops : list Metrics.op) (ws : list http_event) (left : bool) : Prop := {
  ag_followed : Forall (fun name => amount name ops = tally name ws) followed;
  ag_requests : amount requests_total ops = 0;
  ag_input : amount input_tokens_total ops = 0;
  ag_cancel : amount cancellations_total ops = if left then 1 else 0;
}.

Lemma agrees_nil : agrees [] [] false.
Proof. by split; [repeat apply Forall_cons_2; [..|apply Forall_nil_2]| | |]. Qed.

Lemma agrees_app (o1 o2 : list Metrics.op) (w1 w2 : list http_event) (l : bool) :
  agrees o1 w1 false -> agrees o2 w2 l -> agrees (o1 ++ o2) (w1 ++ w2) l.
Proof.
  intros [H1 H2 H3 H4] [E1 E2 E3 E4]. split; rewrite ?amount_app; try lia.
  unfold followed in *. rewrite list.Forall_forall in *. intros name Hn.
  rewrite amount_app, tally_app. rewrite (H1 name Hn), (E1 name Hn). done.
Qed.

(** Concrete logs and responses are compared name by name. *)
Ltac by_names := split; [repeat (apply Forall_cons_2; [reflexivity|]); apply Forall_nil_2|reflexivity..].

Ltac by_effect := split; [by_names|let H := fresh in intros H; first [reflexivity|cbn in H; discriminate H]].

Section Effects.
Context (error_text : GoError -> string) (request : Request) (started : Time).

Definition effect_ok (f : effect) : Prop :=
  agrees (counts f) (writes f) (negb (continues f) && negb (existsb is_done (writes f))) /\
  (continues f = true -> existsb is_done (writes f) = false).

Lemma forward_step_ok (now : Time) (ok : bool) (a : arrival) :
  effect_ok (forward_step request error_text started now ok a).
Proof.
  unfold forward_step, effect_ok. destruct a as [[c|e]| |]; [|by_effect..].
  destruct (Final c); [destruct (_ =? _)%string; split; [by_names|done|by_names|done]|].
  unfold write_token. destruct ok; by_effect.
Qed.

Lemma join_ok (f g : effect) :
  effect_ok f -> effect_ok g -> continues f = true -> effect_ok (join f g).
Proof.
  intros [Hf Hd] [Hg He] Hc. rewrite Hc in Hf. specialize (Hd Hc). unfold effect_ok. cbn [join counts writes continues].
  rewrite existsb_app, Hd. split; [by apply agrees_app|done].
Qed.

Lemma forward_ok (s : arrivals) : effect_ok (forwardCommitted request error_text started s).
Proof.
  induction s as [now ok e s IH|now a]; cbn [forwardCommitted]; [|apply forward_step_ok].
  pose proof (forward_step_ok now ok (Arrived e)). destruct (continues _) eqn:Hc; [by apply join_ok|done].
Qed.

Lemma forward_ends (s : arrivals) : continues (forwardCommitted request error_text started s) = false.
Proof.
  induction s as [now ok e s IH|now a]; cbn [forwardCommitted]; [destruct (continues (forward_step _ _ _ _ _ _)) eqn:Hc; [exact IH|exact Hc]|].
  destruct a as [[c|e]| |]; try done. unfold forward_step. by repeat case_match.
Qed.

Lemma commit_step_ok (now : Time) (ok : bool) (c : Chunk) : effect_ok (commit_step request started now ok c).
Proof.
  unfold commit_step, prepend, write_token, effect_ok. destruct (Final c); [by_effect|].
  destruct ok; by_effect.
Qed.

Lemma respond_agrees (env : attempt_env) (c : Chunk) :
  agrees (counts (respond error_text env request started c)) (writes (respond error_text env request started c))
    (abandoned (writes (respond error_text env request started c))).
Proof.
  assert (effect_ok (respond error_text env request started c)) as [Ha _].
  { unfold respond. pose proof (commit_step_ok (e_commit_now env) (e_write_ok env) c) as Hf.
    destruct (continues _) eqn:Hc; [|done]. apply join_ok; [done|apply forward_ok|done]. }
  assert (continues (respond error_text env request started c) = false) as Hc.
  { unfold respond. destruct (continues (commit_step _ _ _ _ _)) eqn:Hc; [apply forward_ends|done]. }
  destruct (respond_writes error_text env request started c) as [es Hes].
  assert (existsb is_headers (writes (respond error_text env request started c)) = true) as Hh by by rewrite Hes.
  unfold abandoned. rewrite Hh. by rewrite Hc in Ha.
Qed.
End Effects.

(** ** The two goroutines of an attempt *)
Section Pipe.
Context {T : TimestampPb} (request : Request) (workerID : string) (error_text : GoError -> string).
Context (SSEBufferSize : nat) (started : Time).

Definition slow_clients_total : string := "aetherserve_slow_clients_total".

(** An event that the worker sent can no longer be delivered. *)
Definition event_lost (p : pipe) : Prop :=
  p_receiver p = Stopped /\ cancelled p = true /\
  exists lost, consumed p ++ chan p ++ [lost] `prefix_of` receiveAttempt request workerID 0 (history p).

Definition slow_counted (p : pipe) : Prop :=
  amount slow_clients_total (ops p) = 0 \/ amount slow_clients_total (ops p) = 1 /\ event_lost p.

(** The updates that the handler has made or is about to make. *)
Definition booked (name : string) (p : pipe) : Z := amount name (ops p) + amount name (due p).

(** Updates that a single write can call for. *)
Definition plain (o : Metrics.op) : bool := match o with Metrics.OAdd _ _ => false | _ => true end.

Definition single (l : list Metrics.op) : Prop :=
  Forall (fun name => amount name l <= 1) (requests_total :: cancellations_total :: followed) /\
  amount slow_clients_total l = 0 /\ Forall (fun o => plain o = true) l.

Record counters_inv (p : pipe) : Prop := {
  ci_followed : Forall (fun name => booked name p = tally name (out p)) followed;
  ci_cancel : booked cancellations_total p = if is_finished p && abandoned (out p) then 1 else 0;
  ci_open : is_finished p = false -> existsb is_done (out p) = false;
  ci_first : p_phase p = WaitFirst -> out p = [];
  ci_headers : p_phase p = Forwarding -> existsb is_headers (out p) = true;
  ci_slow : slow_counted p;
  ci_requests : booked requests_total p = 0;
  ci_due : single (due p);
}.

Lemma slow_receiving (p : pipe) : p_receiver p <> Stopped -> slow_counted p -> amount slow_clients_total (ops p) = 0.
Proof. by intros Hr [?|[_ [? _]]]. Qed.

Ltac by_single := split_and!; [repeat (apply Forall_cons_2; [by apply Z.leb_le|]); apply Forall_nil_2|reflexivity|by repeat constructor].

Lemma single_nil : single [].
Proof. by_single. Qed.

Lemma counted_nonneg (name : string) (o : Metrics.op) : plain o = true -> 0 <= Metrics.counted name o.
Proof. destruct o; cbn; try done; by case_match. Qed.

Lemma amount_nonneg (name : string) (l : list Metrics.op) : Forall (fun o => plain o = true) l -> 0 <= amount name l.
Proof.
  intros Hl. apply sum_list_Z_nonneg, Forall_fmap. eapply list.Forall_impl; [exact Hl|]. intros o. apply counted_nonneg.
Qed.

Lemma single_amount (name : string) (l : list Metrics.op) :
  single l -> name ∈ requests_total :: cancellations_total :: followed -> 0 <= amount name l <= 1.
Proof. intros (H & _ & Hl) Hn. rewrite list.Forall_forall in H. split; [by apply amount_nonneg|by apply H]. Qed.

(** What is left of such updates after one of them. *)
Lemma single_cons (o : Metrics.op) (l : list Metrics.op) :
  single (o :: l) -> single l /\ Metrics.counted slow_clients_total o = 0.
Proof.
  intros (H & Hs & [Ho Hl]%list.Forall_cons). pose proof (amount_nonneg slow_clients_total l Hl) as Hn.
  pose proof (counted_nonneg slow_clients_total o Ho) as Hc.
  change (Metrics.counted slow_clients_total o + amount slow_clients_total l = 0) in Hs.
  split; [|lia]. split; [|split; [lia|done]]. eapply list.Forall_impl; [exact H|]. intros name Hname.
  change (Metrics.counted name o + amount name l <= 1) in Hname. pose proof (counted_nonneg name o Ho). lia.
Qed.

(** A step that leaves the handler where it is. *)
Lemma counters_same (p p' : pipe) :
  p_phase p' = p_phase p -> out p' = out p -> due p' = due p -> ops p' = ops p -> slow_counted p' ->
  counters_inv p -> counters_inv p'.
Proof.
  intros Hp Ho Hw Hm Hs [H1 H2 H3 H4 H5 H6 H7 H8]. unfold booked in *.
  split; try done; unfold is_finished, booked in *; by rewrite ?Hp, ?Ho, ?Hw, ?Hm.
Qed.

Lemma forward_single (now : Time) (ok : bool) (a : arrival) :
  single (counts (forward_step request error_text started now ok a)).
Proof.
  unfold forward_step. destruct a as [[c|e]| |]; try by_single.
  destruct (Final c); [destruct (_ =? _)%string; by_single|destruct ok; by_single].
Qed.

Lemma commit_single (now : Time) (ok : bool) (c : Chunk) : single (counts (commit_step request started now ok c)).
Proof. unfold commit_step, prepend. destruct (Final c); [by_single|destruct ok; by_single]. Qed.

(** What the handler takes stays among the worker's events. *)
Lemma write_slow (p : pipe) (took rest : list attemptEvent) (f : effect) (err : option GoError) :
  chan p = took ++ rest -> slow_counted p -> slow_counted (write p took rest f err).
Proof.
  intros Hc Hs. unfold slow_counted, event_lost in *. cbn [write p_receiver consumed chan history ops cancelled].
  destruct Hs as [?|(? & ? & Hx & lost & Hl)]; [by left|right].
  rewrite Hx. split_and!; try done. exists lost. by rewrite Hc, <- !app_assoc in *.
Qed.

Lemma write_counters (p : pipe) (took rest : list attemptEvent) (f : effect) (err : option GoError) :
  chan p = took ++ rest -> due p = [] -> is_finished p = false -> single (counts f) -> effect_ok f ->
  existsb is_headers (out p ++ writes f) = true -> counters_inv p -> counters_inv (write p took rest f err).
Proof.
  intros Hc Hw Hp Hs [[A1 A2 _ A4] Hd] Hh [H1 H2 H3 H4 H5 H6 H7 _]. rewrite Hp in H2. specialize (H3 Hp).
  assert (forall name, booked name (write p took rest f err) = booked name p + amount name (counts f)) as Hb.
  { intros name. unfold booked. rewrite Hw. cbn [write ops due]. change (amount name []) with 0. lia. }
  split.
  - rewrite list.Forall_forall in *. intros name Hn. cbn [write out].
    by rewrite Hb, tally_app, (H1 name Hn), (A1 name Hn).
  - rewrite Hb, H2, A4. cbn [write out]. unfold is_finished. cbn [write p_phase]. unfold abandoned.
    rewrite Hh, existsb_app, H3. by destruct (continues f).
  - unfold is_finished. cbn [write p_phase out]. rewrite existsb_app, H3. destruct (continues f); [|done].
    intros _. by apply Hd.
  - cbn [write p_phase]. by destruct (continues f).
  - done.
  - by apply write_slow.
  - by rewrite Hb, H7, A2.
  - done.
Qed.

Lemma cancel_counters (b : bool) (p : pipe) : counters_inv p -> counters_inv (cancel_attempt b p).
Proof.
  intros Hi. apply (counters_same p); try done. destruct (ci_slow _ Hi) as [?|(? & ? & Hx & He)]; [by left|right].
  unfold event_lost. cbn [cancel_attempt cancelled]. by rewrite Hx.
Qed.

Lemma take_first_counters (p : pipe) (now : Time) (ok : bool) (took rest : list attemptEvent) :
  chan p = took ++ rest -> due p = [] -> p_phase p = WaitFirst -> counters_inv p ->
  counters_inv (take_first request p started now ok took rest).
Proof.
  intros Hc Hw Hp Hi. assert (is_finished p = false) as Hf by (unfold is_finished; by rewrite Hp).
  unfold take_first. destruct (first_event (head took)) as [c|e].
  - apply cancel_counters, write_counters; try done; [apply commit_single|apply (commit_step_ok request started now ok c)|].
    by rewrite (ci_first _ Hi Hp).
  - destruct Hi as [H1 H2 H3 H4 H5 H6 H7 _]. specialize (H4 Hp). rewrite H4, Hf in *. unfold booked in *. rewrite Hw in *.
    split; try done; unfold booked; cbn [write ops due out no_effect counts writes]; rewrite ?H4; try done.
    + by apply write_slow.
    + apply single_nil.
Qed.

Lemma forward_counters (p : pipe) (now : Time) (ok : bool) (a : arrival) (took rest : list attemptEvent) :
  chan p = took ++ rest -> due p = [] -> p_phase p = Forwarding -> counters_inv p ->
  counters_inv (write p took rest (forward_step request error_text started now ok a) None).
Proof.
  intros Hc Hw Hp Hi. apply write_counters; [done|done|unfold is_finished; by rewrite Hp|apply forward_single| | |done].
  - apply forward_step_ok.
  - by rewrite existsb_app, (ci_headers _ Hi Hp).
Qed.

Lemma update_booked (p : pipe) (o : Metrics.op) (rest : list Metrics.op) (name : string) :
  due p = o :: rest -> booked name (update p o rest) = booked name p.
Proof.
  intros Hw. unfold booked. rewrite Hw. cbn [update ops due]. rewrite amount_app.
  change (amount name (o :: rest)) with (Metrics.counted name o + amount name rest).
  change (amount name [o]) with (Metrics.counted name o + 0). lia.
Qed.

Lemma step_counters (p p' : pipe) :
  step request workerID error_text SSEBufferSize started p p' ->
  events_inv request workerID p -> counters_inv p -> counters_inv p'.
Proof.
  intros Hs He Hi. pose proof (ci_slow _ Hi) as Hsl.
  destruct Hs as [p n o Hr|p e next Hr _|p e next Hr _|p e next Hr|p e rest now ok Hp Hw Hc|
    p now Hp Hw Hc Hr|p e rest now ok Hp Hw Hc|p now Hp Hw Hc Hr|p now Hp Hw Hd|p o rest Hw|p Hd].
  - apply slow_receiving in Hsl; [|by rewrite Hr]. unfold received. destruct (receive_step request workerID n o).
    by apply (counters_same p); [..|left|].
  - apply slow_receiving in Hsl; [|by rewrite Hr]. destruct next; by apply (counters_same p); [..|left|].
  - apply slow_receiving in Hsl; [|by rewrite Hr]. by apply (counters_same p); [..|left|].
  - apply slow_receiving in Hsl; [|by rewrite Hr]. destruct Hi as [H1 H2 H3 H4 H5 H6 H7 H8].
    unfold events_inv in He. rewrite Hr in He. destruct He as [He _].
    assert (forall name, name <> slow_clients_total -> booked name (slow_client p) = booked name p) as Hb.
    { intros name Hn. unfold booked. cbn [slow_client ops due]. rewrite amount_app.
      change (amount name [_]) with ((if (slow_clients_total =? name)%string then 1 else 0) + 0).
      apply not_eq_sym, String.eqb_neq in Hn. rewrite Hn. lia. }
    split; try done; rewrite ?Hb; try done.
    + rewrite list.Forall_forall in *. intros name Hn. rewrite Hb; [by apply H1|]. intros ->.
      unfold followed in Hn. repeat (apply elem_of_cons in Hn as [[=]|Hn]); by apply not_elem_of_nil in Hn.
    + right. split; [cbn [slow_client ops]; by rewrite amount_app, Hsl|]. split_and!; [done..|]. exists e.
      cbn [slow_client consumed chan history]. rewrite <- He, <- app_assoc. done.
  - by apply take_first_counters.
  - by apply take_first_counters.
  - by apply forward_counters.
  - by apply forward_counters.
  - by apply forward_counters.
  - destruct Hi as [H1 H2 H3 H4 H5 H6 H7 H8]. pose proof (update_booked p o rest) as Hb.
    rewrite Hw in H8. apply single_cons in H8 as [H8 Ho]. split; try done; rewrite ?Hb by done; try done.
    + eapply list.Forall_impl; [exact H1|]. intros name Hn. by rewrite Hb.
    + destruct H6 as [H6|(H6 & Hr & Hx & Hl)]; [left|right]; cbn [update ops]; rewrite amount_app, H6;
        change (amount slow_clients_total [o]) with (Metrics.counted slow_clients_total o + 0); rewrite Ho; [done|].
      split; [done|]. split; [done|]. split; [cbn [update cancelled]; by rewrite Hx|exact Hl].
  - by apply (counters_same p).
Qed.

Lemma reachable_counters (p : pipe) :
  reachable request workerID error_text SSEBufferSize started p -> counters_inv p.
Proof.
  intros Hr. eapply (rtc_invariant (step request workerID error_text SSEBufferSize started)
    (fun p => events_inv request workerID p /\ counters_inv p)); [| |exact Hr].
  - intros x y [He Hi] Hs. split; [by eapply step_events|by eapply step_counters].
  - split; [done|]. split; try done; [repeat (apply Forall_cons_2; [reflexivity|]); apply Forall_nil_2|by left|apply single_nil].
Qed.

(** C28: In every interleaving of the receiver and the handler of an attempt, the
    counters never run ahead of the response and at most one behind it: the
    tokens, the midstream failures and the cancellations counted, with the
    updates that the handler makes next, are the token events, the error events
    and the streams left without their end marker; an update is outstanding only
    between a write and the handler's next action, and none when it has returned.
    A slow client is counted at most once, and only when an event of the worker
    was lost and the attempt canceled. *)
Theorem attempt_metrics (p : pipe) :
  reachable request workerID error_text SSEBufferSize started p ->
  (forall name, name ∈ followed ->
     amount name (ops p) + amount name (due p) = tally name (out p) /\
     tally name (out p) - 1 <= amount name (ops p) <= tally name (out p)) /\
  amount cancellations_total (ops p) + amount cancellations_total (due p) =
    (if is_finished p && abandoned (out p) then 1 else 0) /\
  (returned p = true ->
     (forall name, name ∈ followed -> amount name (ops p) = tally name (out p)) /\
     amount cancellations_total (ops p) = if abandoned (out p) then 1 else 0) /\
  (amount slow_clients_total (ops p) = 0 \/ amount slow_clients_total (ops p) = 1 /\ event_lost p).
Proof.
  intros [H1 H2 _ _ _ H6 _ H8]%reachable_counters. rewrite list.Forall_forall in H1. unfold booked in *.
  split; [intros name Hn; pose proof (H1 name Hn); pose proof (single_amount name _ H8 ltac:(by do 2 right)); lia|].
  split; [exact H2|]. split; [|exact H6]. unfold returned. intros [Hf Hd]%andb_true_iff. rewrite Hf in H2.
  destruct (due p); [|done]. change (amount ?n []) with 0 in *. split; [|cbn [andb] in H2; by rewrite <- H2, Z.add_0_r].
  intros name Hn. rewrite <- (H1 name Hn). change (amount name []) with 0. lia.
Qed.

End Pipe.

(** The metrics of a decision are other metrics. *)
Lemma decision_agrees (seconds : float64) (d : RoutingDecision) (w : Worker) : agrees (decision_metrics seconds d w) [] false.
Proof.
  unfold decision_metrics. apply (agrees_app _ _ [] []); [by_names|].
  destruct (list_find _ _) as [[i t]|]; [|apply agrees_nil].
  unfold candidate_metrics. apply (agrees_app _ _ [] []); [by_names|]. case_if; [by_names|apply agrees_nil].
Qed.

(** ** The whole request *)
Section Chat.
Context {T : TimestampPb} (Code : GoError -> Z) (error_text : GoError -> string).

(** Nobody else touches the metrics. *)
Definition leaves_metrics (f : Server -> Server) : Prop := forall s, s_metrics (f s) = s_metrics s.

Definition quiet_attempt (env : attempt_env) : Prop :=
  leaves_metrics (e_before env) /\ leaves_metrics (e_dialing env) /\ leaves_metrics (e_waiting env).

Definition quiet (env : chat_env) : Prop :=
  quiet_attempt (c_first env) /\ quiet_attempt (c_second env) /\
  leaves_metrics (c_reserving env) /\ leaves_metrics (c_releasing env).

(** From one server to another the metrics grow by a log that agrees with the
    response. *)
Definition logged (s s' : Server) (ws : list http_event) : Prop :=
  exists ops, s_metrics s' = Metrics.run_ops (s_metrics s) ops /\ agrees ops ws (abandoned ws).

Lemma logged_after (s s1 s' : Server) (ops : list Metrics.op) (ws : list http_event) :
  s_metrics s1 = Metrics.run_ops (s_metrics s) ops -> agrees ops [] false -> logged s1 s' ws -> logged s s' ws.
Proof.
  intros H1 Ha (ops' & H2 & Ha'). exists (ops ++ ops'). split; [by rewrite run_ops_app, <- H1|].
  by apply (agrees_app _ _ [] ws).
Qed.

Lemma logged_same (s s1 s' : Server) (ws : list http_event) :
  s_metrics s1 = s_metrics s -> logged s1 s' ws -> logged s s' ws.
Proof. intros H1. apply (logged_after s s1 s' []); [done|apply agrees_nil]. Qed.

Lemma logged_count (s : Server) (ops : list Metrics.op) (ws : list http_event) :
  agrees ops ws (abandoned ws) -> logged s (count s ops) ws.
Proof. intros Ha. by exists ops. Qed.

Lemma precommit_logged (s : Server) (id : string) (ctx : option GoError) (e : GoError) :
  let '(s', ws) := writePrecommitAttemptError error_text s id ctx e in logged s s' ws.
Proof.
  unfold writePrecommitAttemptError. destruct ctx as [[]|];
    first [exists []; split; [reflexivity|by_names]|apply logged_count; by_names].
Qed.

Lemma start_attempt_metrics (env : attempt_env) (s : Server) (address : string) :
  quiet_attempt env -> s_metrics (start_attempt env s address).1 = s_metrics s.
Proof.
  intros (_ & Hd & Hw). unfold start_attempt, openAttempt.
  assert (s_metrics (client env s address).1 = s_metrics s) as Hc.
  { unfold client. destruct (WorkerClient.client_lookup _ _); [done|].
    destruct (e_dial env) as [d|e]; [|apply Hd].
    destruct (WorkerClient.client_publish _ _ _) as [[p c] x]. apply Hd. }
  destruct (client env s address) as [s1 c]. simpl in Hc.
  destruct c as [c|e]; cbn [mbind result_bind]; [|done]. destruct (e_generate env); [done|].
  simpl. by rewrite Hw.
Qed.

Lemma selectWorker_metrics (s : Server) (now : Time) (request : Request) (excluded : gset string) :
  s_metrics (selectWorker s now request excluded).1 = s_metrics s.
Proof. unfold selectWorker. by destruct (select_from _ _ _ _ _). Qed.

Lemma attempts_logged (envs : list attempt_env) (n : Z) (s : Server) (request : Request)
    (excluded : gset string) (previous : option GoError) (started : Time) :
  Forall quiet_attempt envs ->
  let '(s', ws, _) := attempts Code error_text envs n s request excluded previous started in logged s s' ws.
Proof.
  intros Hq. revert n s request excluded previous.
  induction Hq as [|env envs Hq _ IH]; intros n s request excluded previous.
  { exists []. split; [done|apply agrees_nil]. }
  cbn [attempts].
  pose proof (selectWorker_metrics (e_before env s) (e_select_now env) (with_attempt request n) excluded) as Hs.
  rewrite (proj1 Hq) in Hs.
  destruct (selectWorker _ _ _ _) as [s1 [d chosen]]. simpl in Hs. destruct chosen as [w|e].
  - pose proof (start_attempt_metrics env (count s1 (decision_metrics (e_decision_seconds env) d w)) (DataAddress w) Hq) as Ha.
    assert (forall s' ws, logged (count s1 (decision_metrics (e_decision_seconds env) d w)) s' ws -> logged s s' ws) as Hl.
    { intros s' ws. apply (logged_after _ _ _ (decision_metrics (e_decision_seconds env) d w)); [simpl; by rewrite Hs|apply decision_agrees]. }
    destruct (start_attempt _ _ _) as [s2 [chunk|e]]; cbn [fst] in Ha.
    + apply Hl. apply (logged_same _ s2); [done|]. apply logged_count, respond_agrees.
    + destruct (shouldRetry _ _ _ _).
      * specialize (IH (n + 1) (count (invalidate s2 (DataAddress w)) [Metrics.OInc "aetherserve_request_retries_total"])
          (with_attempt request n) ({[w_ID w]} ∪ excluded) (Some e)).
        destruct (attempts _ _ _ _ _ _ _ _ _) as [[s3 ws] opened]. apply Hl.
        eapply (logged_after _ _ _ [Metrics.OInc "aetherserve_request_retries_total"]); [|by_names|exact IH].
        change (Metrics.run_ops (s_metrics s2) [Metrics.OInc "aetherserve_request_retries_total"] = Metrics.run_ops
          (s_metrics (count s1 (decision_metrics (e_decision_seconds env) d w))) [Metrics.OInc "aetherserve_request_retries_total"]).
        by rewrite Ha.
      * pose proof (precommit_logged (invalidate s2 (DataAddress w)) (r_ID (with_attempt request n)) (e_ctx_write env) e) as Hp.
        destruct (writePrecommitAttemptError _ _ _ _ _) as [s3 ws]. apply Hl. by eapply logged_same.
  - destruct previous as [e'|].
    + pose proof (precommit_logged s1 (r_ID (with_attempt request n)) (e_ctx_write env) e') as Hp.
      destruct (writePrecommitAttemptError _ _ _ _ _) as [s3 ws]. by eapply logged_same.
    + apply (logged_same _ s1); [done|]. apply logged_count. by_names.
Qed.

(** The logs of the handler itself. *)
Definition admitted_log (request : Request) (s : Server) : list Metrics.op :=
  [Metrics.OAdd "aetherserve_input_tokens_total" (EstimatedInputToken request); reservations s].

Lemma gauge_agrees (s : Server) : agrees [reservations s] [] false.
Proof. by_names. Qed.

Lemma handleChat_log (s : Server) (env : chat_env) :
  quiet env ->
  let r := handleChat Code error_text s env in
  exists ops, agrees ops (cr_writes r) (abandoned (cr_writes r)) /\
  match cr_lease r with
  | None => s_metrics (cr_server r) = Metrics.run_ops (s_metrics s) (Metrics.OInc requests_total :: ops)
  | Some _ => exists request s1,
      parseRequest (s_config s) (c_random env) (c_parse_now env) (c_incoming env) = Ok request /\
      s_metrics (cr_server r) =
        Metrics.run_ops (s_metrics s) (Metrics.OInc requests_total :: admitted_log request s1 ++ ops)
  end.
Proof.
  intros (Hf & Hse & Hres & Hrel). cbn zeta. unfold handleChat.
  change (s_config (count s [Metrics.OInc "aetherserve_requests_total"])) with (s_config s).
  destruct (parseRequest _ _ _ _) as [request|e] eqn:Hp; cbn [refused cr_writes cr_lease cr_server].
  2: { exists []. split; [|done]. pose proof (parseRequest_status _ _ _ _ _ Hp) as Hst.
       split; [|reflexivity..]. repeat (apply Forall_cons_2; [unfold tally; cbn; by rewrite Hst|]). apply Forall_nil_2. }
  destruct (_ =? 0)%nat; cbn [refused cr_writes cr_lease cr_server].
  { exists rejection. split; [by_names|done]. }
  set (s1 := c_reserving env _). assert (s_metrics s1 = Metrics.run_ops (s_metrics s) [Metrics.OInc requests_total]) as E1
    by exact (Hres _).
  destruct (Admission.Reserve _ _ _ _) as [a [lease|e]]; cbn [refused cr_writes cr_lease cr_server].
  2: { exists rejection. split; [destruct e; by_names|]. change (Metrics.run_ops (s_metrics s1) rejection = Metrics.run_ops
         (s_metrics s) ([Metrics.OInc requests_total] ++ rejection)). by rewrite run_ops_app, E1. }
  set (s2 := with_admission s1 a).
  pose proof (attempts_logged [c_first env; c_second env] 1 (count s2 (admitted_log request s2)) request ∅ None (c_started env)) as Ha.
  change (count s2 [Metrics.OAdd "aetherserve_input_tokens_total" (EstimatedInputToken request); reservations s2])
    with (count s2 (admitted_log request s2)).
  destruct (attempts _ _ _ _ _ _ _ _ _) as [[s3 ws] opened].
  destruct Ha as (ops & Hm & Hag); [by repeat apply Forall_cons_2; [..|apply Forall_nil_2]|].
  assert (s_metrics (c_releasing env s3) = Metrics.run_ops (s_metrics s)
    ((Metrics.OInc requests_total :: admitted_log request s2) ++ ops)) as E3.
  { rewrite Hrel, Hm, run_ops_app. f_equal.
    change (Metrics.run_ops (s_metrics s1) (admitted_log request s2) = Metrics.run_ops (s_metrics s)
      ([Metrics.OInc requests_total] ++ admitted_log request s2)). by rewrite run_ops_app, E1. }
  unfold finish. destruct (Admission.Release _ _) as [a'|m]; cbn [cr_writes cr_lease cr_server].
  - exists (ops ++ [reservations (with_admission (c_releasing env s3) a')]). split.
    + pose proof (agrees_app [reservations (with_admission (c_releasing env s3) a')] ops [] ws _ (gauge_agrees _) Hag) as [H1 H2 H3 H4].
      split; rewrite ?amount_app in *; try lia. unfold followed in *. rewrite list.Forall_forall in *.
      intros name Hn. specialize (H1 name Hn). rewrite amount_app in *. simpl in *. lia.
    + exists request, s2. split; [done|].
      change (Metrics.run_ops (s_metrics (c_releasing env s3)) [reservations (with_admission (c_releasing env s3) a')] =
        Metrics.run_ops (s_metrics s) ((Metrics.OInc requests_total :: admitted_log request s2) ++
          (ops ++ [reservations (with_admission (c_releasing env s3) a')]))).
      by rewrite app_assoc, run_ops_app, E3.
  - exists ops. split; [done|]. by exists request, s2.
Qed.

(** A counter grew by an amount, modulo 2^64. *)
Definition grows (s s' : Server) (name : string) (n : Z) : Prop :=
  wrap_u64 (Metrics.counter_value (s_metrics s') name) = wrap_u64 (Metrics.counter_value (s_metrics s) name + n).

Lemma grows_run (s s' : Server) (ops : list Metrics.op) (name : string) (n : Z) :
  s_metrics s' = Metrics.run_ops (s_metrics s) ops -> amount name ops = n -> grows s s' name n.
Proof. intros Hs <-. unfold grows. rewrite Hs. apply Metrics.counter_run. Qed.

(** ** Property *)

(** C29: The counters tell what the client saw. When nobody else is around, a request
    raises the request counter by one; the output tokens by the token events
    that it was sent, the midstream failures by the error events, the failures
    before the commit by the responses of status 502, the rejections by those of
    status 429, 500 or 503, and the client's cancellations by one exactly when
    its stream was begun and has no end marker; and the input tokens by the
    estimate of the request if it was admitted, else not at all. *)
Theorem chat_metrics (s : Server) (env : chat_env) :
  quiet env ->
  let r := handleChat Code error_text s env in
  let ws := cr_writes r in
  grows s (cr_server r) requests_total 1 /\
  (forall name, name ∈ followed -> grows s (cr_server r) name (tally name ws)) /\
  grows s (cr_server r) cancellations_total (if abandoned ws then 1 else 0) /\
  match cr_lease r with
  | None => grows s (cr_server r) input_tokens_total 0
  | Some _ => exists request,
      parseRequest (s_config s) (c_random env) (c_parse_now env) (c_incoming env) = Ok request /\
      grows s (cr_server r) input_tokens_total (EstimatedInputToken request)
  end.
Proof.
  intros Hq. cbn zeta. destruct (handleChat_log s env Hq) as (ops & [H1 H2 H3 H4] & Hm).
  rewrite list.Forall_forall in H1.
  destruct (cr_lease (handleChat Code error_text s env)) as [i|].
  - destruct Hm as (request & s1 & Hp & Hm). split_and!; [| | |exists request; split; [done|]];
      try intros name Hn; (eapply grows_run; [exact Hm|]); rewrite app_comm_cons, amount_app.
    + rewrite H2. reflexivity.
    + rewrite (H1 name Hn). unfold followed in Hn. by repeat (apply elem_of_cons in Hn as [->|Hn]; [done|]);
        apply not_elem_of_nil in Hn.
    + rewrite H4. reflexivity.
    + rewrite H3. unfold amount. cbn. lia.
  - split_and!; try intros name Hn; (eapply grows_run; [exact Hm|]); (change (Metrics.OInc requests_total :: ops) with
      ([Metrics.OInc requests_total] ++ ops)); rewrite amount_app.
    + rewrite H2. reflexivity.
    + rewrite (H1 name Hn). unfold followed in Hn. by repeat (apply elem_of_cons in Hn as [->|Hn]; [done|]);
        apply not_elem_of_nil in Hn.
    + rewrite H4. reflexivity.
    + rewrite H3. reflexivity.
Qed.
End Chat.

(** ** Witnesses: a token and the completion *)
Section Witnesses.
#[local] Existing Instance SecondsNanos.

Lemma chat_metrics_witness :
  let r := handleChat ex_code ex_text_of ex_registered (ex_chat_env (EvChunk ex_token)) in
  tally output_tokens_total (cr_writes r) = 1 /\
  Metrics.counter_value (s_metrics (cr_server r)) output_tokens_total = 1 /\
  grows ex_registered (cr_server r) output_tokens_total 1.
Proof.
  intros r. assert (tally output_tokens_total (cr_writes r) = 1) as E by (vm_compute; reflexivity).
  split; [exact E|]. split; [vm_compute; reflexivity|].
  destruct (chat_metrics ex_code ex_text_of ex_registered (ex_chat_env (EvChunk ex_token))) as (_ & Hf & _).
  - repeat split.
  - specialize (Hf output_tokens_total ltac:(right; left)). fold r in Hf. by rewrite E in Hf.
Defined.

Lemma attempt_metrics_witness : amount output_tokens_total (ops ex_pipe) = 1 /\ amount cancellations_total (ops ex_pipe) = 0.
Proof.
  assert (rtc (step ex_request "w1" ex_text_of 4 5) open_pipe ex_pipe) as Hr
    by (apply rtc_nsteps; exists 9%nat; exact ex_pipe_steps).
  destruct (attempt_metrics ex_request "w1" ex_text_of 4 5 ex_pipe Hr) as (_ & _ & H & _).
  destruct H as [Hf Hc]; [vm_compute; reflexivity|]. split.
  - rewrite (Hf output_tokens_total ltac:(right; left)). vm_compute. reflexivity.
  - rewrite Hc. vm_compute. reflexivity.
Defined.
End Witnesses.
