(* ===== verification/AttemptRun.v ===== *)
(** * The atomic attempt of [Chat] and the two goroutines of [Stream]

    [Chat.respond] answers an attempt in one go from what its environment lists.
    Every interleaving of the receiver and the handler of [Stream] is such an
    answer: for the events that the handler took, in their order. *)

From S2P Require Import Prelude GoFloat GoString Model Examples Wire Protocol Parse Sse Stream Gateway Chat ChatMetrics.
From S2P Require Metrics WorkerClient.

#[local] Open Scope Z_scope.
#[local] Open Scope go_scope.

(** The events that the loop of [forwardCommitted] takes, and how it ends. *)
Fixpoint arrived (s : arrivals) : list attemptEvent :=
  match s with
  | ANext _ _ e rest => e :: arrived rest
  | AEnd _ (Arrived e) => [e]
  | AEnd _ _ => []
  end.

Fixpoint ending (s : arrivals) : arrival :=
  match s with ANext _ _ _ rest => ending rest | AEnd _ a => a end.

(** An iteration that went on. *)
Record taken := { t_now : Time; t_ok : bool; t_event : attemptEvent }.

Definition fill (ts : list taken) (rest : arrivals) : arrivals :=
  foldr (fun t => ANext (t_now t) (t_ok t) (t_event t)) rest ts.

Lemma arrived_fill (ts : list taken) (rest : arrivals) : arrived (fill ts rest) = (t_event <$> ts) ++ arrived rest.
Proof. induction ts as [|t ts IH]; [done|]. csimpl. by rewrite <- IH. Qed.

Lemma ending_fill (ts : list taken) (rest : arrivals) : ending (fill ts rest) = ending rest.
Proof. by induction ts. Qed.

Section Attempt.
Context {T : TimestampPb} (request : Request) (workerID : string) (error_text : GoError -> string).
Context (SSEBufferSize : nat) (started : Time).

(** What the handler counted itself, with the updates that it makes next. *)
Definition handler_ops (p : pipe) : list Metrics.op :=
  filter (fun o => Metrics.counted slow_clients_total o = 0) (ops p) ++ due p.

Abbreviation commit := (commit_step request started).
Abbreviation iterate := (forward_step request error_text started).
Abbreviation forward := (forwardCommitted request error_text started).

(** An environment that lists a commit and what follows it. *)
Definition env_of (first : attemptEvent) (now : Time) (ok : bool) (rest : arrivals) : attempt_env :=
  {| e_before := id; e_select_now := 0; e_decision_seconds := fzero; e_dial := Err EEOF; e_dialing := id;
     e_generate := None; e_waiting := id; e_first := Some first; e_ctx_retry := None; e_ctx_write := None;
     e_commit_now := now; e_write_ok := ok; e_rest := rest |}.

(** The iterations so far, as a beginning of every answer that continues them. *)
Definition follows (p : pipe) (c : Chunk) (now : Time) (ok : bool) (ts : list taken) : Prop :=
  continues (commit now ok c) = true /\
  forall rest,
    writes (join (commit now ok c) (forward (fill ts rest))) = out p ++ writes (forward rest) /\
    counts (join (commit now ok c) (forward (fill ts rest))) = handler_ops p ++ counts (forward rest).

(** The causes of an ending that is not an event. *)
Definition ending_ok (p : pipe) (a : arrival) : Prop :=
  match a with
  | Arrived _ => True
  | ChannelClosed => p_receiver p = Stopped /\ chan p = []
  | ContextDone => ctx_done p = true
  end.

Definition answered (p : pipe) : Prop :=
  exists env c, e_first env = Some (EvChunk c) /\ first_event (e_first env) = Ok c /\
    out p = writes (respond error_text env request started c) /\
    handler_ops p = counts (respond error_text env request started c) /\
    (consumed p = [EvChunk c] \/
     consumed p = EvChunk c :: arrived (e_rest env) /\ ending_ok p (ending (e_rest env))).

Definition answer_inv (p : pipe) : Prop :=
  match p_phase p with
  | WaitFirst => consumed p = [] /\ out p = [] /\ handler_ops p = []
  | Forwarding => exists c now ok ts, consumed p = EvChunk c :: (t_event <$> ts) /\
      first_event (Some (EvChunk c)) = Ok c /\ follows p c now ok ts
  | Finished (Some e) => first_event (head (consumed p)) = Err e /\ out p = [] /\ handler_ops p = []
  | Finished None => answered p
  end.

(** ** The handler's steps *)
Lemma handler_counts (f : effect) (p : pipe) (took rest : list attemptEvent) (err : option GoError) :
  due p = [] -> handler_ops (write p took rest f err) = handler_ops p ++ counts f.
Proof. intros Hw. unfold handler_ops. rewrite Hw. cbn [write ops due]. by rewrite app_nil_r. Qed.

(** An update is the handler's own. *)
Lemma handler_update (p : pipe) (o : Metrics.op) (rest : list Metrics.op) :
  due p = o :: rest -> Metrics.counted slow_clients_total o = 0 -> handler_ops (update p o rest) = handler_ops p.
Proof.
  intros Hw Ho. unfold handler_ops. rewrite Hw. cbn [update ops due]. rewrite list.filter_app, filter_cons_True by done.
  by rewrite <- app_assoc.
Qed.

Lemma take_first_answer (p : pipe) (now : Time) (ok : bool) (took rest : list attemptEvent) :
  (length took <= 1)%nat -> p_phase p = WaitFirst -> due p = [] -> answer_inv p ->
  answer_inv (take_first request p started now ok took rest).
Proof.
  intros Hl Hp Hw Hi. unfold answer_inv in Hi. rewrite Hp in Hi. destruct Hi as (Hc & Ho & Hh). unfold take_first.
  destruct (first_event (head took)) as [c|e] eqn:Hfirst.
  2: { unfold answer_inv. cbn [write p_phase no_effect continues consumed out writes].
       rewrite Hc, Ho. split_and!; [done|done|]. by rewrite handler_counts, Hh. }
  assert (took = [EvChunk c]) as ->.
  { destruct took as [|[c'|e'] [|? ?]]; simpl in *; try lia; try done. case_if; [done|]. by injection Hfirst as ->. }
  change (answer_inv (write p [EvChunk c] rest (commit now ok c) None)).
  unfold answer_inv. cbn [write p_phase consumed]. destruct (continues (commit now ok c)) eqn:Hcont.
  - exists c, now, ok, []. rewrite Hc. split_and!; [done|done|]. split; [done|]. intros rest'.
    rewrite handler_counts by done. cbn [fill foldr join writes counts write out]. by rewrite Ho, Hh.
  - exists (env_of (EvChunk c) now ok (AEnd 0 ContextDone)), c. unfold respond. cbn [env_of e_commit_now e_write_ok e_first].
    rewrite Hcont. rewrite handler_counts by done. cbn [write out consumed]. rewrite Hc, Ho, Hh.
    split_and!; try done. by left.
Qed.

Lemma forward_continues (now : Time) (ok : bool) (a : arrival) (rest : arrivals) :
  continues (iterate now ok a) = true -> exists e, a = Arrived e /\
    forward (ANext now ok e rest) = join (iterate now ok a) (forward rest).
Proof.
  intros Hc. destruct a as [e| |]; [|done|done]. exists e. split; [done|]. cbn [forwardCommitted]. by rewrite Hc.
Qed.

(** An iteration that ends the loop ends it whatever the write would have done. *)
Lemma iterate_ends (now : Time) (ok : bool) (a : arrival) :
  continues (iterate now ok a) = false -> iterate now false a = iterate now ok a.
Proof.
  destruct a as [[c|e]| |]; try done. unfold forward_step. destruct (Final c); [done|]. by destruct ok.
Qed.

Lemma iterate_answer (p : pipe) (now : Time) (ok : bool) (a : arrival) (rest : list attemptEvent) :
  let took := match a with Arrived e => [e] | _ => [] end in
  p_phase p = Forwarding -> due p = [] -> answer_inv p ->
  ending_ok (write p took rest (iterate now ok a) None) a ->
  answer_inv (write p took rest (iterate now ok a) None).
Proof.
  intros took Hp Hw Hi Hend. unfold answer_inv in Hi. rewrite Hp in Hi. destruct Hi as (c & now0 & ok0 & ts & Hc & Hf & Hcont & Hall).
  unfold answer_inv. cbn [write p_phase]. destruct (continues (iterate now ok a)) eqn:Hgo.
  - destruct (forward_continues now ok a (AEnd 0 ContextDone) Hgo) as (e & -> & _).
    exists c, now0, ok0, (ts ++ [{| t_now := now; t_ok := ok; t_event := e |}]).
    split_and!; [cbn [write consumed]; by rewrite Hc, fmap_app|done|]. split; [done|]. intros rest'.
    assert (fill (ts ++ [{| t_now := now; t_ok := ok; t_event := e |}]) rest' = fill ts (ANext now ok e rest')) as ->
      by (unfold fill; by rewrite foldr_app).
    destruct (Hall (ANext now ok e rest')) as [-> ->]. rewrite handler_counts by done.
    destruct (forward_continues now ok (Arrived e) rest' Hgo) as (e' & [= <-] & ->).
    cbn [join writes counts write out]. by rewrite <- !app_assoc.
  - exists (env_of (EvChunk c) now0 ok0 (fill ts (AEnd now a))), c. unfold respond.
    cbn [env_of e_commit_now e_write_ok e_first e_rest]. rewrite Hcont, handler_counts by done.
    destruct (Hall (AEnd now a)) as [-> ->]. cbn [forwardCommitted]. rewrite (iterate_ends now ok a Hgo).
    split_and!; try done. right. rewrite arrived_fill, ending_fill. split; [|done].
    cbn [write consumed]. rewrite Hc. unfold took. by destruct a.
Qed.

(** A step of the receiver leaves what the handler did; what ended it stays. *)
Lemma answer_same (p p' : pipe) :
  p_phase p' = p_phase p -> consumed p' = consumed p -> out p' = out p -> handler_ops p' = handler_ops p ->
  (p_receiver p = Stopped -> p_receiver p' = Stopped /\ chan p' = chan p) -> (ctx_done p = true -> ctx_done p' = true) ->
  answer_inv p -> answer_inv p'.
Proof.
  intros Hp Hc Ho Hh Hr Hd. unfold answer_inv, answered, follows. rewrite Hp, Hc, Ho, Hh.
  destruct (p_phase p) as [| |[e|]]; try done. intros (env & c & H1 & H2 & H3 & H4 & H5).
  exists env, c. split_and!; try done. destruct H5 as [H5|[H5 He]]; [by left|right]. split; [done|].
  destruct (ending (e_rest env)); simpl in *; [done| |by apply Hd]. destruct He as [He1 He2].
  destruct (Hr He1) as [? ->]. done.
Qed.

Lemma step_answer (p p' : pipe) :
  step request workerID error_text SSEBufferSize started p p' -> single (due p) -> answer_inv p -> answer_inv p'.
Proof.
  intros Hs Hn Hi. destruct Hs as [p n o Hr|p e next Hr _|p e next Hr _|p e next Hr|p e rest now ok Hp Hw Hc|
    p now Hp Hw Hc Hr|p e rest now ok Hp Hw Hc|p now Hp Hw Hc Hr|p now Hp Hw Hd|p o rest Hw|p Hd].
  - unfold received. destruct (receive_step request workerID n o).
    apply (answer_same p); try done. by rewrite Hr.
  - destruct next; apply (answer_same p); try done; by rewrite Hr.
  - apply (answer_same p); try done; by rewrite Hr.
  - apply (answer_same p); try done. unfold handler_ops. cbn [slow_client ops due].
    rewrite list.filter_app. cbn. by rewrite app_nil_r.
  - apply take_first_answer; [simpl; lia|done..].
  - apply take_first_answer; [simpl; lia|done..].
  - by apply (iterate_answer p now ok (Arrived e) rest).
  - apply (iterate_answer p now false ChannelClosed []); done.
  - apply (iterate_answer p now false ContextDone (chan p)); done.
  - apply (answer_same p); try done. apply handler_update; [done|].
    rewrite Hw in Hn. by apply single_cons in Hn as [_ ?].
  - by apply (answer_same p).
Qed.

Lemma reachable_answer (p : pipe) :
  reachable request workerID error_text SSEBufferSize started p -> answer_inv p.
Proof.
  intros Hr. revert Hr. refine (rtc_ind_r answer_inv open_pipe _ _ p); [done|].
  intros x y Hx Hs Hi. eapply step_answer; [done| |done]. by apply reachable_counters, ci_due in Hx.
Qed.

(** C10: Whatever the interleaving of the two goroutines, a handler that has ended is an
    attempt of [Chat]: it took a beginning of what the receiver makes of the
    worker's messages; it failed before the commit with the error of its first
    event and wrote and counted nothing; or it wrote and counted, with the update
    that may still be due, exactly what [respond] does for the events that it
    took, in their order. It stopped short
    of an event only because the context ended, or because the receiver had
    stopped and the channel was empty. *)
Theorem attempt_refines_respond (p : pipe) (err : option GoError) :
  reachable request workerID error_text SSEBufferSize started p -> p_phase p = Finished err ->
  consumed p `prefix_of` receiveAttempt request workerID 0 (history p) /\
  match err with
  | Some e => first_event (head (consumed p)) = Err e /\ out p = [] /\ handler_ops p = []
  | None => answered p
  end.
Proof.
  intros Hr Hp. split; [by apply consumed_prefix, (stream_reachable_inv request workerID error_text SSEBufferSize started)|].
  pose proof (reachable_answer p Hr) as Hi. unfold answer_inv in Hi. by rewrite Hp in Hi.
Qed.
End Attempt.

(** ** Witness *)
Lemma attempt_refines_respond_witness :
  consumed ex_pipe = [EvChunk ex_token; EvChunk ex_final] /\
  @answered SecondsNanos ex_request ex_text_of 5 ex_pipe.
Proof.
  split; [vm_compute; reflexivity|].
  apply (@attempt_refines_respond SecondsNanos ex_request "w1" ex_text_of 4 5 ex_pipe None).
  - apply rtc_nsteps. exists 9%nat. exact ex_pipe_steps.
  - vm_compute. reflexivity.
Defined.
