(* ===== verification/Traffic.v ===== *)
(** * The gateway under traffic: [src/internal/gateway/http.go], [src/internal/gateway/server.go]

    The goroutines of a running gateway: one for each chat request, with the
    receiver of each of its attempts, the handlers of the control plane and of the
    probes, and the one that runs [Close].  A step is one critical section or one
    call of a library, so every interleaving of the requests with each other,
    with the workers' reports and with a shutdown is a run.  The metrics that a
    handler is about to update are a list, and each update is a step of its own.
    What an attempt writes is in its stream, and is added to the handler's writes
    when the attempt is over.

    A registration, a heartbeat and a probe are calls with a list of actions that are
    left, taken one at a time.  [Shutdown] of the HTTP server returns when every
    handler has, or with the context's error; a connection that was open may bring a
    request while it runs. *)

From S2P Require Import Prelude GoFloat GoString Model Examples Interfaces Wire Protocol Parse Sse Stream Gateway Chat.
From S2P Require Config Registry Admission Routing Metrics WorkerClient.

#[local] Open Scope Z_scope.
#[local] Open Scope go_scope.

(** A list of workers is a directory that does not change. *)
#[export] Instance Workers_source : SnapshotSource (list Worker) :=
  {| source_snapshot l _ := l; source_healthy l _ := length (filter (fun w => Stale w = false /\ Status (State w) = WorkerHealthy) l);
     source_ok l := NoDup (w_ID <$> l) |}.

(** ** The log *)
Inductive log_record :=
| LogRouting (requestID attemptID : string) (decision : RoutingDecision)
| LogRegistered (workerID address : string).

Section Traffic.
Context {T : TimestampPb} (Code : GoError -> Z) (error_text : GoError -> string).
Context (registry_error_text : Registry.RegistryError -> string).

(** ** State *)
Abbreviation attempt := (string * string)%type.

(** The variables of the loop over the attempts. *)
Record view := {
  v_request : Request;
  v_number : Z;
  v_excluded : gset string;
  v_previous : option GoError;
}.

(** Where [handleChat] stands. *)
Inductive pc :=
| AtEnter
| AtRequest
| AtHealthy (request : Request)
| AtReserve (request : Request)
| AtReserved (request : Request)
| AtSnapshot (v : view)
| AtRoute (v : view) (workers : list Worker)
| AtLog (v : view) (d : RoutingDecision) (w : Worker)
| AtClient (v : view) (w : Worker)
| AtPublish (v : view) (w : Worker) (dialed : WorkerClient.conn)
| AtExtra (v : view) (w : Worker) (dialed : WorkerClient.conn)
| AtGenerate (v : view) (w : Worker)
| AtEvents (v : view) (w : Worker)
| AtInvalidate (v : view) (w : Worker) (e : GoError)
| AtOld (v : view) (w : Worker) (e : GoError) (old : WorkerClient.conn)
| AtRetry (v : view) (w : Worker) (e : GoError)
| AtFail (e : GoError)
| AtWrite (e : apiError) (held : bool)             (* the refusal, before or after the lease was taken *)
| AtRelease
| AtReleased
| AtLeave
| Left.

(** An attempt whose stream was opened. *)
Record opened_attempt := { o_request : Request; o_worker : Worker; o_pipe : pipe }.

Record req := {
  q_incoming : incoming;
  q_started : Time;
  q_ctx : option GoError;               (* the error of its context *)
  q_pc : pc;
  q_pending : list Metrics.op;          (* the updates of metrics that come next *)
  q_request : option Request;
  q_lease : option nat;                 (* held until its release *)
  q_pipes : list opened_attempt;
  q_writes : list http_event;           (* without those of an attempt that is not over *)
  q_opened : list attempt;
  q_panic : option string;
}.

Definition new_req (r : incoming) (ctx : option GoError) : req :=
  {| q_incoming := r; q_started := 0; q_ctx := ctx; q_pc := AtEnter; q_pending := []; q_request := None;
     q_lease := None; q_pipes := []; q_writes := []; q_opened := []; q_panic := None |}.

(** The handler goes on at [p], after the updates [ops], having written [ws]. *)
Definition goto (q : req) (p : pc) (ops : list Metrics.op) (ws : list http_event) : req :=
  {| q_incoming := q_incoming q; q_started := q_started q; q_ctx := q_ctx q; q_pc := p; q_pending := ops;
     q_request := q_request q; q_lease := q_lease q; q_pipes := q_pipes q; q_writes := q_writes q ++ ws;
     q_opened := q_opened q; q_panic := q_panic q |}.

Definition set_started (q : req) (t : Time) : req :=
  {| q_incoming := q_incoming q; q_started := t; q_ctx := q_ctx q; q_pc := q_pc q; q_pending := q_pending q;
     q_request := q_request q; q_lease := q_lease q; q_pipes := q_pipes q; q_writes := q_writes q;
     q_opened := q_opened q; q_panic := q_panic q |}.

Definition set_ctx (q : req) (e : GoError) : req :=
  {| q_incoming := q_incoming q; q_started := q_started q; q_ctx := Some e; q_pc := q_pc q; q_pending := q_pending q;
     q_request := q_request q; q_lease := q_lease q; q_pipes := q_pipes q; q_writes := q_writes q;
     q_opened := q_opened q; q_panic := q_panic q |}.

(** The end of a context that the request's own one is derived from. *)
Definition cancel_req (q : req) : req := match q_ctx q with None => set_ctx q ECanceled | Some _ => q end.

Definition set_request (q : req) (r : Request) : req :=
  {| q_incoming := q_incoming q; q_started := q_started q; q_ctx := q_ctx q; q_pc := q_pc q; q_pending := q_pending q;
     q_request := Some r; q_lease := q_lease q; q_pipes := q_pipes q; q_writes := q_writes q;
     q_opened := q_opened q; q_panic := q_panic q |}.

Definition set_lease (q : req) (l : option nat) : req :=
  {| q_incoming := q_incoming q; q_started := q_started q; q_ctx := q_ctx q; q_pc := q_pc q; q_pending := q_pending q;
     q_request := q_request q; q_lease := l; q_pipes := q_pipes q; q_writes := q_writes q;
     q_opened := q_opened q; q_panic := q_panic q |}.

Definition set_pipes (q : req) (ps : list opened_attempt) : req :=
  {| q_incoming := q_incoming q; q_started := q_started q; q_ctx := q_ctx q; q_pc := q_pc q; q_pending := q_pending q;
     q_request := q_request q; q_lease := q_lease q; q_pipes := ps; q_writes := q_writes q;
     q_opened := q_opened q; q_panic := q_panic q |}.

Definition add_opened (q : req) (a : attempt) : req :=
  {| q_incoming := q_incoming q; q_started := q_started q; q_ctx := q_ctx q; q_pc := q_pc q; q_pending := q_pending q;
     q_request := q_request q; q_lease := q_lease q; q_pipes := q_pipes q; q_writes := q_writes q;
     q_opened := q_opened q ++ [a]; q_panic := q_panic q |}.

Definition set_panic (q : req) (m : string) : req :=
  {| q_incoming := q_incoming q; q_started := q_started q; q_ctx := q_ctx q; q_pc := q_pc q; q_pending := q_pending q;
     q_request := q_request q; q_lease := None; q_pipes := q_pipes q; q_writes := q_writes q;
     q_opened := q_opened q; q_panic := Some m |}.

(** What the goroutines share. *)
Record shared := {
  g_server : Server;
  g_conns : WorkerClient.state;    (* the pool with its connections *)
  g_active : Z;                    (* the wait group *)
  g_log : list log_record;
}.

Definition set_server (g : shared) (s : Server) : shared :=
  {| g_server := s; g_conns := g_conns g; g_active := g_active g; g_log := g_log g |}.

Definition set_conns (g : shared) (c : WorkerClient.state) : shared :=
  {| g_server := with_clients (g_server g) (WorkerClient.pool c); g_conns := c; g_active := g_active g; g_log := g_log g |}.

Definition set_active (g : shared) (n : Z) : shared :=
  {| g_server := g_server g; g_conns := g_conns g; g_active := n; g_log := g_log g |}.

Definition add_log (g : shared) (r : log_record) : shared :=
  {| g_server := g_server g; g_conns := g_conns g; g_active := g_active g; g_log := g_log g ++ [r] |}.

(** ** The pool's critical sections, on its state with the connections *)
Definition dial (c : WorkerClient.state) (address : string) : WorkerClient.state :=
  {| WorkerClient.pool := WorkerClient.pool c; WorkerClient.heap := WorkerClient.heap c ++ [true];
     WorkerClient.dialing := (address, length (WorkerClient.heap c)) :: WorkerClient.dialing c;
     WorkerClient.closing := WorkerClient.closing c |}.

(** The other entries of those being dialed. *)
Definition undial (c : WorkerClient.state) (dialed : WorkerClient.conn) : list (string * WorkerClient.conn) :=
  filter (fun x => x.2 <> dialed) (WorkerClient.dialing c).

(** With the connection that is then to close. *)
Definition publish (c : WorkerClient.state) (address : string) (dialed : WorkerClient.conn) :
  WorkerClient.state * option WorkerClient.conn :=
  let '(p, _, extra) := WorkerClient.client_publish (WorkerClient.pool c) address dialed in
  ({| WorkerClient.pool := p; WorkerClient.heap := WorkerClient.heap c; WorkerClient.dialing := undial c dialed;
      WorkerClient.closing := option_list extra ++ WorkerClient.closing c |}, extra).

Definition drop_conn (c : WorkerClient.state) (address : string) : WorkerClient.state * option WorkerClient.conn :=
  let '(p, old) := WorkerClient.Invalidate (WorkerClient.pool c) address in
  ({| WorkerClient.pool := p; WorkerClient.heap := WorkerClient.heap c; WorkerClient.dialing := WorkerClient.dialing c;
      WorkerClient.closing := option_list old ++ WorkerClient.closing c |}, old).

Definition drop_all (c : WorkerClient.state) : WorkerClient.state * list WorkerClient.conn :=
  let '(p, cs) := WorkerClient.Close (WorkerClient.pool c) in
  ({| WorkerClient.pool := p; WorkerClient.heap := WorkerClient.heap c; WorkerClient.dialing := WorkerClient.dialing c;
      WorkerClient.closing := cs ++ WorkerClient.closing c |}, cs).

(** The close of a connection that was taken out. *)
Definition close_conn (c : WorkerClient.state) (x : WorkerClient.conn) : WorkerClient.state :=
  {| WorkerClient.pool := WorkerClient.pool c; WorkerClient.heap := <[x := false]> (WorkerClient.heap c);
     WorkerClient.dialing := WorkerClient.dialing c;
     WorkerClient.closing := filter (fun y => y <> x) (WorkerClient.closing c) |}.

(** ** The handler *)

(** What the world gives to one turn of a handler: a reading of the clock, random
    bytes, the duration of the routing, the outcomes of a dial and of the call
    that opens the stream. *)
Record turn := {
  t_now : Time;
  t_random : result string (list Z);
  t_seconds : float64;
  t_dial : result GoError unit;
  t_generate : option GoError;
}.

Definition loop_start (request : Request) : view :=
  {| v_request := request; v_number := 1; v_excluded := ∅; v_previous := None |}.

Definition view_request (v : view) : Request := with_attempt (v_request v) (v_number v).

Definition next_view (v : view) (w : Worker) (e : GoError) : view :=
  {| v_request := view_request v; v_number := v_number v + 1; v_excluded := {[w_ID w]} ∪ v_excluded v;
     v_previous := Some e |}.

Definition request_id (q : req) : string := from_option r_ID "" (q_request q).

(** One turn; [None] when the handler waits or has returned, or the world does not
    do this: the gRPC library opens no stream for a context that is over. *)
Definition turn_step (t : turn) (g : shared) (q : req) : option (shared * req) :=
  match q_pending q with
  | o :: ops => Some (set_server g (count (g_server g) [o]), goto q (q_pc q) ops [])
  | [] =>
      let s := g_server g in
      match q_pc q with
      | AtEnter =>
          Some (set_active g (g_active g + 1),
                goto (set_started q (t_now t)) AtRequest [Metrics.OInc "aetherserve_requests_total"] [])
      | AtRequest =>
          match parseRequest (s_config s) (t_random t) (t_now t) (q_incoming q) with
          | Err e => Some (g, goto q AtLeave [] [WriteAPIError e])
          | Ok request => Some (g, goto (set_request q request) (AtHealthy request) [] [])
          end
      | AtHealthy request =>
          if (Registry.HealthyCount (s_registry s) (t_now t) =? 0)%nat
          then Some (g, goto q (AtWrite (no_workers (r_ID request)) false) rejection [])
          else Some (g, goto q (AtReserve request) [] [])
      | AtReserve request =>
          match Admission.Reserve (s_admission s) (t_now t) (TenantID request) (reservation_cost request) with
          | (a, Err e) =>
              Some (set_server g (with_admission s a),
                    goto q (AtWrite (admission_error (r_ID request) e) false) rejection [])
          | (a, Ok lease) =>
              Some (set_server g (with_admission s a),
                    goto (set_lease q (Some lease)) (AtReserved request)
                      [Metrics.OAdd "aetherserve_input_tokens_total" (EstimatedInputToken request)] [])
          end
      | AtReserved request => Some (g, goto q (AtSnapshot (loop_start request)) [reservations s] [])
      | AtSnapshot v => Some (g, goto q (AtRoute v (Registry.Snapshot (s_registry s) (t_now t))) [] [])
      | AtRoute v workers =>
          let '(router, (d, chosen)) := select_from workers (t_now t) (s_router s) (view_request v) (v_excluded v) in
          let g := set_server g (with_router s router) in
          match chosen with
          | Err _ =>
              match v_previous v with
              | Some e => Some (g, goto q (AtFail e) [] [])
              | None => Some (g, goto q (AtWrite (no_workers (r_ID (v_request v))) true) rejection [])
              end
          | Ok w =>
              Some (g, goto (add_opened q (r_AttemptID (view_request v), w_ID w)) (AtLog v d w)
                         (decision_metrics (t_seconds t) d w) [])
          end
      | AtLog v d w =>
          Some (add_log g (LogRouting (r_ID (v_request v)) (r_AttemptID (view_request v)) d),
                goto q (AtClient v w) [] [])
      | AtClient v w =>
          match WorkerClient.client_lookup (WorkerClient.pool (g_conns g)) (DataAddress w) with
          | Some _ => Some (g, goto q (AtGenerate v w) [] [])
          | None =>
              match t_dial t with
              | Err e => Some (g, goto q (AtInvalidate v w e) [] [])
              | Ok _ => Some (set_conns g (dial (g_conns g) (DataAddress w)),
                              goto q (AtPublish v w (length (WorkerClient.heap (g_conns g)))) [] [])
              end
          end
      | AtPublish v w dialed =>
          let '(c, extra) := publish (g_conns g) (DataAddress w) dialed in
          Some (set_conns g c, goto q (match extra with Some x => AtExtra v w x | None => AtGenerate v w end) [] [])
      | AtExtra v w x => Some (set_conns g (close_conn (g_conns g) x), goto q (AtGenerate v w) [] [])
      | AtGenerate v w =>
          match t_generate t, q_ctx q with
          | Some e, _ => Some (g, goto q (AtInvalidate v w e) [] [])
          | None, Some _ => None
          | None, None =>
              Some (g, goto (set_pipes q (q_pipes q ++ [{| o_request := view_request v; o_worker := w; o_pipe := open_pipe |}]))
                         (AtEvents v w) [] [])
          end
      | AtEvents v w =>
          match list.last (q_pipes q) with
          | Some a =>
              match p_phase (o_pipe a), due (o_pipe a) with
              | Finished (Some e), [] => Some (g, goto q (AtInvalidate v w e) [] [])
              | Finished None, [] => Some (g, goto q AtRelease [] (out (o_pipe a)))
              | _, _ => None
              end
          | None => None
          end
      | AtInvalidate v w e =>
          let '(c, old) := drop_conn (g_conns g) (DataAddress w) in
          Some (set_conns g c, goto q (match old with Some x => AtOld v w e x | None => AtRetry v w e end) [] [])
      | AtOld v w e x => Some (set_conns g (close_conn (g_conns g) x), goto q (AtRetry v w e) [] [])
      | AtRetry v w e =>
          if shouldRetry Code (q_ctx q) e (v_number v)
          then Some (g, goto q (AtSnapshot (next_view v w e)) [Metrics.OInc "aetherserve_request_retries_total"] [])
          else Some (g, goto q (AtFail e) [] [])
      | AtFail e =>
          Some (g,
            match q_ctx q with
            | Some EDeadlineExceeded =>
                goto q (AtWrite (api_error StatusGatewayTimeout (request_id q) "timeout_error" "deadline_exceeded"
                                   "request deadline expired") true) [] []
            | _ =>
                goto q (AtWrite (api_error StatusBadGateway (request_id q) "upstream_error" "worker_unavailable" (error_text e)) true)
                  [Metrics.OInc "aetherserve_precommit_worker_failures_total"] []
            end)
      | AtWrite e held => Some (g, goto q (if held then AtRelease else AtLeave) [] [WriteAPIError e])
      | AtRelease =>
          match Admission.Release (s_admission s) (q_lease q) with
          | Ok a => Some (set_server g (with_admission s a), goto (set_lease q None) AtReleased [] [])
          | Err m => Some (g, goto (set_panic q m) AtLeave [] [])
          end
      | AtReleased => Some (g, goto q AtLeave [reservations s] [])
      | AtLeave => Some (set_active g (g_active g - 1), goto q Left [] [])
      | Left => None
      end
  end.

(** ** The control plane and the probes *)

(** What a call does after its first critical section, one action at a time: a
    count of the healthy workers, the check of the root's context, the store of
    the flag, an update of the metrics, a record. *)
Inductive call_op :=
| CountReady
| CountProbe
| CheckRoot
| StoreReady (b : bool)
| Update (o : Metrics.op)
| CountGauge
| Logs (r : log_record).

(** How a call is answered: with an error, or accepted or not with a message. *)
Abbreviation answer := (result (Z * GoError) (bool * string)).

Record call := { k_http : bool; k_next : list call_op; k_answer : answer }.

Definition register_section (s : Server) (now : Time) (request : option pb_RegisterWorkerRequest) :
  Server * list call_op * answer :=
  if negb (RegisterWorkerRequest_GetProtocolVersion request =? ProtocolVersion)%string
  then (s, [], grpc_error codes_FailedPrecondition unsupported_version)
  else
    match (_ ← invalid_argument (TimestampFromProto (RegisterWorkerRequest_GetRegisteredAt request)
                "registration timestamp");
           invalid_argument (StateFromProto (RegisterWorkerRequest_GetInitialState request))) with
    | Err e => (s, [], Err e)
    | Ok state =>
        match Registry.Register (s_registry s) now (modelWorker request state) with
        | (_, Err e) =>
            (s, [Update (Metrics.OInc "aetherserve_worker_registration_failures_total")], Ok (false, registry_error_text e))
        | (registry, Ok _) =>
            (with_registry s registry,
             [CountReady; Update (Metrics.OInc "aetherserve_worker_registrations_total"); CountGauge;
              Logs (LogRegistered (RegisterWorkerRequest_GetWorkerId request) (RegisterWorkerRequest_GetDataAddress request))],
             Ok (true, ""))
        end
    end.

Definition heartbeat_section (s : Server) (now : Time) (request : option pb_HeartbeatRequest) :
  Server * list call_op * answer :=
  if negb (HeartbeatRequest_GetProtocolVersion request =? ProtocolVersion)%string
  then (s, [], grpc_error codes_FailedPrecondition unsupported_version)
  else
    match (_ ← invalid_argument (TimestampFromProto (HeartbeatRequest_GetWorkerTimestamp request)
                "heartbeat timestamp");
           invalid_argument (StateFromProto (HeartbeatRequest_GetState request))) with
    | Err e => (s, [], Err e)
    | Ok state =>
        match Registry.Heartbeat (s_registry s) now (HeartbeatRequest_GetWorkerId request) state with
        | (_, Err e) =>
            (s, [Update (Metrics.OInc "aetherserve_worker_heartbeat_rejected_total")], Ok (false, registry_error_text e))
        | (registry, Ok _) => (with_registry s registry, [CountReady; CountGauge], Ok (true, ""))
        end
    end.

Definition healthy_now (s : Server) (now : Time) : bool := (0 <? Registry.HealthyCount (s_registry s) now)%nat.

Definition healthy_gauge (s : Server) (now : Time) : Metrics.op :=
  Metrics.OSet "aetherserve_healthy_workers" (float_of_Z (Z.of_nat (Registry.HealthyCount (s_registry s) now))).

(** The next action of a call. *)
Definition call_step (now : Time) (g : shared) (ops : list call_op) : option (shared * list call_op) :=
  let s := g_server g in
  match ops with
  | CountReady :: ops => Some (g, StoreReady (healthy_now s now) :: ops)
  | CountProbe :: ops => Some (g, if healthy_now s now then CheckRoot :: ops else StoreReady false :: ops)
  | CheckRoot :: ops => Some (g, StoreReady (negb (root_canceled s)) :: ops)
  | StoreReady b :: ops => Some (set_server g (set_ready s b), ops)
  | Update o :: ops => Some (set_server g (count s [o]), ops)
  | CountGauge :: ops => Some (g, Update (healthy_gauge s now) :: ops)
  | Logs r :: ops => Some (add_log g r, ops)
  | [] => None
  end.

(** A call that nobody interrupts, with the readings of its clock. *)
Definition reading (t : readings) (o : call_op) : Time :=
  match o with CountReady => at_ready t | CountGauge => at_gauge t | _ => at_operation t end.

Fixpoint call_through (n : nat) (t : readings) (g : shared) (ops : list call_op) : shared * list call_op :=
  match n, ops with
  | S n, o :: _ =>
      match call_step (reading t o) g ops with Some (g', ops') => call_through n t g' ops' | None => (g, ops) end
  | _, _ => (g, ops)
  end.

(** ** The whole gateway *)

(** Where [Close] stands; the error that it will return so far. *)
Inductive closer :=
| Serving
| ClReady
| ClCancel
| ClShutdown
| ClShutting
| ClControl (r : option GoError)
| ClWait (r : option GoError)
| ClPool (r : option GoError)
| ClConns (cs : list WorkerClient.conn) (r : option GoError)
| Closed (r : option GoError).

Record state := {
  st_shared : shared;
  st_reqs : list req;
  st_calls : list call;
  st_closer : closer;
  st_accepting : bool;             (* the HTTP server hands over requests *)
  st_deadline : option GoError;    (* the error of the context of [Close] *)
}.

Definition set_shared (s : state) (g : shared) : state :=
  {| st_shared := g; st_reqs := st_reqs s; st_calls := st_calls s; st_closer := st_closer s; st_accepting := st_accepting s;
     st_deadline := st_deadline s |}.

Definition set_req (s : state) (k : nat) (q : req) : state :=
  {| st_shared := st_shared s; st_reqs := <[k := q]> (st_reqs s); st_calls := st_calls s; st_closer := st_closer s;
     st_accepting := st_accepting s; st_deadline := st_deadline s |}.

Definition set_calls (s : state) (cs : list call) : state :=
  {| st_shared := st_shared s; st_reqs := st_reqs s; st_calls := cs; st_closer := st_closer s;
     st_accepting := st_accepting s; st_deadline := st_deadline s |}.

Definition set_closer (s : state) (c : closer) : state :=
  {| st_shared := st_shared s; st_reqs := st_reqs s; st_calls := st_calls s; st_closer := c; st_accepting := st_accepting s;
     st_deadline := st_deadline s |}.

Definition serve (s : Server) : state :=
  {| st_shared := {| g_server := s; g_conns := WorkerClient.initial; g_active := 0; g_log := [] |};
     st_reqs := []; st_calls := []; st_closer := Serving; st_accepting := true; st_deadline := None |}.

Definition is_left (q : req) : Prop := q_pc q = Left /\ q_pending q = [].

Definition cancel_server (s : Server) : Server :=
  {| s_config := s_config s; s_registry := s_registry s; s_admission := s_admission s; s_router := s_router s;
     s_clients := s_clients s; s_metrics := s_metrics s; root_canceled := true; ready := ready s;
     closed_once := closed_once s |}.

Definition begin_close (s : Server) : Server :=
  {| s_config := s_config s; s_registry := s_registry s; s_admission := s_admission s; s_router := s_router s;
     s_clients := s_clients s; s_metrics := s_metrics s; root_canceled := root_canceled s; ready := ready s;
     closed_once := true |}.

(** [cancelRoot]: the contexts of the requests derive from the root's. *)
Definition cancel_root (s : state) : state :=
  {| st_shared := set_server (st_shared s) (cancel_server (g_server (st_shared s))); st_reqs := cancel_req <$> st_reqs s;
     st_calls := st_calls s; st_closer := ClShutdown; st_accepting := st_accepting s; st_deadline := st_deadline s |}.

(** A request that the HTTP server hands over. *)
Definition accept (s : state) (r : incoming) : state :=
  {| st_shared := st_shared s;
     st_reqs := st_reqs s ++ [new_req r (if root_canceled (g_server (st_shared s)) then Some ECanceled else None)];
     st_calls := st_calls s; st_closer := st_closer s; st_accepting := st_accepting s; st_deadline := st_deadline s |}.

(** The calls that came over HTTP, or those over gRPC, have been answered. *)
Definition calls_over (http : bool) (s : state) : Prop := Forall (fun c => k_http c = http -> k_next c = []) (st_calls s).

(** The calls of [Close], in their order. [Shutdown] returns in time when every
    connection is closed; until then, and after its context too, a connection that
    was open may bring a request. *)
Inductive close_step : state -> state -> Prop :=
| close_begin s :
    st_closer s = Serving ->
    close_step s (set_closer (set_shared s (set_server (st_shared s) (begin_close (g_server (st_shared s))))) ClReady)
| close_ready s :
    st_closer s = ClReady ->
    close_step s (set_closer (set_shared s (set_server (st_shared s) (set_ready (g_server (st_shared s)) false))) ClCancel)
| close_cancel s :
    st_closer s = ClCancel ->
    close_step s (cancel_root s)
| close_shutdown s :
    st_closer s = ClShutdown ->
    close_step s (set_closer s ClShutting)
| close_shut s e :
    st_closer s = ClShutting -> Forall is_left (st_reqs s) -> calls_over true s ->
    close_step s {| st_shared := st_shared s; st_reqs := st_reqs s; st_calls := st_calls s; st_closer := ClControl e;
                    st_accepting := false; st_deadline := st_deadline s |}
| close_shut_late s e :
    st_closer s = ClShutting -> st_deadline s = Some e -> close_step s (set_closer s (ClControl (Some e)))
| close_control s r :
    st_closer s = ClControl r -> calls_over false s -> close_step s (set_closer s (ClWait r))
| close_control_late s r e :
    st_closer s = ClControl r -> st_deadline s = Some e -> close_step s (set_closer s (ClWait (first_of r (Some e))))
| close_wait s r :
    st_closer s = ClWait r -> g_active (st_shared s) = 0 -> close_step s (set_closer s (ClPool r))
| close_wait_late s r e :
    st_closer s = ClWait r -> st_deadline s = Some e -> close_step s (set_closer s (ClPool (first_of r (Some e))))
| close_pool s r :
    st_closer s = ClPool r ->
    close_step s (set_closer (set_shared s (set_conns (st_shared s) (drop_all (g_conns (st_shared s))).1))
                    (ClConns (drop_all (g_conns (st_shared s))).2 r))
| close_connection s c cs r e :
    st_closer s = ClConns (c :: cs) r ->
    close_step s (set_closer (set_shared s (set_conns (st_shared s) (close_conn (g_conns (st_shared s)) c)))
                    (ClConns cs (first_of r e)))
| close_end s r :
    st_closer s = ClConns [] r -> close_step s (set_closer s (Closed r)).

(** The gRPC server takes calls until it has stopped. *)
Definition control_open (s : state) : bool :=
  match st_closer s with ClWait _ | ClPool _ | ClConns _ _ | Closed _ => false | _ => true end.

(** A call begins with its first critical section. *)
Definition begin_call (s : state) (http : bool) (x : Server * list call_op * answer) : state :=
  let '(server, ops, a) := x in
  set_calls (set_shared s (set_server (st_shared s) server)) (st_calls s ++ [{| k_http := http; k_next := ops; k_answer := a |}]).

Definition set_call (s : state) (i : nat) (c : call) : state := set_calls s (<[i := c]> (st_calls s)).

(** The step of an attempt's goroutines; a step that updates a metric does nothing
    else for the handler. The context of the attempt ends only when that of the request has. *)
Definition pipe_moves (cfg : Config.RouterConfig) (started : Time) (ctx : option GoError) (a : opened_attempt) (p : pipe) : Prop :=
  Stream.step (o_request a) (w_ID (o_worker a)) error_text (Z.to_nat (Config.SSEBufferSize cfg)) started (o_pipe a) p /\
  (ctx_done (o_pipe a) = false -> ctx_done p = true -> is_Some ctx).

Definition pipe_ops (p p' : pipe) : list Metrics.op := drop (length (ops p)) (ops p').

(** The requests with their attempts, and [Close]. *)
Inductive request_step : state -> state -> Prop :=
| arrive s r :
    st_accepting s = true ->
    request_step s (accept s r)
| handler s k q t g q' :
    st_reqs s !! k = Some q -> turn_step t (st_shared s) q = Some (g, q') ->
    request_step s (set_req (set_shared s g) k q')
| context_ends s k q e :
    st_reqs s !! k = Some q -> q_ctx q = None -> e = ECanceled \/ e = EDeadlineExceeded ->
    request_step s (set_req s k (set_ctx q e))
| attempt_moves s k q i a p :
    st_reqs s !! k = Some q -> q_pipes q !! i = Some a ->
    pipe_moves (s_config (g_server (st_shared s))) (q_started q) (q_ctx q) a p ->
    request_step s (set_req (set_shared s (set_server (st_shared s) (count (g_server (st_shared s)) (pipe_ops (o_pipe a) p)))) k
      (set_pipes q (<[i := {| o_request := o_request a; o_worker := o_worker a; o_pipe := p |}]> (q_pipes q))))
| shuts_down s s' : close_step s s' -> request_step s s'
| deadline_passes s e :
    st_deadline s = None ->
    request_step s {| st_shared := st_shared s; st_reqs := st_reqs s; st_calls := st_calls s; st_closer := st_closer s;
                      st_accepting := st_accepting s; st_deadline := Some e |}.

(** The calls of the control plane and the probes. *)
Inductive control_step : state -> state -> Prop :=
| registers s now request :
    control_open s = true -> control_step s (begin_call s false (register_section (g_server (st_shared s)) now request))
| reports s now request :
    control_open s = true -> control_step s (begin_call s false (heartbeat_section (g_server (st_shared s)) now request))
| probes s :
    st_accepting s = true -> control_step s (begin_call s true (g_server (st_shared s), [CountProbe], Ok (true, "")))
| call_runs s i c now g ops :
    st_calls s !! i = Some c -> call_step now (st_shared s) (k_next c) = Some (g, ops) ->
    control_step s (set_call (set_shared s g) i {| k_http := k_http c; k_next := ops; k_answer := k_answer c |}).

Inductive step : state -> state -> Prop :=
| request_moves s s' : request_step s s' -> step s s'
| control_moves s s' : control_step s s' -> step s s'.

Definition reachable (cfg : Config.RouterConfig) (s : state) : Prop :=
  exists server, New cfg = Ok server /\ rtc step (serve server) s.

(** ** The accounts *)
Definition reserved_cost (q : req) : Z :=
  match q_lease q, q_request q with Some _, Some r => reservation_cost r | _, _ => 0 end.

Definition inside (q : req) : Z := match q_pc q with AtEnter | Left => 0 | _ => 1 end.

Abbreviation held s i := (lim_held (E := Admission.AdmissionError) (s_admission s) i).

(** Where a handler holds a lease. *)
Definition lease_ok (q : req) : Prop :=
  match q_pc q with
  | AtEnter | AtRequest | AtReleased | AtLeave | Left => q_lease q = None
  | AtHealthy r | AtReserve r => q_lease q = None /\ q_request q = Some r
  | AtReserved r => is_Some (q_lease q) /\ q_request q = Some r
  | AtWrite _ false => q_lease q = None
  | _ => is_Some (q_lease q) /\ is_Some (q_request q)
  end.

Record req_ok (server : Server) (q : req) : Prop := {
  rq_lease : lease_ok q;
  rq_panic : q_panic q = None;
  rq_held : forall i, q_lease q = Some i -> exists r, q_request q = Some r /\ held server i = Some (reservation_cost r);
}.

Record accounts (s : state) : Prop := {
  ac_ok : server_ok (g_server (st_shared s));
  ac_reqs : forall k q, st_reqs s !! k = Some q -> req_ok (g_server (st_shared s)) q;
  ac_apart : forall j k p q i, st_reqs s !! j = Some p -> st_reqs s !! k = Some q ->
    q_lease p = Some i -> q_lease q = Some i -> j = k;
  ac_holders : forall i c, held (g_server (st_shared s)) i = Some c ->
    exists k q, st_reqs s !! k = Some q /\ q_lease q = Some i;
  ac_sum : Admission.InFlight (s_admission (g_server (st_shared s))) = sum_list_Z (reserved_cost <$> st_reqs s);
  ac_active : g_active (st_shared s) = sum_list_Z (inside <$> st_reqs s);
}.

Lemma accounts_shared (s s' : state) :
  s_admission (g_server (st_shared s')) = s_admission (g_server (st_shared s)) ->
  g_active (st_shared s') = g_active (st_shared s) -> st_reqs s' = st_reqs s -> accounts s -> accounts s'.
Proof.
  intros Ha Hg Hr [H1 H2 H3 H6 H4 H5]. split; rewrite ?Hr, ?Ha, ?Hg; try done.
  - unfold server_ok in *. by rewrite Ha.
  - intros k q Hk. destruct (H2 k q Hk) as [L1 L2 L3]. split; try done. by rewrite Ha.
Qed.

(** A turn that leaves the controller alone. *)
Lemma accounts_turn (s : state) (k : nat) (q q' : req) (g : shared) :
  accounts s -> st_reqs s !! k = Some q ->
  s_admission (g_server g) = s_admission (g_server (st_shared s)) ->
  g_active g = g_active (st_shared s) - inside q + inside q' ->
  q_lease q' = q_lease q -> (is_Some (q_lease q) -> q_request q' = q_request q) -> q_panic q' = q_panic q ->
  lease_ok q' -> accounts (set_req (set_shared s g) k q').
Proof.
  intros [H1 H2 H3 H6 H4 H5] Hk Ha Hg Hl Hr Hp Hok. split; cbn [set_req set_shared st_reqs st_shared].
  - unfold server_ok in *. by rewrite Ha.
  - intros j x [[-> ->]|[_ Hx]]%lookup_insert_cases.
    + destruct (H2 k q Hk) as [L1 L2 L3]. split; [done|congruence|]. rewrite Hl, Ha. intros i Hi.
      rewrite Hr by eauto. by apply L3.
    + destruct (H2 j x Hx) as [L1 L2 L3]. split; try done. by rewrite Ha.
  - intros i j x y l Hx Hy. apply lookup_insert_cases in Hx as [[-> ->]|[Hni Hx]], Hy as [[-> ->]|[Hnj Hy]]; try done.
    + rewrite Hl. intros Hlx Hly. by eapply H3.
    + rewrite Hl. intros Hlx Hly. by eapply H3.
    + by apply H3.
  - rewrite Ha. intros i c Hc. destruct (H6 i c Hc) as (j & x & Hj & Hx). destruct (decide (j = k)) as [->|Hne].
    + exists k, q'. rewrite (lookup_insert_here _ _ q) by done. split; [done|]. congruence.
    + exists j, x. by rewrite list_lookup_insert_ne.
  - rewrite Ha, H4, (sum_insert _ _ _ q) by done.
    assert (reserved_cost q' = reserved_cost q) as ->; [|lia]. unfold reserved_cost. rewrite Hl.
    destruct (q_lease q); [|done]. by rewrite Hr by eauto.
  - rewrite Hg, H5, (sum_insert _ _ _ q) by done. lia.
Qed.


Lemma turn_reserve (s : state) (k : nat) (q : req) (request : Request) (now : Time) (a : Admission.Controller) (i : nat)
    (ops : list Metrics.op) :
  accounts s -> st_reqs s !! k = Some q -> q_pc q = AtReserve request ->
  Admission.Reserve (s_admission (g_server (st_shared s))) now (TenantID request) (reservation_cost request) = (a, Ok i) ->
  accounts (set_req (set_shared s (set_server (st_shared s) (with_admission (g_server (st_shared s)) a))) k
    (goto (set_lease q (Some i)) (AtReserved request) ops [])).
Proof.
  intros [H1 H2 H3 H6 H4 H5] Hk Hpc Hr. destruct (H2 k q Hk) as [L1 L2 L3]. unfold lease_ok in L1. rewrite Hpc in L1.
  destruct L1 as [Hl Hq].
  destruct (reserve_granted (E := Admission.AdmissionError) _ a now (TenantID request) (reservation_cost request) i H1
    (wrap_u64_range _) Hr) as (Hok & Hfree & Hheld & Hoth & Hin).
  assert (forall j x l, st_reqs s !! j = Some x -> q_lease x = Some l -> l <> i) as Hne.
  { intros j x l Hj Hx ->. destruct (H2 j x Hj) as [_ _ Hx3]. destruct (Hx3 i Hx) as (r & _ & Hr'). congruence. }
  split; cbn [set_req set_shared set_server st_reqs st_shared g_server g_active with_admission s_admission].
  - exact Hok.
  - intros j x [[-> ->]|[_ Hx]]%lookup_insert_cases.
    + split; [|done|]; [by split|]. intros l [= <-]. by exists request.
    + destruct (H2 j x Hx) as [M1 M2 M3]. split; [done..|]. intros l Hl'. destruct (M3 l Hl') as (r & ? & Hr'). exists r.
      split; [done|]. cbn [g_server with_admission s_admission]. rewrite Hoth by eauto. exact Hr'.
  - intros j1 j2 x y l [[-> ->]|[Hn1 Hx]]%lookup_insert_cases [[-> ->]|[Hn2 Hy]]%lookup_insert_cases; try done.
    + intros [= <-] Hy'. by destruct (Hne j2 y i Hy Hy').
    + intros Hx' [= <-]. by destruct (Hne j1 x i Hx Hx').
    + by apply H3.
  - intros j c Hc. destruct (decide (j = i)) as [->|Hji].
    + eexists k, _. rewrite (lookup_insert_here _ _ q) by done. by split.
    + rewrite Hoth in Hc by done. destruct (H6 j c Hc) as (m & x & Hm & Hx). exists m, x.
      rewrite list_lookup_insert_ne; [done|]. intros ->. congruence.
  - change (Admission.InFlight a = Admission.InFlight (s_admission (g_server (st_shared s))) + reservation_cost request) in Hin.
    rewrite Hin, H4, (sum_insert _ _ _ q) by done. unfold reserved_cost at 3 4.
    cbn [goto set_lease q_lease q_request]. rewrite Hl, Hq. lia.
  - rewrite H5, (sum_insert _ _ _ q) by done. unfold inside at 3 4. cbn [goto q_pc]. rewrite Hpc. lia.
Qed.

(** A refused reservation changes the buckets only. *)
Lemma accounts_refused (s : state) (a : Admission.Controller) :
  accounts s -> lim_ok (E := Admission.AdmissionError) a ->
  (forall j, lim_held (E := Admission.AdmissionError) a j = held (g_server (st_shared s)) j) ->
  lim_in_flight (E := Admission.AdmissionError) a =
    lim_in_flight (E := Admission.AdmissionError) (s_admission (g_server (st_shared s))) ->
  accounts (set_shared s (set_server (st_shared s) (with_admission (g_server (st_shared s)) a))).
Proof.
  intros [H1 H2 H3 H6 H4 H5] Hok Hoth Hin. split; cbn [set_shared set_server st_reqs st_shared g_server g_active with_admission s_admission].
  - exact Hok.
  - intros k q Hk. destruct (H2 k q Hk) as [M1 M2 M3]. split; [done..|]. intros i Hi.
    destruct (M3 i Hi) as (r & ? & Hr). exists r. split; [done|]. cbn [with_admission s_admission]. by rewrite Hoth.
  - exact H3.
  - intros i c Hc. apply (H6 i c). cbn [with_admission s_admission] in Hc. by rewrite <- Hoth.
  - rewrite <- H4. exact Hin.
  - exact H5.
Qed.

Lemma turn_release (s : state) (k : nat) (q : req) :
  accounts s -> st_reqs s !! k = Some q -> q_pc q = AtRelease ->
  exists a, Admission.Release (s_admission (g_server (st_shared s))) (q_lease q) = Ok a /\
    accounts (set_req (set_shared s (set_server (st_shared s) (with_admission (g_server (st_shared s)) a))) k
      (goto (set_lease q None) AtReleased [] [])).
Proof.
  intros [H1 H2 H3 H6 H4 H5] Hk Hpc. destruct (H2 k q Hk) as [L1 L2 L3]. unfold lease_ok in L1. rewrite Hpc in L1.
  destruct L1 as [[i Hl] _]. destruct (L3 i Hl) as (r & Hq & Hheld).
  destruct (release_held (E := Admission.AdmissionError) _ i (reservation_cost r) H1 Hheld)
    as (a & Hr & Hok & Hnone & Hoth & Hin).
  exists a. split; [rewrite Hl; exact Hr|].
  split; cbn [set_req set_shared set_server st_reqs st_shared g_server g_active with_admission s_admission].
  - exact Hok.
  - intros j x [[-> ->]|[Hne Hx]]%lookup_insert_cases; [by split|].
    destruct (H2 j x Hx) as [M1 M2 M3]. split; [done..|]. intros l Hl'. destruct (M3 l Hl') as (r' & ? & Hr'). exists r'.
    split; [done|]. cbn [g_server with_admission s_admission]. rewrite Hoth; [exact Hr'|].
    intros ->. apply Hne. by eapply H3.
  - intros j1 j2 x y l [[-> ->]|[Hn1 Hx]]%lookup_insert_cases [[-> ->]|[Hn2 Hy]]%lookup_insert_cases; try done. by apply H3.
  - intros j c Hc. destruct (decide (j = i)) as [->|Hji]; [congruence|].
    rewrite Hoth in Hc by done. destruct (H6 j c Hc) as (m & x & Hm & Hx). exists m, x.
    rewrite list_lookup_insert_ne; [done|]. intros ->. congruence.
  - change (Admission.InFlight a = Admission.InFlight (s_admission (g_server (st_shared s))) - reservation_cost r) in Hin.
    rewrite Hin, H4, (sum_insert _ _ _ q) by done. unfold reserved_cost at 3 4.
    cbn [goto set_lease q_lease q_request]. rewrite Hl, Hq. lia.
  - rewrite H5, (sum_insert _ _ _ q) by done. unfold inside at 3 4. cbn [goto q_pc]. rewrite Hpc. lia.
Qed.

(** A turn that reserves and releases nothing. *)
Ltac uncounted s k q Hpc := apply (accounts_turn s k q); try done; unfold inside; rewrite Hpc; cbn; lia.

Lemma accounts_handler (s : state) (k : nat) (q q' : req) (t : turn) (g : shared) :
  accounts s -> st_reqs s !! k = Some q -> turn_step t (st_shared s) q = Some (g, q') ->
  accounts (set_req (set_shared s g) k q').
Proof.
  intros Hs Hk. destruct (ac_reqs s Hs k q Hk) as [L1 L2 L3]. unfold turn_step.
  destruct (q_pending q) as [|o ops].
  2: { intros [= <- <-]. apply (accounts_turn s k q); try done. unfold inside. cbn. lia. }
  destruct (q_pc q) as [| |r|r|r|v|v ws|v d w|v w|v w c|v w c|v w|v w|v w e|v w e c|v w e|e|e []| | | |] eqn:Hpc;
    unfold lease_ok in L1; rewrite Hpc in L1.
  - intros [= <- <-]. uncounted s k q Hpc.
  - destruct (parseRequest _ _ _ _) as [r|e]; intros [= <- <-]; apply (accounts_turn s k q); try done;
      [unfold inside; rewrite Hpc; cbn; lia|rewrite L1; by intros [? ?]|unfold inside; rewrite Hpc; cbn; lia].
  - destruct L1. destruct (_ =? 0)%nat; intros [= <- <-]; uncounted s k q Hpc.
  - destruct (Admission.Reserve _ _ _ _) as [a [i|e]] eqn:Hr; intros [= <- <-].
    + by apply (turn_reserve s k q r (t_now t)).
    + destruct (reserve_refused (E := Admission.AdmissionError) _ a (t_now t) (TenantID r) (reservation_cost r) e
        (ac_ok s Hs) (wrap_u64_range _) Hr) as (Hok & Hoth & Hin).
      pose proof (accounts_refused s a Hs Hok Hoth Hin) as Hs'. destruct L1.
      apply (accounts_turn (set_shared s (set_server (st_shared s) (with_admission (g_server (st_shared s)) a))) k q);
        try done. unfold inside; rewrite Hpc; cbn; lia.
  - destruct L1 as [L1 Hq]. intros [= <- <-]. uncounted s k q Hpc.
  - intros [= <- <-]. uncounted s k q Hpc.
  - destruct (select_from _ _ _ _ _) as [router [d [w|e]]]; [|destruct (v_previous v)]; intros [= <- <-]; uncounted s k q Hpc.
  - intros [= <- <-]. uncounted s k q Hpc.
  - destruct (WorkerClient.client_lookup _ _); [|destruct (t_dial t)]; intros [= <- <-]; uncounted s k q Hpc.
  - destruct (publish _ _ _) as [c' [x|]]; intros [= <- <-]; uncounted s k q Hpc.
  - intros [= <- <-]. uncounted s k q Hpc.
  - destruct (t_generate t), (q_ctx q); try done; intros [= <- <-]; uncounted s k q Hpc.
  - destruct (list.last _) as [a|]; [|done]. destruct (p_phase _) as [| |[e|]], (due (o_pipe a)); try done; intros [= <- <-]; uncounted s k q Hpc.
  - destruct (drop_conn _ _) as [c' [x|]]; intros [= <- <-]; uncounted s k q Hpc.
  - intros [= <- <-]. uncounted s k q Hpc.
  - destruct (shouldRetry _ _ _ _); intros [= <- <-]; uncounted s k q Hpc.
  - destruct (q_ctx q) as [[]|]; intros [= <- <-]; uncounted s k q Hpc.
  - intros [= <- <-]. uncounted s k q Hpc.
  - intros [= <- <-]. uncounted s k q Hpc.
  - destruct (turn_release s k q Hs Hk Hpc) as (a & -> & Ha). by intros [= <- <-].
  - intros [= <- <-]. uncounted s k q Hpc.
  - intros [= <- <-]. uncounted s k q Hpc.
  - done.
Qed.

(** ** Calls that nobody interrupts *)

(** What the client of a call reads, at the time of the answer. *)
Definition register_answer (t : readings) (a : answer) : result (Z * GoError) pb_RegisterWorkerResponse :=
  match a with Err e => Err e | Ok (accepted, m) => Ok (register_response accepted m (at_response t)) end.

Definition heartbeat_answer (t : readings) (a : answer) : result (Z * GoError) pb_HeartbeatResponse :=
  match a with Err e => Err e | Ok (accepted, m) => Ok (heartbeat_response accepted m (at_response t)) end.

Lemma register_through (g : shared) (t : readings) (request : option pb_RegisterWorkerRequest) :
  let '(server, ops, a) := register_section (g_server g) (at_operation t) request in
  let '(g', rest) := call_through 6 t (set_server g server) ops in
  rest = [] /\ (g_server g', register_answer t a) = RegisterWorker registry_error_text (g_server g) t request.
Proof.
  unfold register_section, RegisterWorker. destruct (negb _); [done|]. destruct (_ ≫= _) as [state|e]; [|done].
  by destruct (Registry.Register _ _ _) as [registry [r|e]].
Qed.

Lemma heartbeat_through (g : shared) (t : readings) (request : option pb_HeartbeatRequest) :
  let '(server, ops, a) := heartbeat_section (g_server g) (at_operation t) request in
  let '(g', rest) := call_through 4 t (set_server g server) ops in
  rest = [] /\ (g_server g', heartbeat_answer t a) = Heartbeat registry_error_text (g_server g) t request.
Proof.
  unfold heartbeat_section, Heartbeat. destruct (negb _); [done|]. destruct (_ ≫= _) as [state|e]; [|done].
  by destruct (Registry.Heartbeat _ _ _ _) as [registry [r|e]].
Qed.

Lemma probe_through (g : shared) (t : readings) :
  let '(g', rest) := call_through 3 t g [CountProbe] in
  rest = [] /\ g_server g' = (handleReady (g_server g) (at_operation t)).1.
Proof.
  cbn [call_through call_step reading]. unfold handleReady, healthy_now. cbn [fst].
  by destruct (0 <? _)%nat, (root_canceled (g_server g)) eqn:Hr; cbn; rewrite ?Hr.
Qed.


(** ** The other goroutines leave the controller alone *)
(** What a call may change of the server: the directory at its beginning, then
    the flag and the metrics. *)
Record call_frame (s s' : Server) : Prop := {
  cf_admission : s_admission s' = s_admission s;
  cf_config : s_config s' = s_config s;
  cf_clients : s_clients s' = s_clients s;
  cf_router : s_router s' = s_router s;
  cf_root : root_canceled s' = root_canceled s;
  cf_registry : source_ok (s_registry s) -> source_ok (s_registry s');
}.

Lemma call_frame_refl (s : Server) : call_frame s s.
Proof. done. Qed.

#[local] Hint Resolve call_frame_refl : core.

Lemma register_frame (s : Server) (now : Time) (request : option pb_RegisterWorkerRequest) :
  let s' := (register_section s now request).1.1 in call_frame s s' /\ s_metrics s' = s_metrics s.
Proof.
  unfold register_section. repeat case_match; try done. split; [|done]. split; try done. cbn. intros Hi.
  match goal with H : Registry.Register _ ?t ?w = _ |- _ =>
    apply (Registry.inv_apply _ (Registry.ORegister t w)) in Hi; simpl in Hi; by rewrite H in Hi end.
Qed.

Lemma heartbeat_frame (s : Server) (now : Time) (request : option pb_HeartbeatRequest) :
  let s' := (heartbeat_section s now request).1.1 in call_frame s s' /\ s_metrics s' = s_metrics s.
Proof.
  unfold heartbeat_section. repeat case_match; try done. split; [|done]. split; try done. cbn. intros Hi.
  match goal with H : Registry.Heartbeat _ ?t ?w ?x = _ |- _ =>
    apply (Registry.inv_apply _ (Registry.OHeartbeat t w x)) in Hi; simpl in Hi; by rewrite H in Hi end.
Qed.

Lemma call_step_frame (now : Time) (g g' : shared) (ops ops' : list call_op) :
  call_step now g ops = Some (g', ops') ->
  call_frame (g_server g) (g_server g') /\ g_conns g' = g_conns g /\ g_active g' = g_active g.
Proof. destruct ops as [|[]]; intros [= <- _]; done. Qed.

(** The calls leave the requests and [Close] where they are. *)
Record call_rest (s s' : state) : Prop := {
  cr_server : call_frame (g_server (st_shared s)) (g_server (st_shared s'));
  cr_conns : g_conns (st_shared s') = g_conns (st_shared s);
  cr_active : g_active (st_shared s') = g_active (st_shared s);
  cr_reqs : st_reqs s' = st_reqs s;
  cr_closer : st_closer s' = st_closer s;
  cr_accepting : st_accepting s' = st_accepting s;
  cr_deadline : st_deadline s' = st_deadline s;
}.

Lemma begin_rest (s : state) (http : bool) (x : Server * list call_op * answer) :
  call_frame (g_server (st_shared s)) x.1.1 -> call_rest s (begin_call s http x).
Proof. by destruct x as [[server ops] a]. Qed.

Lemma control_rest (s s' : state) : control_step s s' -> call_rest s s'.
Proof.
  intros [x now r _|x now r _|x _|x i c now g ops _ Hs]; [apply begin_rest, register_frame|apply begin_rest, heartbeat_frame|done|].
  apply call_step_frame in Hs as (H1 & H2 & H3). done.
Qed.

Lemma accounts_arrive (s : state) (r : incoming) : accounts s -> accounts (accept s r).
Proof.
  unfold accept. set (x := new_req r _).
  assert (forall k q, (st_reqs s ++ [x]) !! k = Some q -> st_reqs s !! k = Some q \/ q = x) as Hq.
  { intros k q [?|[_ Hx]]%lookup_app_Some; [by left|right].
    by apply list_elem_of_lookup_2, list_elem_of_singleton in Hx. }
  intros [H1 H2 H3 H6 H4 H5]. split; cbn [st_reqs st_shared].
  - done.
  - intros k q [Hk| ->]%Hq; [by eapply H2|by split].
  - intros j k y z i Hj Hk Hx Hy.
    assert (forall m z, (st_reqs s ++ [x]) !! m = Some z -> q_lease z = Some i -> st_reqs s !! m = Some z) as Hold.
    { intros m z' [?| ->]%Hq; done. }
    apply (H3 j k y z i); auto.
  - intros i z Hz. destruct (H6 i z Hz) as (k & q & Hk & Hl). exists k, q. split; [|done]. by apply lookup_app_l_Some.
  - rewrite H4, sum_snoc. cbn. lia.
  - rewrite H5, sum_snoc. cbn. lia.
Qed.

Lemma cancel_req_same (q : req) :
  q_lease (cancel_req q) = q_lease q /\ q_request (cancel_req q) = q_request q /\ q_panic (cancel_req q) = q_panic q /\
  q_pc (cancel_req q) = q_pc q /\ q_pending (cancel_req q) = q_pending q /\ q_pipes (cancel_req q) = q_pipes q.
Proof. unfold cancel_req. by destruct (q_ctx q). Qed.

Lemma accounts_cancel (s : state) : accounts s -> accounts (cancel_root s).
Proof.
  assert (forall k q, (cancel_req <$> st_reqs s) !! k = Some q -> exists x, st_reqs s !! k = Some x /\ q = cancel_req x) as Hq.
  { intros k q. rewrite list_lookup_fmap. destruct (st_reqs s !! k) as [x|]; [|done]. intros [= <-]. by exists x. }
  intros [H1 H2 H3 H6 H4 H5]. split; cbn [cancel_root st_reqs st_shared set_server g_server g_active].
  - exact H1.
  - intros k q (x & Hk & ->)%Hq. destruct (H2 k x Hk) as [L1 L2 L3]. destruct (cancel_req_same x) as (E1 & E2 & E3 & E4 & _).
    split; [|congruence|].
    + unfold lease_ok in *. by rewrite E4, E1, E2.
    + intros i. rewrite E1, E2. apply L3.
  - intros j k p q i (x & Hj & ->)%Hq (y & Hk & ->)%Hq. rewrite (proj1 (cancel_req_same x)), (proj1 (cancel_req_same y)).
    by apply H3.
  - intros i c Hc. destruct (H6 i c Hc) as (k & q & Hk & Hl). exists k, (cancel_req q).
    rewrite list_lookup_fmap, Hk, (proj1 (cancel_req_same q)). done.
  - rewrite <- list_fmap_compose. etransitivity; [exact H4|]. f_equal. apply list_fmap_ext. intros k q _. cbn.
    destruct (cancel_req_same q) as (E1 & E2 & _). unfold reserved_cost. by rewrite E1, E2.
  - rewrite <- list_fmap_compose. etransitivity; [exact H5|]. f_equal. apply list_fmap_ext. intros k q _. cbn.
    destruct (cancel_req_same q) as (_ & _ & _ & E4 & _). unfold inside. by rewrite E4.
Qed.

Lemma accounts_step (s s' : state) : accounts s -> step s s' -> accounts s'.
Proof.
  intros Hs Hst. destruct Hst as [s s' Hst|s s' [[] ? ? ? ? ? ?]%control_rest]; [|by apply (accounts_shared s)].
  destruct Hst as [s r _|s k q t g q' Hk Ht|s k q e Hk _ _|s k q i a p Hk Ha _|s s' Hc|s e _].
  - by apply accounts_arrive.
  - by eapply accounts_handler.
  - destruct (ac_reqs s Hs k q Hk) as [L1 L2 L3].
    apply (accounts_turn s k q (set_ctx q e) (st_shared s)); try done. unfold inside. cbn. lia.
  - destruct (ac_reqs s Hs k q Hk) as [L1 L2 L3].
    apply (accounts_turn s k q); try done. unfold inside. cbn. lia.
  - destruct Hc; try (by apply (accounts_shared s)). by apply accounts_cancel.
  - by apply (accounts_shared s).
Qed.

(** ** What the configuration fixes *)
Record fitted (cfg : Config.RouterConfig) (s : Server) : Prop := {
  fi_config : s_config s = cfg;
  fi_admission : Admission.config (s_admission s) = Config.rc_Admission cfg;
  fi_policy : Routing.policy (s_router s) = Config.Policy (Config.rc_Routing cfg);
  fi_registry : source_ok (s_registry s);
}.

Record built (cfg : Config.RouterConfig) (s : state) : Prop := {
  bu_server : fitted cfg (g_server (st_shared s));
  bu_pool : WorkerClient.pool (g_conns (st_shared s)) = s_clients (g_server (st_shared s));
}.

Lemma reserve_config (c c' : Admission.Controller) (now : Time) (tenant : string) (cost : Z)
    (r : result Admission.AdmissionError nat) :
  Admission.Reserve c now tenant cost = (c', r) -> Admission.config c' = Admission.config c.
Proof. unfold Admission.Reserve. repeat case_match; intros [= <- _]; done. Qed.

Lemma release_config (c c' : Admission.Controller) (l : option nat) :
  Admission.Release c l = Ok c' -> Admission.config c' = Admission.config c.
Proof. unfold Admission.Release. repeat case_match; intros; simplify_eq; done. Qed.

Lemma select_policy (workers : list Worker) (now : Time) (router router' : Routing.Router) (request : Request)
    (excluded : gset string) (o : RoutingDecision * result Routing.RoutingError Worker) :
  select_from workers now router request excluded = (router', o) -> Routing.policy router' = Routing.policy router.
Proof.
  unfold select_from. destruct (Routing.Select _ _ _ _) as [r [d e]] eqn:HS. intros [= <- _].
  destruct e as [e|]; [by apply Routing.select_none in HS as [-> _]|].
  apply Routing.select_some in HS as (c & _ & _ & _ & ->). by destruct (Routing.is_rr router).
Qed.

(** A change that keeps the configuration, the policy and the directory's
    well-formedness. *)
Definition setup_kept (g g' : shared) : Prop :=
  (forall cfg, fitted cfg (g_server g) -> fitted cfg (g_server g')) /\
  (WorkerClient.pool (g_conns g) = s_clients (g_server g) -> WorkerClient.pool (g_conns g') = s_clients (g_server g')).

Lemma setup_same (g g' : shared) :
  s_config (g_server g') = s_config (g_server g) -> s_admission (g_server g') = s_admission (g_server g) ->
  s_router (g_server g') = s_router (g_server g) -> s_registry (g_server g') = s_registry (g_server g) ->
  (WorkerClient.pool (g_conns g) = s_clients (g_server g) -> WorkerClient.pool (g_conns g') = s_clients (g_server g')) ->
  setup_kept g g'.
Proof. intros E1 E2 E3 E4 E5. split; [|done]. intros cfg [H1 H2 H3 H4]. split; congruence. Qed.

Lemma turn_setup (t : turn) (g g' : shared) (q q' : req) : turn_step t g q = Some (g', q') -> setup_kept g g'.
Proof.
  unfold turn_step. destruct (q_pending q); [|by intros [= <- <-]; apply setup_same].
  destruct (q_pc q); try (intros [= <- <-]; by apply setup_same); intros Ht;
    repeat match type of Ht with context [match ?x with _ => _ end] => destruct x eqn:? end; simplify_eq;
    try (by apply setup_same); split; try done; intros cfg [H1 H2 H3 H4]; (split; [done| | |done]);
    cbn [set_server g_server with_admission with_router s_admission s_router]; try done.
  all: try (etransitivity; [by eapply reserve_config|done]). all: try (etransitivity; [by eapply release_config|done]).
  all: etransitivity; [by eapply select_policy|done].
Qed.

Lemma built_setup (cfg : Config.RouterConfig) (s s' : state) :
  built cfg s -> setup_kept (st_shared s) (st_shared s') -> built cfg s'.
Proof. intros [H1 H2] [E1 E2]. split; auto. Qed.

Lemma built_step (cfg : Config.RouterConfig) (s s' : state) : built cfg s -> step s s' -> built cfg s'.
Proof.
  intros Hs Hst. destruct Hst as [s s' Hst|s s' [[] E1 E2 E3 E4 E5 E6]%control_rest]; (apply (built_setup cfg s s' Hs)).
  2: { split; [intros c [H1 H2 H3 H4]; split; [congruence..|auto]|by rewrite E1; congruence]. }
  destruct Hst as [s r _|s k q t g q' Hk Ht|s k q e Hk _ _|s k q i a p Hk Ha _|s s' Hc|s e _]; try (by apply setup_same).
  - by eapply turn_setup.
  - destruct Hc; by apply setup_same.
Qed.

Lemma reachable_accounts (cfg : Config.RouterConfig) (s : state) :
  is_u64 (Admission.GlobalInFlightTokens (Config.rc_Admission cfg)) -> reachable cfg s -> accounts s /\ built cfg s.
Proof.
  intros Hu (server & Hn & Hr). apply New_total in Hn as [Hv ->].
  eapply (rtc_invariant step (fun x => accounts x /\ built cfg x)); [| |exact Hr].
  - intros x y [? ?] Hs. split; [by eapply accounts_step|by eapply built_step].
  - split; [|split; [|done]; split; try done; split; [done|]; by destruct (Config.vr_positive _ Hv)]. split; try done.
    apply Admission.admission_inv_new; [done|]. apply Config.admission_new_ok. split; [|done].
    by apply Config.vr_admission.
Qed.

(** C3: With every request at its own point of the handler, the tokens in flight are
    those of the requests that hold a lease, and within the limit; every lease
    that is not released is held by exactly one request; the wait group counts
    the handlers inside; no release panics. *)
Theorem traffic_accounting (cfg : Config.RouterConfig) (s : state) :
  is_u64 (Admission.GlobalInFlightTokens (Config.rc_Admission cfg)) -> reachable cfg s ->
  let server := g_server (st_shared s) in
  Admission.InFlight (s_admission server) = sum_list_Z (reserved_cost <$> st_reqs s) /\
  0 <= Admission.InFlight (s_admission server) <= Admission.GlobalInFlightTokens (Config.rc_Admission cfg) /\
  (forall i c, held server i = Some c ->
     exists k q, st_reqs s !! k = Some q /\ q_lease q = Some i /\ reserved_cost q = c /\
       forall j p, st_reqs s !! j = Some p -> q_lease p = Some i -> j = k) /\
  (forall k q i, st_reqs s !! k = Some q -> q_lease q = Some i -> held server i = Some (reserved_cost q)) /\
  g_active (st_shared s) = sum_list_Z (inside <$> st_reqs s) /\
  Forall (fun q => q_panic q = None) (st_reqs s).
Proof.
  intros Hu Hr server. destruct (reachable_accounts cfg s Hu Hr) as [[H1 H2 H3 H6 H4 H5] [[_ B2 _ _] _]].
  assert (forall k q i, st_reqs s !! k = Some q -> q_lease q = Some i -> held server i = Some (reserved_cost q)) as Hh.
  { intros k q i Hk Hi. destruct (rq_held _ _ (H2 k q Hk) i Hi) as (r & Hq & Hr'). unfold reserved_cost. by rewrite Hi, Hq. }
  pose proof (Admission.inv_limit _ _ H1) as [Hl1 Hl2]. rewrite B2 in Hl2.
  split_and!; try done.
  - intros i c Hc. destruct (H6 i c Hc) as (k & q & Hk & Hl). exists k, q. split_and!; try done.
    + specialize (Hh k q i Hk Hl). congruence.
    + intros j p Hj Hp. by eapply H3.
  - apply list.Forall_forall. intros q [k Hk]%list_elem_of_lookup. by destruct (H2 k q Hk).
Qed.

(** ** Schedules: runs that can be evaluated *)
Inductive stream_move :=
| SRecv (o : recv_outcome)
| SDeliver
| STake (now : Time) (write_ok : bool)
| SUpdate.

Inductive move :=
| Streams (k i : nat) (m : stream_move)
| Arrives (r : incoming)
| Turns (k : nat) (t : turn)
| Ends (k : nat)                                   (* the client goes away *)
| Registers (now : Time) (request : option pb_RegisterWorkerRequest)
| Calls (i : nat) (now : Time)
| Closes                                           (* the next call of [Close] *)
| ClosesLate                                       (* the same, at the end of its context *)
| Deadline.

Definition left_b (q : req) : bool :=
  match q_pc q, q_pending q with Left, [] => true | _, _ => false end.

Definition calls_over_b (http : bool) (s : state) : bool :=
  forallb (fun c => negb (Bool.eqb (k_http c) http) || (length (k_next c) =? 0)%nat) (st_calls s).

Definition close_move (s : state) : option state :=
  match st_closer s with
  | Serving => Some (set_closer (set_shared s (set_server (st_shared s) (begin_close (g_server (st_shared s))))) ClReady)
  | ClReady => Some (set_closer (set_shared s (set_server (st_shared s) (set_ready (g_server (st_shared s)) false))) ClCancel)
  | ClCancel => Some (cancel_root s)
  | ClShutdown => Some (set_closer s ClShutting)
  | ClShutting =>
      if forallb left_b (st_reqs s) && calls_over_b true s
      then Some {| st_shared := st_shared s; st_reqs := st_reqs s; st_calls := st_calls s; st_closer := ClControl None;
                   st_accepting := false; st_deadline := st_deadline s |}
      else None
  | ClControl r => if calls_over_b false s then Some (set_closer s (ClWait r)) else None
  | ClWait r => if g_active (st_shared s) =? 0 then Some (set_closer s (ClPool r)) else None
  | ClPool r => Some (set_closer (set_shared s (set_conns (st_shared s) (drop_all (g_conns (st_shared s))).1))
                        (ClConns (drop_all (g_conns (st_shared s))).2 r))
  | ClConns (c :: cs) r => Some (set_closer (set_shared s (set_conns (st_shared s) (close_conn (g_conns (st_shared s)) c)))
                                   (ClConns cs (first_of r None)))
  | ClConns [] r => Some (set_closer s (Closed r))
  | Closed _ => None
  end.

Definition close_late (s : state) : option state :=
  e ← st_deadline s;
  match st_closer s with
  | ClShutting => Some (set_closer s (ClControl (Some e)))
  | ClControl r => Some (set_closer s (ClWait (first_of r (Some e))))
  | ClWait r => Some (set_closer s (ClPool (first_of r (Some e))))
  | _ => None
  end.

Definition stream_one (cfg : Config.RouterConfig) (started : Time) (a : opened_attempt) (m : stream_move) : option pipe :=
  let p := o_pipe a in
  match m, p_receiver p with
  | SUpdate, _ => match due p with o :: rest => Some (update p o rest) | [] => None end
  | SRecv o, Receiving n => Some (received (o_request a) (w_ID (o_worker a)) p n o)
  | SDeliver, Delivering e next =>
      if decide (length (chan p) < Z.to_nat (Config.SSEBufferSize cfg))%nat then Some (push p e next) else None
  | STake now ok, _ =>
      match p_phase p, due p, chan p with
      | WaitFirst, [], e :: rest => Some (take_first (o_request a) p started now ok [e] rest)
      | Forwarding, [], e :: rest =>
          Some (write p [e] rest (forward_step (o_request a) error_text started now ok (Arrived e)) None)
      | _, _, _ => None
      end
  | _, _ => None
  end.

Definition play_one (m : move) (s : state) : option state :=
  match m with
  | Streams k i m =>
      q ← st_reqs s !! k; a ← q_pipes q !! i;
      p ← stream_one (s_config (g_server (st_shared s))) (q_started q) a m;
      Some (set_req (set_shared s (set_server (st_shared s) (count (g_server (st_shared s)) (pipe_ops (o_pipe a) p)))) k
        (set_pipes q (<[i := {| o_request := o_request a; o_worker := o_worker a; o_pipe := p |}]> (q_pipes q))))
  | Arrives r => if st_accepting s then Some (accept s r) else None
  | Turns k t => q ← st_reqs s !! k; '(g, q') ← turn_step t (st_shared s) q; Some (set_req (set_shared s g) k q')
  | Ends k => q ← st_reqs s !! k; match q_ctx q with None => Some (set_req s k (set_ctx q ECanceled)) | Some _ => None end
  | Registers now request =>
      if control_open s then Some (begin_call s false (register_section (g_server (st_shared s)) now request)) else None
  | Calls i now =>
      c ← st_calls s !! i; '(g, ops) ← call_step now (st_shared s) (k_next c);
      Some (set_call (set_shared s g) i {| k_http := k_http c; k_next := ops; k_answer := k_answer c |})
  | Closes => close_move s
  | ClosesLate => close_late s
  | Deadline => match st_deadline s with
      | None => Some {| st_shared := st_shared s; st_reqs := st_reqs s; st_calls := st_calls s; st_closer := st_closer s;
                        st_accepting := st_accepting s; st_deadline := Some EDeadlineExceeded |}
      | Some _ => None end
  end.

Definition play (ms : list move) (s : state) : option state := foldl (fun o m => s ← o; play_one m s) (Some s) ms.

Lemma forallb_left (qs : list req) : forallb left_b qs = true -> Forall is_left qs.
Proof.
  intros H. apply list.Forall_forall. intros q Hq%list_elem_of_In. rewrite forallb_forall in H. specialize (H q Hq).
  unfold left_b in H. unfold is_left. destruct (q_pc q); try done. by destruct (q_pending q).
Qed.

Lemma calls_over_b_ok (http : bool) (s : state) : calls_over_b http s = true -> calls_over http s.
Proof.
  intros H. apply list.Forall_forall. intros c Hc%list_elem_of_In Hk. unfold calls_over_b in H. rewrite forallb_forall in H.
  specialize (H c Hc). rewrite Hk, Bool.eqb_reflx in H. by destruct (k_next c).
Qed.

Lemma stream_one_moves (cfg : Config.RouterConfig) (started : Time) (ctx : option GoError) (a : opened_attempt)
    (m : stream_move) (p : pipe) :
  stream_one cfg started a m = Some p -> pipe_moves cfg started ctx a p.
Proof.
  unfold stream_one. destruct m as [o| |now ok|].
  - destruct (p_receiver (o_pipe a)) eqn:Hr; try done. intros [= <-]. split; [by apply step_recv|].
    unfold received. destruct (receive_step _ _ _ _). cbn. congruence.
  - destruct (p_receiver (o_pipe a)) eqn:Hr; try done. case_decide; [|done]. intros [= <-]. split; [by apply step_deliver|].
    unfold push. destruct next; cbn; congruence.
  - destruct (p_receiver (o_pipe a)) eqn:Hr, (p_phase (o_pipe a)) eqn:Hp, (due (o_pipe a)) eqn:Hd, (chan (o_pipe a)) eqn:Hc;
      try done; intros [= <-]; (split; [by first [apply step_first|apply step_forward]|]);
      unfold take_first; try destruct (first_event _); cbn; congruence.
  - destruct (due (o_pipe a)) as [|o rest] eqn:Hd; [done|]. intros [= <-]. split; [by apply step_update|]. cbn. congruence.
Qed.

Lemma close_move_step (s s' : state) : close_move s = Some s' -> close_step s s'.
Proof.
  unfold close_move. destruct (st_closer s) eqn:Hc; intros H; simplify_eq.
  - by apply close_begin.
  - by apply close_ready.
  - by apply close_cancel.
  - by apply close_shutdown.
  - destruct (_ && _) eqn:Hl; [|done]. apply andb_true_iff in Hl as [H1 H2]. injection H as <-.
    apply close_shut; [done|by apply forallb_left|by apply calls_over_b_ok].
  - destruct (calls_over_b _ _) eqn:Hl; [|done]. injection H as <-. apply close_control; [done|by apply calls_over_b_ok].
  - destruct (_ =? 0) eqn:Hg; [|done]. injection H as <-. apply close_wait; [done|by apply Z.eqb_eq].
  - by apply close_pool.
  - destruct cs as [|c cs]; injection H as <-; [by apply close_end|by apply close_connection].
Qed.

Lemma close_late_step (s s' : state) : close_late s = Some s' -> close_step s s'.
Proof.
  unfold close_late. destruct (st_deadline s) as [e|] eqn:Hd; [|done]. cbn [mbind option_bind]. intros H.
  destruct (st_closer s) eqn:Hc; simplify_eq.
  - by eapply close_shut_late.
  - by eapply close_control_late.
  - by eapply close_wait_late.
Qed.

Lemma play_one_step (m : move) (s s' : state) : play_one m s = Some s' -> step s s'.
Proof.
  destruct m as [k i m|r|k t|k|now request|i now| | |]; cbn [play_one].
  - destruct (st_reqs s !! k) as [q|] eqn:Hk; [|done]. cbn [mbind option_bind].
    destruct (q_pipes q !! i) as [a|] eqn:Hi; [|done]. cbn [mbind option_bind].
    destruct (stream_one _ _ _ _) as [p|] eqn:Hp; [|done]. intros [= <-].
    apply request_moves, (attempt_moves s k q i a p Hk Hi). by eapply stream_one_moves.
  - case_match; [|done]. intros [= <-]. by apply request_moves, arrive.
  - destruct (st_reqs s !! k) as [q|] eqn:Hk; [|done]. cbn [mbind option_bind].
    destruct (turn_step _ _ _) as [[g q']|] eqn:Ht; [|done]. intros [= <-]. apply request_moves. by eapply handler.
  - destruct (st_reqs s !! k) as [q|] eqn:Hk; [|done]. cbn [mbind option_bind].
    destruct (q_ctx q) eqn:Hc; [done|]. intros [= <-]. apply request_moves, context_ends; auto.
  - destruct (control_open s) eqn:Ho; [|done]. intros [= <-]. by apply control_moves, registers.
  - destruct (st_calls s !! i) as [c|] eqn:Hi; [|done]. cbn [mbind option_bind].
    destruct (call_step _ _ _) as [[g ops]|] eqn:Ht; [|done]. intros [= <-]. apply control_moves. by eapply call_runs.
  - intros H. by apply request_moves, shuts_down, close_move_step.
  - intros H. by apply request_moves, shuts_down, close_late_step.
  - destruct (st_deadline s) eqn:Hd; [done|]. intros [= <-]. by apply request_moves, deadline_passes.
Qed.

Lemma play_steps (ms : list move) (s s' : state) : play ms s = Some s' -> rtc step s s'.
Proof.
  unfold play. revert s. induction ms as [|m ms IH]; intros s; cbn [foldl].
  - intros [= <-]. apply rtc_refl.
  - cbn [mbind option_bind]. destruct (play_one m s) as [s1|] eqn:H1.
    + intros H. eapply rtc_l; [by apply (play_one_step m)|by apply IH].
    + intros H. exfalso. clear -H. induction ms as [|m' ms IH]; [done|by apply IH].
Qed.

Lemma play_reachable (cfg : Config.RouterConfig) (server : Server) (ms : list move) (s : state) :
  New cfg = Ok server -> play ms (serve server) = Some s -> reachable cfg s.
Proof. intros Hn Hp. exists server. split; [done|by apply (play_steps ms)]. Qed.

(** The end of a schedule that can be played. *)
Definition played (server : Server) (ms : list move) : state := default (serve server) (play ms (serve server)).
Definition playable (server : Server) (ms : list move) : bool :=
  match play ms (serve server) with Some _ => true | None => false end.

Lemma played_reachable (cfg : Config.RouterConfig) (server : Server) (ms : list move) :
  New cfg = Ok server -> playable server ms = true -> reachable cfg (played server ms).
Proof.
  intros Hn Hp. unfold playable, played in *. destruct (play ms (serve server)) as [s|] eqn:E; [|done].
  by apply (play_reachable _ server ms).
Qed.
End Traffic.

(** ** Witness: two requests and a worker *)
Definition ex_turn (now : Time) (generate : option GoError) : turn :=
  {| t_now := now; t_random := Err "unused"; t_seconds := fzero; t_dial := Ok tt; t_generate := generate |}.

(** Both requests arrive; the first one goes through the handler up to its
    worker, the second one to its lease. *)
Definition ex_moves : list (@move SecondsNanos) :=
  [Registers 100 (@registration SecondsNanos "w1" "w1:9000" "mock-llm" 100 (ex_state 1 10 5));
   Arrives (incoming_request 8); Arrives (incoming_request 2)]
  ++ replicate 8 (Turns 0 (ex_turn 200 None)) ++ replicate 6 (Turns 1 (ex_turn 201 None)).

Definition ex_busy : state := played (T := SecondsNanos) ex_code ex_text_of ex_registry_text ex_server ex_moves.

Lemma ex_busy_reachable : reachable ex_code ex_text_of ex_registry_text Config.ex_router_config ex_busy.
Proof. apply (played_reachable (T := SecondsNanos)); vm_compute; reflexivity. Qed.

Lemma traffic_accounting_witness :
  q_lease <$> st_reqs ex_busy = [Some 0%nat; Some 1%nat] /\ g_active (st_shared ex_busy) = 2 /\
  Admission.InFlight (s_admission (g_server (st_shared ex_busy))) = sum_list_Z (reserved_cost <$> st_reqs ex_busy).
Proof.
  split; [vm_compute; reflexivity|]. split; [vm_compute; reflexivity|].
  destruct (traffic_accounting ex_code ex_text_of ex_registry_text Config.ex_router_config ex_busy) as (H & _).
  - vm_compute. split; congruence.
  - exact ex_busy_reachable.
  - exact H.
Defined.
