(* ===== verification/TrafficRun.v ===== *)
(** * A request among others is a run of the handler

    [Chat.handleChat] runs one request to its end, with what the others do given
    by its environment.  Here every request of [Traffic], interleaved with all
    the others, the control plane and a shutdown, is shown to be such a run. *)

From S2P Require Import Prelude GoFloat GoString Model Examples Interfaces Wire Protocol Parse Sse Stream Gateway Chat ChatMetrics AttemptRun Traffic.
From S2P Require Config Registry Admission Routing Metrics WorkerClient.

#[local] Open Scope Z_scope.
#[local] Open Scope go_scope.

Section Run.
Context {T : TimestampPb} (Code : GoError -> Z) (error_text : GoError -> string).
Context (registry_error_text : Registry.RegistryError -> string) (cfg : Config.RouterConfig).

Abbreviation attempts := (Chat.attempts Code error_text).
Abbreviation attempt := (string * string)%type.

(** ** The environment of one turn of the loop *)

(** The server as a turn finds it, and the outcomes of the calls that it makes. *)
Record outcomes := {
  u_server : Server;
  u_now : Time;
  u_dial : result GoError WorkerClient.conn;
  u_generate : option GoError;
  u_first : option attemptEvent;
  u_answer : Time * bool * arrivals;
}.

Definition turn_env (u : outcomes) (retry fail : option GoError) : attempt_env :=
  {| e_before := fun _ => u_server u; e_select_now := u_now u; e_decision_seconds := fzero; e_dial := u_dial u;
     e_dialing := id; e_generate := u_generate u; e_waiting := id; e_first := u_first u;
     e_ctx_retry := retry; e_ctx_write := fail;
     e_commit_now := (u_answer u).1.1; e_write_ok := (u_answer u).1.2; e_rest := (u_answer u).2 |}.

(** A server that this gateway may have been. *)
Definition sane (s : Server) : Prop := fitted cfg s /\ server_ok s.

Definition sane_env (env : attempt_env) : Prop :=
  (forall s, sane (e_before env s)) /\ (forall s, sane s -> sane (e_dialing env s)) /\
  (forall s, sane s -> sane (e_waiting env s)).

Lemma turn_env_sane (u : outcomes) (retry fail : option GoError) : sane (u_server u) -> sane_env (turn_env u retry fail).
Proof. by intros H. Qed.

(** An environment in which a stream was opened is one whose first event is what
    the handler took first from that attempt's channel. *)
Definition linked (ps : list opened_attempt) (this : attempt) (env : attempt_env) : Prop :=
  is_ok (e_dial env) = true -> e_generate env = None ->
  exists a err, a ∈ ps /\ this = (r_AttemptID (o_request a), w_ID (o_worker a)) /\
    p_phase (o_pipe a) = Finished err /\ e_first env = head (consumed (o_pipe a)).

Definition all_linked (ps : list opened_attempt) (os : list attempt) (envs : list attempt_env) : Prop :=
  forall i this env, os !! i = Some this -> envs !! i = Some env -> linked ps this env.

(** What a loop writes and opens. *)
Definition outcome (x : Server * list http_event * list attempt) : list http_event * list attempt := (x.1.2, x.2).
Definition after (os : list attempt) (x : list http_event * list attempt) : list http_event * list attempt :=
  (x.1, os ++ x.2).

Definition this_attempt (v : view) (w : Worker) : attempt := (r_AttemptID (view_request v), w_ID w).

(** The outcome of opening an attempt and waiting for its first event. *)
Definition start_result (u : outcomes) : result GoError Chunk :=
  _ ← u_dial u; match u_generate u with Some e => Err e | None => first_event (u_first u) end.

Lemma start_attempt_result (u : outcomes) (retry fail : option GoError) (s : Server) (address : string) :
  s_clients s = WorkerClient.NewPool -> (start_attempt (turn_env u retry fail) s address).2 = start_result u.
Proof.
  intros Hs. unfold start_attempt, openAttempt, client, start_result. rewrite Hs. cbn [turn_env e_dial e_generate e_dialing].
  destruct (u_dial u) as [c|e]; [|done]. cbn. rewrite Hs. cbn. by destruct (u_generate u).
Qed.

(** The worker that a turn at [v] runs on. *)
Definition picks (u : outcomes) (v : view) (w : Worker) : Prop :=
  s_clients (u_server u) = WorkerClient.NewPool /\ sane (u_server u) /\
  exists d, (selectWorker (u_server u) (u_now u) (view_request v) (v_excluded v)).2 = (d, Ok w).

Section Turn.
Context (u : outcomes) (retry fail : option GoError) (envs : list attempt_env) (s : Server) (v : view) (w : Worker).
Context (started : Time).

Abbreviation loop := (attempts (turn_env u retry fail :: envs) (v_number v) s (v_request v) (v_excluded v) (v_previous v) started).

Ltac unfold_turn :=
  cbn [Chat.attempts]; change (e_before (turn_env u retry fail) s) with (u_server u);
  change (e_select_now (turn_env u retry fail)) with (u_now u);
  change (with_attempt (v_request v) (v_number v)) with (view_request v).

Lemma turn_start :
  picks u v w -> exists s1 s2 d, selectWorker (u_server u) (u_now u) (view_request v) (v_excluded v) = (s1, (d, Ok w)) /\
    start_attempt (turn_env u retry fail) (count s1 (decision_metrics fzero d w)) (DataAddress w) = (s2, start_result u).
Proof.
  intros (Hp & _ & d & Hd). destruct (selectWorker _ _ _ _) as [s1 [d' r]] eqn:E. cbn [snd] in Hd. simplify_eq.
  assert (s_clients s1 = WorkerClient.NewPool) as H1.
  { unfold selectWorker in E. destruct (select_from _ _ _ _ _). simplify_eq. exact Hp. }
  pose proof (start_attempt_result u retry fail (count s1 (decision_metrics fzero d w)) (DataAddress w) H1) as Hs.
  destruct (start_attempt _ _ _) as [s2 r] eqn:Est. simpl in Hs. subst r. exists s1, s2, d. by rewrite Est.
Qed.

(** An attempt whose first event is a chunk. *)
Lemma turn_answers (c : Chunk) :
  picks u v w -> start_result u = Ok c ->
  outcome loop = (writes (respond error_text (turn_env u retry fail) (view_request v) started c), [this_attempt v w]).
Proof.
  intros (s1 & s2 & d & Hsel & Hst)%turn_start Hc. rewrite Hc in Hst. unfold_turn. rewrite Hsel.
  change (e_decision_seconds (turn_env u retry fail)) with fzero. by rewrite Hst.
Qed.

(** One that fails, and is retried. *)
Lemma turn_retries (e : GoError) :
  picks u v w -> start_result u = Err e -> shouldRetry Code retry e (v_number v) = true ->
  exists s', outcome loop = after [this_attempt v w]
    (outcome (attempts envs (v_number (next_view v w e)) s' (v_request (next_view v w e)) (v_excluded (next_view v w e))
                (v_previous (next_view v w e)) started)).
Proof.
  intros (s1 & s2 & d & Hsel & Hst)%turn_start Hc Hr. rewrite Hc in Hst. unfold_turn. rewrite Hsel.
  change (e_decision_seconds (turn_env u retry fail)) with fzero. rewrite Hst.
  change (e_ctx_retry (turn_env u retry fail)) with retry. rewrite Hr.
  set (s3 := count _ [Metrics.OInc "aetherserve_request_retries_total"]). exists s3.
  cbn [next_view v_number v_request v_excluded v_previous].
  by destruct (attempts _ _ s3 _ _ _ _) as [[s4 ws] os].
Qed.

(** One that fails for good. *)
Lemma turn_fails (e : GoError) :
  picks u v w -> start_result u = Err e -> shouldRetry Code retry e (v_number v) = false ->
  outcome loop = ((writePrecommitAttemptError error_text s (r_ID (v_request v)) fail e).2, [this_attempt v w]).
Proof.
  intros (s1 & s2 & d & Hsel & Hst)%turn_start Hc Hr. rewrite Hc in Hst. unfold_turn. rewrite Hsel.
  change (e_decision_seconds (turn_env u retry fail)) with fzero. rewrite Hst.
  change (e_ctx_retry (turn_env u retry fail)) with retry. rewrite Hr.
  change (e_ctx_write (turn_env u retry fail)) with fail. unfold writePrecommitAttemptError. by destruct fail as [[]|].
Qed.

(** No worker is left. *)
Lemma turn_unroutable (d : RoutingDecision) (x : Routing.RoutingError) :
  (selectWorker (u_server u) (u_now u) (view_request v) (v_excluded v)).2 = (d, Err x) ->
  outcome loop =
    (match v_previous v with
     | Some e => (writePrecommitAttemptError error_text s (r_ID (v_request v)) fail e).2
     | None => [WriteAPIError (no_workers (r_ID (v_request v)))]
     end, []).
Proof.
  intros Hd. destruct (selectWorker _ _ _ _) as [s1 [d' r]] eqn:E. cbn [snd] in Hd. simplify_eq.
  unfold_turn. rewrite E.
  destruct (v_previous v); [|done]. unfold writePrecommitAttemptError.
  change (e_ctx_write (turn_env u retry fail)) with fail. by destruct fail as [[]|].
Qed.
End Turn.

(** ** What a point of the handler says of the run so far *)
Definition streamed (ps : list opened_attempt) (os : list attempt) (ws : list http_event) : Prop :=
  (exists e, ws = [WriteAPIError e]) \/
  exists a, a ∈ ps /\ p_phase (o_pipe a) = Finished None /\ ws = out (o_pipe a) /\
    list.last os = Some (r_AttemptID (o_request a), w_ID (o_worker a)).

Definition at_view (ps : list opened_attempt) (r : Request) (started : Time) (v : view) (os : list attempt) : Prop :=
  view_request v = with_attempt r (v_number v) /\
  (v = loop_start r /\ os = [] \/
   v_number v = 2 /\ exists env this, os = [this] /\ sane_env env /\ linked ps this env /\
     forall u retry fail s, exists s',
       outcome (attempts [env; turn_env u retry fail] 1 s r ∅ None started) =
       after os (outcome (attempts [turn_env u retry fail] (v_number v) s' (v_request v) (v_excluded v) (v_previous v) started))).

Definition settled (ps : list opened_attempt) (r : Request) (started : Time) (ws : list http_event) (os : list attempt) : Prop :=
  exists e1 e2, sane_env e1 /\ sane_env e2 /\ all_linked ps os [e1; e2] /\
    forall s, outcome (attempts [e1; e2] 1 s r ∅ None started) = (ws, os).

Lemma view_id (ps : list opened_attempt) (r : Request) (started : Time) (v : view) (os : list attempt) :
  at_view ps r started v os -> r_ID (v_request v) = r_ID r.
Proof. intros [Hv _]. by apply (f_equal r_ID) in Hv. Qed.

(** A turn that ends the loop settles the request. *)
Lemma settle (ps : list opened_attempt) (r : Request) (started : Time) (v : view) (os os' : list attempt)
    (u : outcomes) (retry fail : option GoError) (ws : list http_event) :
  at_view ps r started v os -> sane (u_server u) ->
  (os' = [] \/ exists this, os' = [this] /\ linked ps this (turn_env u retry fail)) ->
  (forall s envs, outcome (attempts (turn_env u retry fail :: envs) (v_number v) s (v_request v) (v_excluded v)
                            (v_previous v) started) = (ws, os')) ->
  settled ps r started ws (os ++ os').
Proof.
  intros [_ Hv] Hu Hos Hrun. destruct Hv as [[-> ->]|(Hn & env & this & -> & He & Hl & Hv)].
  - exists (turn_env u retry fail), (turn_env u retry fail). split_and!; [by apply turn_env_sane..| |].
    + intros i a env Ha. destruct Hos as [-> |(this & -> & Hl)]; [done|].
      destruct i as [|i]; [|done]. injection Ha as <-. by intros [= <-].
    + intros s. apply Hrun.
  - exists env, (turn_env u retry fail). split_and!; [done|by apply turn_env_sane| |].
    + intros i a e Ha. destruct i as [|[|i]]; [by injection Ha as <-; intros [= <-]| |done].
      destruct Hos as [-> |(this' & -> & Hl')]; [done|]. injection Ha as <-. by intros [= <-].
    + intros s. destruct (Hv u retry fail s) as [s' ->]. by rewrite Hrun.
Qed.

Lemma precommit_same (s s' : Server) (id : string) (ctx : option GoError) (e : GoError) :
  (writePrecommitAttemptError error_text s id ctx e).2 = (writePrecommitAttemptError error_text s' id ctx e).2.
Proof. unfold writePrecommitAttemptError. by destruct ctx as [[]|]. Qed.

Definition parsed (q : req) (r : Request) : Prop :=
  q_request q = Some r /\ exists random now, parseRequest cfg random now (q_incoming q) = Ok r.

Definition healthy (q : req) (r : Request) : Prop :=
  parsed q r /\ exists s now, sane s /\ Registry.HealthyCount (s_registry s) now <> 0%nat.

Definition admitted (q : req) (r : Request) : Prop :=
  healthy q r /\ exists s now a lease, sane s /\
    Admission.Reserve (s_admission s) now (TenantID r) (reservation_cost r) = (a, Ok lease).

(** The request is a run of [handleChat] in this gateway. *)
Record run_of (r : incoming) (started : Time) (ps : list opened_attempt) (os : list attempt) (ws : list http_event)
    (s : Server) (env : chat_env) : Prop := {
  ru_server : sane s;
  ru_incoming : c_incoming env = r;
  ru_started : c_started env = started;
  ru_first : sane_env (c_first env);
  ru_second : sane_env (c_second env);
  ru_between : forall x, sane x -> sane (c_reserving env x) /\ sane (c_releasing env x);
  ru_linked : all_linked ps os [c_first env; c_second env];
  ru_writes : cr_writes (handleChat Code error_text s env) = ws;
  ru_opened : cr_attempts (handleChat Code error_text s env) = os;
}.

Definition served (q : req) : Prop :=
  (exists s env, run_of (q_incoming q) (q_started q) (q_pipes q) (q_opened q) (q_writes q) s env) /\
  streamed (q_pipes q) (q_opened q) (q_writes q).

Definition blank (q : req) : Prop := q_writes q = [] /\ q_opened q = [].

(** Between the choice of a worker and the end of its attempt. *)
Definition attempting (q : req) (v : view) (w : Worker) : Prop :=
  exists r os, admitted q r /\ q_writes q = [] /\ at_view (q_pipes q) r (q_started q) v os /\
    q_opened q = os ++ [this_attempt v w] /\ exists u, picks u v w.

Definition failed_at (ps : list opened_attempt) (v : view) (w : Worker) (e : GoError) : Prop :=
  exists u, picks u v w /\ start_result u = Err e /\ linked ps (this_attempt v w) (turn_env u None None).

Definition told (q : req) : Prop :=
  match q_pc q with
  | AtEnter | AtRequest => blank q /\ q_pipes q = []
  | AtHealthy r => blank q /\ parsed q r
  | AtReserve r => blank q /\ healthy q r
  | AtReserved r => blank q /\ admitted q r
  | AtSnapshot v => exists r, admitted q r /\ q_writes q = [] /\ at_view (q_pipes q) r (q_started q) v (q_opened q)
  | AtRoute v workers =>
      exists r, admitted q r /\ q_writes q = [] /\ at_view (q_pipes q) r (q_started q) v (q_opened q) /\
        exists reg now, source_ok reg /\ workers = Registry.Snapshot reg now
  | AtLog v _ w | AtClient v w | AtPublish v w _ | AtExtra v w _ | AtGenerate v w => attempting q v w
  | AtEvents v w => attempting q v w /\
      exists a, list.last (q_pipes q) = Some a /\ o_request a = view_request v /\ o_worker a = w
  | AtInvalidate v w e | AtOld v w e _ | AtRetry v w e => attempting q v w /\ failed_at (q_pipes q) v w e
  | AtFail e => exists r, admitted q r /\ q_writes q = [] /\
      forall fail s, settled (q_pipes q) r (q_started q)
        (writePrecommitAttemptError error_text s (r_ID r) fail e).2 (q_opened q)
  | AtWrite e false => blank q /\ served (goto q AtLeave [] [WriteAPIError e])
  | AtWrite e true => exists r, admitted q r /\ q_writes q = [] /\
      settled (q_pipes q) r (q_started q) [WriteAPIError e] (q_opened q) /\
      streamed (q_pipes q) (q_opened q) [WriteAPIError e]
  | AtRelease | AtReleased => exists r, admitted q r /\ settled (q_pipes q) r (q_started q) (q_writes q) (q_opened q) /\
      streamed (q_pipes q) (q_opened q) (q_writes q)
  | AtLeave | Left => served q
  end.

(** *** The ends of the handler *)
Definition quiet (s : Server) : attempt_env :=
  turn_env {| u_server := s; u_now := 0; u_dial := Ok 0%nat; u_generate := None; u_first := None;
              u_answer := (0, true, AEnd 0 ContextDone) |} None None.

Definition chat_of (q : req) (random : result string (list Z)) (parse_now healthy_now : Time) (reserving : Server)
    (reserve_now : Time) (e1 e2 : attempt_env) : chat_env :=
  {| c_started := q_started q; c_random := random; c_parse_now := parse_now; c_incoming := q_incoming q;
     c_healthy_now := healthy_now; c_reserving := fun _ => reserving; c_reserve_now := reserve_now;
     c_first := e1; c_second := e2; c_releasing := id |}.

Lemma run_of_early (q : req) (s : Server) (random : result string (list Z)) (parse_now healthy_now : Time)
    (reserving : Server) (reserve_now : Time) (e : apiError) :
  let env := chat_of q random parse_now healthy_now reserving reserve_now (quiet s) (quiet s) in
  sane s -> sane reserving -> q_opened q = [] -> q_writes q = [WriteAPIError e] ->
  cr_writes (handleChat Code error_text s env) = [WriteAPIError e] ->
  cr_attempts (handleChat Code error_text s env) = [] -> served q.
Proof.
  intros env Hs Hr Ho Hw H1 H2. split; [|left; by exists e]. exists s, env. split; try done.
  - rewrite Ho. intros i this x Hi. by destruct i.
  - by rewrite Hw.
  - by rewrite Ho.
Qed.

Lemma served_admitted (q : req) (r : Request) :
  admitted q r -> settled (q_pipes q) r (q_started q) (q_writes q) (q_opened q) ->
  streamed (q_pipes q) (q_opened q) (q_writes q) -> served q.
Proof.
  intros [[[_ (random & now & Hp)] (s0 & hnow & Hs0 & Hh)] (s1 & rnow & a & lease & Hs1 & Hr)]
    (e1 & e2 & He1 & He2 & Hl & Hrun) Hst. split; [|done].
  exists s0, (chat_of q random now hnow s1 rnow e1 e2).
  pose proof (fi_config _ _ (proj1 Hs0)) as Hc.
  assert (forall x, handleChat Code error_text s0 (chat_of q random now hnow s1 rnow e1 e2) = x ->
    cr_writes x = q_writes q /\ cr_attempts x = q_opened q) as Hx.
  { intros x <-. unfold handleChat. change (s_config (count s0 _)) with (s_config s0).
    change (s_registry (count s0 _)) with (s_registry s0).
    cbn [chat_of c_random c_parse_now c_incoming c_healthy_now c_reserving c_reserve_now c_first c_second c_started c_releasing].
    rewrite Hc, Hp. apply Nat.eqb_neq in Hh. rewrite Hh, Hr.
    match goal with |- context [attempts _ 1 ?x r ∅ None _] => specialize (Hrun x) end.
    destruct (attempts _ _ _ _ _ _ _) as [[s3 ws] os]. unfold outcome in Hrun. cbn [fst snd] in Hrun.
    injection Hrun as -> ->. unfold finish. by destruct (Admission.Release _ _). }
  destruct (Hx _ eq_refl) as [Hw Ho]. split; done.
Qed.

(** ** Streams that move on *)
Definition keeps (ps ps' : list opened_attempt) : Prop :=
  forall a err, a ∈ ps -> p_phase (o_pipe a) = Finished err ->
    exists a', a' ∈ ps' /\ o_request a' = o_request a /\ o_worker a' = o_worker a /\
      p_phase (o_pipe a') = Finished err /\ consumed (o_pipe a') = consumed (o_pipe a) /\ out (o_pipe a') = out (o_pipe a).

Lemma linked_keeps (ps ps' : list opened_attempt) (this : attempt) (env : attempt_env) :
  keeps ps ps' -> linked ps this env -> linked ps' this env.
Proof.
  intros Hk Hl Hd Hg. destruct (Hl Hd Hg) as (a & err & Ha & -> & Hp & Hf).
  destruct (Hk a err Ha Hp) as (a' & Ha' & Er & Ew & Ep & Ec & _). exists a', err. by rewrite Er, Ew, Ec.
Qed.

Lemma streamed_keeps (ps ps' : list opened_attempt) (os : list attempt) (ws : list http_event) :
  keeps ps ps' -> streamed ps os ws -> streamed ps' os ws.
Proof.
  intros Hk [He|(a & Ha & Hp & -> & Hl)]; [by left|right].
  destruct (Hk a None Ha Hp) as (a' & Ha' & Er & Ew & Ep & _ & Eo). exists a'. by rewrite Er, Ew, Eo.
Qed.

Lemma all_linked_keeps (ps ps' : list opened_attempt) (os : list attempt) (envs : list attempt_env) :
  keeps ps ps' -> all_linked ps os envs -> all_linked ps' os envs.
Proof. intros Hk Hl i this env Ho He. eapply linked_keeps; [done|]. by eapply Hl. Qed.

Lemma at_view_keeps (ps ps' : list opened_attempt) (r : Request) (started : Time) (v : view) (os : list attempt) :
  keeps ps ps' -> at_view ps r started v os -> at_view ps' r started v os.
Proof.
  intros Hk [Hr Hv]. split; [done|]. destruct Hv as [Hv|(Hn & env & this & Ho & He & Hl & Hv)]; [by left|right].
  split; [done|]. exists env, this. split_and!; try done. by eapply linked_keeps.
Qed.

Lemma settled_keeps (ps ps' : list opened_attempt) (r : Request) (started : Time) (ws : list http_event) (os : list attempt) :
  keeps ps ps' -> settled ps r started ws os -> settled ps' r started ws os.
Proof.
  intros Hk (e1 & e2 & H1 & H2 & Hl & Hv). exists e1, e2. split_and!; try done. by eapply all_linked_keeps.
Qed.

Lemma attempting_keeps (q : req) (ps : list opened_attempt) (v : view) (w : Worker) :
  keeps (q_pipes q) ps -> attempting q v w -> attempting (set_pipes q ps) v w.
Proof.
  intros Hk (r & os & Ha & Hw & Hv & Ho & Hu). exists r, os. split_and!; try done. by eapply at_view_keeps.
Qed.

Lemma served_keeps (q : req) (ps : list opened_attempt) :
  keeps (q_pipes q) ps -> served q -> served (set_pipes q ps).
Proof.
  intros Hk [(s & env & [R1 R2 R3 R4 R5 R6 R7 R8 R9]) Hst]. split; [|by eapply streamed_keeps].
  exists s, env. split; try done. by eapply all_linked_keeps.
Qed.

(** The streams are the concern of [told] only as far as they are over. *)
Lemma told_pipes (q : req) (ps : list opened_attempt) :
  keeps (q_pipes q) ps -> (q_pc q = AtEnter \/ q_pc q = AtRequest -> ps = []) ->
  (forall v w, q_pc q = AtEvents v w ->
     forall a, list.last (q_pipes q) = Some a -> exists a', list.last ps = Some a' /\ o_request a' = o_request a /\ o_worker a' = o_worker a) ->
  told q -> told (set_pipes q ps).
Proof.
  intros Hk He Hl. unfold told. cbn [set_pipes q_pc q_pipes q_started q_writes q_opened].
  destruct (q_pc q) as [| |r|r|r|v|v ws|v d w|v w|v w c|v w c|v w|v w|v w e|v w e c|v w e|e|e []| | | |] eqn:Hpc; try done.
  - intros [Hb _]. split; [done|auto].
  - intros [Hb _]. split; [done|auto].
  - intros (r & Ha & Hw & Hv). exists r. split_and!; try done. by eapply at_view_keeps.
  - intros (r & Ha & Hw & Hv & Hx). exists r. split_and!; try done. by eapply at_view_keeps.
  - by apply attempting_keeps.
  - by apply attempting_keeps.
  - by apply attempting_keeps.
  - by apply attempting_keeps.
  - by apply attempting_keeps.
  - intros (Ha & a & Hla & Hr & Hw). split; [by apply attempting_keeps|].
    destruct (Hl v w eq_refl a Hla) as (a' & ? & ? & ?). exists a'. split_and!; [done|congruence|congruence].
  - intros (Ha & u & Hu & Hs & Hlk). split; [by apply attempting_keeps|]. exists u. split_and!; try done. by eapply linked_keeps.
  - intros (Ha & u & Hu & Hs & Hlk). split; [by apply attempting_keeps|]. exists u. split_and!; try done. by eapply linked_keeps.
  - intros (Ha & u & Hu & Hs & Hlk). split; [by apply attempting_keeps|]. exists u. split_and!; try done. by eapply linked_keeps.
  - intros (r & Ha & Hw & Hx). exists r. split_and!; try done. intros fail s. by eapply settled_keeps.
  - intros (r & Ha & Hw & Hs & Hst). exists r. split_and!; [done|done|by eapply settled_keeps|by eapply streamed_keeps].
  - intros [Hb Hs]. split; [exact Hb|]. by apply (served_keeps (goto q AtLeave [] [WriteAPIError e])).
  - intros (r & Ha & Hs & Hst). exists r. split_and!; [done|by eapply settled_keeps|by eapply streamed_keeps].
  - intros (r & Ha & Hs & Hst). exists r. split_and!; [done|by eapply settled_keeps|by eapply streamed_keeps].
  - by apply served_keeps.
  - by apply served_keeps.
Qed.

Lemma keeps_refl (ps : list opened_attempt) : keeps ps ps.
Proof. intros a err Ha Hp. by exists a. Qed.

Lemma keeps_app (ps : list opened_attempt) (a : opened_attempt) : keeps ps (ps ++ [a]).
Proof. intros x err Hx Hp. exists x. split_and!; try done. apply elem_of_app. by left. Qed.

(** What is not of the run's account. *)
Lemma told_goto (q : req) (ops : list Metrics.op) : told q -> told (goto q (q_pc q) ops []).
Proof.
  destruct q as [q1 q2 q3 p q5 q6 q7 q8 ws q10 q11]. unfold goto.
  cbn [q_incoming q_started q_ctx q_pc q_pending q_request q_lease q_pipes q_writes q_opened q_panic].
  rewrite app_nil_r. intros H. destruct p as [| | | | | | | | | | | | | | | | |e []| | | |]; exact H.
Qed.

Lemma told_ctx (q : req) (e : GoError) : told q -> told (set_ctx q e).
Proof. destruct q as [q1 q2 q3 p q5 q6 q7 q8 ws q10 q11]. intros H. destruct p as [| | | | | | | | | | | | | | | | |e' []| | | |]; exact H. Qed.

(** ** The turns *)
Abbreviation buffer := (Z.to_nat (Config.SSEBufferSize cfg)).

Definition streams (q : req) : Prop :=
  Forall (fun a => Stream.reachable (o_request a) (w_ID (o_worker a)) error_text buffer (q_started q) (o_pipe a)) (q_pipes q).

Lemma sane_parse (s : Server) (random : result string (list Z)) (now : Time) (r : incoming) :
  sane s -> parseRequest (s_config s) random now r = parseRequest cfg random now r.
Proof. intros [[-> _ _ _] _]. done. Qed.

Lemma turn_request (t : turn) (s : Server) (q : req) (e : apiError) :
  sane s -> blank q -> parseRequest (s_config s) (t_random t) (t_now t) (q_incoming q) = Err e ->
  served (goto q AtLeave [] [WriteAPIError e]).
Proof.
  intros Hs [Hw Ho] Hp. apply (run_of_early _ s (t_random t) (t_now t) 0 s 0 e); try done.
  - cbn. by rewrite Hw.
  - unfold handleChat. cbn [chat_of c_random c_parse_now c_incoming goto q_incoming].
    change (s_config (count s _)) with (s_config s). by rewrite Hp.
  - unfold handleChat. cbn [chat_of c_random c_parse_now c_incoming goto q_incoming].
    change (s_config (count s _)) with (s_config s). by rewrite Hp.
Qed.

Lemma turn_unhealthy (t : turn) (s : Server) (q : req) (r : Request) :
  sane s -> blank q -> parsed q r -> Registry.HealthyCount (s_registry s) (t_now t) = 0%nat ->
  served (goto q AtLeave [] [WriteAPIError (no_workers (r_ID r))]).
Proof.
  intros Hs [Hw Ho] [_ (random & now & Hp)] Hh.
  rewrite <- (sane_parse s) in Hp by done.
  apply (run_of_early _ s random now (t_now t) s 0 (no_workers (r_ID r))); try done.
  - cbn. by rewrite Hw.
  - unfold handleChat. cbn [chat_of c_random c_parse_now c_incoming c_healthy_now goto q_incoming].
    change (s_config (count s _)) with (s_config s). change (s_registry (count s _)) with (s_registry s). by rewrite Hp, Hh.
  - unfold handleChat. cbn [chat_of c_random c_parse_now c_incoming c_healthy_now goto q_incoming].
    change (s_config (count s _)) with (s_config s). change (s_registry (count s _)) with (s_registry s). by rewrite Hp, Hh.
Qed.

Lemma turn_rejected (t : turn) (s : Server) (q : req) (r : Request) (a : Admission.Controller) (e : Admission.AdmissionError) :
  sane s -> blank q -> healthy q r ->
  Admission.Reserve (s_admission s) (t_now t) (TenantID r) (reservation_cost r) = (a, Err e) ->
  served (goto q AtLeave [] [WriteAPIError (admission_error (r_ID r) e)]).
Proof.
  intros Hs [Hw Ho] [[_ (random & now & Hp)] (s0 & hnow & Hs0 & Hh%Nat.eqb_neq)] Hr.
  rewrite <- (sane_parse s0) in Hp by done.
  assert (forall q', q_incoming q' = q_incoming q -> q_opened q' = [] ->
    let x := handleChat Code error_text s0 (chat_of q' random now hnow s (t_now t) (quiet s0) (quiet s0)) in
    cr_writes x = [WriteAPIError (admission_error (r_ID r) e)] /\ cr_attempts x = []) as Hx.
  { intros q' Hq' _. unfold handleChat. cbn [chat_of c_random c_parse_now c_incoming c_healthy_now c_reserving c_reserve_now].
    change (s_config (count s0 _)) with (s_config s0). change (s_registry (count s0 _)) with (s_registry s0).
    by rewrite Hq', Hp, Hh, Hr. }
  destruct (Hx (goto q AtLeave [] [WriteAPIError (admission_error (r_ID r) e)]) eq_refl Ho) as [H1 H2].
  apply (run_of_early _ s0 random now hnow s (t_now t) (admission_error (r_ID r) e)); try done.
  cbn. by rewrite Hw.
Qed.

(** The server that a turn of the loop is run with: the directory as it was
    copied, and the router as it was asked. *)
Definition mixed (s : Server) (reg : Registry.Registry) : Server := with_clients (with_registry s reg) WorkerClient.NewPool.

Lemma mixed_sane (s : Server) (reg : Registry.Registry) : sane s -> source_ok reg -> sane (mixed s reg).
Proof. intros [[H1 H2 H3 H4] H5] Hr. by split. Qed.

Lemma mixed_selects (s : Server) (reg : Registry.Registry) (now now' : Time) (r : Request) (excluded : gset string) :
  (selectWorker (mixed s reg) now r excluded).2 =
  (select_from (Registry.Snapshot reg now) now' (s_router s) r excluded).2.
Proof.
  unfold selectWorker, select_from. cbn [mixed with_clients with_registry s_registry s_router].
  change (source_snapshot (Registry.Snapshot reg now) now') with (Registry.Snapshot reg now).
  change (source_snapshot reg now) with (Registry.Snapshot reg now).
  by destruct (Routing.Select _ _ _ _) as [router [d e]].
Qed.

Definition at_server (s : Server) (now : Time) : outcomes :=
  {| u_server := s; u_now := now; u_dial := Ok 0%nat; u_generate := None; u_first := None;
     u_answer := (0, true, AEnd 0 ContextDone) |}.

Lemma turn_route (t : turn) (s : Server) (q : req) (v : view) (workers : list Worker) (router : Routing.Router)
    (d : RoutingDecision) (w : Worker) (ops : list Metrics.op) :
  sane s -> q_pc q = AtRoute v workers -> told q ->
  select_from workers (t_now t) (s_router s) (view_request v) (v_excluded v) = (router, (d, Ok w)) ->
  told (goto (add_opened q (r_AttemptID (view_request v), w_ID w)) (AtLog v d w) ops []).
Proof.
  intros Hs Hpc Hq Hsel. unfold told in Hq. rewrite Hpc in Hq.
  destruct Hq as (r & Ha & Hw & Hv & reg & now & Hreg & ->). exists r, (q_opened q).
  split_and!; [done|cbn; by rewrite Hw|done|done|].
  exists (at_server (mixed s reg) now). split; [done|]. split; [by apply mixed_sane|]. exists d.
  cbn [at_server u_server u_now]. rewrite (mixed_selects s reg now (t_now t)), Hsel. done.
Qed.

Lemma turn_unrouted (t : turn) (s : Server) (q : req) (v : view) (workers : list Worker) (router : Routing.Router)
    (d : RoutingDecision) (x : Routing.RoutingError) :
  sane s -> q_pc q = AtRoute v workers -> told q ->
  select_from workers (t_now t) (s_router s) (view_request v) (v_excluded v) = (router, (d, Err x)) ->
  match v_previous v with
  | Some e => told (goto q (AtFail e) [] [])
  | None => told (goto q (AtWrite (no_workers (r_ID (v_request v))) true) rejection [])
  end.
Proof.
  intros Hs Hpc Hq Hsel. unfold told in Hq. rewrite Hpc in Hq.
  destruct Hq as (r & Ha & Hw & Hv & reg & now & Hreg & ->).
  assert ((selectWorker (mixed s reg) now (view_request v) (v_excluded v)).2 = (d, Err x)) as Hnone
    by (by rewrite (mixed_selects s reg now (t_now t)), Hsel).
  assert (forall fail ws, (forall s', ws = match v_previous v with
       | Some e => (writePrecommitAttemptError error_text s' (r_ID (v_request v)) fail e).2
       | None => [WriteAPIError (no_workers (r_ID (v_request v)))] end) ->
     settled (q_pipes q) r (q_started q) ws (q_opened q)) as Hset.
  { intros fail ws Hws. rewrite <- (app_nil_r (q_opened q)).
    apply (settle _ _ _ v _ [] (at_server (mixed s reg) now) None fail); [done|by apply mixed_sane|by left|].
    intros s' envs. rewrite (turn_unroutable (at_server (mixed s reg) now) None fail envs s' v (q_started q) d x) by done.
    f_equal. symmetry. apply Hws. }
  pose proof (view_id _ _ _ _ _ Hv) as Hid. destruct (v_previous v) as [e|].
  - exists r. split_and!; [done|cbn; by rewrite Hw|]. intros fail s'. apply (Hset fail). rewrite Hid. intros s''. apply precommit_same.
  - exists r. split_and!; [done|cbn; by rewrite Hw|by apply (Hset None)|left; by eexists].
Qed.

(** The same turn with the outcomes of its calls. *)
Definition with_outcomes (u : outcomes) (dial : result GoError WorkerClient.conn) (generate : option GoError)
    (first : option attemptEvent) (answer : Time * bool * arrivals) : outcomes :=
  {| u_server := u_server u; u_now := u_now u; u_dial := dial; u_generate := generate; u_first := first; u_answer := answer |}.

Lemma fails_before (ps : list opened_attempt) (u : outcomes) (v : view) (w : Worker) (dial : result GoError WorkerClient.conn)
    (generate : option GoError) (e : GoError) :
  picks u v w -> (_ ← dial; match generate with Some e => Err e | None => Ok tt end) = Err e -> failed_at ps v w e.
Proof.
  intros Hu He. exists (with_outcomes u dial generate None (u_answer u)). split; [done|].
  unfold start_result, linked. cbn [with_outcomes u_dial u_generate turn_env e_dial e_generate].
  destruct dial as [c|e']; cbn in *; [|by simplify_eq]. destruct generate; [by simplify_eq|done].
Qed.

Lemma turn_generate_told (q : req) (v : view) (w : Worker) :
  attempting q v w ->
  told (goto (set_pipes q (q_pipes q ++ [{| o_request := view_request v; o_worker := w; o_pipe := open_pipe |}]))
          (AtEvents v w) [] []).
Proof.
  intros Ha. assert (attempting (set_pipes q (q_pipes q ++ [{| o_request := view_request v; o_worker := w; o_pipe := open_pipe |}])) v w)
    as (r & os & H1 & H2 & H3 & H4 & H5) by (apply attempting_keeps; [apply keeps_app|done]).
  split.
  - exists r, os. split_and!; try done. cbn [goto q_writes]. by rewrite H2.
  - eexists. split_and!; [apply list.last_snoc|done..].
Qed.

Lemma turn_broken (q : req) (v : view) (w : Worker) (a : opened_attempt) (e : GoError) :
  streams q -> told q -> q_pc q = AtEvents v w -> list.last (q_pipes q) = Some a -> p_phase (o_pipe a) = Finished (Some e) ->
  told (goto q (AtInvalidate v w e) [] []).
Proof.
  intros Hst Hq Hpc Hl Hp. unfold told in Hq. rewrite Hpc in Hq. destruct Hq as [(r & os & H1 & H2 & H3 & H4 & u & Hu) Hx].
  destruct Hx as (a' & Hl' & Hr & Hw). rewrite Hl in Hl'. injection Hl' as <-. subst w.
  apply last_Some_elem_of in Hl as Hin.
  pose proof (proj1 (list.Forall_forall _ _) Hst a Hin) as Hreach. apply reachable_answer in Hreach.
  unfold answer_inv in Hreach. rewrite Hp in Hreach. destruct Hreach as (Hf & _ & _).
  split; [exists r, os; split_and!; try done; [cbn [goto q_writes]; by rewrite H2|by exists u]|].
  exists (with_outcomes u (Ok 0%nat) None (head (consumed (o_pipe a))) (u_answer u)). split; [done|].
  split; [exact Hf|]. intros _ _. exists a, (Some e). split_and!; try done. unfold this_attempt. by rewrite Hr.
Qed.

Lemma turn_answered (q : req) (v : view) (w : Worker) (a : opened_attempt) :
  streams q -> told q -> q_pc q = AtEvents v w -> list.last (q_pipes q) = Some a -> p_phase (o_pipe a) = Finished None ->
  told (goto q AtRelease [] (out (o_pipe a))).
Proof.
  intros Hst Hq Hpc Hl Hp. unfold told in Hq. rewrite Hpc in Hq. destruct Hq as [(r & os & H1 & H2 & H3 & H4 & u & Hu) Hx].
  destruct Hx as (a' & Hl' & Hr & Hw). rewrite Hl in Hl'. injection Hl' as <-. subst w.
  apply last_Some_elem_of in Hl as Hin.
  pose proof (proj1 (list.Forall_forall _ _) Hst a Hin) as Hreach. apply reachable_answer in Hreach.
  unfold answer_inv in Hreach. rewrite Hp, Hr in Hreach. destruct Hreach as (env & c & Hf1 & Hf2 & Ho & _ & Hc).
  assert (head (consumed (o_pipe a)) = e_first env) as Hh by (rewrite Hf1; by destruct Hc as [->|[-> _]]).
  set (u' := with_outcomes u (Ok 0%nat) None (e_first env) (e_commit_now env, e_write_ok env, e_rest env)).
  exists r. cbn [goto q_pipes q_started q_writes q_opened]. rewrite H2, H4. split_and!; [done| |].
  - apply (settle _ _ _ v _ _ u' None None); [done|by apply Hu| |].
    + right. eexists. split; [done|]. intros _ _. exists a, None. split_and!; try done.
      unfold this_attempt. by rewrite Hr.
    + intros s envs. rewrite (turn_answers u' None None envs s v (o_worker a) (q_started q) c); [|done|exact Hf2].
      f_equal. symmetry. exact Ho.
  - right. exists a. split_and!; try done. rewrite list.last_snoc. unfold this_attempt. by rewrite Hr.
Qed.

Lemma turn_retry_told (q : req) (v : view) (w : Worker) (e : GoError) (ops : list Metrics.op) :
  told q -> q_pc q = AtRetry v w e -> shouldRetry Code (q_ctx q) e (v_number v) = true ->
  told (goto q (AtSnapshot (next_view v w e)) ops []).
Proof.
  intros Hq Hpc Hr. unfold told in Hq. rewrite Hpc in Hq.
  destruct Hq as [(r & os & H1 & H2 & [Hid Hv] & H4 & _) (u & Hu & Hs & Hl)].
  assert (v_number v < 2) as Hn.
  { unfold shouldRetry in Hr. destruct (2 <=? v_number v) eqn:E; [done|]. lia. }
  destruct Hv as [[-> ->]|[Hn2 _]]; [|lia]. exists r. split; [done|]. cbn [goto q_writes q_pipes q_started q_opened].
  split; [by rewrite H2|]. split; [done|]. right. split; [done|].
  exists (turn_env u (q_ctx q) None), (this_attempt (loop_start r) w). split_and!; try done; [by apply turn_env_sane, Hu|].
  intros u' retry fail s. rewrite H4.
  exact (turn_retries u (q_ctx q) None [turn_env u' retry fail] s (loop_start r) w (q_started q) e Hu Hs Hr).
Qed.

Lemma turn_gives_up (q : req) (v : view) (w : Worker) (e : GoError) :
  told q -> q_pc q = AtRetry v w e -> shouldRetry Code (q_ctx q) e (v_number v) = false ->
  told (goto q (AtFail e) [] []).
Proof.
  intros Hq Hpc Hr. unfold told in Hq. rewrite Hpc in Hq.
  destruct Hq as [(r & os & H1 & H2 & Hv & H4 & _) (u & Hu & Hs & Hl)].
  exists r. split; [done|]. cbn [goto q_writes q_pipes q_started q_opened]. split; [by rewrite H2|].
  intros fail s. rewrite H4. apply (settle _ _ _ v _ _ u (q_ctx q) fail); [done|by apply Hu|right; by eexists|].
  intros s' envs. rewrite (turn_fails u (q_ctx q) fail envs s' v w (q_started q) e) by done.
  rewrite (view_id _ _ _ _ _ Hv). f_equal. apply precommit_same.
Qed.

Lemma attempting_goto (q : req) (p : pc) (ops : list Metrics.op) (v : view) (w : Worker) :
  attempting q v w -> attempting (goto q p ops []) v w.
Proof. intros (r & os & H1 & H2 & H3). exists r, os. split; [done|]. by cbn; rewrite H2. Qed.

Lemma blank_goto (q : req) (p : pc) (ops : list Metrics.op) : blank q -> blank (goto q p ops []).
Proof. intros [Hw Ho]. split; [by cbn; rewrite Hw|done]. Qed.

Lemma served_goto (q : req) (p : pc) (ops : list Metrics.op) : served q -> served (goto q p ops []).
Proof. unfold served. cbn. by rewrite app_nil_r. Qed.

(** A refusal is written after its metric. *)
Lemma refused_told (q : req) (e : apiError) (ops : list Metrics.op) :
  blank q -> served (goto q AtLeave [] [WriteAPIError e]) -> told (goto q (AtWrite e false) ops []).
Proof. intros Hb Hs. split; [by apply blank_goto|]. unfold served in *. cbn in *. by rewrite app_nil_r. Qed.

Lemma turn_fail_told (s : Server) (q : req) (e : GoError) :
  told q -> q_pc q = AtFail e ->
  told (match q_ctx q with
        | Some EDeadlineExceeded =>
            goto q (AtWrite (api_error StatusGatewayTimeout (request_id q) "timeout_error" "deadline_exceeded"
                               "request deadline expired") true) [] []
        | _ =>
            goto q (AtWrite (api_error StatusBadGateway (request_id q) "upstream_error" "worker_unavailable" (error_text e)) true)
              [Metrics.OInc "aetherserve_precommit_worker_failures_total"] []
        end).
Proof.
  intros Hq Hpc. unfold told in Hq. rewrite Hpc in Hq. destruct Hq as (r & Ha & Hw & Hx).
  assert (request_id q = r_ID r) as -> by (unfold request_id; by rewrite (proj1 (proj1 (proj1 Ha)))).
  specialize (Hx (q_ctx q) s). unfold writePrecommitAttemptError in Hx.
  destruct (q_ctx q) as [[]|]; exists r; (split_and!; [done|cbn; by rewrite Hw|exact Hx|left; by eexists]).
Qed.

Lemma told_turn (t : turn) (g g' : shared) (q q' : req) :
  sane (g_server g) -> streams q -> told q -> turn_step Code error_text t g q = Some (g', q') -> told q'.
Proof.
  intros Hs Hst Hq. unfold turn_step. destruct (q_pending q) as [|o ops]; [|intros [= <- <-]; by apply told_goto].
  destruct (q_pc q) as [| |r|r|r|v|v ws|v d w|v w|v w c|v w c|v w|v w|v w e|v w e c|v w e|e|e []| | | |] eqn:Hpc;
    pose proof Hq as Hq0; unfold told in Hq; rewrite Hpc in Hq.
  - intros [= <- <-]. destruct Hq. split; [by apply (blank_goto (set_started q (t_now t)))|done].
  - destruct Hq as [Hq Hno]. destruct (parseRequest _ _ _ _) as [r|e] eqn:Hp; intros [= <- <-].
    + split; [by apply (blank_goto (set_request q r))|]. split; [done|].
      exists (t_random t), (t_now t). by rewrite <- (sane_parse (g_server g)).
    + by apply (turn_request t (g_server g) q e).
  - destruct Hq as [Hb Hq]. destruct (_ =? 0)%nat eqn:Hh; intros [= <- <-].
    + apply Nat.eqb_eq in Hh. apply refused_told; [done|]. by apply (turn_unhealthy t (g_server g) q r).
    + apply Nat.eqb_neq in Hh. split; [by apply blank_goto|].
      split; [done|]. by exists (g_server g), (t_now t).
  - destruct Hq as [Hb Hq]. destruct (Admission.Reserve _ _ _ _) as [a [i|e]] eqn:Hr; intros [= <- <-].
    + split; [by apply (blank_goto (set_lease q (Some i)))|]. split; [exact Hq|].
      by exists (g_server g), (t_now t), a, i.
    + apply refused_told; [done|]. by apply (turn_rejected t (g_server g) q r a e).
  - intros [= <- <-]. destruct Hq as [[Hw Ho] Ha]. exists r. split; [done|]. cbn [goto q_writes q_opened q_pipes q_started].
    split; [by rewrite Hw|]. split; [done|]. by left.
  - intros [= <- <-]. destruct Hq as (r & Ha & Hw & Hv). exists r. split; [done|]. cbn [goto q_writes q_opened q_pipes q_started].
    split; [by rewrite Hw|]. split; [done|]. exists (s_registry (g_server g)), (t_now t). split; [apply (fi_registry _ _ (proj1 Hs))|done].
  - destruct (select_from _ _ _ _ _) as [router [d [w|x]]] eqn:Hsel.
    + intros [= <- <-]. by apply (turn_route t (g_server g) q v ws router d w).
    + pose proof (turn_unrouted t (g_server g) q v ws router d x Hs Hpc Hq0 Hsel) as Hu.
      destruct (v_previous v); by intros [= <- <-].
  - intros [= <- <-]. by apply attempting_goto.
  - destruct (WorkerClient.client_lookup _ _); [intros [= <- <-]; by apply attempting_goto|].
    destruct (t_dial t) as [u|e]; intros [= <- <-]; [by apply attempting_goto|]. split; [by apply attempting_goto|].
    destruct Hq as (r & os & _ & _ & _ & _ & u & Hu). by eapply (fails_before _ u v w (Err e) None).
  - destruct (publish _ _ _) as [c' [x|]]; intros [= <- <-]; by apply attempting_goto.
  - intros [= <- <-]. by apply attempting_goto.
  - destruct (t_generate t) as [e|]; [|destruct (q_ctx q); [done|]]; intros [= <- <-]; [|by apply turn_generate_told].
    split; [by apply attempting_goto|]. destruct Hq as (r & os & _ & _ & _ & _ & u & Hu). by eapply (fails_before _ u v w (Ok 0%nat) (Some e)).
  - destruct (list.last _) as [a|] eqn:Hl; [|done]. destruct (p_phase _) as [| |[e|]] eqn:Hp, (due (o_pipe a)); try done; intros [= <- <-].
    + by apply (turn_broken q v w a e).
    + by apply (turn_answered q v w a).
  - destruct Hq. destruct (drop_conn _ _) as [c' [x|]]; intros [= <- <-]; (split; [by apply attempting_goto|done]).
  - intros [= <- <-]. destruct Hq. split; [by apply attempting_goto|done].
  - destruct (shouldRetry _ _ _ _) eqn:Hr; intros [= <- <-]; [by apply turn_retry_told|by apply (turn_gives_up q v w e)].
  - intros [= <- <-]. by apply (turn_fail_told (g_server g)).
  - intros [= <- <-]. destruct Hq as (r & Ha & Hw & Hx & Hy). exists r. cbn [goto q_writes q_pipes q_started q_opened].
    by rewrite Hw.
  - intros [= <- <-]. exact (proj2 Hq).
  - destruct (Admission.Release _ _) as [a|m]; intros [= <- <-]; destruct Hq as (r & Ha & Hs1 & Hs2).
    + exists r. cbn [goto set_lease q_writes q_pipes q_started q_opened]. by rewrite app_nil_r.
    + apply (served_admitted _ r); [done|..]; cbn [goto set_panic q_writes q_pipes q_started q_opened]; by rewrite app_nil_r.
  - intros [= <- <-]. destruct Hq as (r & Ha & Hs1 & Hs2). apply (served_admitted _ r); [done|..];
      cbn [goto q_writes q_pipes q_started q_opened]; by rewrite app_nil_r.
  - intros [= <- <-]. by apply served_goto.
  - done.
Qed.

(** ** Every request of a run *)
Definition asked (q : req) : Prop :=
  (forall r, q_request q = Some r -> exists random now, parseRequest cfg random now (q_incoming q) = Ok r) /\
  Forall (fun a => exists r n, q_request q = Some r /\ o_request a = with_attempt r n) (q_pipes q).

Definition known (q : req) : Prop := told q /\ streams q /\ asked q.

Lemma finished_stays (r : Request) (id : string) (started : Time) (p p' : pipe) (err : option GoError) :
  Stream.step r id error_text buffer started p p' -> p_phase p = Finished err ->
  p_phase p' = Finished err /\ consumed p' = consumed p /\ out p' = out p /\ (due p = [] -> due p' = []).
Proof.
  intros Hs Hp. destruct Hs; try congruence; try done.
  - unfold received. by destruct (receive_step _ _ _ _).
  - unfold push. by destruct next.
  - split_and!; [done..|]. congruence.
Qed.

Lemma moves_keep (ps : list opened_attempt) (i : nat) (a : opened_attempt) (p : pipe) (started : Time) :
  ps !! i = Some a -> Stream.step (o_request a) (w_ID (o_worker a)) error_text buffer started (o_pipe a) p ->
  keeps ps (<[i := {| o_request := o_request a; o_worker := o_worker a; o_pipe := p |}]> ps).
Proof.
  intros Hi Hs x err [j Hj]%list_elem_of_lookup Hp. destruct (decide (j = i)) as [->|Hne].
  - rewrite Hi in Hj. injection Hj as <-. destruct (finished_stays _ _ _ _ _ _ Hs Hp) as (H1 & H2 & H3 & _).
    eexists. split; [apply list_elem_of_lookup; exists i; by rewrite (lookup_insert_here _ _ a)|done].
  - exists x. split; [|done]. apply list_elem_of_lookup. exists j. by rewrite list_lookup_insert_ne.
Qed.

Lemma known_moves (q : req) (i : nat) (a : opened_attempt) (p : pipe) :
  q_pipes q !! i = Some a ->
  Stream.step (o_request a) (w_ID (o_worker a)) error_text buffer (q_started q) (o_pipe a) p -> known q ->
  known (set_pipes q (<[i := {| o_request := o_request a; o_worker := o_worker a; o_pipe := p |}]> (q_pipes q))).
Proof.
  intros Hi Hs (Ht & Hst & Hp & Ha). split_and!.
  - apply told_pipes; [by eapply moves_keep| | |done].
    + intros [Hpc|Hpc]; unfold told in Ht; rewrite Hpc in Ht; destruct Ht as [_ Ht]; by rewrite Ht in Hi.
    + intros v w _ z Hz. eexists. split; [by eapply last_insert|]. case_decide as E; [|done].
      rewrite list.last_lookup, <- E in Hz. rewrite Hi in Hz. by injection Hz as <-.
  - apply Forall_insert; [done|]. cbn. eapply rtc_r; [|exact Hs].
    exact (proj1 (list.Forall_lookup _ _) Hst i a Hi).
  - split; [exact Hp|]. apply Forall_insert; [done|]. exact (proj1 (list.Forall_lookup _ _) Ha i a Hi).
Qed.

Lemma turn_streams (t : turn) (g g' : shared) (q q' : req) :
  told q -> streams q -> turn_step Code error_text t g q = Some (g', q') -> streams q'.
Proof.
  intros Hq Hst. unfold turn_step. destruct (q_pending q); [|by intros [= <- <-]].
  destruct (q_pc q) eqn:Hpc; try (by intros [= <- <-]); intros Ht;
    repeat match type of Ht with context [match ?x with _ => _ end] => destruct x eqn:? end; simplify_eq; try done.
  - unfold told in Hq. rewrite Hpc in Hq. destruct Hq as [_ Hq]. unfold streams. cbn. by rewrite Hq.
  - unfold streams. cbn. apply Forall_app. split; [done|]. by repeat constructor.
Qed.

Lemma turn_asked (t : turn) (g g' : shared) (q q' : req) :
  sane (g_server g) -> told q -> asked q -> turn_step Code error_text t g q = Some (g', q') -> asked q'.
Proof.
  intros Hs Hq [Hp Ha]. unfold turn_step. destruct (q_pending q); [|by intros [= <- <-]].
  destruct (q_pc q) eqn:Hpc; try (by intros [= <- <-]); intros Ht; unfold told in Hq; rewrite Hpc in Hq;
    repeat match type of Ht with context [match ?x with _ => _ end] => destruct x eqn:? end; simplify_eq; try done.
  - split.
    + cbn. intros r [= <-]. exists (t_random t), (t_now t). by erewrite <- sane_parse.
    + cbn. by rewrite (proj2 Hq).
  - split; [exact Hp|]. cbn [goto set_pipes q_pipes q_request]. apply Forall_app. split; [done|].
    apply Forall_cons_2; [|apply Forall_nil_2]. destruct Hq as (r & os & Had & _ & [Hv _] & _).
    exists r, (v_number v). split; [apply Had|exact Hv].
Qed.

Abbreviation gateway_step := (Traffic.step Code error_text registry_error_text).

Definition all_known (s : state) : Prop := forall k q, st_reqs s !! k = Some q -> known q.

Lemma reachable_sane (s : state) : accounts s -> built cfg s -> sane (g_server (st_shared s)).
Proof. intros Ha Hb. split; [by apply Hb|by apply Ha]. Qed.

Lemma known_set_req (s : state) (g : shared) (k : nat) (q q' : req) :
  all_known s -> st_reqs s !! k = Some q -> known q' -> all_known (set_req (set_shared s g) k q').
Proof. intros Hs Hk Hq j x [[-> ->]|[_ Hx]]%lookup_insert_cases; [done|by eapply Hs]. Qed.

Lemma known_step (s s' : state) :
  accounts s -> built cfg s -> all_known s -> gateway_step s s' -> all_known s'.
Proof.
  intros Ha Hb Hs Hst. pose proof (reachable_sane s Ha Hb) as Hsane.
  destruct Hst as [s s' Hst|s s' [_ _ _ Hrest _ _ _]%control_rest]; [|unfold all_known; by rewrite Hrest].
  destruct Hst as [s r _|s k q t g q' Hk Ht|s k q e Hk _ _|s k q i a p Hk Hi [Hp _]|s s' Hc|s e _]; try exact Hs.
  - intros k q [Hk|[_ Hk]]%lookup_app_Some; [by eapply Hs|].
    apply list_elem_of_lookup_2, list_elem_of_singleton in Hk as ->.
    split; [done|]. split; [constructor|]. split; [done|constructor].
  - destruct (Hs k q Hk) as (H1 & H2 & H3). apply (known_set_req s g k q q' Hs Hk).
    split_and!; [by eapply told_turn|by eapply turn_streams|by eapply turn_asked].
  - destruct (Hs k q Hk) as [H1 H2]. apply (known_set_req s (st_shared s) k q _ Hs Hk). split; [by apply told_ctx|done].
  - apply (known_set_req s _ k q _ Hs Hk). apply known_moves; [done| |by eapply Hs].
    by rewrite (fi_config _ _ (bu_server _ _ Hb)) in Hp.
  - destruct Hc; try exact Hs. intros k q. cbn [cancel_root st_reqs]. rewrite list_lookup_fmap.
    destruct (st_reqs s !! k) as [x|] eqn:Hk; [|done]. intros [= <-]. unfold cancel_req.
    destruct (Hs k x Hk) as (H1 & H2). destruct (q_ctx x); [done|]. split; [by apply told_ctx|done].
Qed.

Lemma run_known (s : state) :
  is_u64 (Admission.GlobalInFlightTokens (Config.rc_Admission cfg)) ->
  Traffic.reachable Code error_text registry_error_text cfg s -> all_known s.
Proof.
  intros Hu (server & Hn & Hr).
  assert (accounts s /\ built cfg s /\ all_known s) as (_ & _ & H); [|exact H].
  revert Hr. refine (rtc_ind_r (fun x => accounts x /\ built cfg x /\ all_known x) (serve server) _ _ s).
  - destruct (reachable_accounts Code error_text registry_error_text cfg (serve server) Hu) as [Ha Hb].
    { exists server. split; [done|apply rtc_refl]. }
    split_and!; try done.
  - intros y z _ Hyz (Ha & Hb & Hs). split_and!; [by eapply accounts_step|by eapply built_step|by eapply known_step].
Qed.

(** C2: In every interleaving, a request that has returned is a run of [handleChat]
    in this gateway: the same response and the same attempts, for servers that
    the gateway may have been meanwhile - its configuration, its policy, a
    well-formed directory and controller - and with the first event of every
    opened stream the one that the handler took from it. Its response is one API
    error, or what the handler of its last attempt wrote, in a run of the two
    goroutines of that attempt for the request that was parsed. *)
Theorem traffic_refines_handleChat (s : state) (k : nat) (q : req) :
  is_u64 (Admission.GlobalInFlightTokens (Config.rc_Admission cfg)) ->
  Traffic.reachable Code error_text registry_error_text cfg s ->
  st_reqs s !! k = Some q -> q_pc q = Left ->
  (exists s0 env, run_of (q_incoming q) (q_started q) (q_pipes q) (q_opened q) (q_writes q) s0 env) /\
  streamed (q_pipes q) (q_opened q) (q_writes q) /\
  streams q /\ asked q.
Proof.
  intros Hu Hr Hk Hpc. destruct (run_known s Hu Hr k q Hk) as (Ht & Hst & Has). unfold told in Ht. rewrite Hpc in Ht.
  by destruct Ht as [H1 H2].
Qed.
End Run.

(** ** Witness: a request that fails over while another one is in its loop *)
Definition ex_down : turn := ex_turn 200 (Some (EStatus codes_Unavailable "down")).

Definition ex_over_moves : list (@move SecondsNanos) :=
  [Registers 100 (@registration SecondsNanos "w1" "w1:9000" "mock-llm" 100 (ex_state 1 10 5));
   Arrives (incoming_request 8); Arrives (incoming_request 2)]
  ++ replicate 6 (Turns 1 (ex_turn 201 None)) ++ replicate 33 (Turns 0 ex_down).

Definition ex_over : state := played (T := SecondsNanos) ex_code ex_text_of ex_registry_text ex_server ex_over_moves.

Lemma ex_over_reachable : Traffic.reachable ex_code ex_text_of ex_registry_text Config.ex_router_config ex_over.
Proof. apply (played_reachable (T := SecondsNanos)); vm_compute; reflexivity. Qed.

Lemma traffic_refines_handleChat_witness : exists q,
  st_reqs ex_over !! 0%nat = Some q /\ q_opened q = [("req-1-a1", "w1")] /\
  exists s0 env, run_of (T := SecondsNanos) ex_code ex_text_of Config.ex_router_config (q_incoming q) (q_started q) (q_pipes q)
    (q_opened q) (q_writes q) s0 env.
Proof.
  assert (exists q, st_reqs ex_over !! 0%nat = Some q /\ q_pc q = Left /\ q_opened q = [("req-1-a1", "w1")]) as (q & Hk & Hp & Ho).
  { assert (match st_reqs ex_over !! 0%nat with
      | Some q => left_b q && bool_decide (q_opened q = [("req-1-a1", "w1")]) | None => false end = true) as H by (vm_compute; reflexivity).
    destruct (st_reqs ex_over !! 0%nat) as [q|]; [|discriminate H]. exists q. split; [reflexivity|].
    apply andb_true_iff in H as [H1 H2]. apply bool_decide_eq_true in H2. split; [|exact H2].
    unfold left_b in H1. destruct (q_pc q); try discriminate H1. reflexivity. }
  exists q. split; [exact Hk|]. split; [exact Ho|].
  apply (traffic_refines_handleChat ex_code ex_text_of ex_registry_text Config.ex_router_config ex_over 0 q).
  - vm_compute. split; congruence.
  - exact ex_over_reachable.
  - exact Hk.
  - exact Hp.
Defined.
