(* ===== verification/TrafficMetrics.v ===== *)
(** * The metrics of the running gateway

    The counters of [/metrics] while any number of requests, reports and a
    shutdown interleave: together with the updates that the handlers are about to
    make, they add up to what the clients have been sent and to the refusals that
    are about to be, which are counted first. *)

From S2P Require Import Prelude GoFloat GoString Model Examples Interfaces Wire Protocol Parse Sse Stream Gateway Chat ChatMetrics AttemptRun Traffic TrafficRun.
From S2P Require Config Registry Admission Routing Metrics WorkerClient.

#[local] Open Scope Z_scope.
#[local] Open Scope go_scope.

(** The counters that can be read off the responses. *)
Definition tracked : list string := requests_total :: cancellations_total :: followed.

(** What a whole response adds to a counter. *)
Definition reported (name : string) (ws : list http_event) : Z := tally name ws + on cancellations_total (abandoned ws) name.

Lemma tally_none (name : string) (ws : list http_event) :
  (forall w, event_amount name w = 0) -> tally name ws = 0.
Proof. intros H. unfold tally. induction ws as [|w ws IH]; [done|]. csimpl. by rewrite H, IH. Qed.

Lemma reported_requests (ws : list http_event) : reported requests_total ws = 0.
Proof.
  unfold reported. rewrite tally_none; [|intros [|e| |[]]; try reflexivity; cbn [event_amount]; unfold on; by rewrite !andb_false_r].
  unfold on. by rewrite andb_false_r.
Qed.

Lemma reported_cancellations (ws : list http_event) : reported cancellations_total ws = if abandoned ws then 1 else 0.
Proof.
  unfold reported. rewrite tally_none; [|intros [|e| |[]]; try reflexivity; cbn [event_amount]; unfold on; by rewrite !andb_false_r].
  unfold on. by rewrite andb_true_r.
Qed.

Lemma reported_followed (name : string) (ws : list http_event) : name ∈ followed -> reported name ws = tally name ws.
Proof.
  intros Hn. unfold reported, on. assert ((name =? cancellations_total)%string = false) as -> by
    (unfold followed in Hn; repeat (apply elem_of_cons in Hn as [->|Hn]; [reflexivity|]); by apply not_elem_of_nil in Hn).
  rewrite andb_false_r. apply Z.add_0_r.
Qed.

Ltac by_tracked Hn :=
  unfold tracked, followed in Hn; repeat (apply elem_of_cons in Hn as [->|Hn]; [try reflexivity|]);
  try (by apply not_elem_of_nil in Hn).

(** Operations on other metrics. *)
Definition elsewhere (ops : list Metrics.op) : Prop := forall name, name ∈ tracked -> amount name ops = 0.

Lemma agrees_elsewhere (ops : list Metrics.op) : agrees ops [] false -> elsewhere ops.
Proof.
  intros [H1 H2 _ H4] name Hn. rewrite list.Forall_forall in H1. unfold tracked in Hn.
  apply elem_of_cons in Hn as [->|[->|Hn]%elem_of_cons]; [done..|]. by rewrite (H1 name Hn).
Qed.

(** ** One attempt *)
Section Pipe.
Context {T : TimestampPb} (request : Request) (workerID : string) (error_text : GoError -> string).
Context (SSEBufferSize : nat) (started : Time).

Abbreviation pipe_step := (Stream.step request workerID error_text SSEBufferSize started).
Abbreviation pipe_reachable := (Stream.reachable request workerID error_text SSEBufferSize started).

Lemma phase_finished (p : pipe) (err : option GoError) : p_phase p = Finished err -> is_finished p = true.
Proof. intros H. unfold is_finished. by rewrite H. Qed.

Lemma returned_phase (p : pipe) : returned p = true -> exists err, p_phase p = Finished err /\ due p = [].
Proof.
  unfold returned, is_finished. destruct (p_phase p) as [| |err]; [done..|]. exists err. by destruct (due p).
Qed.

Lemma step_appends (p p' : pipe) : pipe_step p p' -> exists l, ops p' = ops p ++ l.
Proof.
  intros Hs. destruct Hs; try (by eexists); exists []; rewrite app_nil_r; try done.
  all: unfold received, take_first, push; by repeat case_match.
Qed.

Lemma pipe_ops_amount (name : string) (p p' : pipe) :
  pipe_step p p' -> amount name (pipe_ops p p') = amount name (ops p') - amount name (ops p).
Proof.
  intros [l Hl]%step_appends. unfold pipe_ops. rewrite Hl, drop_app_length, amount_app. lia.
Qed.

(** What an attempt has counted and is about to count is its response. *)
Lemma booked_amount (p : pipe) (name : string) :
  pipe_reachable p -> name ∈ tracked ->
  booked name p = tally name (out p) + on cancellations_total (is_finished p && abandoned (out p)) name.
Proof.
  intros [H1 H2 _ _ _ _ H7 _]%reachable_counters Hn. rewrite list.Forall_forall in H1.
  unfold tracked in Hn. apply elem_of_cons in Hn as [->|[->|Hn]%elem_of_cons].
  - rewrite H7. pose proof (reported_requests (out p)) as Hr. unfold reported, on in *. rewrite !andb_false_r in *. lia.
  - rewrite H2. pose proof (reported_cancellations (out p)) as Hr. unfold reported, on in *. rewrite !andb_true_r in *.
    destruct (is_finished p), (abandoned (out p)); cbn [andb] in *; lia.
  - rewrite (H1 name Hn). unfold on. assert ((name =? cancellations_total)%string = false) as -> by by_tracked Hn.
    rewrite andb_false_r. lia.
Qed.

(** A handler that has ended has counted its response. *)
Lemma finished_amount (p : pipe) (name : string) :
  pipe_reachable p -> is_finished p = true -> due p = [] -> name ∈ tracked -> amount name (ops p) = reported name (out p).
Proof.
  intros Hr Hf Hd Hn. pose proof (booked_amount p name Hr Hn) as Hb. unfold booked in Hb. rewrite Hf, Hd in Hb.
  change (amount name []) with 0 in Hb. unfold reported. cbn [andb] in Hb. lia.
Qed.

Lemma due_amount (p : pipe) (name : string) : pipe_reachable p -> name ∈ tracked -> 0 <= amount name (due p) <= 1.
Proof. intros Hr Hn. by apply single_amount; [apply (ci_due _ _ _ (reachable_counters _ _ _ _ _ p Hr))|]. Qed.
End Pipe.

(** ** One request *)
Section Gateway.
Context {T : TimestampPb} (Code : GoError -> Z) (error_text : GoError -> string).
Context (registry_error_text : Registry.RegistryError -> string) (cfg : Config.RouterConfig).

Abbreviation gateway_step := (Traffic.step Code error_text registry_error_text).
Abbreviation turn_step := (Traffic.turn_step Code error_text).
Abbreviation metrics s := (s_metrics (g_server (st_shared s))).

Definition entered (q : req) : bool := match q_pc q with AtEnter => false | _ => true end.

(** The attempt that is being answered. *)
Definition current (q : req) : option pipe :=
  match q_pc q with AtEvents _ _ => o_pipe <$> list.last (q_pipes q) | _ => None end.

(** What the client has been sent so far. *)
Definition sent (q : req) : list http_event := q_writes q ++ from_option out [] (current q).

(** The updates that the handler makes before it does anything else. *)
Definition next_updates (q : req) : list Metrics.op := q_pending q ++ from_option due [] (current q).

(** The refusal that is about to be written: its counter comes first. *)
Definition announced (q : req) : list http_event := match q_pc q with AtWrite e _ => [WriteAPIError e] | _ => [] end.

(** The handler has given up a stream that it had begun. *)
Definition gave_up (q : req) : bool := abandoned (sent q) && from_option is_finished true (current q).

(** What of the request a counter is about. *)
Definition observed (name : string) (q : req) : Z :=
  on requests_total (entered q) name + on cancellations_total (gave_up q) name + tally name (sent q ++ announced q).

(** The account that is carried through the steps: of the attempt that is being
    answered, what it has counted. *)
Definition seen (name : string) (q : req) : Z :=
  on requests_total (entered q) name +
  match q_pc q with
  | AtEvents _ _ => match list.last (q_pipes q) with Some a => amount name (ops (o_pipe a)) | None => 0 end
  | AtWrite e _ => tally name [WriteAPIError e]
  | _ => reported name (q_writes q)
  end.

Definition owed (name : string) (q : req) : Z := amount name (q_pending q).

(** The streams are over but for the one that is being answered. *)
Definition pipes_over (q : req) : Prop := forall i a, q_pipes q !! i = Some a ->
  returned (o_pipe a) = true \/ (exists v w, q_pc q = AtEvents v w) /\ S i = length (q_pipes q).

(** A change of the metrics that pays for a change of a request. *)
Definition pays (m m' : Metrics.Registry) (q q' : req) : Prop :=
  exists ops, m' = Metrics.run_ops m ops /\ forall name, name ∈ tracked ->
    amount name ops = (seen name q' - owed name q') - (seen name q - owed name q).

Lemma pays_later (m m' : Metrics.Registry) (q q' : req) :
  m' = m -> q_pending q = [] ->
  (forall name, name ∈ tracked -> amount name (q_pending q') = seen name q' - seen name q) -> pays m m' q q'.
Proof.
  intros -> Hq Ha. exists []. split; [done|]. intros name Hn. unfold owed. rewrite Hq, (Ha name Hn). cbn. lia.
Qed.

(** Before the response, the request has been sent nothing. *)
Lemma told_writes (q : req) :
  told Code error_text cfg q -> match q_pc q with AtRelease | AtReleased | AtLeave | Left => True | _ => q_writes q = [] end.
Proof.
  unfold told, attempting, blank. destruct (q_pc q) as [| |r|r|r|v|v ws|v d w|v w|v w c|v w c|v w|v w|v w e|v w e c|v w e|e|e []| | | |];
    try done; naive_solver.
Qed.
(** A turn whose updates and whose place are known. *)
Ltac later q Hpc Hp Hw :=
  apply pays_later; [reflexivity|exact Hp|]; let name := fresh "name" in let Hn := fresh "Hn" in
  intros name Hn; unfold seen, entered;
  cbn [goto set_started set_request set_lease set_pipes add_opened set_panic q_pc q_pending q_writes q_pipes];
  rewrite ?Hpc, ?Hw; by_tracked Hn.

Lemma turn_request_pays (t : turn) (g g' : shared) (q q' : req) :
  q_pending q = [] -> q_writes q = [] -> (q_pc q = AtEnter \/ q_pc q = AtRequest) ->
  turn_step t g q = Some (g', q') -> pays (s_metrics (g_server g)) (s_metrics (g_server g')) q q'.
Proof.
  intros Hp Hw Hpc. unfold Traffic.turn_step. rewrite Hp. destruct Hpc as [Hpc|Hpc]; rewrite Hpc.
  - intros [= <- <-]. later q Hpc Hp Hw.
  - destruct (parseRequest _ _ _ _) as [r|e] eqn:He; intros [= <- <-]; [later q Hpc Hp Hw|].
    apply parseRequest_status in He. apply pays_later; [done|done|]. intros name Hn. unfold seen, entered.
    cbn [goto q_pc q_pending q_writes]. rewrite Hpc, Hw. unfold reported, tally. cbn. rewrite He. by_tracked Hn.
Qed.

(** The end of an attempt: the handler has counted all of it. *)
Lemma turn_events_pays (t : turn) (g g' : shared) (q q' : req) (v : view) (w : Worker) :
  q_pending q = [] -> q_writes q = [] -> streams error_text cfg q -> q_pc q = AtEvents v w ->
  turn_step t g q = Some (g', q') -> pays (s_metrics (g_server g)) (s_metrics (g_server g')) q q'.
Proof.
  intros Hp Hw Hst Hpc. unfold Traffic.turn_step. rewrite Hp, Hpc.
  destruct (list.last (q_pipes q)) as [a|] eqn:Hl; [|done].
  apply last_Some_elem_of in Hl as Hin. pose proof (proj1 (list.Forall_forall _ _) Hst a Hin) as Hreach.
  destruct (p_phase (o_pipe a)) as [| |err] eqn:Hph; try done. intros Ht.
  assert (due (o_pipe a) = []) as Hdue by (by destruct err, (due (o_pipe a))).
  rewrite Hdue in Ht.
  assert (is_finished (o_pipe a) = true) as Hf by (unfold is_finished; by rewrite Hph).
  pose proof (reachable_answer _ _ _ _ _ _ Hreach) as Ho. unfold answer_inv in Ho. rewrite Hph in Ho.
  destruct err as [e|]; injection Ht as <- <-; apply pays_later; try done; intros name Hn; unfold seen, entered;
    cbn [goto q_pc q_pending q_writes]; rewrite Hpc, Hl, (finished_amount _ _ _ _ _ _ name Hreach Hf Hdue Hn), Hw.
  - destruct Ho as (_ & -> & _). cbn. lia.
  - cbn [app amount fmap list_fmap sum_list_Z]. change (amount name []) with 0. lia.
Qed.

Lemma turn_pays (t : turn) (g g' : shared) (q q' : req) :
  told Code error_text cfg q -> streams error_text cfg q -> turn_step t g q = Some (g', q') ->
  pays (s_metrics (g_server g)) (s_metrics (g_server g')) q q'.
Proof.
  intros Hw%told_writes Hst Ht. destruct (q_pending q) as [|o os] eqn:Hp.
  2: { unfold Traffic.turn_step in Ht. rewrite Hp in Ht. injection Ht as <- <-. exists [o]. split; [done|].
       intros name _. unfold owed, seen, entered. cbn [goto q_pc q_pipes q_writes q_pending]. rewrite Hp, app_nil_r.
       change (o :: os) with ([o] ++ os). rewrite amount_app. destruct (q_pc q); lia. }
  destruct (q_pc q) eqn:Hpc; try (apply (turn_request_pays t g g' q q'); auto; done);
    try (eapply (turn_events_pays t g g' q q'); done); unfold Traffic.turn_step in Ht; rewrite Hp, Hpc in Ht.
  - destruct (_ =? 0)%nat; simplify_eq; later q Hpc Hp Hw.
  - destruct (Admission.Reserve _ _ _ _) as [a [i|e]]; simplify_eq; [later q Hpc Hp Hw|]. destruct e; later q Hpc Hp Hw.
  - simplify_eq. later q Hpc Hp Hw.
  - simplify_eq. later q Hpc Hp Hw.
  - destruct (select_from _ _ _ _ _) as [router [d [w|e]]]; [|destruct (v_previous v)]; simplify_eq; [|later q Hpc Hp Hw..].
    apply pays_later; try done. intros name Hn. unfold seen, entered. cbn [goto add_opened q_pc q_pending q_writes].
    rewrite Hpc, Hw, (agrees_elsewhere _ (decision_agrees _ d w) name Hn), app_nil_r. lia.
  - simplify_eq. later q Hpc Hp Hw.
  - destruct (WorkerClient.client_lookup _ _); [|destruct (t_dial t)]; simplify_eq; later q Hpc Hp Hw.
  - destruct (publish _ _ _) as [c' [x|]]; simplify_eq; later q Hpc Hp Hw.
  - simplify_eq. later q Hpc Hp Hw.
  - destruct (t_generate t), (q_ctx q); simplify_eq; [later q Hpc Hp Hw..|].
    apply pays_later; try done. intros name Hn. unfold seen, entered. cbn [goto set_pipes q_pc q_pending q_writes q_pipes].
    rewrite Hpc, Hw, list.last_snoc. by_tracked Hn.
  - destruct (drop_conn _ _) as [c' [x|]]; simplify_eq; later q Hpc Hp Hw.
  - simplify_eq. later q Hpc Hp Hw.
  - destruct (shouldRetry _ _ _ _); simplify_eq; later q Hpc Hp Hw.
  - destruct (q_ctx q) as [[]|]; simplify_eq; later q Hpc Hp Hw.
  - destruct held; simplify_eq; (apply pays_later; [done|done|]); intros name Hn; unfold seen, entered;
      cbn [goto q_pc q_pending q_writes]; rewrite Hpc, Hw; unfold reported, on;
      change (abandoned ([] ++ [WriteAPIError e])) with false; change (amount name []) with 0; cbn [app andb]; lia.
  - destruct (Admission.Release _ _); simplify_eq; (apply pays_later; [done|done|]); intros name Hn; unfold seen, entered;
      cbn [goto set_lease set_panic q_pc q_pending q_writes]; rewrite Hpc, app_nil_r; change (amount name []) with 0; lia.
  - simplify_eq. apply pays_later; [done|done|]. intros name Hn. unfold seen, entered.
    cbn [goto q_pc q_pending q_writes]. rewrite Hpc, app_nil_r, (agrees_elsewhere _ (gauge_agrees _) name Hn). lia.
  - simplify_eq. apply pays_later; [done|done|]. intros name Hn. unfold seen, entered.
    cbn [goto q_pc q_pending q_writes]. rewrite Hpc, app_nil_r. change (amount name []) with 0. lia.
  - done.
Qed.

(** A move of a stream: the one that is answered, or one whose attempt is over. *)
Lemma move_pays (q : req) (i : nat) (a : opened_attempt) (p : pipe) (m : Metrics.Registry) :
  streams error_text cfg q -> pipes_over q -> q_pipes q !! i = Some a ->
  Stream.step (o_request a) (w_ID (o_worker a)) error_text (Z.to_nat (Config.SSEBufferSize cfg)) (q_started q) (o_pipe a) p ->
  pays m (Metrics.run_ops m (pipe_ops (o_pipe a) p)) q
    (set_pipes q (<[i := {| o_request := o_request a; o_worker := o_worker a; o_pipe := p |}]> (q_pipes q))).
Proof.
  intros Hst Hov Hi Hs. exists (pipe_ops (o_pipe a) p). split; [done|]. intros name Hn.
  rewrite (pipe_ops_amount _ _ _ _ _ name _ _ Hs). unfold owed, seen, entered. cbn [set_pipes q_pc q_pipes q_writes q_pending].
  assert (returned (o_pipe a) = true -> amount name (ops p) = amount name (ops (o_pipe a))) as Hfin.
  { intros (err & Hph & Hd)%returned_phase. pose proof (proj1 (list.Forall_lookup _ _) Hst i a Hi) as Hr.
    destruct (finished_stays error_text cfg _ _ _ _ _ _ Hs Hph) as (Hph' & _ & Ho & Hd').
    rewrite (finished_amount _ _ _ _ _ _ name Hr (phase_finished _ _ Hph) Hd Hn), <- Ho.
    exact (finished_amount _ _ _ _ _ p name (rtc_r _ _ _ Hr Hs) (phase_finished _ _ Hph') (Hd' Hd) Hn). }
  destruct (Hov i a Hi) as [Hf|[(v & w & Hpc) Hlast]].
  - rewrite (Hfin Hf). destruct (q_pc q); try lia. destruct (list.last (q_pipes q)) as [z|] eqn:Hz.
    + rewrite (last_insert _ _ a _ z) by done. case_decide as E; [|lia]. cbn [o_pipe]. rewrite (Hfin Hf).
      rewrite list.last_lookup, <- E, Hi in Hz. injection Hz as ->. lia.
    + rewrite list.last_None in Hz. by rewrite Hz in Hi.
  - assert (list.last (q_pipes q) = Some a) as Hz by (rewrite list.last_lookup, <- Hlast; done).
    rewrite Hpc, Hz, (last_insert _ _ a _ a) by done. rewrite decide_True by (rewrite <- Hlast; done). cbn [o_pipe]. lia.
Qed.

Lemma turn_over (t : turn) (g g' : shared) (q q' : req) :
  turn_step t g q = Some (g', q') -> pipes_over q -> pipes_over q'.
Proof.
  intros Ht Hov. assert (forall p, q_pipes p = q_pipes q -> q_pc p = q_pc q -> pipes_over p) as Hsame.
  { intros p E1 E2 i a Hi. rewrite E1 in *. destruct (Hov i a Hi) as [?|[? ?]]; [by left|right]. by rewrite E2. }
  assert (forall p, q_pipes p = q_pipes q -> (forall v w, q_pc q <> AtEvents v w) -> pipes_over p) as Hany.
  { intros p E Hno i a Hi. rewrite E in Hi. destruct (Hov i a Hi) as [?|[(v & w & Hpc) _]]; [by left|by destruct (Hno v w)]. }
  unfold Traffic.turn_step in Ht. destruct (q_pending q) eqn:Hp; [|injection Ht as <- <-; by apply Hsame].
  destruct (q_pc q) eqn:Hpc;
    try (repeat match type of Ht with context [match ?x with _ => _ end] => destruct x end; simplify_eq; apply Hany; done).
  - destruct (t_generate t); [|destruct (q_ctx q); [done|]]; simplify_eq; [by apply Hany|].
    intros i a [Hi|[Hlen Ha]]%lookup_app_Some; [left|right].
    + destruct (Hov i a Hi) as [?|[(v' & w' & ?) _]]; [done|congruence].
    + split; [by exists v, w|]. cbn [goto set_pipes q_pipes]. rewrite length_app. cbn [length].
      apply lookup_lt_Some in Ha. cbn [length] in Ha. lia.
  - destruct (list.last (q_pipes q)) as [z|] eqn:Hz; [|done]. destruct (p_phase (o_pipe z)) as [| |err] eqn:Hph; try done.
    assert (forall p, q_pipes p = q_pipes q -> pipes_over p) as Hend.
    { intros p E i a Hi. rewrite E in Hi. left. destruct (Hov i a Hi) as [?|[_ Hl]]; [done|].
      rewrite list.last_lookup, <- Hl in Hz. cbn in Hz. rewrite Hi in Hz. injection Hz as ->.
      unfold returned, is_finished. rewrite Hph. by destruct err, (due (o_pipe z)). }
    destruct err, (due (o_pipe z)); simplify_eq; by apply Hend.
Qed.

(** ** The whole gateway *)
Definition balanced (s : state) : Prop :=
  exists h, metrics s = Metrics.run_ops Metrics.New h /\ forall name, name ∈ tracked ->
    amount name h + sum_list_Z (owed name <$> st_reqs s) = sum_list_Z (seen name <$> st_reqs s).

Definition all_over (s : state) : Prop := forall k q, st_reqs s !! k = Some q -> pipes_over q.

Lemma balanced_pays (s : state) (g : shared) (k : nat) (q q' : req) :
  balanced s -> st_reqs s !! k = Some q -> pays (metrics s) (s_metrics (g_server g)) q q' ->
  balanced (set_req (set_shared s g) k q').
Proof.
  intros (h & Hh & Hb) Hk (ops & Hm & Hp). exists (h ++ ops). split.
  - cbn [set_req set_shared st_shared]. by rewrite Hm, Hh, run_ops_app.
  - intros name Hn. specialize (Hb name Hn). specialize (Hp name Hn). cbn [set_req set_shared st_reqs].
    rewrite amount_app, !(sum_insert _ _ _ q) by done. lia.
Qed.

(** What happens elsewhere in the gateway. *)
Lemma balanced_elsewhere (s s' : state) :
  balanced s -> (exists ops, metrics s' = Metrics.run_ops (metrics s) ops /\ elsewhere ops) ->
  (forall name, owed name <$> st_reqs s' = owed name <$> st_reqs s) ->
  (forall name, seen name <$> st_reqs s' = seen name <$> st_reqs s) -> balanced s'.
Proof.
  intros (h & Hh & Hb) (ops & Hm & He) Ho Hs. exists (h ++ ops). split; [by rewrite Hm, Hh, run_ops_app|].
  intros name Hn. rewrite Ho, Hs, amount_app, (He name Hn), Z.add_0_r. by apply Hb.
Qed.

Lemma no_ops (m : Metrics.Registry) : exists ops, m = Metrics.run_ops m ops /\ elsewhere ops.
Proof. exists []. split; [done|]. by intros name _. Qed.

(** The calls update other metrics only. *)
Definition call_aside (o : call_op) : Prop := match o with Update x => elsewhere [x] | _ => True end.
Definition calls_aside (s : state) : Prop := Forall (fun c => Forall call_aside (k_next c)) (st_calls s).

Ltac by_elsewhere := let name := fresh in let Hn := fresh in intros name Hn; by_tracked Hn.

Lemma register_aside (s : Server) (now : Time) (request : option pb_RegisterWorkerRequest) :
  Forall call_aside (register_section registry_error_text s now request).1.2.
Proof. unfold register_section. repeat case_match; repeat (apply Forall_cons_2; [try done; by_elsewhere|]); apply Forall_nil_2. Qed.

Lemma heartbeat_aside (s : Server) (now : Time) (request : option pb_HeartbeatRequest) :
  Forall call_aside (heartbeat_section registry_error_text s now request).1.2.
Proof. unfold heartbeat_section. repeat case_match; repeat (apply Forall_cons_2; [try done; by_elsewhere|]); apply Forall_nil_2. Qed.

Lemma call_step_aside (now : Time) (g g' : shared) (ops ops' : list call_op) :
  Forall call_aside ops -> call_step now g ops = Some (g', ops') ->
  Forall call_aside ops' /\ exists l, s_metrics (g_server g') = Metrics.run_ops (s_metrics (g_server g)) l /\ elsewhere l.
Proof.
  intros Ha. destruct Ha as [|o ops Ho Ha]; [done|]. unfold call_step. destruct o; intros [= <- <-];
    try (case_match; (split; [by apply Forall_cons_2|apply no_ops])); try (split; [by try apply Forall_cons_2|apply no_ops]).
  split; [done|]. by eexists.
Qed.

Lemma begin_aside (s : state) (http : bool) (x : Server * list call_op * result (Z * GoError) (bool * string)) :
  calls_aside s -> Forall call_aside x.1.2 -> s_metrics x.1.1 = s_metrics (g_server (st_shared s)) ->
  calls_aside (begin_call s http x) /\
  exists l, metrics (begin_call s http x) = Metrics.run_ops (metrics s) l /\ elsewhere l.
Proof.
  destruct x as [[server ops] a]. intros Hs Ha Hm. cbn in Ha, Hm. split.
  - apply Forall_app. split; [done|]. by apply Forall_cons_2; [|apply Forall_nil_2].
  - cbn [begin_call set_calls set_shared st_shared set_server g_server]. rewrite Hm. apply no_ops.
Qed.

Lemma control_aside (s s' : state) :
  calls_aside s -> control_step registry_error_text s s' ->
  calls_aside s' /\ exists l, metrics s' = Metrics.run_ops (metrics s) l /\ elsewhere l.
Proof.
  intros Hs Hst. destruct Hst as [s now r _|s now r _|s _|s i c now g ops Hi Hr].
  - apply begin_aside; [done|apply register_aside|apply register_frame].
  - apply begin_aside; [done|apply heartbeat_aside|apply heartbeat_frame].
  - apply begin_aside; [done|by apply Forall_cons_2; [|apply Forall_nil_2]|done].
  - destruct (call_step_aside _ _ _ _ _ (proj1 (list.Forall_lookup _ _) Hs i c Hi) Hr) as [Ha Hl]. split; [|exact Hl].
    by apply Forall_insert.
Qed.

Lemma seen_ctx (name : string) (q : req) (e : GoError) : seen name (set_ctx q e) = seen name q.
Proof. done. Qed.

Lemma cancel_req_seen (name : string) (q : req) : seen name (cancel_req q) = seen name q /\ owed name (cancel_req q) = owed name q.
Proof. unfold cancel_req. by destruct (q_ctx q). Qed.

Lemma balanced_step (s s' : state) :
  all_known Code error_text cfg s -> built cfg s -> all_over s -> calls_aside s -> balanced s -> gateway_step s s' ->
  balanced s'.
Proof.
  intros Hk Hbu Ho Hca Hs Hst. destruct Hst as [s s' Hst|s s' Hst].
  2: { destruct (control_aside s s' Hca Hst) as [_ Hl]. pose proof (cr_reqs _ _ (control_rest _ _ _ Hst)) as Hr.
       by apply (balanced_elsewhere s); [|exact Hl|intros name; rewrite Hr..]. }
  destruct Hst as [s r _|s k q t g q' Hq Ht|s k q e Hq _ _|s k q i a p Hq Ha Hm|s s' Hc|s e _].
  - destruct Hs as (h & Hh & Hb). exists h. split; [exact Hh|]. intros name Hn. specialize (Hb name Hn).
    cbn [accept st_reqs]. rewrite !sum_snoc. assert (seen name (new_req r (if root_canceled (g_server (st_shared s)) then
      Some ECanceled else None)) = 0) as -> by by_tracked Hn. change (owed name _) with 0. lia.
  - destruct (Hk k q Hq) as (Hto & Hstr & _). apply (balanced_pays s g k q q'); [done|done|]. by eapply turn_pays.
  - apply (balanced_pays s (st_shared s) k q); [done|done|]. exists []. split; [done|]. intros name _.
    rewrite seen_ctx. change (owed name (set_ctx q e)) with (owed name q). change (amount name []) with 0. lia.
  - destruct (Hk k q Hq) as (_ & Hstr & _). apply (balanced_pays s _ k q); [done|done|].
    destruct Hm as [Hm _]. rewrite (fi_config _ _ (bu_server _ _ Hbu)) in Hm. apply move_pays; [done|by eapply Ho|done|done].
  - apply (balanced_elsewhere s); [done|destruct Hc; apply no_ops| |]; intros name; destruct Hc; try done;
      cbn [cancel_root st_reqs]; rewrite <- list_fmap_compose; apply list_fmap_ext; intros ? q _; apply cancel_req_seen.
  - apply (balanced_elsewhere s); try done. apply no_ops.
Qed.

Lemma aside_step (s s' : state) : calls_aside s -> gateway_step s s' -> calls_aside s'.
Proof.
  intros Hs Hst. destruct Hst as [s s' Hst|s s' Hst]; [|by apply (control_aside s s' Hs Hst)].
  destruct Hst as [s r _|s k q t g q' Hq Ht|s k q e Hq _ _|s k q i a p Hq Ha Hm|s s' Hc|s e _]; try done. by destruct Hc.
Qed.

Lemma over_set (s : state) (g : shared) (k : nat) (q : req) : all_over s -> pipes_over q -> all_over (set_req (set_shared s g) k q).
Proof. intros Ho Hq j x [[-> ->]|[_ Hx]]%lookup_insert_cases; [done|by eapply Ho]. Qed.

Lemma over_step (s s' : state) : all_known Code error_text cfg s -> built cfg s -> all_over s -> gateway_step s s' -> all_over s'.
Proof.
  intros Hk Hbu Ho Hst.
  destruct Hst as [s s' Hst|s s' [_ _ _ Hr _ _ _]%control_rest]; [|unfold all_over; by rewrite Hr].
  destruct Hst as [s r _|s k q t g q' Hq Ht|s k q e Hq _ _|s k q i a p Hq Ha Hm|s s' Hc|s e _]; try done.
  - intros k q [?|[_ Hx]]%lookup_app_Some; [by eapply Ho|]. apply list_elem_of_lookup_2, list_elem_of_singleton in Hx as ->. done.
  - apply over_set; [done|]. eapply turn_over; [done|by eapply Ho].
  - apply (over_set s (st_shared s)); [done|]. exact (Ho k q Hq).
  - apply over_set; [done|]. intros j x Hx. cbn [set_pipes q_pipes q_pc] in *. rewrite length_insert.
    apply lookup_insert_cases in Hx as [[-> ->]|[_ Hx]]; [|by apply (Ho k q Hq)].
    destruct (Ho k q Hq i a Ha) as [Hf|?]; [left|by right]. destruct Hm as [Hm _].
    rewrite (fi_config _ _ (bu_server _ _ Hbu)) in Hm. cbn [o_pipe]. apply returned_phase in Hf as (err & Hph & Hd).
    destruct (finished_stays error_text cfg _ _ _ _ _ _ Hm Hph) as (Hph' & _ & _ & Hd'). unfold returned.
    by rewrite (phase_finished _ _ Hph'), (Hd' Hd).
  - destruct Hc; try done. intros k q Hq. cbn [cancel_root st_reqs] in Hq. rewrite list_lookup_fmap in Hq.
    destruct (st_reqs s !! k) as [x|] eqn:Hx; [|done]. injection Hq as <-. pose proof (Ho k x Hx) as Hov.
    unfold cancel_req. by destruct (q_ctx x).
Qed.

(** *** At most one update of a counter is outstanding *)
Definition light (ops : list Metrics.op) : Prop :=
  Forall (fun o => elsewhere [o]) (tail ops) /\ forall name, name ∈ tracked -> 0 <= amount name (take 1 ops) <= 1.

Definition paced (q : req) : Prop := light (q_pending q) /\ forall v w, q_pc q = AtEvents v w -> q_pending q = [].

Lemma elsewhere_all (ops : list Metrics.op) : Forall (fun o => elsewhere [o]) ops -> elsewhere ops.
Proof.
  induction 1 as [|o ops Ho _ IH]; [by intros name _|]. intros name Hn. change (o :: ops) with ([o] ++ ops).
  by rewrite amount_app, (Ho name Hn), (IH name Hn).
Qed.

Lemma light_amount (ops : list Metrics.op) (name : string) : light ops -> name ∈ tracked -> 0 <= amount name ops <= 1.
Proof.
  intros [Ht Hh] Hn. specialize (Hh name Hn). destruct ops as [|o ops]; [exact Hh|]. change (take 1 (o :: ops)) with [o] in Hh.
  change (o :: ops) with ([o] ++ ops). rewrite amount_app, (elsewhere_all ops Ht name Hn). lia.
Qed.

Lemma light_aside (ops : list Metrics.op) : Forall (fun o => elsewhere [o]) ops -> light ops.
Proof.
  intros H. destruct H as [|o ops Ho H]; (split; [done|]); intros name Hn; [done|].
  change (take 1 (o :: ops)) with [o]. by rewrite (Ho name Hn).
Qed.

Lemma light_one (o : Metrics.op) : (forall name, name ∈ tracked -> 0 <= amount name [o] <= 1) -> light [o].
Proof. intros H. split; [apply Forall_nil_2|exact H]. Qed.

Lemma light_tail (o : Metrics.op) (ops : list Metrics.op) : light (o :: ops) -> light ops.
Proof. intros [H _]. by apply light_aside. Qed.

Ltac by_counter := let name := fresh in let Hn := fresh in
  apply light_one; intros name Hn; by_tracked Hn; split; by apply Z.leb_le.

Lemma decision_light (seconds : float64) (d : RoutingDecision) (w : Worker) : light (decision_metrics seconds d w).
Proof.
  apply light_aside. unfold decision_metrics. repeat (apply Forall_cons_2; [by_elsewhere|]).
  destruct (list_find _ _) as [[i t]|]; [|apply Forall_nil_2].
  unfold candidate_metrics. cbn [app]. repeat (apply Forall_cons_2; [by_elsewhere|]).
  case_if; repeat (apply Forall_cons_2; [by_elsewhere|]); apply Forall_nil_2.
Qed.

Lemma paced_goto (q : req) (p : pc) (ops : list Metrics.op) (ws : list http_event) :
  light ops -> (ops = [] \/ forall v w, p <> AtEvents v w) -> paced (goto q p ops ws).
Proof. intros Hl Hp. split; [exact Hl|]. intros v w Hpc. cbn in Hpc. destruct Hp as [Hp|Hp]; [exact Hp|by destruct (Hp v w)]. Qed.

Lemma light_nil : light [].
Proof. by apply light_aside, Forall_nil_2. Qed.

Ltac paces := apply paced_goto; [first [apply light_nil|apply decision_light|by_counter]|first [by left|by right]].

Lemma turn_paced (t : turn) (g g' : shared) (q q' : req) : turn_step t g q = Some (g', q') -> paced q -> paced q'.
Proof.
  unfold Traffic.turn_step. intros Ht [Hl Hp]. destruct (q_pending q) as [|o ops] eqn:E.
  2: { injection Ht as <- <-. apply paced_goto; [by eapply light_tail|right]. intros v w Hpc. by specialize (Hp v w Hpc). }
  destruct (q_pc q) eqn:Hpc;
    repeat match type of Ht with context [match ?x with _ => _ end] => destruct x end; simplify_eq; paces.
Qed.

Lemma light_set (s : state) (g : shared) (k : nat) (q : req) :
  Forall paced (st_reqs s) -> paced q -> Forall paced (st_reqs (set_req (set_shared s g) k q)).
Proof. intros Hs Hq. by apply Forall_insert. Qed.

Lemma paced_step (s s' : state) : Forall paced (st_reqs s) -> gateway_step s s' -> Forall paced (st_reqs s').
Proof.
  intros Hs Hst. destruct Hst as [s s' Hst|s s' [_ _ _ Hr _ _ _]%control_rest]; [|by rewrite Hr].
  destruct Hst as [s r _|s k q t g q' Hq Ht|s k q e Hq _ _|s k q i a p Hq Ha Hm|s s' Hc|s e _]; try done;
    try pose proof (proj1 (list.Forall_lookup _ _) Hs k q Hq) as [H1 H2].
  - apply Forall_app. split; [done|]. apply Forall_cons_2; [|apply Forall_nil_2]. split; [apply light_nil|done].
  - apply light_set; [done|]. by eapply turn_paced.
  - by apply (light_set s (st_shared s)).
  - by apply light_set.
  - destruct Hc; try done. cbn [cancel_root st_reqs]. apply Forall_fmap. eapply list.Forall_impl; [exact Hs|].
    intros q [H1 H2]. unfold compose, cancel_req. by destruct (q_ctx q); split.
Qed.

Record sound (s : state) : Prop := {
  so_accounts : accounts s;
  so_built : built cfg s;
  so_known : all_known Code error_text cfg s;
  so_over : all_over s;
  so_aside : calls_aside s;
  so_paced : Forall paced (st_reqs s);
  so_balanced : balanced s;
}.

Lemma reachable_sound (s : state) :
  is_u64 (Admission.GlobalInFlightTokens (Config.rc_Admission cfg)) ->
  Traffic.reachable Code error_text registry_error_text cfg s -> sound s.
Proof.
  intros Hu (server & Hn & Hr). revert Hr. refine (rtc_ind_r sound (serve server) _ _ s).
  - destruct (reachable_accounts Code error_text registry_error_text cfg (serve server) Hu) as [Ha Hb].
    { exists server. split; [done|apply rtc_refl]. }
    split; try done; [apply Forall_nil_2..|]. apply New_total in Hn as [_ ->]. exists []. split; [done|]. by intros name _.
  - intros y z _ Hyz [Ha Hb Hk Ho Hc Hp Hx].
    split; [by eapply accounts_step|by eapply built_step|by eapply (known_step _ _ _ _ y)|by eapply over_step
      |by eapply aside_step|by eapply paced_step|by eapply balanced_step].
Qed.

(** ** Requests that have returned *)
Lemma left_owed (name : string) (qs : list req) : Forall is_left qs -> sum_list_Z (owed name <$> qs) = 0.
Proof. induction 1 as [|q qs [_ Hp] _ IH]; [done|]. csimpl. rewrite IH. unfold owed. by rewrite Hp. Qed.

Lemma left_seen (name : string) (q : req) :
  is_left q -> seen name q = on requests_total true name + reported name (q_writes q).
Proof. intros [Hp _]. unfold seen, entered. by rewrite Hp. Qed.

Lemma left_requests (qs : list req) : Forall is_left qs -> sum_list_Z (seen requests_total <$> qs) = Z.of_nat (length qs).
Proof.
  induction 1 as [|q qs Hq _ IH]; [done|]. csimpl. rewrite IH, left_seen, reported_requests by done. cbn. lia.
Qed.

Lemma left_cancellations (qs : list req) : Forall is_left qs ->
  sum_list_Z (seen cancellations_total <$> qs) = Z.of_nat (length (filter (fun q => abandoned (q_writes q) = true) qs)).
Proof.
  induction 1 as [|q qs Hq _ IH]; [done|]. csimpl. rewrite IH, left_seen, reported_cancellations by done.
  destruct (abandoned (q_writes q)) eqn:E; [rewrite filter_cons_True by done|rewrite filter_cons_False by (by rewrite E)]; cbn; lia.
Qed.

Lemma left_followed (name : string) (qs : list req) : name ∈ followed -> Forall is_left qs ->
  sum_list_Z (seen name <$> qs) = tally name (mjoin (q_writes <$> qs)).
Proof.
  intros Hn. induction 1 as [|q qs Hq _ IH]; [done|]. csimpl. rewrite IH, left_seen, reported_followed, tally_app by done.
  unfold followed in Hn. by repeat (apply elem_of_cons in Hn as [->|Hn]; [done|]); apply not_elem_of_nil in Hn.
Qed.

(** ** What a client has been sent *)
Lemma current_stream (q : req) (p : pipe) :
  current q = Some p -> streams error_text cfg q -> exists a, o_pipe a = p /\
    Stream.reachable (o_request a) (w_ID (o_worker a)) error_text (Z.to_nat (Config.SSEBufferSize cfg)) (q_started q) p.
Proof.
  unfold current. destruct (q_pc q); try done. destruct (list.last (q_pipes q)) as [a|] eqn:Hl; [|done]. intros [= <-] Hs.
  exists a. split; [done|]. apply last_Some_elem_of in Hl. exact (proj1 (list.Forall_forall _ _) Hs a Hl).
Qed.

(** The account that is carried through the steps is the difference of what the
    client has been sent and of what is outstanding. *)
Lemma observed_seen (name : string) (q : req) :
  told Code error_text cfg q -> streams error_text cfg q -> name ∈ tracked ->
  observed name q - amount name (next_updates q) = seen name q - owed name q.
Proof.
  intros Hw%told_writes Hs Hn. unfold observed, next_updates, gave_up, sent, seen, owed, announced.
  pose proof (current_stream q) as Hc. unfold current in *.
  destruct (q_pc q) eqn:Hpc; cbn [from_option];
    try (rewrite Hw; cbn [app abandoned existsb andb]; unfold on, reported, tally; cbn; rewrite ?andb_false_r, ?app_nil_r; lia);
    try (rewrite !app_nil_r, andb_true_r; unfold reported; lia).
  - destruct (list.last (q_pipes q)) as [a|] eqn:Hl; cbn [fmap option_fmap option_map from_option].
    + destruct (Hc _ eq_refl Hs) as (a' & _ & Hr). pose proof (booked_amount _ _ _ _ _ _ name Hr Hn) as Hb.
      unfold booked in Hb. rewrite Hw, amount_app, app_nil_r, andb_comm. cbn [app]. lia.
    + rewrite Hw. cbn. unfold on, tally. cbn. rewrite ?app_nil_r, ?andb_false_r. lia.
Qed.

Lemma outstanding (name : string) (q : req) :
  streams error_text cfg q -> paced q -> name ∈ tracked -> 0 <= amount name (next_updates q) <= 1.
Proof.
  intros Hs [Hl Hp] Hn. unfold next_updates. rewrite amount_app. pose proof (light_amount _ _ Hl Hn) as Ha.
  destruct (current q) as [p|] eqn:Hc; cbn [from_option]; [|change (amount name []) with 0; lia].
  destruct (current_stream q p Hc Hs) as (a & _ & Hr). pose proof (due_amount _ _ _ _ _ _ name Hr Hn) as Hd.
  unfold current in Hc. destruct (q_pc q) eqn:Hpc; try done. rewrite (Hp _ _ eq_refl). change (amount name []) with 0. lia.
Qed.

Lemma observed_sum (name : string) (s : state) :
  sound s -> name ∈ tracked ->
  sum_list_Z (observed name <$> st_reqs s) - sum_list_Z ((fun q => amount name (next_updates q)) <$> st_reqs s) =
  sum_list_Z (seen name <$> st_reqs s) - sum_list_Z (owed name <$> st_reqs s).
Proof.
  intros Hs Hn. assert (forall q, q ∈ st_reqs s -> observed name q - amount name (next_updates q) = seen name q - owed name q) as H.
  { intros q [k Hk]%list_elem_of_lookup. destruct (so_known _ Hs k q Hk) as (H1 & H2 & _). by apply observed_seen. }
  clear Hs. induction (st_reqs s) as [|q qs IH]; [done|]. csimpl.
  pose proof (H q ltac:(left)). assert (forall x, x ∈ qs -> observed name x - amount name (next_updates x) = seen name x - owed name x)
    by (intros x Hx; apply H; by right). specialize (IH ltac:(done)). lia.
Qed.

(** C4: In every interleaving of requests, workers' reports, probes and a shutdown, a
    counter is what it is about in what the clients have been sent so far - for
    the requests their arrivals, for the cancellations the streams that their
    handler gave up, otherwise the token events, the error events and the
    refusals - and in the refusals that are about to be written, which are counted
    before they are; except for the updates that the handlers make next, of which
    every handler owes each counter at most one. When every request has returned, the
    request counter is the number of requests; the output tokens, the midstream
    failures, the failures before the commit and the rejections are the token
    events, the error events, the responses of status 502 and those of status
    429, 500 and 503 in all the responses; and the cancellations are the
    requests whose stream was begun and has no end marker: nothing is lost and
    nothing counted twice, modulo 2^64. *)
Theorem traffic_metrics (s : state) :
  is_u64 (Admission.GlobalInFlightTokens (Config.rc_Admission cfg)) ->
  Traffic.reachable Code error_text registry_error_text cfg s ->
  let counter := Metrics.counter_value (s_metrics (g_server (st_shared s))) in
  (forall name, name ∈ tracked ->
     wrap_u64 (counter name + sum_list_Z ((fun q => amount name (next_updates q)) <$> st_reqs s)) =
       wrap_u64 (sum_list_Z (observed name <$> st_reqs s)) /\
     forall q, q ∈ st_reqs s -> 0 <= amount name (next_updates q) <= 1) /\
  (Forall is_left (st_reqs s) ->
     counter requests_total = wrap_u64 (Z.of_nat (length (st_reqs s))) /\
     counter cancellations_total =
       wrap_u64 (Z.of_nat (length (filter (fun q => abandoned (q_writes q) = true) (st_reqs s)))) /\
     forall name, name ∈ followed -> counter name = wrap_u64 (tally name (mjoin (q_writes <$> st_reqs s)))).
Proof.
  intros Hu Hr counter. pose proof (reachable_sound s Hu Hr) as Hs. destruct (so_balanced _ Hs) as (h & Hh & Hb).
  assert (forall name, counter name = wrap_u64 (amount name h)) as Hc.
  { intros name. unfold counter. rewrite Hh. apply Metrics.metrics_history. }
  split; [intros name Hn; split|intros Hl].
  - pose proof (observed_sum name s Hs Hn) as Ho. specialize (Hb name Hn). rewrite Hc. unfold wrap_u64.
    rewrite Z.add_mod_idemp_l by lia. f_equal. lia.
  - intros q Hq. pose proof (proj1 (list.Forall_forall _ _) (so_paced _ Hs) q Hq) as Hp.
    apply list_elem_of_lookup in Hq as [k Hk]. destruct (so_known _ Hs k q Hk) as (_ & Hst & _). by apply outstanding.
  - assert (forall name, name ∈ tracked -> counter name = wrap_u64 (sum_list_Z (seen name <$> st_reqs s))) as Hx.
    { intros name Hn. by rewrite Hc, <- (Hb name Hn), left_owed, Z.add_0_r. }
    split_and!.
    + by rewrite Hx, left_requests by (done || left).
    + by rewrite Hx, left_cancellations by (done || (right; left)).
    + intros name Hn. rewrite Hx, left_followed; try done. by do 2 right.
Qed.
End Gateway.

(** ** Witness: a token and a completion, and a request that no worker answers *)
Definition ex_chunk (index : Z) (text : string) (final : bool) (reason : string) : Chunk :=
  {| c_RequestID := "req-1"; c_AttemptID := "req-1-a1"; c_WorkerID := "w1"; TokenIndex := index;
     TokenText := text; Final := final; Reason := reason; At := 8 |}.

Definition ex_receives (c : Chunk) : list (@move SecondsNanos) :=
  [Streams 0 0 (SRecv (Received 300 (Some (@ChunkToProto SecondsNanos c)))); Streams 0 0 SDeliver; Streams 0 0 (STake 301 true);
   Streams 0 0 SUpdate].

Definition ex_mixed_moves : list (@move SecondsNanos) :=
  [Registers 100 (@registration SecondsNanos "w1" "w1:9000" "mock-llm" 100 (ex_state 1 10 5));
   Arrives (incoming_request 8); Arrives (incoming_request 2)]
  ++ replicate 20 (Turns 0 (ex_turn 200 None)) ++ replicate 32 (Turns 1 ex_down)
  ++ ex_receives (ex_chunk 0 "a" false "") ++ [Streams 0 0 SUpdate] ++ ex_receives (ex_chunk 1 "" true FinishStop)
  ++ replicate 5 (Turns 0 (ex_turn 200 None)).

Definition ex_mixed : state := played (T := SecondsNanos) ex_code ex_text_of ex_registry_text ex_server ex_mixed_moves.

Lemma ex_mixed_reachable : Traffic.reachable ex_code ex_text_of ex_registry_text Config.ex_router_config ex_mixed.
Proof. apply (played_reachable (T := SecondsNanos)); vm_compute; reflexivity. Qed.

Lemma traffic_metrics_witness :
  let counter := Metrics.counter_value (s_metrics (g_server (st_shared ex_mixed))) in
  Forall is_left (st_reqs ex_mixed) /\ (counter <$> tracked) = [2; 0; 0; 1; 0; 1] /\
  counter requests_total = wrap_u64 (Z.of_nat (length (st_reqs ex_mixed))) /\
  counter output_tokens_total = wrap_u64 (tally output_tokens_total (mjoin (q_writes <$> st_reqs ex_mixed))).
Proof.
  intros counter. assert (Forall is_left (st_reqs ex_mixed)) as Hl by (apply forallb_left; vm_compute; reflexivity).
  split; [exact Hl|]. split; [vm_compute; reflexivity|].
  destruct (traffic_metrics (T := SecondsNanos) ex_code ex_text_of ex_registry_text Config.ex_router_config ex_mixed) as (_ & H).
  - vm_compute. split; congruence.
  - exact ex_mixed_reachable.
  - destruct (H Hl) as (H1 & _ & H3). split; [exact H1|]. apply H3. right. left.
Defined.
