(* ===== verification/Quiescence.v ===== *)
(** * What is left when the requests are gone

    The gateway of [Traffic] owns every connection that it dialed: the pool, a
    handler that is about to publish or to close one, or [Close].  After a
    [Close], and once the last request has returned, nothing is left: no
    reservation, no active handler, no open connection.  Only the gauge of the
    reservations may stay above zero. *)

From S2P Require Import Prelude GoFloat GoString Model Examples Interfaces Wire Protocol Parse Sse Stream Gateway Chat Traffic.
From S2P Require Config Registry Admission Routing Metrics WorkerClient.

#[local] Open Scope Z_scope.
#[local] Open Scope go_scope.

Section Quiescence.
Context {T : TimestampPb} (Code : GoError -> Z) (error_text : GoError -> string).
Context (registry_error_text : Registry.RegistryError -> string) (cfg : Config.RouterConfig).

Abbreviation gateway_step := (Traffic.step Code error_text registry_error_text).
Abbreviation turn_step := (Traffic.turn_step Code error_text).
Abbreviation conns s := (g_conns (st_shared s)).

(** ** Who owns a connection *)
Definition dialing_of (q : req) : option (string * WorkerClient.conn) :=
  match q_pc q with AtPublish _ w c => Some (DataAddress w, c) | _ => None end.

Definition closing_of (q : req) : option WorkerClient.conn :=
  match q_pc q with AtExtra _ _ c | AtOld _ _ _ c => Some c | _ => None end.

Definition closer_conns (c : closer) : list WorkerClient.conn := match c with ClConns cs _ => cs | _ => [] end.

Record conns_ok (s : state) : Prop := {
  co_inv : WorkerClient.inv (conns s);
  co_dialing : WorkerClient.dialing (conns s) ≡ₚ omap dialing_of (st_reqs s);
  co_closing : WorkerClient.closing (conns s) ≡ₚ omap closing_of (st_reqs s) ++ closer_conns (st_closer s);
}.

Lemma filter_all {A} (P : A -> Prop) `{!forall x, Decision (P x)} (l : list A) : Forall P l -> filter P l = l.
Proof. induction 1; [done|]. by rewrite filter_cons_True, IHForall. Qed.

Lemma undial_rest (c : WorkerClient.state) (a : string) (x : WorkerClient.conn) (l : list (string * WorkerClient.conn)) :
  WorkerClient.inv c -> WorkerClient.dialing c ≡ₚ (a, x) :: l -> undial c x ≡ₚ l.
Proof.
  intros [Hnd _] Hd. unfold undial. rewrite Hd, filter_cons_False by (cbn; tauto). rewrite filter_all; [done|].
  unfold WorkerClient.owned in Hnd. rewrite Hd in Hnd. apply list.NoDup_app in Hnd as (_ & _ & Hnd).
  apply list.NoDup_app in Hnd as (Hnd & _ & _). cbn in Hnd. apply list.NoDup_cons in Hnd as [Hx _].
  apply list.Forall_forall. intros [b y] Hy Heq. cbn in Heq. subst y. apply Hx. apply list_elem_of_fmap. by exists (b, x).
Qed.

Lemma unclose_rest (c : WorkerClient.state) (x : WorkerClient.conn) (l : list WorkerClient.conn) :
  WorkerClient.inv c -> WorkerClient.closing c ≡ₚ x :: l -> WorkerClient.closing (close_conn c x) ≡ₚ l.
Proof.
  intros [Hnd _] Hd. cbn [close_conn WorkerClient.closing]. rewrite Hd, filter_cons_False by tauto. rewrite filter_all; [done|].
  unfold WorkerClient.owned in Hnd. rewrite Hd in Hnd. apply list.NoDup_app in Hnd as (_ & _ & Hnd).
  apply list.NoDup_app in Hnd as (_ & _ & Hnd). apply list.NoDup_cons in Hnd as [Hx _].
  apply list.Forall_forall. intros y Hy ->. done.
Qed.

(** The critical sections are steps of the pool. *)
Lemma dial_inv (c : WorkerClient.state) (a : string) :
  WorkerClient.inv c -> WorkerClient.client_lookup (WorkerClient.pool c) a = None -> WorkerClient.inv (dial c a).
Proof. intros Hi Hl. eapply WorkerClient.pool_inv_step; [exact Hi|]. by apply WorkerClient.step_dial. Qed.

Lemma publish_inv (c : WorkerClient.state) (a : string) (x : WorkerClient.conn) (l : list (string * WorkerClient.conn)) :
  WorkerClient.inv c -> WorkerClient.dialing c ≡ₚ (a, x) :: l -> WorkerClient.inv (publish c a x).1.
Proof.
  intros Hi Hd. assert (WorkerClient.dialing c ≡ₚ (a, x) :: undial c x) as Hd' by (by rewrite (undial_rest c a x l)).
  pose proof (WorkerClient.pool_inv_step c _ Hi (WorkerClient.step_publish c a x (undial c x) Hd')) as H. unfold publish.
  by destruct (WorkerClient.client_publish _ _ _) as [[p y] extra].
Qed.

Lemma drop_conn_inv (c : WorkerClient.state) (a : string) : WorkerClient.inv c -> WorkerClient.inv (drop_conn c a).1.
Proof. intros Hi. exact (WorkerClient.pool_inv_step c _ Hi (WorkerClient.step_invalidate c a)). Qed.

Lemma drop_all_inv (c : WorkerClient.state) : WorkerClient.inv c -> WorkerClient.inv (drop_all c).1.
Proof. intros Hi. exact (WorkerClient.pool_inv_step c _ Hi (WorkerClient.step_close_all c)). Qed.

Lemma close_conn_inv (c : WorkerClient.state) (x : WorkerClient.conn) (l : list WorkerClient.conn) :
  WorkerClient.inv c -> WorkerClient.closing c ≡ₚ x :: l -> WorkerClient.inv (close_conn c x).
Proof.
  intros Hi Hl. assert (WorkerClient.closing c ≡ₚ x :: WorkerClient.closing (close_conn c x)) as Hl'
    by (by rewrite (unclose_rest c x l)).
  exact (WorkerClient.pool_inv_step c _ Hi (WorkerClient.step_close c x _ Hl')).
Qed.

(** A turn of a handler hands connections over between the pool and itself. *)
Lemma conns_update (s : state) (k : nat) (q q' : req) (g : shared) :
  conns_ok s -> st_reqs s !! k = Some q ->
  (forall d c, WorkerClient.dialing (conns s) ≡ₚ option_list (dialing_of q) ++ d ->
     WorkerClient.closing (conns s) ≡ₚ option_list (closing_of q) ++ c ->
     WorkerClient.inv (g_conns g) /\ WorkerClient.dialing (g_conns g) ≡ₚ option_list (dialing_of q') ++ d /\
     WorkerClient.closing (g_conns g) ≡ₚ option_list (closing_of q') ++ c) ->
  conns_ok (set_req (set_shared s g) k q').
Proof.
  intros [Hi Hd Hc] Hk H.
  destruct (omap_insert dialing_of (st_reqs s) k q q' Hk) as (d & Hd1 & Hd2).
  destruct (omap_insert closing_of (st_reqs s) k q q' Hk) as (c & Hc1 & Hc2).
  destruct (H d (c ++ closer_conns (st_closer s))) as (H1 & H2 & H3); [by rewrite Hd|by rewrite Hc, Hc1, app_assoc|].
  split; cbn [set_req set_shared st_shared st_reqs st_closer]; [done|by rewrite H2|by rewrite H3, Hc2, app_assoc].
Qed.

Lemma conns_neutral (s : state) (k : nat) (q q' : req) (g : shared) :
  conns_ok s -> st_reqs s !! k = Some q -> g_conns g = conns s -> dialing_of q' = dialing_of q ->
  closing_of q' = closing_of q -> conns_ok (set_req (set_shared s g) k q').
Proof.
  intros Hs Hk Hg Hd Hc. apply (conns_update s k q); [done..|]. intros d c. rewrite Hg, Hd, Hc.
  intros H1 H2. split; [apply Hs|done].
Qed.

Lemma conns_publish (s : state) (k : nat) (q : req) (v : view) (w : Worker) (x : WorkerClient.conn) :
  conns_ok s -> st_reqs s !! k = Some q -> q_pc q = AtPublish v w x ->
  let '(c, extra) := publish (conns s) (DataAddress w) x in
  conns_ok (set_req (set_shared s (set_conns (st_shared s) c)) k
    (goto q (match extra with Some y => AtExtra v w y | None => AtGenerate v w end) [] [])).
Proof.
  intros Hs Hk Hpc. destruct (publish (conns s) (DataAddress w) x) as [c extra] eqn:Hp.
  apply (conns_update s k q); [done..|]. unfold dialing_of at 1, closing_of at 1. rewrite Hpc. intros d l Hd Hl.
  cbn [option_list app] in Hd, Hl. cbn [set_conns g_conns].
  pose proof (publish_inv (conns s) (DataAddress w) x d (co_inv _ Hs) Hd) as Hi. rewrite Hp in Hi. split; [exact Hi|].
  unfold publish in Hp. destruct (WorkerClient.client_publish _ _ _) as [[pl y] ex]. injection Hp as <- <-.
  cbn [WorkerClient.dialing WorkerClient.closing]. split.
  - rewrite (undial_rest _ (DataAddress w) x d) by (done || apply Hs). by destruct ex.
  - rewrite Hl. by destruct ex.
Qed.

Lemma conns_drop (s : state) (k : nat) (q : req) (v : view) (w : Worker) (e : GoError) :
  conns_ok s -> st_reqs s !! k = Some q -> q_pc q = AtInvalidate v w e ->
  let '(c, old) := drop_conn (conns s) (DataAddress w) in
  conns_ok (set_req (set_shared s (set_conns (st_shared s) c)) k
    (goto q (match old with Some y => AtOld v w e y | None => AtRetry v w e end) [] [])).
Proof.
  intros Hs Hk Hpc. destruct (drop_conn (conns s) (DataAddress w)) as [c old] eqn:Hp.
  apply (conns_update s k q); [done..|]. unfold dialing_of at 1, closing_of at 1. rewrite Hpc. intros d l Hd Hl.
  cbn [option_list app] in Hd, Hl. cbn [set_conns g_conns].
  pose proof (drop_conn_inv (conns s) (DataAddress w) (co_inv _ Hs)) as Hi. rewrite Hp in Hi. split; [exact Hi|].
  unfold drop_conn in Hp. destruct (WorkerClient.Invalidate _ _) as [pl y]. injection Hp as <- <-.
  cbn [WorkerClient.dialing WorkerClient.closing]. split.
  - rewrite Hd. by destruct y.
  - rewrite Hl. by destruct y.
Qed.

(** Closing what a handler took out. *)
Lemma conns_close (s : state) (k : nat) (q : req) (x : WorkerClient.conn) (p : pc) :
  conns_ok s -> st_reqs s !! k = Some q -> dialing_of q = None -> closing_of q = Some x ->
  (forall w c v, p <> AtPublish v w c) -> closing_of (goto q p [] []) = None ->
  conns_ok (set_req (set_shared s (set_conns (st_shared s) (close_conn (conns s) x))) k (goto q p [] [])).
Proof.
  intros Hs Hk Hd0 Hc0 Hp Hc1. apply (conns_update s k q); [done..|]. rewrite Hd0, Hc0, Hc1. intros d l Hd Hl.
  cbn [option_list app] in Hd, Hl. cbn [set_conns g_conns]. split_and!.
  - eapply close_conn_inv; [apply Hs|exact Hl].
  - cbn [close_conn WorkerClient.dialing]. rewrite Hd. unfold dialing_of. cbn [goto q_pc]. destruct p; try done.
    by destruct (Hp w dialed v).
  - cbn [option_list app]. apply (unclose_rest (conns s) x l); [apply Hs|exact Hl].
Qed.

Lemma conns_dial (s : state) (k : nat) (q : req) (v : view) (w : Worker) :
  conns_ok s -> st_reqs s !! k = Some q -> q_pc q = AtClient v w ->
  WorkerClient.client_lookup (WorkerClient.pool (conns s)) (DataAddress w) = None ->
  conns_ok (set_req (set_shared s (set_conns (st_shared s) (dial (conns s) (DataAddress w)))) k
    (goto q (AtPublish v w (length (WorkerClient.heap (conns s)))) [] [])).
Proof.
  intros Hs Hk Hpc Hl. apply (conns_update s k q); [done..|]. unfold dialing_of at 1, closing_of at 1. rewrite Hpc.
  intros d l Hd Hl'. cbn [option_list app] in Hd, Hl'. cbn [set_conns g_conns dial WorkerClient.dialing WorkerClient.closing].
  split_and!; [apply dial_inv; [apply Hs|done]| |done]. by rewrite Hd.
Qed.

(** A turn that does not touch the connections. *)
Ltac neutral s k q Hpc := apply (conns_neutral s k q); try done; unfold dialing_of, closing_of; by rewrite Hpc.

Lemma conns_turn (t : turn) (s : state) (g : shared) (k : nat) (q q' : req) :
  conns_ok s -> st_reqs s !! k = Some q -> turn_step t (st_shared s) q = Some (g, q') ->
  conns_ok (set_req (set_shared s g) k q').
Proof.
  intros Hs Hk. unfold Traffic.turn_step. destruct (q_pending q) as [|o ops]; [|intros [= <- <-]; by apply (conns_neutral s k q)].
  destruct (q_pc q) eqn:Hpc;
    try (intros [= <- <-]; neutral s k q Hpc).
  - intros Ht. destruct (parseRequest _ _ _ _); simplify_eq; neutral s k q Hpc.
  - intros Ht. destruct (_ =? 0)%nat; simplify_eq; neutral s k q Hpc.
  - intros Ht. destruct (Admission.Reserve _ _ _ _) as [a [i|e]]; simplify_eq; neutral s k q Hpc.
  - intros Ht. destruct (select_from _ _ _ _ _) as [router [d [w|e]]]; [|destruct (v_previous v)]; simplify_eq; neutral s k q Hpc.
  - destruct (WorkerClient.client_lookup _ _) eqn:Hl; [|destruct (t_dial t)]; intros [= <- <-].
    + neutral s k q Hpc.
    + by apply conns_dial.
    + neutral s k q Hpc.
  - pose proof (conns_publish s k q v w dialed Hs Hk Hpc) as H. destruct (publish _ _ _) as [c extra]. by intros [= <- <-].
  - intros [= <- <-]. apply conns_close; try done; unfold dialing_of, closing_of; by rewrite Hpc.
  - intros Ht. destruct (t_generate t), (q_ctx q); simplify_eq; neutral s k q Hpc.
  - intros Ht. destruct (list.last _) as [a|]; [|done]. destruct (p_phase _) as [| |[e|]], (due (o_pipe a)); simplify_eq; neutral s k q Hpc.
  - pose proof (conns_drop s k q v w e Hs Hk Hpc) as H. destruct (drop_conn _ _) as [c old]. by intros [= <- <-].
  - intros [= <- <-]. apply conns_close; try done; unfold dialing_of, closing_of; by rewrite Hpc.
  - intros Ht. destruct (shouldRetry _ _ _ _); simplify_eq; neutral s k q Hpc.
  - intros Ht. destruct (q_ctx q) as [[]|]; simplify_eq; neutral s k q Hpc.
  - intros Ht. destruct held; simplify_eq; neutral s k q Hpc.
  - intros Ht. destruct (Admission.Release _ _); simplify_eq; neutral s k q Hpc.
Qed.

Lemma conns_same (s s' : state) :
  conns_ok s -> conns s' = conns s -> st_reqs s' = st_reqs s -> closer_conns (st_closer s') = closer_conns (st_closer s) ->
  conns_ok s'.
Proof. intros [H1 H2 H3] Hc Hr Hl. split; by rewrite ?Hc, ?Hr, ?Hl. Qed.

Lemma cancel_req_pc (q : req) : q_pc (cancel_req q) = q_pc q /\ q_pending (cancel_req q) = q_pending q.
Proof. unfold cancel_req. by destruct (q_ctx q). Qed.

Lemma omap_cancel {A} (f : req -> option A) (qs : list req) :
  (forall q, f (cancel_req q) = f q) -> omap f (cancel_req <$> qs) = omap f qs.
Proof. intros Hf. induction qs as [|q qs IH]; [done|]. csimpl. by rewrite Hf, IH. Qed.

Lemma conns_closer (s s' : state) : conns_ok s -> close_step s s' -> conns_ok s'.
Proof.
  intros Hs Hst. destruct Hst as [s Hc|s Hc|s Hc|s Hc|s e Hc _ _|s e Hc _|s r Hc _|s r e Hc _|s r Hc _|s r e Hc _|s r Hc|s c cs r e Hc|s r Hc];
    try (apply (conns_same s); try done; cbn [set_closer st_closer]; by rewrite Hc).
  - destruct Hs as [H1 H2 H3]. rewrite Hc in H3. split; cbn [cancel_root st_shared st_reqs st_closer set_server g_conns]; [done|..].
    + rewrite H2. by rewrite (omap_cancel dialing_of) by (intros q; unfold dialing_of; by rewrite (proj1 (cancel_req_pc q))).
    + rewrite H3. by rewrite (omap_cancel closing_of) by (intros q; unfold closing_of; by rewrite (proj1 (cancel_req_pc q))).
  - destruct Hs as [H1 H2 H3]. rewrite Hc in H3. cbn [closer_conns] in H3. rewrite app_nil_r in H3.
    split; cbn [set_closer set_shared set_conns st_shared st_reqs st_closer g_conns closer_conns].
    + by apply drop_all_inv.
    + exact H2.
    + cbn [drop_all WorkerClient.Close WorkerClient.closing fst snd]. rewrite H3. apply Permutation_app_comm.
  - destruct Hs as [H1 H2 H3]. rewrite Hc in H3. cbn [closer_conns] in H3.
    assert (WorkerClient.closing (conns s) ≡ₚ c :: omap closing_of (st_reqs s) ++ cs) as H4 by (rewrite H3; solve_Permutation).
    split; cbn [set_closer set_shared set_conns st_shared st_reqs st_closer g_conns closer_conns].
    + by eapply close_conn_inv.
    + exact H2.
    + by rewrite (unclose_rest (conns s) c _ H1 H4).
Qed.

Lemma conns_step (s s' : state) : conns_ok s -> gateway_step s s' -> conns_ok s'.
Proof.
  intros Hs Hst. destruct Hst as [s s' Hst|s s' [_ H1 H2 H3 H4 H5 H6]%control_rest]; [|apply (conns_same s); [done..|by rewrite H4]].
  destruct Hst as [s r _|s k q t g q' Hk Ht|s k q e Hk _ _|s k q i a p Hk Ha _|s s' Hc|s e _];
    try (by apply (conns_same s)).
  - destruct Hs as [H1 H2 H3]. split; cbn [accept st_shared st_reqs st_closer]; [done|..]; rewrite omap_app; cbn; by rewrite app_nil_r.
  - by eapply conns_turn.
  - by apply (conns_neutral s k q (set_ctx q e) (st_shared s)).
  - by apply (conns_neutral s k q).
  - by eapply conns_closer.
Qed.

(** ** A close that returned no error *)
Definition all_left (s : state) : Prop := Forall is_left (st_reqs s) /\ st_accepting s = false.

Definition clean (s : state) : Prop :=
  match st_closer s with
  | ClControl None | ClWait None | ClPool None | ClConns _ None | Closed None => all_left s
  | _ => True
  end.

Lemma clean_same (s s' : state) :
  clean s -> st_closer s' = st_closer s -> st_accepting s' = st_accepting s -> (all_left s -> Forall is_left (st_reqs s')) -> clean s'.
Proof.
  unfold clean, all_left. intros H -> -> Hl. destruct (st_closer s) as [| | | | |[]|[]|[]|cs []|[]]; try done;
    (split; [by apply Hl|by destruct H]).
Qed.

Lemma clean_closer (s s' : state) : clean s -> close_step s s' -> clean s'.
Proof.
  unfold clean. intros Hs Hst. destruct Hst as [s Hc|s Hc|s Hc|s Hc|s e Hc Hl _|s e Hc _|s r Hc _|s r e Hc _|s r Hc _|s r e Hc _|s r Hc|s c cs r e Hc|s r Hc];
    rewrite Hc in Hs; cbn [set_closer st_closer]; try done; try (by destruct r); try (by destruct r, e).
  by destruct e.
Qed.

Lemma clean_step (s s' : state) : clean s -> gateway_step s s' -> clean s'.
Proof.
  intros Hs Hst. destruct Hst as [s s' Hst|s s' [_ _ _ H1 H2 H3 _]%control_rest].
  2: { apply (clean_same s); [done..|]. rewrite H1. by intros [? _]. }
  destruct Hst as [s r Ha|s k q t g q' Hk Ht|s k q e Hk _ _|s k q i a p Hk Ha _|s s' Hc|s e _];
    try (apply (clean_same s); try done; by intros [? _]).
  - apply (clean_same s); try done. intros [_ ?]. congruence.
  - assert (all_left s -> False) as Hno.
    { intros [Hl _]. pose proof (proj1 (list.Forall_lookup _ _) Hl k q Hk) as [Hp Hn]. unfold Traffic.turn_step in Ht.
      by rewrite Hn, Hp in Ht. }
    apply (clean_same s); try done; intros Hl; by destruct (Hno Hl).
  - apply (clean_same s); try done. intros [Hl _]. apply Forall_insert; [done|]. exact (proj1 (list.Forall_lookup _ _) Hl k q Hk).
  - apply (clean_same s); try done. intros [Hl _]. apply Forall_insert; [done|]. exact (proj1 (list.Forall_lookup _ _) Hl k q Hk).
  - by eapply clean_closer.
Qed.

Lemma start_clean (server : Server) : conns_ok (serve server) /\ clean (serve server).
Proof. split; [|done]. split; [apply WorkerClient.pool_reachable_inv, rtc_refl|done|done]. Qed.

Lemma reachable_conns (s : state) : Traffic.reachable Code error_text registry_error_text cfg s -> conns_ok s /\ clean s.
Proof.
  intros (server & _ & Hr). eapply (rtc_invariant gateway_step (fun x => conns_ok x /\ clean x)); [| |exact Hr].
  - intros x y [? ?] Hs. split; [by eapply conns_step|by eapply clean_step].
  - apply start_clean.
Qed.


(** ** The end of the contexts *)
Definition canceled (s : state) : Prop :=
  match st_closer s with
  | Serving | ClReady | ClCancel => True
  | _ => root_canceled (g_server (st_shared s)) = true
  end.

Definition contexts_over (s : state) : Prop :=
  root_canceled (g_server (st_shared s)) = true -> forall k q, st_reqs s !! k = Some q -> is_Some (q_ctx q).

(** A turn leaves the root's context and the request's alone. *)
Lemma turn_contexts (t : turn) (g g' : shared) (q q' : req) :
  turn_step t g q = Some (g', q') -> root_canceled (g_server g') = root_canceled (g_server g) /\ q_ctx q' = q_ctx q.
Proof.
  unfold Traffic.turn_step. intros Ht.
  repeat match type of Ht with context [match ?x with _ => _ end] => destruct x eqn:? end; by simplify_eq.
Qed.

Lemma canceled_same (s s' : state) :
  canceled s -> contexts_over s -> root_canceled (g_server (st_shared s')) = root_canceled (g_server (st_shared s)) ->
  st_closer s' = st_closer s ->
  (forall k q', st_reqs s' !! k = Some q' -> exists j q, st_reqs s !! j = Some q /\ (is_Some (q_ctx q) -> is_Some (q_ctx q'))) ->
  canceled s' /\ contexts_over s'.
Proof.
  unfold canceled, contexts_over. intros Hc Ho -> -> Hq. split; [done|]. intros Hr k q' Hk.
  destruct (Hq k q' Hk) as (j & q & Hj & Hi). apply Hi. by eapply Ho.
Qed.

Lemma same_ctx (s : state) (g : shared) (k : nat) (q q' : req) :
  st_reqs s !! k = Some q -> (is_Some (q_ctx q) -> is_Some (q_ctx q')) ->
  forall i x', st_reqs (set_req (set_shared s g) k q') !! i = Some x' ->
    exists j x, st_reqs s !! j = Some x /\ (is_Some (q_ctx x) -> is_Some (q_ctx x')).
Proof. intros Hk Hi i x' [[-> ->]|[_ Hx]]%lookup_insert_cases; [by exists k, q|by exists i, x']. Qed.

Lemma canceled_step (s s' : state) :
  canceled s -> contexts_over s -> gateway_step s s' -> canceled s' /\ contexts_over s'.
Proof.
  intros Hc Ho Hst. destruct Hst as [s s' Hst|s s' [[] H1 H2 H3 H4 H5 H6]%control_rest].
  2: { apply (canceled_same s); try done. rewrite H3. intros k q Hk. by exists k, q. }
  destruct Hst as [s r Ha|s k q t g q' Hk Ht|s k q e Hk _ _|s k q i a p Hk Ha _|s s' Hcl|s e _];
    try (apply (canceled_same s); try done; intros k q Hk; by exists k, q).
  - split; [done|]. intros Hr k q [Hk|[_ Hk]]%lookup_app_Some; [by eapply Ho|].
    apply list_elem_of_lookup_2, list_elem_of_singleton in Hk as ->. cbn in *. by rewrite Hr.
  - destruct (turn_contexts _ _ _ _ _ Ht) as [Hr He]. apply (canceled_same s); try done. apply (same_ctx s g k q q' Hk). by rewrite He.
  - apply (canceled_same s); try done. by apply (same_ctx s (st_shared s) k q).
  - apply (canceled_same s); try done. by apply (same_ctx s _ k q).
  - unfold canceled in *. destruct Hcl; cbn [cancel_root set_closer st_closer]; try (split; [|done]);
      match goal with H : st_closer _ = _ |- _ => rewrite H in Hc end; try done.
    split; [done|]. intros _ k q. cbn [cancel_root st_reqs]. rewrite list_lookup_fmap. destruct (st_reqs s !! k) as [x|]; [|done].
      intros [= <-]. unfold cancel_req. destruct (q_ctx x) eqn:E; [by rewrite E|by eexists].
Qed.

(** After [Close] has emptied the pool, a connection in it is one that a handler
    has put there and is about to invalidate: its call fails. *)
Definition emptying (c : closer) : bool := match c with ClConns _ _ | Closed _ => true | _ => false end.

Definition will_drop (address : string) (q : req) : Prop :=
  match q_pc q with AtGenerate _ w | AtInvalidate _ w _ => DataAddress w = address | _ => False end.

Definition pool_kept (s : state) : Prop :=
  emptying (st_closer s) = true ->
  forall a, is_Some (WorkerClient.connections (WorkerClient.pool (conns s)) !! a) ->
    exists k q, st_reqs s !! k = Some q /\ will_drop a q.

Lemma pool_kept_same (s s' : state) :
  pool_kept s -> (emptying (st_closer s') = true -> emptying (st_closer s) = true) ->
  WorkerClient.pool (conns s') = WorkerClient.pool (conns s) ->
  (forall k q a, st_reqs s !! k = Some q -> will_drop a q -> exists j q', st_reqs s' !! j = Some q' /\ will_drop a q') -> pool_kept s'.
Proof.
  intros Hs He Hp Hq Hem a Ha. rewrite Hp in Ha. destruct (Hs (He Hem) a Ha) as (k & q & Hk & Hw). by eapply Hq.
Qed.

(** A handler that keeps what it will drop. *)
Lemma kept_set (s : state) (g : shared) (k : nat) (q q' : req) :
  pool_kept s -> st_reqs s !! k = Some q -> WorkerClient.pool (g_conns g) = WorkerClient.pool (conns s) ->
  (forall a, will_drop a q -> will_drop a q') -> pool_kept (set_req (set_shared s g) k q').
Proof.
  intros Hs Hk Hp Hw. apply (pool_kept_same s); try done. intros j x a Hj Hx. destruct (decide (j = k)) as [->|Hne].
  - exists k, q'. cbn. rewrite (lookup_insert_here _ _ q) by done. split; [done|]. apply Hw. congruence.
  - exists j, x. cbn. by rewrite list_lookup_insert_ne.
Qed.

Lemma kept_publish (s : state) (k : nat) (q : req) (v : view) (w : Worker) (x : WorkerClient.conn) :
  pool_kept s -> st_reqs s !! k = Some q -> q_pc q = AtPublish v w x ->
  let '(c, extra) := publish (conns s) (DataAddress w) x in
  pool_kept (set_req (set_shared s (set_conns (st_shared s) c)) k
    (goto q (match extra with Some y => AtExtra v w y | None => AtGenerate v w end) [] [])).
Proof.
  intros Hs Hk Hpc. unfold publish, WorkerClient.client_publish.
  destruct (WorkerClient.connections (WorkerClient.pool (conns s)) !! DataAddress w) as [y|] eqn:E.
  - apply (kept_set s _ k q); try done. intros a. unfold will_drop. by rewrite Hpc.
  - intros Hem a. cbn. destruct (decide (a = DataAddress w)) as [->|Hne].
    + intros _. exists k. rewrite (lookup_insert_here _ _ q) by done. by eexists.
    + rewrite lookup_insert_ne by done. intros Ha. destruct (Hs Hem a Ha) as (j & z & Hj & Hz). exists j, z.
      rewrite list_lookup_insert_ne; [done|]. intros ->. rewrite Hk in Hj. injection Hj as <-.
      unfold will_drop in Hz. by rewrite Hpc in Hz.
Qed.

Lemma kept_drop (s : state) (k : nat) (q : req) (v : view) (w : Worker) (e : GoError) :
  pool_kept s -> st_reqs s !! k = Some q -> q_pc q = AtInvalidate v w e ->
  let '(c, old) := drop_conn (conns s) (DataAddress w) in
  pool_kept (set_req (set_shared s (set_conns (st_shared s) c)) k
    (goto q (match old with Some y => AtOld v w e y | None => AtRetry v w e end) [] [])).
Proof.
  intros Hs Hk Hpc. cbn [drop_conn WorkerClient.Invalidate]. intros Hem a. cbn.
  intros [c [Hne Ha]%lookup_delete_Some]. destruct (Hs Hem a (mk_is_Some _ _ Ha)) as (j & z & Hj & Hz). exists j, z.
  rewrite list_lookup_insert_ne; [done|]. intros ->. rewrite Hk in Hj. injection Hj as <-.
  unfold will_drop in Hz. by rewrite Hpc in Hz.
Qed.

Lemma kept_turn (t : turn) (s : state) (g : shared) (k : nat) (q q' : req) :
  pool_kept s -> (emptying (st_closer s) = true -> is_Some (q_ctx q)) -> st_reqs s !! k = Some q ->
  turn_step t (st_shared s) q = Some (g, q') -> pool_kept (set_req (set_shared s g) k q').
Proof.
  intros Hs Hctx Hk Ht. unfold Traffic.turn_step in Ht. destruct (q_pending q) as [|o ops].
  2: { injection Ht as <- <-. by apply (kept_set s _ k q). }
  destruct (q_pc q) eqn:Hpc;
    try (repeat match type of Ht with context [match ?x with _ => _ end] => destruct x eqn:? end; simplify_eq;
         apply (kept_set s _ k q); try done; intros ?; unfold will_drop; by rewrite Hpc).
  - pose proof (kept_publish s k q v w dialed Hs Hk Hpc) as H. destruct (publish _ _ _) as [c extra]. by injection Ht as <- <-.
  - destruct (t_generate t) as [e|]; [|destruct (q_ctx q) eqn:Hq; [done|]]; injection Ht as <- <-.
    + apply (kept_set s _ k q); try done. intros a. unfold will_drop. by rewrite Hpc.
    + intros Hem. by destruct (Hctx Hem).
  - pose proof (kept_drop s k q v w e Hs Hk Hpc) as H. destruct (drop_conn _ _) as [c old]. by injection Ht as <- <-.
Qed.

Lemma kept_step (s s' : state) :
  pool_kept s -> canceled s -> contexts_over s -> gateway_step s s' -> pool_kept s'.
Proof.
  intros Hs Hc Ho Hst. destruct Hst as [s s' Hst|s s' [_ H1 H2 H3 H4 H5 H6]%control_rest].
  2: { apply (pool_kept_same s); [done|by rewrite H4|by rewrite H1|]. rewrite H3. intros k q a Hk Hw. by exists k, q. }
  destruct Hst as [s r Ha|s k q t g q' Hk Ht|s k q e Hk _ _|s k q i a p Hk Ha _|s s' Hcl|s e _];
    try (apply (pool_kept_same s); try done; intros k q a Hk Hw; by exists k, q).
  - apply (pool_kept_same s); try done. intros k q a Hk Hw. exists k, q. split; [|done]. cbn. by apply lookup_app_l_Some.
  - apply (kept_turn t s g k q q'); try done. intros Hem. eapply Ho; [|exact Hk]. unfold canceled in Hc.
    by destruct (st_closer s).
  - by apply (kept_set s (st_shared s) k q).
  - by apply (kept_set s _ k q).
  - destruct Hcl; try (intros Hem; cbn in Hem; done);
      try (apply (pool_kept_same s); [done|rewrite H; done|done|intros k q a Hk Hw; by exists k, q]).
    intros _ a. cbn. rewrite lookup_empty. by intros [? ?].
Qed.

(** ** Properties *)

(** C26: Throughout every interleaving of requests, reports and a shutdown, a
    connection is open exactly while somebody has to close it or keep it: the
    pool, the one handler that dialed it and is about to publish it, the one that
    took it out to close it, or [Close]; nobody has it twice. *)
Theorem connections_owned (s : state) :
  Traffic.reachable Code error_text registry_error_text cfg s ->
  let owners := WorkerClient.pooled (WorkerClient.pool (conns s)) ++ (omap dialing_of (st_reqs s)).*2 ++
                omap closing_of (st_reqs s) ++ closer_conns (st_closer s) in
  NoDup owners /\ forall c, WorkerClient.heap (conns s) !! c = Some true <-> c ∈ owners.
Proof.
  intros [[[Hnd Ho] Hd Hc] _]%reachable_conns owners.
  assert (WorkerClient.owned (conns s) ≡ₚ owners) as Hp by (unfold WorkerClient.owned, owners; by rewrite Hd, Hc).
  split; [by rewrite <- Hp|]. intros c. by rewrite <- Ho, Hp.
Qed.

Lemma left_sums (qs : list req) (server : Server) :
  (forall k q, qs !! k = Some q -> req_ok server q) -> Forall is_left qs ->
  sum_list_Z (reserved_cost <$> qs) = 0 /\ sum_list_Z (inside <$> qs) = 0 /\ omap dialing_of qs = [] /\ omap closing_of qs = [].
Proof.
  intros Hok Hl. induction Hl as [|q qs [Hp _] _ IH]; [done|]. csimpl.
  destruct IH as (IH1 & IH2 & IH3 & IH4); [intros k; exact (Hok (S k))|].
  destruct (Hok 0%nat q eq_refl) as [H1 _ _]. unfold lease_ok in H1. rewrite Hp in H1.
  assert (dialing_of q = None /\ closing_of q = None) as [-> ->] by (unfold dialing_of, closing_of; by rewrite Hp).
  rewrite IH3, IH4, IH1, IH2.
  unfold reserved_cost, inside. by rewrite H1, Hp.
Qed.

(** Once every request has returned, nothing is reserved, nobody is counted as
    active, and the open connections are those of the pool and those that
    [Close] is closing. *)
Lemma left_quiet (s : state) :
  is_u64 (Admission.GlobalInFlightTokens (Config.rc_Admission cfg)) ->
  Traffic.reachable Code error_text registry_error_text cfg s -> Forall is_left (st_reqs s) ->
  Admission.InFlight (s_admission (g_server (st_shared s))) = 0 /\ g_active (st_shared s) = 0 /\
  forall c, WorkerClient.heap (conns s) !! c = Some true <->
    c ∈ WorkerClient.pooled (WorkerClient.pool (conns s)) ++ closer_conns (st_closer s).
Proof.
  intros Hu Hr Hl. destruct (reachable_accounts _ _ _ _ s Hu Hr) as [[_ Hok _ _ H4 H5] _].
  destruct (left_sums _ _ Hok Hl) as (E1 & E2 & E3 & E4). rewrite H4, H5. split_and!; [done|done|].
  destruct (reachable_conns s Hr) as [[[_ Ho] Hd Hc] _]. intros c. rewrite <- Ho. unfold WorkerClient.owned.
  rewrite Hd, Hc, E3, E4. done.
Qed.

Lemma reachable_kept (s : state) :
  Traffic.reachable Code error_text registry_error_text cfg s -> canceled s /\ contexts_over s /\ pool_kept s.
Proof.
  intros (server & Hn & Hr). apply New_total in Hn as [_ ->].
  eapply (rtc_invariant gateway_step (fun x => canceled x /\ contexts_over x /\ pool_kept x)); [| |exact Hr].
  - intros x y (H1 & H2 & H3) Hs. destruct (canceled_step x y H1 H2 Hs). split_and!; [done|done|by eapply kept_step].
  - by split_and!.
Qed.

Lemma closed_quiet (s : state) (r : option GoError) :
  is_u64 (Admission.GlobalInFlightTokens (Config.rc_Admission cfg)) ->
  Traffic.reachable Code error_text registry_error_text cfg s -> st_closer s = Closed r -> Forall is_left (st_reqs s) ->
  Admission.InFlight (s_admission (g_server (st_shared s))) = 0 /\ g_active (st_shared s) = 0 /\
  s_clients (g_server (st_shared s)) = WorkerClient.NewPool /\
  Forall (fun c => c = false) (WorkerClient.heap (conns s)).
Proof.
  intros Hu Hr Hc Hl. destruct (reachable_kept s Hr) as (_ & _ & Hk).
  destruct (left_quiet s Hu Hr Hl) as (H1 & H2 & H3).
  assert (WorkerClient.pool (conns s) = WorkerClient.NewPool) as Hp.
  { destruct (WorkerClient.pool (conns s)) as [m] eqn:E. unfold WorkerClient.NewPool. f_equal. apply map_eq. intros a.
    rewrite lookup_empty. apply eq_None_not_Some. intros Ha.
    destruct (Hk ltac:(by rewrite Hc) a) as (k & q & Hq & Hw); [by rewrite E|].
    pose proof (proj1 (list.Forall_lookup _ _) Hl k q Hq) as [Hpc _]. unfold will_drop in Hw. by rewrite Hpc in Hw. }
  destruct (reachable_accounts _ _ _ _ s Hu Hr) as [_ [_ Hb]].
  split_and!; try done; [congruence|]. apply list.Forall_forall. intros [] [c Hx]%list_elem_of_lookup; [|done].
  apply H3 in Hx. rewrite Hp, Hc in Hx. unfold WorkerClient.pooled in Hx. cbn in Hx. rewrite map_to_list_empty in Hx.
  cbn in Hx. by apply not_elem_of_nil in Hx.
Qed.

(** C11: When [Close] has returned, the context of every request is over; if it
    returned no error, it has waited for every request and none comes any more.
    In any case, once the last request has returned, nothing is reserved, no
    handler is active, the pool is empty and every connection that was ever
    dialed is closed: a connection that a handler publishes after the pool was
    emptied is invalidated by the same handler. *)
Theorem close_leaves_nothing (s : state) (r : option GoError) :
  is_u64 (Admission.GlobalInFlightTokens (Config.rc_Admission cfg)) ->
  Traffic.reachable Code error_text registry_error_text cfg s -> st_closer s = Closed r ->
  (forall k q, st_reqs s !! k = Some q -> is_Some (q_ctx q)) /\
  (r = None -> Forall is_left (st_reqs s) /\ st_accepting s = false) /\
  (Forall is_left (st_reqs s) ->
     Admission.InFlight (s_admission (g_server (st_shared s))) = 0 /\ g_active (st_shared s) = 0 /\
     s_clients (g_server (st_shared s)) = WorkerClient.NewPool /\
     Forall (fun c => c = false) (WorkerClient.heap (conns s))).
Proof.
  intros Hu Hr Hc. destruct (reachable_kept s Hr) as (Hca & Ho & _). unfold canceled in Hca. rewrite Hc in Hca.
  split; [by apply Ho|]. split; [|by apply (closed_quiet s r)].
  intros ->. destruct (reachable_conns s Hr) as [_ Hcl]. unfold clean in Hcl. by rewrite Hc in Hcl.
Qed.
End Quiescence.

(** ** What a run may leave behind *)
Definition ex_down_turn : turn := ex_turn 200 (Some (EStatus codes_Unavailable "down")).
Definition ex_up_turn : turn := ex_turn 200 None.

Definition ex_worker_up : @move SecondsNanos :=
  Registers 100 (@registration SecondsNanos "w1" "w1:9000" "mock-llm" 100 (ex_state 1 10 5)).

Abbreviation ex_played ms := (played (T := SecondsNanos) ex_code ex_text_of ex_registry_text ex_server ms).
Abbreviation ex_reachable s :=
  (Traffic.reachable (T := SecondsNanos) ex_code ex_text_of ex_registry_text Config.ex_router_config s).

(** The first request reads the tokens in flight while the second one holds its
    lease, and sets the gauge after the second one has released and set it. *)
Definition ex_gauge_moves : list (@move SecondsNanos) :=
  [ex_worker_up; Arrives (incoming_request 8); Arrives (incoming_request 2)]
  ++ replicate 6 (Turns 1 ex_down_turn) ++ replicate 31 (Turns 0 ex_down_turn)
  ++ replicate 27 (Turns 1 ex_down_turn) ++ replicate 2 (Turns 0 ex_down_turn).

Definition ex_gauge : state := ex_played ex_gauge_moves.

(** The gauge of the reservations is set to a number that was read before: it can
    stay above zero when every request has returned and nothing is reserved. *)
Theorem stale_gauge :
  ex_reachable ex_gauge /\ Forall is_left (st_reqs ex_gauge) /\ length (st_reqs ex_gauge) = 2%nat /\
  Admission.InFlight (s_admission (g_server (st_shared ex_gauge))) = 0 /\
  Metrics.gauges (s_metrics (g_server (st_shared ex_gauge))) !! "aetherserve_active_reservations" = Some (float_of_Z 4).
Proof.
  split; [apply (played_reachable (T := SecondsNanos)); vm_compute; reflexivity|].
  split; [apply forallb_left; vm_compute; reflexivity|]. by split_and!; vm_compute.
Qed.

Definition ex_last_chunk : Chunk :=
  {| c_RequestID := "req-1"; c_AttemptID := "req-1-a1"; c_WorkerID := "w1"; TokenIndex := 0;
     TokenText := ""; Final := true; Reason := FinishStop; At := 8 |}.

(** ** Witnesses: a request that is served, then a close *)
Definition ex_served_moves : list (@move SecondsNanos) :=
  [ex_worker_up; Arrives (incoming_request 8)] ++ replicate 20 (Turns 0 ex_up_turn) ++ replicate 4 Closes
  ++ [Streams 0 0 (SRecv (Received 300 (Some (@ChunkToProto SecondsNanos ex_last_chunk)))); Streams 0 0 SDeliver; Streams 0 0 (STake 301 true); Streams 0 0 SUpdate]
  ++ replicate 5 (Turns 0 ex_up_turn) ++ replicate 6 (Calls 0 101) ++ replicate 6 Closes.

Definition ex_closed : state := ex_played ex_served_moves.

Lemma ex_closed_reachable : ex_reachable ex_closed.
Proof. apply (played_reachable (T := SecondsNanos)); vm_compute; reflexivity. Qed.

Lemma close_leaves_nothing_witness :
  length (st_reqs ex_closed) = 1%nat /\ WorkerClient.heap (g_conns (st_shared ex_closed)) = [false] /\
  Forall is_left (st_reqs ex_closed) /\ Admission.InFlight (s_admission (g_server (st_shared ex_closed))) = 0.
Proof.
  split; [vm_compute; reflexivity|]. split; [vm_compute; reflexivity|].
  destruct (close_leaves_nothing (T := SecondsNanos) ex_code ex_text_of ex_registry_text Config.ex_router_config ex_closed None)
    as (_ & H1 & H2).
  - vm_compute. split; congruence.
  - exact ex_closed_reachable.
  - vm_compute. reflexivity.
  - destruct (H1 eq_refl) as [Hl _]. split; [exact Hl|]. exact (proj1 (H2 Hl)).
Defined.

Lemma connections_owned_witness :
  WorkerClient.heap (g_conns (st_shared ex_closed)) !! 0%nat = Some true <->
  0%nat ∈ WorkerClient.pooled (WorkerClient.pool (g_conns (st_shared ex_closed))) ++
    (omap dialing_of (st_reqs ex_closed)).*2 ++ omap closing_of (st_reqs ex_closed) ++ closer_conns (st_closer ex_closed).
Proof.
  apply (connections_owned (T := SecondsNanos) ex_code ex_text_of ex_registry_text Config.ex_router_config ex_closed).
  exact ex_closed_reachable.
Defined.
