(* ===== verification/Progress.v ===== *)
(** * Every request can return, and so can a shutdown

    A handler of [Traffic] makes a bounded number of turns whatever the others do;
    it waits for nothing but the stream that it opened, and that stream can end
    by steps of its own.  So the requests of a gateway can always be drained,
    and then [Close] returns; past the end of its context it waits for nobody. *)

From S2P Require Import Prelude GoFloat GoString Model Examples Interfaces Wire Protocol Parse Sse Stream Gateway Chat Traffic TrafficRun TrafficMetrics Quiescence.
From S2P Require Config Registry Admission Routing Metrics WorkerClient.

#[local] Open Scope Z_scope.
#[local] Open Scope go_scope.

Section Progress.
Context {T : TimestampPb} (Code : GoError -> Z) (error_text : GoError -> string).
Context (registry_error_text : Registry.RegistryError -> string) (cfg : Config.RouterConfig).

Abbreviation gateway_step := (Traffic.step Code error_text registry_error_text).
Abbreviation turn_step := (Traffic.turn_step Code error_text).
Abbreviation reachable := (Traffic.reachable Code error_text registry_error_text cfg).

(** ** The turns that are left *)

(** An attempt of the loop costs at most 19 turns; the second one is the last. *)
Definition later (v : view) : nat := 19 * Z.to_nat (2 - v_number v).

Definition place (p : pc) : nat :=
  match p with
  | Left => 0
  | AtLeave => 1
  | AtReleased => 3
  | AtRelease => 4
  | AtWrite _ false => 2
  | AtWrite _ true => 5
  | AtFail _ => 7
  | AtRetry v _ _ => 8 + later v
  | AtOld v _ _ _ => 9 + later v
  | AtInvalidate v _ _ => 10 + later v
  | AtEvents v _ => 11 + later v
  | AtGenerate v _ => 12 + later v
  | AtExtra v _ _ => 13 + later v
  | AtPublish v _ _ => 14 + later v
  | AtClient v _ => 15 + later v
  | AtLog v _ _ => 16 + later v
  | AtRoute v _ => 24 + later v
  | AtSnapshot v => 25 + later v
  | AtReserved _ => 46
  | AtReserve _ => 48
  | AtHealthy _ => 49
  | AtRequest => 50
  | AtEnter => 52
  end.

Lemma place_left (p : pc) : place p = 0%nat -> p = Left.
Proof. destruct p as [| | | | | | | | | | | | | | | | |e []| | | |]; cbn; (done || lia). Qed.

Definition turns_left (q : req) : nat := length (q_pending q) + place (q_pc q).

Lemma decision_metrics_length (seconds : float64) (d : RoutingDecision) (w : Worker) :
  (length (decision_metrics seconds d w) <= 7)%nat.
Proof.
  unfold decision_metrics. rewrite length_app. destruct (list_find _ _) as [[i t]|]; [|cbn; lia].
  unfold candidate_metrics. destruct (0 <? MatchedTokens t); cbn; lia.
Qed.

Lemma turn_counts (t : turn) (g g' : shared) (q q' : req) :
  turn_step t g q = Some (g', q') -> (turns_left q' < turns_left q)%nat.
Proof.
  unfold Traffic.turn_step, turns_left. destruct (q_pending q) as [|o ops] eqn:Hp; [|intros [= <- <-]; cbn; lia].
  intros Ht. destruct (q_pc q) eqn:Hpc;
    repeat match type of Ht with context [match ?x with _ => _ end] => destruct x eqn:? end; simplify_eq;
    cbn [goto set_started set_request set_lease set_pipes add_opened set_panic q_pc q_pending place length rejection];
    try lia.
  - change (later (loop_start request)) with 19%nat. lia.
  - match goal with |- context [decision_metrics ?x ?d ?w] => pose proof (decision_metrics_length x d w) end. lia.
  - unfold later, next_view. cbn [v_number].
    match goal with H : shouldRetry _ _ _ _ = true |- _ => unfold shouldRetry in H; destruct (2 <=? v_number v) eqn:E; [done|] end.
    lia.
Qed.

(** Nobody else gives a handler more turns. *)
Definition turn_of (k : nat) (s s' : state) : Prop :=
  exists q t g q', st_reqs s !! k = Some q /\ turn_step t (st_shared s) q = Some (g, q') /\ s' = set_req (set_shared s g) k q'.

Lemma step_turns (k : nat) (s s' : state) (q q' : req) :
  gateway_step s s' -> st_reqs s !! k = Some q -> st_reqs s' !! k = Some q' ->
  turn_of k s s' \/ turns_left q' = turns_left q.
Proof.
  assert (forall j (p p' : req), st_reqs s !! j = Some p -> turns_left p' = turns_left p -> st_reqs s !! k = Some q ->
    <[j := p']> (st_reqs s) !! k = Some q' -> turns_left q' = turns_left q) as Hset.
  { intros j p p' Hj Ht Hk [[-> ->]|[_ Hx]]%lookup_insert_cases; [|congruence]. rewrite Hj in Hk. by injection Hk as <-. }
  intros Hst Hk Hk'. destruct Hst as [s s' Hst|s s' [_ _ _ H1 _ _ _]%control_rest]; [|right; congruence].
  destruct Hst as [s r Ha|s j p t g p' Hj Ht|s j p e Hj _ _|s j p i a pp Hj Ha _|s s' Hcl|s e _];
    try (right; cbn in Hk'; congruence).
  - right. cbn in Hk'. rewrite (lookup_app_l_Some _ _ _ _ Hk) in Hk'. congruence.
  - destruct (decide (j = k)) as [->|Hne].
    + left. by exists p, t, g, p'.
    + right. cbn in Hk'. rewrite list_lookup_insert_ne in Hk' by done. congruence.
  - right. by apply (Hset j p (set_ctx p e)).
  - right. eapply (Hset j p); [exact Hj| |exact Hk|exact Hk']. done.
  - right. destruct Hcl; cbn in Hk'; try congruence. rewrite list_lookup_fmap, Hk in Hk'. injection Hk' as <-.
    unfold cancel_req. by destruct (q_ctx q).
Qed.

(** ** Streams end *)
Definition calm (r : Request) (id : string) (buffer : nat) (started : Time) (p p' : pipe) : Prop :=
  Stream.step r id error_text buffer started p p' /\ ctx_done p' = ctx_done p.

Section Stream.
Context (r : Request) (id : string) (buffer : nat) (started : Time).
Abbreviation go := (rtc (calm r id buffer started)).

(** A receiver can always stop: its [Recv] fails, and the client takes no more. *)
Lemma receiver_stops (p : pipe) : exists p', go p p' /\ p_receiver p' = Stopped /\ p_phase p' = p_phase p.
Proof.
  assert (forall p e next, p_receiver p = Delivering e next -> go p (slow_client p)) as Hslow.
  { intros x e next Hx. apply rtc_once. split; [by eapply step_slow|done]. }
  destruct (p_receiver p) as [n|e next|] eqn:Hr.
  - exists (slow_client (received r id p n (RecvErr EEOF))). split; [|done]. eapply rtc_l.
    + split; [by apply (step_recv _ _ _ _ _ p n (RecvErr EEOF))|done].
    + by eapply Hslow.
  - exists (slow_client p). split; [by eapply Hslow|done].
  - exists p. split; [apply rtc_refl|done].
Qed.

Lemma write_ctx (p : pipe) (took rest : list attemptEvent) (f : effect) (err : option GoError) :
  ctx_done (write p took rest f err) = ctx_done p.
Proof. done. Qed.

(** The handler makes its updates. *)
Lemma updates_made (p : pipe) :
  exists p', go p p' /\ due p' = [] /\ p_receiver p' = p_receiver p /\ p_phase p' = p_phase p /\ chan p' = chan p.
Proof.
  remember (due p) as l eqn:Hl. revert p Hl. induction l as [|o l IH]; intros p Hl; [by exists p; split; [apply rtc_refl|]|].
  destruct (IH (update p o l)) as (p' & Hgo & H1 & H2 & H3 & H4); [done|]. exists p'. split_and!; try done.
  eapply rtc_l; [|exact Hgo]. split; [by apply step_update|done].
Qed.

Lemma finish (p : pipe) (err : option GoError) :
  p_phase p = Finished err -> exists p', go p p' /\ returned p' = true.
Proof.
  intros Hp. destruct (updates_made p) as (p' & Hgo & Hd & _ & Hp' & _). exists p'. split; [done|].
  unfold returned, is_finished. by rewrite Hp', Hp, Hd.
Qed.

(** Then the handler takes what is in the channel. *)
Lemma forwarding_ends (p : pipe) :
  p_receiver p = Stopped -> p_phase p = Forwarding -> exists p', go p p' /\ returned p' = true.
Proof.
  remember (chan p) as l eqn:Hl. revert p Hl. induction l as [|e l IH]; intros p0 Hl0 Hr0 Hp0;
    destruct (updates_made p0) as (p & Hgo0 & Hd & Hr & Hp & Hl); rewrite <- Hl0 in Hl; rewrite Hr0 in Hr; rewrite Hp0 in Hp.
  - set (p1 := write p [] [] (forward_step r error_text started 0 false ChannelClosed) None).
    assert (calm r id buffer started p p1) as H1 by (split; [by apply step_forward_closed|done]).
    destruct (finish p1 None) as (p' & Hgo & Hf); [done|]. exists p'. split; [|done].
    transitivity p; [done|]. by eapply rtc_l.
  - set (p1 := write p [e] l (forward_step r error_text started 0 false (Arrived e)) None).
    assert (calm r id buffer started p p1) as H1 by (split; [by apply step_forward|done]).
    assert (exists p', go p1 p' /\ returned p' = true) as (p' & Hgo & Hf).
    { destruct (continues (forward_step r error_text started 0 false (Arrived e))) eqn:Hc.
      - apply IH; [done|done|unfold p1; cbn [write p_phase]; by rewrite Hc].
      - apply (finish p1 None). unfold p1. cbn [write p_phase]. by rewrite Hc. }
    exists p'. split; [|done]. transitivity p; [done|]. by eapply rtc_l.
Qed.

Lemma take_first_ctx (p : pipe) (now : Time) (ok : bool) (took rest : list attemptEvent) :
  ctx_done (take_first r p started now ok took rest) = ctx_done p /\
  p_receiver (take_first r p started now ok took rest) = p_receiver p /\
  p_phase (take_first r p started now ok took rest) <> WaitFirst.
Proof.
  unfold take_first. destruct (first_event _); [|done]. cbn. split_and!; [done|done|]. by destruct (continues _).
Qed.

Lemma stream_ends (p : pipe) : exists p', go p p' /\ returned p' = true.
Proof.
  destruct (receiver_stops p) as (p0 & Hgo0 & Hr0 & _). destruct (updates_made p0) as (p1 & Hgo1 & Hd & Hr & _ & _).
  rewrite Hr0 in Hr. assert (go p p1) as Hgo by by transitivity p0. clear Hgo0 Hgo1 Hr0.
  assert (exists p2, go p1 p2 /\ p_receiver p2 = Stopped /\ p_phase p2 <> WaitFirst) as (p2 & Hgo2 & Hr2 & Hp2).
  { destruct (p_phase p1) eqn:Hp; [|by exists p1; split; [apply rtc_refl|rewrite Hp]..].
    destruct (chan p1) as [|e rest] eqn:Hc.
    - destruct (take_first_ctx p1 0 false [] []) as (E1 & E2 & E3). exists (take_first r p1 started 0 false [] []).
      rewrite E2. split_and!; [|done|done]. apply rtc_once. split; [by apply step_first_closed|done].
    - destruct (take_first_ctx p1 0 false [e] rest) as (E1 & E2 & E3). exists (take_first r p1 started 0 false [e] rest).
      rewrite E2. split_and!; [|done|done]. apply rtc_once. split; [by apply step_first|done]. }
  assert (exists p3, go p2 p3 /\ returned p3 = true) as (p3 & Hgo3 & He).
  { destruct (p_phase p2) as [| |err] eqn:Hp; [done|by apply forwarding_ends|by apply (finish p2 err)]. }
  exists p3. split; [|done]. transitivity p1; [done|by transitivity p2].
Qed.
End Stream.

(** ** Draining *)

(** A step of the request [k] itself: a turn of its handler, or a step of the two
    goroutines of the stream that the handler waits for. No context ends, and
    nothing else in the gateway happens. *)
Inductive acts (k : nat) : state -> state -> Prop :=
| acts_turn s q t g q' :
    st_reqs s !! k = Some q -> turn_step t (st_shared s) q = Some (g, q') -> acts k s (set_req (set_shared s g) k q')
| acts_stream s q v w i a p :
    st_reqs s !! k = Some q -> q_pc q = AtEvents v w -> S i = length (q_pipes q) -> q_pipes q !! i = Some a ->
    calm (o_request a) (w_ID (o_worker a)) (Z.to_nat (Config.SSEBufferSize (s_config (g_server (st_shared s)))))
      (q_started q) (o_pipe a) p ->
    acts k s (set_req (set_shared s (set_server (st_shared s) (count (g_server (st_shared s)) (pipe_ops (o_pipe a) p)))) k
      (set_pipes q (<[i := {| o_request := o_request a; o_worker := o_worker a; o_pipe := p |}]> (q_pipes q)))).

Lemma acts_step (k : nat) (s s' : state) : acts k s s' -> gateway_step s s'.
Proof.
  intros [? q t g q' Hk Ht|? q v w i a p Hk _ _ Hi [Hs Hc]]; apply request_moves; [by eapply handler|].
  eapply attempt_moves; [done|done|]. split; [done|]. congruence.
Qed.

(** The request [k] goes on; the others stay where they are. *)
Definition only (k : nat) (s s' : state) : Prop :=
  st_closer s' = st_closer s /\ exists q', st_reqs s' = <[k := q']> (st_reqs s).

Lemma only_refl (k : nat) (s : state) (q : req) : st_reqs s !! k = Some q -> only k s s.
Proof. intros Hk. split; [done|]. exists q. by rewrite list_insert_id. Qed.

Lemma only_trans (k : nat) (s1 s2 s3 : state) : only k s1 s2 -> only k s2 s3 -> only k s1 s3.
Proof. intros [E1 [q1 H1]] [E2 [q2 H2]]. split; [congruence|]. exists q2. by rewrite H2, H1, list_insert_insert_eq. Qed.

Lemma acts_only (k : nat) (s s' : state) : acts k s s' -> only k s s'.
Proof. intros []; by split; [|eexists]. Qed.

(** The last stream of a request can end, with no turn of the handler. *)
Lemma lift_stream (s : state) (k i : nat) (q : req) (v : view) (w : Worker) (a : opened_attempt) (p : pipe) :
  st_reqs s !! k = Some q -> q_pc q = AtEvents v w -> S i = length (q_pipes q) -> q_pipes q !! i = Some a ->
  rtc (calm (o_request a) (w_ID (o_worker a)) (Z.to_nat (Config.SSEBufferSize (s_config (g_server (st_shared s)))))
    (q_started q)) (o_pipe a) p ->
  exists s', rtc (acts k) s s' /\ only k s s' /\
    st_reqs s' !! k = Some (set_pipes q (<[i := {| o_request := o_request a; o_worker := o_worker a; o_pipe := p |}]> (q_pipes q))).
Proof.
  intros Hk Hpc Hlen Hi Hgo. remember (s_config (g_server (st_shared s))) as c eqn:Hcfg. symmetry in Hcfg.
  revert s q a Hk Hpc Hlen Hi Hcfg Hgo.
  assert (forall r u started (x y : pipe), rtc (calm r (w_ID u) (Z.to_nat (Config.SSEBufferSize c)) started) x y ->
    forall s q, st_reqs s !! k = Some q -> q_pc q = AtEvents v w -> S i = length (q_pipes q) -> q_started q = started ->
      q_pipes q !! i = Some {| o_request := r; o_worker := u; o_pipe := x |} -> s_config (g_server (st_shared s)) = c ->
      exists s', rtc (acts k) s s' /\ only k s s' /\
        st_reqs s' !! k = Some (set_pipes q (<[i := {| o_request := r; o_worker := u; o_pipe := y |}]> (q_pipes q)))) as H.
  { intros r u started x y Hgo. induction Hgo as [x|x y z Hs _ IH]; intros s q Hk Hpc Hlen Hst Hi Hc.
    - exists s. split; [apply rtc_refl|]. split; [by eapply only_refl|]. rewrite list_insert_id by done. by destruct q.
    - set (a := {| o_request := r; o_worker := u; o_pipe := x |}) in *. rewrite <- Hst, <- Hc in Hs.
      pose proof (acts_stream k s q v w i a y Hk Hpc Hlen Hi Hs) as H1.
      set (q1 := set_pipes q _) in H1. set (s1 := set_req _ k q1) in H1.
      assert (st_reqs s1 !! k = Some q1) as Hk1 by exact (lookup_insert_here _ _ q q1 Hk).
      destruct (IH s1 q1 Hk1 Hpc) as (s' & H2 & H3 & H4);
        [cbn [q1 set_pipes q_pipes]; by rewrite length_insert|exact Hst|exact (lookup_insert_here _ _ a _ Hi)|exact Hc|].
      exists s'. split; [by eapply rtc_l|]. split; [apply (only_trans k s s1 s'); [by apply acts_only|done]|].
      rewrite H4. unfold q1. cbn [set_pipes q_pipes]. rewrite list_insert_insert_eq. by destruct q. }
  intros s q [r u x] Hk Hpc Hlen Hi Hc Hgo. by apply (H r u (q_started q) x p Hgo).
Qed.

(** A request that has not returned can take a turn, perhaps after its stream. *)
Definition some_turn (e : GoError) : turn :=
  {| t_now := 0; t_random := Err ""; t_seconds := fzero; t_dial := Err e; t_generate := Some e |}.

Lemma turn_possible (g : shared) (q : req) :
  ~ is_left q -> (forall v w, q_pc q = AtEvents v w -> q_pending q = [] ->
    exists a, list.last (q_pipes q) = Some a /\ returned (o_pipe a) = true) ->
  exists x, turn_step (some_turn EEOF) g q = Some x.
Proof.
  intros Hl He. unfold Traffic.turn_step. unfold is_left in Hl. destruct (q_pending q) as [|o ops]; [|by eexists].
  destruct (q_pc q) eqn:Hpc; try (by eexists); cbn [some_turn t_random t_now t_seconds t_dial t_generate].
  - destruct (parseRequest _ _ _ _); by eexists.
  - destruct (_ =? 0)%nat; by eexists.
  - destruct (Admission.Reserve _ _ _ _) as [a [i|e]]; by eexists.
  - destruct (select_from _ _ _ _ _) as [router [d [w|e]]]; [by eexists|]. destruct (v_previous v); by eexists.
  - destruct (WorkerClient.client_lookup _ _); by eexists.
  - destruct (publish _ _ _); by eexists.
  - destruct (He v w eq_refl eq_refl) as (a & -> & (err & -> & ->)%returned_phase). destruct err; by eexists.
  - destruct (shouldRetry _ _ _ _); by eexists.
  - destruct (Admission.Release _ _); by eexists.
  - by destruct Hl.
Qed.

Context (Hu : is_u64 (Admission.GlobalInFlightTokens (Config.rc_Admission cfg))).

Lemma reachable_config (s : state) : reachable s -> s_config (g_server (st_shared s)) = cfg.
Proof.
  intros Hr. destruct (reachable_accounts _ _ _ _ s Hu Hr) as [_ [Hb _]]. by apply (fi_config _ _ Hb).
Qed.

Lemma reachable_rtc (s s' : state) : reachable s -> rtc gateway_step s s' -> reachable s'.
Proof. intros (server & Hn & Hr) Hs. exists server. split; [done|by transitivity s]. Qed.

(** Its stream is over: the next turn is possible. *)
Lemma stream_ready (s : state) (k : nat) (q : req) :
  reachable s -> st_reqs s !! k = Some q ->
  exists s' q', rtc (acts k) s s' /\ only k s s' /\ st_reqs s' !! k = Some q' /\ turns_left q' = turns_left q /\
    (is_left q' <-> is_left q) /\
    (forall v w, q_pc q' = AtEvents v w -> q_pending q' = [] ->
       exists a, list.last (q_pipes q') = Some a /\ returned (o_pipe a) = true).
Proof.
  intros Hr Hk. assert ((exists v w, q_pc q = AtEvents v w) \/ ~ exists v w, q_pc q = AtEvents v w) as [(v & w & Hpc)|Hno]
    by (destruct (q_pc q); try (right; by intros (? & ? & ?)); left; eauto).
  2: { exists s, q. split_and!; [apply rtc_refl|by eapply only_refl|done..|]. intros v w Hpc. destruct Hno; eauto. }
  destruct (run_known Code error_text registry_error_text cfg s Hu Hr k q Hk) as [Ht _].
  unfold told in Ht. rewrite Hpc in Ht. destruct Ht as (_ & a & Hl & _).
  rewrite list.last_lookup in Hl. set (i := pred (length (q_pipes q))) in *.
  assert (S i = length (q_pipes q)) as Hlen by (apply lookup_lt_Some in Hl; lia).
  destruct (stream_ends (o_request a) (w_ID (o_worker a)) (Z.to_nat (Config.SSEBufferSize (s_config (g_server (st_shared s)))))
    (q_started q) (o_pipe a)) as (p & Hgo & Hp).
  destruct (lift_stream s k i q v w a p Hk Hpc Hlen Hl Hgo) as (s' & H1 & H2 & H3).
  eexists s', _. split_and!; [exact H1|exact H2|exact H3|done|split; intros H; exact H|]. intros v' w' _ _.
  exists {| o_request := o_request a; o_worker := o_worker a; o_pipe := p |}. split; [|exact Hp]. rewrite list.last_lookup. cbn [set_pipes q_pipes]. rewrite length_insert.
  exact (lookup_insert_here _ _ a _ Hl).
Qed.

Lemma acts_rtc (k : nat) (s s' : state) : rtc (acts k) s s' -> rtc gateway_step s s'.
Proof. apply rtc_subrel. intros x y. apply acts_step. Qed.

Lemma drain_one (n : nat) (s : state) (k : nat) (q : req) :
  reachable s -> st_reqs s !! k = Some q -> (turns_left q <= n)%nat ->
  exists s' q', rtc (acts k) s s' /\ only k s s' /\ st_reqs s' !! k = Some q' /\ is_left q'.
Proof.
  revert s q. induction n as [n IH] using lt_wf_ind. intros s q Hr Hk Hn.
  destruct (stream_ready s k q Hr Hk) as (s1 & q1 & H1 & H2 & Hk1 & Ht1 & Hl1 & Hev).
  pose proof (reachable_rtc s s1 Hr (acts_rtc _ _ _ H1)) as Hr1.
  destruct (decide (turns_left q1 = 0%nat)) as [Hz|Hz].
  { exists s1, q1. split_and!; try done. unfold turns_left in Hz. unfold is_left.
    destruct (q_pending q1); [|cbn in Hz; lia]. split; [|done]. apply place_left. cbn in Hz. lia. }
  assert (~ is_left q1) as Hl by (intros [Hp Hpe]; unfold turns_left in Hz; by rewrite Hp, Hpe in Hz).
  destruct (turn_possible (st_shared s1) q1 Hl Hev) as [[g q2] Ht].
  pose proof (turn_counts _ _ _ _ _ Ht) as Hlt.
  pose proof (acts_turn k s1 q1 (some_turn EEOF) g q2 Hk1 Ht) as Hs2. set (s2 := set_req (set_shared s1 g) k q2) in *.
  assert (st_reqs s2 !! k = Some q2) as Hk2 by exact (lookup_insert_here _ _ q1 q2 Hk1).
  destruct (IH (turns_left q2)) with (s := s2) (q := q2) as (s3 & q3 & H4 & H5 & Hk3 & Hl3); [lia| |done|done|].
  { eapply reachable_rtc; [exact Hr1|apply rtc_once; by eapply acts_step]. }
  exists s3, q3. split_and!; [|apply (only_trans k s s1 s3); [done|by apply (only_trans k s1 s2 s3); [apply acts_only|]]|done|done].
  transitivity s1; [done|]. by eapply rtc_l.
Qed.

(** A step of some request. *)
Definition some_acts (s s' : state) : Prop := exists k, acts k s s'.

Lemma some_acts_rtc (s s' : state) : rtc some_acts s s' -> rtc gateway_step s s'.
Proof. apply rtc_subrel. intros x y [k Hk]. by eapply acts_step. Qed.

Lemma drain (m : nat) (s : state) :
  reachable s -> (m <= length (st_reqs s))%nat ->
  exists s', rtc some_acts s s' /\ st_closer s' = st_closer s /\ length (st_reqs s') = length (st_reqs s) /\
    forall k q, (k < m)%nat -> st_reqs s' !! k = Some q -> is_left q.
Proof.
  intros Hr. induction m as [|m IH]; intros Hm; [exists s; split_and!; [apply rtc_refl|done|done|lia]|].
  destruct IH as (s1 & H1 & Hc1 & Hlen & Hl); [lia|].
  destruct (lookup_lt_is_Some_2 (st_reqs s1) m) as [q Hq]; [lia|].
  destruct (drain_one (turns_left q) s1 m q (reachable_rtc s s1 Hr (some_acts_rtc _ _ H1)) Hq (le_n _))
    as (s2 & q' & H2 & [Hc2 [q2 Ho]] & Hq' & Hl').
  exists s2. split_and!; [|congruence|by rewrite Ho, length_insert|].
  { transitivity s1; [done|]. eapply rtc_subrel; [|exact H2]. intros x y Hxy. by exists m. }
  intros k x Hk Hx. destruct (decide (k = m)) as [->|Hne]; [congruence|]. apply (Hl k x); [lia|].
  by rewrite Ho, list_lookup_insert_ne in Hx.
Qed.

Lemma turn_of_counts (k : nat) (s s' : state) (q q' : req) :
  turn_of k s s' -> st_reqs s !! k = Some q -> st_reqs s' !! k = Some q' -> (turns_left q' < turns_left q)%nat.
Proof.
  intros (x & t & g & x' & Hx & Ht & ->) Hk Hk'. rewrite Hx in Hk. injection Hk as <-. cbn in Hk'.
  rewrite (lookup_insert_here _ _ x) in Hk' by done. injection Hk' as <-. by eapply turn_counts.
Qed.

Lemma at_most_52 (s : state) : reachable s -> forall k q, st_reqs s !! k = Some q -> (turns_left q <= 52)%nat.
Proof.
  intros (server & _ & Hr). eapply (rtc_invariant gateway_step (fun x => forall k q, st_reqs x !! k = Some q -> (turns_left q <= 52)%nat));
    [| |exact Hr]; [|done].
  intros x y Hx Hs k q' Hk'. destruct (st_reqs x !! k) as [q|] eqn:Hk.
  - destruct (step_turns k x y q q' Hs Hk Hk') as [Ht| ->]; [|by eapply Hx].
    pose proof (turn_of_counts k x y q q' Ht Hk Hk'). specialize (Hx k q Hk). lia.
  - destruct Hs as [x y Hs|x y [_ _ _ H1 _ _ _]%control_rest]; [|congruence].
    destruct Hs as [x r Ha|x j p t g p' Hj Ht|x j p e Hj _ _|x j p i a pp Hj Ha _|x x' Hcl|x e _];
      try (cbn in Hk'; congruence).
    + cbn in Hk'. apply lookup_app_Some in Hk' as [?|[_ Hk']]; [congruence|].
      apply list_elem_of_lookup_2, list_elem_of_singleton in Hk' as ->. done.
    + cbn in Hk'. apply lookup_insert_cases in Hk' as [[-> _]|[_ ?]]; congruence.
    + cbn in Hk'. apply lookup_insert_cases in Hk' as [[-> _]|[_ ?]]; congruence.
    + cbn in Hk'. apply lookup_insert_cases in Hk' as [[-> _]|[_ ?]]; congruence.
    + destruct Hcl; cbn in Hk'; try congruence. rewrite list_lookup_fmap, Hk in Hk'. done.
Qed.

Lemma all_drained (s s' : state) :
  length (st_reqs s') = length (st_reqs s) ->
  (forall k q, (k < length (st_reqs s))%nat -> st_reqs s' !! k = Some q -> is_left q) -> Forall is_left (st_reqs s').
Proof.
  intros H2 H3. apply list.Forall_forall. intros q [k Hk]%list_elem_of_lookup. apply (H3 k q); [|done].
  rewrite <- H2. by eapply lookup_lt_Some.
Qed.

(** C12: No request depends on another one to return: whatever the others do, the turns
    that its handler has left never grow, each of its turns uses one, and they are
    at most 52; and from every state of the gateway there is a way for every request
    to return all by itself, by turns of its handler and steps of the stream that the
    handler waits for (a [Recv] of which comes back, with a message or an error),
    with no step of anybody else and no end of a context; and a way for all of
    them, one after the other. *)
Theorem requests_return (s : state) :
  reachable s ->
  (forall k q, st_reqs s !! k = Some q -> (turns_left q <= 52)%nat) /\
  (forall s' k q q', gateway_step s s' -> st_reqs s !! k = Some q -> st_reqs s' !! k = Some q' ->
     (turns_left q' <= turns_left q)%nat /\ (turn_of k s s' -> (turns_left q' < turns_left q)%nat)) /\
  (forall k q, st_reqs s !! k = Some q ->
     exists s' q', rtc (acts k) s s' /\ st_reqs s' = <[k := q']> (st_reqs s) /\ is_left q') /\
  exists s', rtc some_acts s s' /\ length (st_reqs s') = length (st_reqs s) /\ Forall is_left (st_reqs s').
Proof.
  intros Hr. split; [by apply at_most_52|]. split_and!.
  - intros s' k q q' Hs Hk Hk'. split; [|intros Ht; by eapply turn_of_counts].
    destruct (step_turns k s s' q q' Hs Hk Hk') as [Ht| ->]; [|done].
    pose proof (turn_of_counts k s s' q q' Ht Hk Hk'). lia.
  - intros k q Hk. destruct (drain_one (turns_left q) s k q Hr Hk (le_n _)) as (s' & q' & H1 & [_ [q2 Ho]] & Hk' & Hl).
    exists s', q'. split_and!; [done| |done]. rewrite Ho in Hk' |- *. rewrite (lookup_insert_here _ _ q) in Hk' by done. by injection Hk' as ->.
  - destruct (drain (length (st_reqs s)) s Hr (le_n _)) as (s' & H1 & _ & H2 & H3). exists s'. split_and!; [done..|].
    by eapply all_drained.
Qed.

(** ** The calls of the control plane end *)
Definition op_weight (o : call_op) : Z :=
  match o with CountProbe => 3 | CheckRoot | CountReady | CountGauge => 2 | _ => 1 end.

Definition call_weight (c : call) : Z := sum_list_Z (op_weight <$> k_next c).

Definition calls_done (s : state) : Prop := Forall (fun c => k_next c = []) (st_calls s).

Lemma weight_nonneg (ops : list call_op) : 0 <= sum_list_Z (op_weight <$> ops).
Proof. apply sum_list_Z_nonneg, Forall_fmap, list.Forall_forall. intros o _. by destruct o. Qed.

Lemma call_step_weight (now : Time) (g g' : shared) (ops ops' : list call_op) :
  call_step now g ops = Some (g', ops') -> sum_list_Z (op_weight <$> ops') < sum_list_Z (op_weight <$> ops).
Proof. destruct ops as [|[] ops]; intros [= _ <-]; try case_match; csimpl; cbn [op_weight]; lia. Qed.

Lemma calls_drain (s : state) : exists s', rtc (control_step registry_error_text) s s' /\ calls_done s'.
Proof.
  remember (Z.to_nat (sum_list_Z (call_weight <$> st_calls s))) as n eqn:Hn. revert s Hn.
  induction n as [n IH] using lt_wf_ind. intros s ->.
  destruct (decide (Forall (fun c => length (k_next c) = 0%nat) (st_calls s))) as [Hd|[c [Hc Hne]]%not_Forall_Exists%list.Exists_exists].
  - exists s. split; [apply rtc_refl|]. eapply list.Forall_impl; [exact Hd|]. intros c. by apply nil_length_inv.
  - apply list_elem_of_lookup in Hc as [i Hi]. assert (exists g ops, call_step 0 (st_shared s) (k_next c) = Some (g, ops)) as (g & ops & Ht).
    { cbn in Hne. destruct (k_next c) as [|[] l]; [by destruct Hne|..]; by eexists _, _. }
    pose proof (call_runs registry_error_text s i c 0 g ops Hi Ht) as Hs. set (s1 := set_call _ i _) in Hs.
    destruct (IH (Z.to_nat (sum_list_Z (call_weight <$> st_calls s1)))) with (s := s1) as (s' & H1 & H2); [|done|].
    + cbn [s1 set_call set_calls set_shared st_calls]. rewrite (sum_insert _ _ _ c) by done. unfold call_weight at 2 3.
      cbn [k_next]. pose proof (call_step_weight _ _ _ _ _ Ht) as Hw.
      pose proof (weight_nonneg ops). assert (0 <= sum_list_Z (call_weight <$> st_calls s) - call_weight c).
      { pose proof (sum_insert call_weight (st_calls s) i c {| k_http := false; k_next := []; k_answer := k_answer c |} Hi) as E.
        change (call_weight {| k_http := false; k_next := []; k_answer := k_answer c |}) with 0 in E. rewrite Z.add_0_r in E. rewrite <- E.
        apply sum_list_Z_nonneg, Forall_fmap, list.Forall_forall. intros x _. apply weight_nonneg. }
      unfold call_weight in *. lia.
    + exists s'. split; [by eapply rtc_l|done].
  - intros x. apply _.
Qed.

Lemma controls_rest (s s' : state) : rtc (control_step registry_error_text) s s' ->
  st_reqs s' = st_reqs s /\ st_closer s' = st_closer s /\ rtc gateway_step s s'.
Proof.
  induction 1 as [s|s s1 s' Hs _ (IH1 & IH2 & IH3)]; [by split_and!; [..|apply rtc_refl]|].
  destruct (control_rest _ _ _ Hs) as [_ _ _ H1 H2 _ _]. split_and!; [congruence..|]. eapply rtc_l; [by apply control_moves|done].
Qed.

Lemma done_over (http : bool) (s : state) : calls_done s -> calls_over http s.
Proof. intros H. eapply list.Forall_impl; [exact H|]. by intros c ->. Qed.

(** ** The calls of [Close] that are left *)
Definition rank (c : closer) : nat :=
  match c with
  | Serving => 8 | ClReady => 7 | ClCancel => 6 | ClShutdown => 5 | ClShutting => 4
  | ClControl _ => 3 | ClWait _ => 2 | ClPool _ => 1 | ClConns _ _ | Closed _ => 0
  end.

(** The error that [Close] has to return so far. *)
Definition so_far (c : closer) : option GoError :=
  match c with ClControl r | ClWait r | ClPool r | ClConns _ r | Closed r => r | _ => None end.

(** It waits for nothing: the requests and the calls have ended, or its context has. *)
Definition passable (drained : bool) (r : option GoError) (s : state) : Prop :=
  if drained then Forall is_left (st_reqs s) /\ calls_done s /\ g_active (st_shared s) = 0 /\ so_far (st_closer s) = r
  else is_Some (st_deadline s).

Lemma left_cancel (qs : list req) : Forall is_left qs -> Forall is_left (cancel_req <$> qs).
Proof.
  intros H. apply Forall_fmap. eapply list.Forall_impl; [exact H|]. intros q [H1 H2].
  destruct (cancel_req_same q) as (_ & _ & _ & E1 & E2 & _). split; cbn; by rewrite ?E1, ?E2.
Qed.

Lemma passable_same (d : bool) (r : option GoError) (s s' : state) :
  passable d r s -> (Forall is_left (st_reqs s) -> Forall is_left (st_reqs s')) -> st_calls s' = st_calls s ->
  g_active (st_shared s') = g_active (st_shared s) -> so_far (st_closer s') = so_far (st_closer s) ->
  st_deadline s' = st_deadline s -> passable d r s'.
Proof.
  intros H E1 E0 E2 E3 E4. destruct d; cbn in *; [|by rewrite E4]. unfold calls_done. rewrite E0, E2, E3.
  by destruct H as (? & ? & ? & ?); auto.
Qed.

Lemma advance (d : bool) (r : option GoError) (s : state) :
  passable d r s -> (0 < rank (st_closer s))%nat ->
  exists s', close_step s s' /\ (rank (st_closer s') < rank (st_closer s))%nat /\ passable d r s'.
Proof.
  intros Hp Hr. destruct (st_closer s) as [| | | | |x|x|x|cs x|x] eqn:Hc; try (cbn in Hr; lia).
  1,2,3,4,8: eexists; (split; [by constructor|]); (split; [cbn; lia|]); apply (passable_same d r s); rewrite ?Hc; try done.
  - exact (left_cancel (st_reqs s)).
  - destruct d; cbn in Hp; rewrite ?Hc in Hp.
    + destruct Hp as (H1 & H2 & H3 & H4). eexists. split; [apply (close_shut s None); [done|done|by apply done_over]|].
      split; [cbn; lia|done].
    + destruct Hp as [e He]. eexists. split; [by apply (close_shut_late s e)|]. split; [cbn; lia|by exists e].
  - destruct d; cbn in Hp; rewrite ?Hc in Hp.
    + destruct Hp as (H1 & H2 & H3 & H4). eexists. split; [apply (close_control s x); [done|by apply done_over]|]. split; [cbn; lia|done].
    + destruct Hp as [e He]. eexists. split; [by apply (close_control_late s x e)|]. split; [cbn; lia|by exists e].
  - destruct d; cbn in Hp; rewrite ?Hc in Hp.
    + destruct Hp as (H1 & H2 & H3 & H4). eexists. split; [by apply close_wait|]. split; [cbn; lia|done].
    + destruct Hp as [e He]. eexists. split; [by apply (close_wait_late s x e)|]. split; [cbn; lia|by exists e].
Qed.

Lemma close_connections (d : bool) (r x : option GoError) (cs : list WorkerClient.conn) (s : state) :
  passable d r s -> st_closer s = ClConns cs x ->
  exists s', rtc close_step s s' /\ st_closer s' = Closed x /\ passable d r s'.
Proof.
  revert s. induction cs as [|c cs IH]; intros s Hp Hc.
  - eexists. split; [apply rtc_once; by apply (close_end s x)|]. split; [done|]. by apply (passable_same d r s); rewrite ?Hc.
  - assert (first_of x None = x) as Hx by (by destruct x).
    pose proof (close_connection s c cs x None Hc) as Hs. rewrite Hx in Hs.
    match type of Hs with close_step _ ?y => destruct (IH y) as (s' & H1 & H2) end; [|done|].
    + by apply (passable_same d r s); rewrite ?Hc.
    + exists s'. split; [by eapply rtc_l|done].
Qed.

Lemma close_ends (d : bool) (r : option GoError) (s : state) :
  passable d r s -> exists s' x, rtc close_step s s' /\ st_closer s' = Closed x /\ passable d r s'.
Proof.
  remember (rank (st_closer s)) as n eqn:Hn. revert s Hn. induction n as [n IH] using lt_wf_ind. intros s -> Hp.
  destruct (decide (rank (st_closer s) = 0%nat)) as [Hz|Hz].
  - destruct (st_closer s) as [| | | | |x|x|x|cs x|x] eqn:Hc; try discriminate Hz.
    + destruct (close_connections d r x cs s Hp Hc) as (s' & ?). by exists s', x.
    + exists s, x. split; [apply rtc_refl|done].
  - destruct (advance d r s Hp) as (s1 & H1 & Hlt & Hp1); [lia|].
    destruct (IH _ Hlt s1 eq_refl Hp1) as (s' & x & H2 & H3). exists s', x. split; [by eapply rtc_l|done].
Qed.

Lemma closing_steps (s s' : state) : rtc close_step s s' -> rtc gateway_step s s'.
Proof. induction 1 as [|x y z H _ IH]; [apply rtc_refl|]. eapply rtc_l; [by apply request_moves, shuts_down|exact IH]. Qed.

(** C14: [Close] returns: its own calls are enough once its context is over, whatever
    the requests do; and wherever it stands, and without that end too, the gateway
    can be brought to the return of every request and of every call of the control
    plane, and then of [Close], which returns no error but the one that it has met already. Then nothing is left: no
    reservation, no active handler, an empty pool, no open connection. *)
Theorem close_returns (s : state) :
  reachable s ->
  (is_Some (st_deadline s) -> exists s' r, rtc close_step s s' /\ st_closer s' = Closed r) /\
  exists s', rtc gateway_step s s' /\ st_closer s' = Closed (so_far (st_closer s)) /\ Forall is_left (st_reqs s') /\
    Admission.InFlight (s_admission (g_server (st_shared s'))) = 0 /\ g_active (st_shared s') = 0 /\
    s_clients (g_server (st_shared s')) = WorkerClient.NewPool /\
    Forall (fun c => c = false) (WorkerClient.heap (g_conns (st_shared s'))).
Proof.
  intros Hr. split.
  - intros Hd. destruct (close_ends false None s Hd) as (s' & r & H1 & H2 & _). by exists s', r.
  - destruct (drain (length (st_reqs s)) s Hr (le_n _)) as (s0 & H0%some_acts_rtc & Hc & Hlen & Hl).
    pose proof (all_drained s s0 Hlen Hl) as Hleft0.
    destruct (calls_drain s0) as (s1 & (Hq1 & Hc1 & H1)%controls_rest & Hd1). rewrite <- Hq1 in Hleft0.
    assert (reachable s1) as Hr1 by (apply (reachable_rtc s s1 Hr); by transitivity s0).
    destruct (left_quiet Code error_text registry_error_text cfg s1 Hu Hr1 Hleft0) as (_ & Hact & _).
    destruct (close_ends true (so_far (st_closer s)) s1) as (s2 & r & H2%closing_steps & Hc2 & Hl2 & _ & Hact2 & Hso);
      [by split_and!; [..|rewrite Hc1, Hc]|].
    rewrite Hc2 in Hso. cbn in Hso. subst r.
    pose proof (reachable_rtc s1 s2 Hr1 H2) as Hr2.
    destruct (closed_quiet Code error_text registry_error_text cfg s2 _ Hu Hr2 Hc2 Hl2) as (H3 & _ & H4 & H5).
    exists s2. split_and!; [transitivity s0; [done|by transitivity s1]|done..].
Qed.

End Progress.

(** ** Witness *)
Lemma requests_return_witness :
  (turns_left <$> st_reqs ex_busy = [44; 46]%nat) /\
  (exists s' q', rtc (acts (T := SecondsNanos) ex_code ex_text_of 1) ex_busy s' /\
     st_reqs s' = <[1%nat := q']> (st_reqs ex_busy) /\ is_left q') /\
  exists s', rtc (some_acts (T := SecondsNanos) ex_code ex_text_of) ex_busy s' /\
    length (st_reqs s') = 2%nat /\ Forall is_left (st_reqs s').
Proof.
  split; [vm_compute; reflexivity|].
  destruct (requests_return (T := SecondsNanos) ex_code ex_text_of ex_registry_text Config.ex_router_config) with (s := ex_busy)
    as (_ & _ & H1 & s' & H2 & H3 & H4).
  - vm_compute. split; congruence.
  - exact ex_busy_reachable.
  - assert (is_Some (st_reqs ex_busy !! 1%nat)) as [q E] by (apply lookup_lt_is_Some; vm_compute; lia).
    split; [exact (H1 1%nat q E)|]. exists s'. split; [exact H2|]. split; [rewrite H3; vm_compute; reflexivity|exact H4].
Defined.

(** In the middle of two requests, [Close] begins and its context ends. *)
Definition ex_shutting_moves : list (@move SecondsNanos) := ex_moves ++ replicate 4 Closes ++ [Deadline].
Definition ex_shutting : state := played (T := SecondsNanos) ex_code ex_text_of ex_registry_text ex_server ex_shutting_moves.

Lemma close_returns_witness :
  length (st_reqs ex_shutting) = 2%nat /\
  (exists s' r, rtc close_step ex_shutting s' /\ st_closer s' = Closed r) /\
  exists s', rtc (Traffic.step (T := SecondsNanos) ex_code ex_text_of ex_registry_text) ex_shutting s' /\
    st_closer s' = Closed None /\ Forall is_left (st_reqs s').
Proof.
  split; [vm_compute; reflexivity|].
  destruct (close_returns (T := SecondsNanos) ex_code ex_text_of ex_registry_text Config.ex_router_config) with (s := ex_shutting)
    as (H1 & s' & H2 & H3 & H4 & _).
  - vm_compute. split; congruence.
  - apply (played_reachable (T := SecondsNanos)); vm_compute; reflexivity.
  - split; [apply H1; vm_compute; by eexists|]. exists s'. split; [exact H2|]. split; [|exact H4].
    rewrite H3. vm_compute. reflexivity.
Defined.
