(* ===== verification/Termination.v ===== *)
(** * The requests of a gateway come to an end

    A bound on the steps that the goroutines of the requests - the handlers, the
    receivers of their attempts and the ends of their contexts - make in any run
    of [Traffic], whatever the control plane, the probes and a shutdown do in
    between; and that none of them gets stuck. *)

From S2P Require Import Prelude GoFloat GoString Model Examples Interfaces Wire Protocol Parse Sse Stream Gateway Chat Traffic TrafficRun TrafficMetrics Quiescence Progress.
From S2P Require Config Registry Admission Routing Metrics WorkerClient.

#[local] Open Scope Z_scope.
#[local] Open Scope go_scope.

Section Termination.
Context {T : TimestampPb} (Code : GoError -> Z) (error_text : GoError -> string).
Context (registry_error_text : Registry.RegistryError -> string) (cfg : Config.RouterConfig).

Abbreviation gateway_step := (Traffic.step Code error_text registry_error_text).
Abbreviation turn_step := (Traffic.turn_step Code error_text).
Abbreviation reachable := (Traffic.reachable Code error_text registry_error_text cfg).

(** ** Runs with a count *)

(** What is counted: a step of a request's own goroutines, or the end of its context. *)
Inductive own : state -> state -> Prop :=
| own_turn s k q t g q' :
    st_reqs s !! k = Some q -> turn_step t (st_shared s) q = Some (g, q') -> own s (set_req (set_shared s g) k q')
| own_move s k q i a p :
    st_reqs s !! k = Some q -> q_pipes q !! i = Some a ->
    pipe_moves error_text (s_config (g_server (st_shared s))) (q_started q) (q_ctx q) a p ->
    own s (set_req (set_shared s (set_server (st_shared s) (count (g_server (st_shared s)) (pipe_ops (o_pipe a) p)))) k
      (set_pipes q (<[i := {| o_request := o_request a; o_worker := o_worker a; o_pipe := p |}]> (q_pipes q))))
| own_context s k q e :
    st_reqs s !! k = Some q -> q_ctx q = None -> e = ECanceled \/ e = EDeadlineExceeded -> own s (set_req s k (set_ctx q e)).

Lemma own_step (s s' : state) : own s s' -> gateway_step s s'.
Proof. intros []; apply request_moves; [by eapply handler|by eapply attempt_moves|by eapply context_ends]. Qed.

(** A run of the gateway in which the requests make [n] steps. *)
Inductive run : nat -> state -> state -> Prop :=
| run_nil s : run 0 s s
| run_own n s1 s2 s3 : own s1 s2 -> run n s2 s3 -> run (S n) s1 s3
| run_other n s1 s2 s3 : gateway_step s1 s2 -> run n s2 s3 -> run n s1 s3.

Lemma run_rtc (n : nat) (s s' : state) : run n s s' -> rtc gateway_step s s'.
Proof.
  induction 1 as [s|n s1 s2 s3 Ho _ IH|n s1 s2 s3 Hs _ IH]; [apply rtc_refl| |]; eapply rtc_l; try done. by apply own_step.
Qed.

(** ** What a request can still do *)
Definition pipe_fuel (a : opened_attempt) : Z := Z.of_nat (budget (o_pipe a)).
Definition pipe_messages (a : opened_attempt) : Z := Z.of_nat (length (history (o_pipe a))).

Definition fuel (q : req) : Z :=
  5 * Z.of_nat (turns_left q) + sum_list_Z (pipe_fuel <$> q_pipes q) + match q_ctx q with Some _ => 0 | None => 1 end.

(** The messages that the workers have sent to its attempts. *)
Definition messages (q : req) : Z := sum_list_Z (pipe_messages <$> q_pipes q).

Definition all_fuel (s : state) : Z := sum_list_Z (fuel <$> st_reqs s).
Definition all_messages (s : state) : Z := sum_list_Z (messages <$> st_reqs s).

Lemma turn_opens (t : turn) (g g' : shared) (q q' : req) :
  turn_step t g q = Some (g', q') ->
  q_pipes q' = q_pipes q \/ exists a, q_pipes q' = q_pipes q ++ [a] /\ o_pipe a = open_pipe.
Proof.
  unfold Traffic.turn_step. intros Ht.
  repeat match type of Ht with context [match ?x with _ => _ end] => destruct x eqn:? end; simplify_eq;
    solve [by left|right; by eexists].
Qed.

Lemma turn_fuel (t : turn) (g g' : shared) (q q' : req) :
  turn_step t g q = Some (g', q') -> fuel q' + 1 <= fuel q /\ messages q' = messages q.
Proof.
  intros Ht. pose proof (turn_counts Code error_text t g g' q q' Ht) as Hlt.
  destruct (turn_contexts Code error_text t g g' q q' Ht) as [_ Hctx]. unfold fuel, messages. rewrite Hctx.
  destruct (turn_opens t g g' q q' Ht) as [->|(a & -> & Ha)]; [lia|]. rewrite !sum_snoc.
  unfold pipe_fuel, pipe_messages. rewrite Ha. cbn. lia.
Qed.

Lemma sum_one {A} (f h : A -> Z) (l : list A) (k : nat) (x y : A) (d : Z) :
  l !! k = Some x -> f y + d + 4 * h x <= f x + 4 * h y ->
  sum_list_Z (f <$> <[k := y]> l) + d + 4 * sum_list_Z (h <$> l) <=
  sum_list_Z (f <$> l) + 4 * sum_list_Z (h <$> <[k := y]> l).
Proof. intros Hk. rewrite !(sum_insert _ _ _ x) by done. lia. Qed.

Lemma own_fuel (s s' : state) : own s s' -> all_fuel s' + 1 + 4 * all_messages s <= all_fuel s + 4 * all_messages s'.
Proof.
  intros [s0 k q t g q' Hk Ht|s0 k q i a p Hk Hi [Hm _]|s0 k q e Hk Hn _]; unfold all_fuel, all_messages;
    cbn [set_req set_shared st_reqs]; apply (sum_one fuel messages _ k q); try done.
  - destruct (turn_fuel t _ g q q' Ht). lia.
  - apply step_budget in Hm. unfold fuel, messages. cbn [set_pipes q_pipes q_ctx].
    change (turns_left (set_pipes q _)) with (turns_left q). set (a' := {| o_request := o_request a; o_worker := o_worker a; o_pipe := p |}).
    pose proof (sum_one pipe_fuel pipe_messages (q_pipes q) i a a' 1 Hi) as H.
    unfold pipe_fuel at 1 2, pipe_messages at 1 2 in H. cbn [a' o_pipe] in H. specialize (H ltac:(lia)). lia.
  - unfold fuel, messages. cbn [set_ctx q_pipes q_ctx]. rewrite Hn. change (turns_left (set_ctx q e)) with (turns_left q). lia.
Qed.

Lemma cancel_fuel (q : req) : fuel (cancel_req q) <= fuel q /\ messages (cancel_req q) = messages q.
Proof.
  unfold cancel_req. destruct (q_ctx q) eqn:Hc; [lia|]. split; [|done]. unfold fuel. cbn [set_ctx q_pipes q_ctx].
  rewrite Hc. change (turns_left (set_ctx q ECanceled)) with (turns_left q). lia.
Qed.

Lemma all_cancel (qs : list req) :
  sum_list_Z (fuel <$> (cancel_req <$> qs)) <= sum_list_Z (fuel <$> qs) /\
  sum_list_Z (messages <$> (cancel_req <$> qs)) = sum_list_Z (messages <$> qs).
Proof. induction qs as [|q qs IH]; [done|]. csimpl. destruct (cancel_fuel q). lia. Qed.

(** Whatever else happens, only a new request brings new work: at most 261 steps. *)
Definition arrived (s : state) : Z := Z.of_nat (length (st_reqs s)).

Lemma step_fuel (s s' : state) :
  gateway_step s s' ->
  all_fuel s' + 4 * all_messages s + 261 * arrived s <= all_fuel s + 4 * all_messages s' + 261 * arrived s'.
Proof.
  assert (forall k q, arrived (set_req s k q) = arrived s) as Hlen by (intros k q; unfold arrived; cbn; by rewrite length_insert).
  assert (forall x y, own x y -> arrived y = arrived x) as Hown.
  { intros x y []; unfold arrived; cbn; by rewrite length_insert. }
  assert (forall x y, own x y -> all_fuel y + 4 * all_messages x + 261 * arrived x <= all_fuel x + 4 * all_messages y + 261 * arrived y)
    as Ho by (intros x y Hxy; pose proof (own_fuel x y Hxy); rewrite (Hown x y Hxy); lia).
  assert (forall x y, st_reqs y = st_reqs x -> all_fuel y + 4 * all_messages x + 261 * arrived x <=
    all_fuel x + 4 * all_messages y + 261 * arrived y) as Hsame.
  { intros x y E. unfold all_fuel, all_messages, arrived. rewrite E. lia. }
  intros Hst. destruct Hst as [x y Hst|x y [_ _ _ Hr _ _ _]%control_rest]; [|by apply Hsame].
  destruct Hst as [x r Ha|x k q t g q' Hk Ht|x k q e Hk Hn He|x k q i a p Hk Ha Hm|x y Hc|x e _].
  - unfold all_fuel, all_messages, arrived. cbn [accept st_reqs]. rewrite !sum_snoc, length_app. cbn [length].
    set (q := new_req r _). assert (fuel q <= 261 /\ messages q = 0) as [H1 H2] by (unfold q; by destruct (root_canceled _)). lia.
  - apply Ho. by eapply own_turn.
  - apply Ho. by eapply own_context.
  - apply Ho. by eapply own_move.
  - destruct Hc; try by apply Hsame. unfold all_fuel, all_messages, arrived. cbn [cancel_root st_reqs]. rewrite length_fmap.
    match goal with |- context [cancel_req <$> ?l] => destruct (all_cancel l) end. lia.
  - by apply Hsame.
Qed.

Lemma run_fuel (n : nat) (s s' : state) : run n s s' ->
  Z.of_nat n + all_fuel s' + 4 * all_messages s + 261 * arrived s <= all_fuel s + 4 * all_messages s' + 261 * arrived s'.
Proof.
  induction 1 as [s|n s1 s2 s3 Ho _ IH|n s1 s2 s3 Hs _ IH]; [lia| |].
  - pose proof (own_fuel s1 s2 Ho) as H. assert (arrived s2 = arrived s1) as E
      by (destruct Ho; unfold arrived; cbn; by rewrite length_insert). lia.
  - pose proof (step_fuel s1 s2 Hs). lia.
Qed.

Lemma fuel_nonneg (q : req) : 0 <= fuel q.
Proof.
  unfold fuel. assert (0 <= sum_list_Z (pipe_fuel <$> q_pipes q)); [|destruct (q_ctx q); lia].
  apply sum_list_Z_nonneg, Forall_fmap, list.Forall_forall. intros a _. unfold pipe_fuel. cbn. lia.
Qed.

(** ** Nobody gets stuck *)

(** The handler waits for the next event of a stream whose receiver is in [Recv]. *)
Definition receiving (q : req) : Prop :=
  (exists v w, q_pc q = AtEvents v w) /\ exists a m, list.last (q_pipes q) = Some a /\ p_receiver (o_pipe a) = Receiving m /\
    chan (o_pipe a) = [] /\ due (o_pipe a) = [] /\ is_finished (o_pipe a) = false.

Lemma acts_messages (k : nat) (s : state) (q q' : req) (g : shared) :
  st_reqs s !! k = Some q -> messages q' = messages q -> all_messages (set_req (set_shared s g) k q') = all_messages s.
Proof.
  intros Hk Hm. unfold all_messages. cbn [set_req set_shared st_reqs]. rewrite (sum_insert _ _ _ q) by done. lia.
Qed.

Lemma live (s : state) (k : nat) (q : req) :
  is_u64 (Admission.GlobalInFlightTokens (Config.rc_Admission cfg)) -> Config.valid_router cfg ->
  reachable s -> st_reqs s !! k = Some q ->
  is_left q \/ receiving q \/ exists s', acts Code error_text k s s' /\ all_messages s' = all_messages s.
Proof.
  intros Hu Hv Hr Hk. destruct (decide (left_b q = true)) as [Hl|Hl].
  { left. unfold left_b in Hl. unfold is_left. destruct (q_pc q); try done. by destruct (q_pending q). }
  assert (~ is_left q) as Hnl by (intros [H1 H2]; apply Hl; unfold left_b; by rewrite H1, H2). right.
  assert ((forall v w, q_pc q = AtEvents v w -> q_pending q = [] ->
      exists a, list.last (q_pipes q) = Some a /\ returned (o_pipe a) = true) -> exists s', acts Code error_text k s s' /\
      all_messages s' = all_messages s) as Hturn.
  { intros He. destruct (turn_possible Code error_text (st_shared s) q Hnl He) as [[g q'] Ht].
    eexists. split; [by eapply acts_turn|]. apply (acts_messages k s q); [done|]. by apply (turn_fuel _ _ _ _ _ Ht). }
  assert ((exists v w, q_pc q = AtEvents v w) \/ ~ exists v w, q_pc q = AtEvents v w) as [(v & w & Hpc)|Hno]
    by (destruct (q_pc q); try (right; by intros (? & ? & ?)); left; eauto).
  2: { right. apply Hturn. intros v w Hpc. destruct Hno; eauto. }
  destruct (run_known Code error_text registry_error_text cfg s Hu Hr k q Hk) as [Ht _].
  unfold told in Ht. rewrite Hpc in Ht. destruct Ht as (_ & a & Hla & _).
  assert (0 < Z.to_nat (Config.SSEBufferSize (s_config (g_server (st_shared s)))))%nat as Hcap.
  { rewrite (reachable_config Code error_text registry_error_text cfg Hu s Hr). destruct (Config.vr_positive _ Hv) as (_ & ? & _). lia. }
  destruct (stream_live (o_request a) (w_ID (o_worker a)) error_text _ (q_started q) (o_pipe a) Hcap)
    as [Hf|[(m & Hm & Hc)|(p & Hs & Hh & Hd)]].
  - right. apply Hturn. intros v' w' _ _. by exists a.
  - left. split; [by exists v, w|]. by exists a, m.
  - right. rewrite list.last_lookup in Hla. pose proof (lookup_lt_Some _ _ _ Hla) as Hlen.
    eexists. split; [eapply (acts_stream _ _ k s q v w _ a p); [done|done| |exact Hla|by split]; lia|].
    apply (acts_messages k s q); [done|]. unfold messages. cbn [set_pipes q_pipes]. rewrite (sum_insert _ _ _ a) by done.
    unfold pipe_messages at 2 3. cbn [o_pipe]. rewrite Hh. lia.
Qed.

(** ** Schedules *)
Definition own_move_b (m : move) : bool := match m with Streams _ _ _ | Turns _ _ | Ends _ => true | _ => false end.

Definition own_moves (ms : list move) : nat := length (filter (fun m => own_move_b m = true) ms).

Lemma play_one_own (m : move) (s s' : state) :
  own_move_b m = true -> play_one Code error_text registry_error_text m s = Some s' -> own s s'.
Proof.
  destruct m as [k i m|r|k t|k|now request|i now| | |]; try done; intros _; cbn [play_one];
    (destruct (st_reqs s !! k) as [q|] eqn:Hk; [|done]); cbn [mbind option_bind].
  - destruct (q_pipes q !! i) as [a|] eqn:Hi; [|done]. cbn [mbind option_bind].
    destruct (stream_one _ _ _ _ _) as [p|] eqn:Hp; [|done]. intros [= <-]. eapply own_move; [done..|]. by eapply stream_one_moves.
  - destruct (Traffic.turn_step _ _ _ _ _) as [[g q']|] eqn:Ht; [|done]. intros [= <-]. by eapply own_turn.
  - destruct (q_ctx q) eqn:Hc; [done|]. intros [= <-]. apply own_context; auto.
Qed.

Lemma play_run (ms : list move) (s s' : state) :
  play Code error_text registry_error_text ms s = Some s' -> run (own_moves ms) s s'.
Proof.
  unfold play. revert s. induction ms as [|m ms IH]; intros s; cbn [foldl].
  - intros [= <-]. apply run_nil.
  - cbn [mbind option_bind]. destruct (play_one _ _ _ m s) as [s1|] eqn:H1.
    + intros H. apply IH in H. unfold own_moves in *. rewrite filter_cons. case_decide as Hm.
      * cbn [length]. apply (run_own _ s s1); [by apply (play_one_own m)|done].
      * apply (run_other _ s s1); [by apply (play_one_step _ _ _ m)|done].
    + intros H. exfalso. clear -H. induction ms as [|m' ms IH]; [done|by apply IH].
Qed.

Lemma played_run (server : Server) (ms : list move) :
  playable Code error_text registry_error_text server ms = true ->
  run (own_moves ms) (serve server) (played Code error_text registry_error_text server ms).
Proof.
  unfold playable, played. destruct (play _ _ _ ms (serve server)) as [s|] eqn:E; [|done]. intros _. by apply play_run.
Qed.

(** C5: The requests come to an end, whatever the scheduling, the workers' reports,
    the probes and a shutdown do: in any run from the start their goroutines make
    at most 261 steps for each request that arrived, and four for each message
    that a worker sent, the ends of their contexts included. And none of them gets
    stuck: a handler that has not returned can take a turn, or the stream that it
    waits for has a step that receives nothing, with no context that ends; or it
    waits for a [Recv]. *)
Theorem requests_terminate (server : Server) (n : nat) (s : state) :
  is_u64 (Admission.GlobalInFlightTokens (Config.rc_Admission cfg)) ->
  New cfg = Ok server -> run n (serve server) s ->
  Z.of_nat n <= 261 * Z.of_nat (length (st_reqs s)) + 4 * sum_list_Z (messages <$> st_reqs s) /\
  forall k q, st_reqs s !! k = Some q ->
    is_left q \/ receiving q \/ exists s', acts Code error_text k s s' /\ all_messages s' = all_messages s.
Proof.
  intros Hu Hn Hr. split.
  - pose proof (run_fuel n _ s Hr) as H. change (all_fuel (serve server)) with 0 in H. change (all_messages (serve server)) with 0 in H.
    change (arrived (serve server)) with 0 in H. unfold arrived, all_messages in H.
    assert (0 <= all_fuel s); [|lia]. apply sum_list_Z_nonneg, Forall_fmap, list.Forall_forall. intros q _. apply fuel_nonneg.
  - intros k q Hk. apply New_total in Hn as Hv. apply live; try done; [apply Hv|]. exists server. split; [done|by eapply run_rtc].
Qed.
End Termination.

(** ** Witness: a request that streams a token, and one that waits for its worker *)
Definition ex_waiting_moves : list (@move SecondsNanos) :=
  [Registers 100 (@registration SecondsNanos "w1" "w1:9000" "mock-llm" 100 (ex_state 1 10 5));
   Arrives (incoming_request 8); Arrives (incoming_request 2)]
  ++ replicate 20 (Turns 0 (ex_turn 200 None)) ++ ex_receives (ex_chunk 0 "a" false "")
  ++ [Streams 0 0 SUpdate]
  ++ ex_receives (ex_chunk 1 "" true FinishStop) ++ replicate 5 (Turns 0 (ex_turn 200 None))
  ++ replicate 6 (Turns 1 (ex_turn 201 None)).

Definition ex_waiting : state := played (T := SecondsNanos) ex_code ex_text_of ex_registry_text ex_server ex_waiting_moves.

Lemma requests_terminate_witness :
  own_moves ex_waiting_moves = 40%nat /\ (left_b <$> st_reqs ex_waiting) = [true; false] /\
  40 <= 261 * Z.of_nat (length (st_reqs ex_waiting)) + 4 * sum_list_Z (messages <$> st_reqs ex_waiting) /\
  exists q, st_reqs ex_waiting !! 1%nat = Some q /\
    (is_left q \/ receiving q \/
     exists s', acts (T := SecondsNanos) ex_code ex_text_of 1 ex_waiting s' /\
       all_messages s' = all_messages ex_waiting).
Proof.
  split; [vm_compute; reflexivity|]. split; [vm_compute; reflexivity|].
  destruct (requests_terminate (T := SecondsNanos) ex_code ex_text_of ex_registry_text Config.ex_router_config ex_server
    (own_moves ex_waiting_moves) ex_waiting) as [H1 H2].
  - vm_compute. split; congruence.
  - vm_compute. reflexivity.
  - apply (played_run (T := SecondsNanos)). vm_compute. reflexivity.
  - split; [exact H1|]. assert (is_Some (st_reqs ex_waiting !! 1%nat)) as [q E] by (apply lookup_lt_is_Some; vm_compute; lia).
    exists q. split; [exact E|]. by apply H2.
Defined.
