(* ===== verification/Directory.v ===== *)
(** * The directory of workers of a running gateway

    [src/internal/registry/registry.go] under the traffic of
    [src/internal/gateway/server.go] and [src/internal/gateway/http.go]: what every
    interleaving of the handlers keeps of the entries that the registrations and
    the heartbeats leave, and what a request reads of them. *)

From S2P Require Import Prelude GoFloat GoString Model Examples Interfaces Wire Protocol Parse Sse Stream Gateway Chat Traffic.
From S2P Require Config Registry Routing.

#[local] Open Scope Z_scope.
#[local] Open Scope go_scope.

(** ** One operation on the registry *)

(** [r'] has the entries of [r], with other states, and maybe more. *)
Definition grows (r r' : Registry.Registry) : Prop :=
  Registry.staleAfter r' = Registry.staleAfter r /\
  forall id, is_Some (Registry.workers r !! id) -> is_Some (Registry.workers r' !! id).

Lemma grows_insert (r : Registry.Registry) (id : string) (w : Worker) :
  grows r (Registry.set_workers r (<[id := w]> (Registry.workers r))).
Proof.
  split; [done|]. intros id' H. cbn. destruct (decide (id' = id)) as [->|Hne].
  - by rewrite lookup_insert_eq.
  - by rewrite lookup_insert_ne.
Qed.

Lemma grows_apply (r : Registry.Registry) (o : Registry.op) : grows r (Registry.apply_op r o).
Proof.
  destruct o as [now w|now id s]; unfold Registry.apply_op, Registry.Register, Registry.Heartbeat;
    repeat case_match; simplify_eq/=; try done; apply grows_insert.
Qed.

Lemma grows_trans (r1 r2 r3 : Registry.Registry) : grows r1 r2 -> grows r2 r3 -> grows r1 r3.
Proof. intros [E1 H1] [E2 H2]. split; [congruence|auto]. Qed.

(** The fields of an entry that validation let in. *)
Lemma entry_fields (id : string) (w : Worker) :
  Registry.entry_ok id w ->
  w_ID w = id /\ id <> "" /\ DataAddress w <> "" /\ w_Model w <> "" /\ w_ProtocolVersion w = ProtocolVersion /\
  Registry.valid_state (State w) /\ Stale w = false.
Proof.
  intros (Hid & Hv & Hs). pose proof Hv as Hst%Registry.validate_state%Registry.validateState_spec.
  unfold Registry.validate, reject_if in Hv.
  destruct (w_ID w =? "")%string eqn:E1, (DataAddress w =? "")%string eqn:E2, (w_Model w =? "")%string eqn:E3; try done.
  cbn in Hv. destruct (w_ProtocolVersion w =? ProtocolVersion)%string eqn:E4; [|done].
  apply String.eqb_neq in E1, E2, E3. apply String.eqb_eq in E4. by subst id.
Qed.

Section Directory.
Context {T : TimestampPb} (Code : GoError -> Z) (error_text : GoError -> string).
Context (registry_error_text : Registry.RegistryError -> string).

Abbreviation step := (Traffic.step Code error_text registry_error_text).
Abbreviation reachable := (Traffic.reachable Code error_text registry_error_text).
Abbreviation directory s := (s_registry (g_server (st_shared s))).

(** ** The running gateway *)
Lemma turn_registry (t : turn) (g g' : shared) (q q' : req) :
  turn_step Code error_text t g q = Some (g', q') -> s_registry (g_server g') = s_registry (g_server g).
Proof.
  unfold turn_step. destruct (q_pending q); [|by intros [= <- <-]].
  destruct (q_pc q); try (by intros [= <- <-]); intros Ht;
    repeat match type of Ht with context [match ?x with _ => _ end] => destruct x eqn:? end; by simplify_eq/=.
Qed.

Lemma control_grows (s s' : state) : control_step registry_error_text s s' -> grows (directory s) (directory s').
Proof.
  intros [x now r _|x now r _|x _|x i c now g ops _ Hs].
  - unfold register_section. cbn. repeat case_match; simplify_eq/=; try done.
    match goal with H : Registry.Register _ ?t ?w = _ |- grows ?r _ =>
      pose proof (grows_apply r (Registry.ORegister t w)) as Hg; cbn in Hg; by rewrite H in Hg end.
  - unfold heartbeat_section. cbn. repeat case_match; simplify_eq/=; try done.
    match goal with H : Registry.Heartbeat _ ?t ?w ?y = _ |- grows ?r _ =>
      pose proof (grows_apply r (Registry.OHeartbeat t w y)) as Hg; cbn in Hg; by rewrite H in Hg end.
  - done.
  - destruct (k_next c) as [|[]]; by simplify_eq/=.
Qed.

Lemma step_grows (s s' : state) : step s s' -> grows (directory s) (directory s').
Proof.
  intros [x x' Hst|x x' Hst]; [|by apply control_grows].
  destruct Hst as [x r _|x k q t g q' _ Ht|x k q e _ _ _|x k q i a p _ _ _|x x' Hc|x e _]; try done.
  - apply turn_registry in Ht. cbn. by rewrite Ht.
  - by destruct Hc.
Qed.

Lemma run_grows (s s' : state) : rtc step s s' -> grows (directory s) (directory s').
Proof. induction 1 as [|x y z Hs _ IH]; [done|]. by eapply grows_trans, IH; apply step_grows. Qed.

Lemma reachable_directory (cfg : Config.RouterConfig) (s : state) :
  reachable cfg s -> Registry.inv (directory s) /\ Registry.staleAfter (directory s) = Config.HeartbeatStaleAfter cfg.
Proof.
  intros (server & Hn & Hr). pose proof Hn as [Hv ->]%New_total. apply run_grows in Hr as Hg. split; [|by destruct Hg].
  assert (built cfg s) as [[_ _ _ H] _]; [|exact H].
  eapply (rtc_invariant step (built cfg)); [|  |exact Hr].
  - intros x y. apply built_step.
  - split; [|done]. split; try done. split; [done|]. by destruct (Config.vr_positive _ Hv).
Qed.

(** ** The property *)

(** C34: In every interleaving of requests, registrations, heartbeats, probes and a
    shutdown: an entry of the directory is filed under the ID of its worker, has
    an address, a model and the protocol's version, and reports a state that
    validation accepts. No entry ever leaves, whatever happens next; and at any
    moment a request chooses from a list that has each entry exactly once, under
    its own ID, marked stale exactly when its last report is older than the
    configured limit. *)
Theorem directory_sound (cfg : Config.RouterConfig) (s s' : state) (now : Time) :
  reachable cfg s -> rtc step s s' ->
  (forall id w, Registry.workers (directory s) !! id = Some w ->
     w_ID w = id /\ id <> "" /\ DataAddress w <> "" /\ w_Model w <> "" /\ w_ProtocolVersion w = ProtocolVersion /\
     Registry.valid_state (State w) /\ Stale w = false) /\
  (forall id, is_Some (Registry.workers (directory s) !! id) ->
     exists w, w ∈ Registry.Snapshot (directory s') now /\ w_ID w = id) /\
  NoDup (w_ID <$> Registry.Snapshot (directory s') now) /\
  (forall w, w ∈ Registry.Snapshot (directory s') now ->
     exists w0, Registry.workers (directory s') !! w_ID w = Some w0 /\
       DataAddress w = DataAddress w0 /\ w_Model w = w_Model w0 /\ State w = State w0 /\
       (Stale w = true <-> Config.HeartbeatStaleAfter cfg < time_sub now (LastHeartbeat w0))).
Proof.
  intros Hr Hrun. assert (reachable cfg s') as Hr'.
  { destruct Hr as (server & Hn & H). exists server. split; [done|by etransitivity]. }
  apply reachable_directory in Hr as [[He _] _], Hr' as [Hi' Hstale]. pose proof Hi' as [He' _].
  apply run_grows in Hrun as [_ Hgrow]. split_and!.
  - intros id w Hw. by apply entry_fields, He.
  - intros id [w Hw]%Hgrow. exists (Registry.snapshot_worker (directory s') now w).
    split; [apply Registry.elem_of_Snapshot; by exists id, w|]. rewrite Registry.snapshot_worker_eq.
    by destruct (He' id w Hw).
  - by apply Registry.Snapshot_nodup.
  - intros w (id & w0 & Hw & ->)%Registry.elem_of_Snapshot. exists w0. rewrite Registry.snapshot_worker_eq. cbn.
    destruct (He' id w0 Hw) as [-> _]. rewrite Hstale, Z.ltb_lt. done.
Qed.
End Directory.

(** ** Witness: a worker that went silent *)
Lemma directory_sound_witness :
  w_ID <$> Registry.Snapshot (s_registry (g_server (st_shared ex_busy))) (Config.HeartbeatStaleAfter Config.ex_router_config + 101) = ["w1"] /\
  (forall w, w ∈ Registry.Snapshot (s_registry (g_server (st_shared ex_busy))) (Config.HeartbeatStaleAfter Config.ex_router_config + 101) ->
     exists w0, Registry.workers (s_registry (g_server (st_shared ex_busy))) !! w_ID w = Some w0 /\ DataAddress w = DataAddress w0 /\
       (Stale w = true <->
        Config.HeartbeatStaleAfter Config.ex_router_config < time_sub (Config.HeartbeatStaleAfter Config.ex_router_config + 101) (LastHeartbeat w0))).
Proof.
  split; [vm_compute; reflexivity|]. intros w Hw.
  destruct (directory_sound ex_code ex_text_of ex_registry_text Config.ex_router_config ex_busy ex_busy
    (Config.HeartbeatStaleAfter Config.ex_router_config + 101)) as (_ & _ & _ & H).
  - exact ex_busy_reachable.
  - apply rtc_refl.
  - destruct (H w Hw) as (w0 & H1 & H2 & _ & _ & H3). exact (ex_intro _ w0 (conj H1 (conj H2 H3))).
Defined.
