(* ===== verification/MockWorker.v ===== *)
(** * The mock worker: [src/internal/mockworker/worker.go]

    Queue accounting, the prefix cache and the state that heartbeats report.  The
    mutex makes each accounting operation
    one step; the request goroutines, the bounded queue and the dispatcher are a
    transition system. *)

From S2P Require Import Prelude GoFloat GoString Sha256 Model Wire Protocol.
From S2P Require Config.

#[local] Open Scope Z_scope.
#[local] Open Scope go_scope.

Record Worker := {
  mw_config : Config.WorkerConfig;
  mw_state : WorkerState;
  cache : gmap string PrefixFingerprint;
  cacheOrder : list string;
  failBeforeRemaining : Z;
  dataAddress : string;
}.

Definition initial_state (cfg : Config.WorkerConfig) : WorkerState :=
  {| StatusVersion := 0; Status := WorkerHealthy; WaitingRequestCount := 0; WaitingTokenCount := 0;
     RunningRequestCount := 0; RunningWorkTokens := 0;
     ws_KVUsage := {| CapacityTokens := Config.CacheCapacityTokens cfg; UsedTokens := 0 |};
     PrefillTokensPerSecond := Config.wc_PrefillTokensPerSecond cfg;
     DecodeTokensPerSecond := Config.wc_DecodeTokensPerSecond cfg;
     DecodeSchedulingQuantumTokens := Config.wc_DecodeSchedulingQuantumTokens cfg;
     CachedPrefixes := []; ObservedAt := 0 |}.

Definition New (cfg : Config.WorkerConfig) : result string Worker :=
  _ ← Config.ValidateWorker cfg;
  Ok {| mw_config := cfg; mw_state := initial_state cfg; cache := ∅; cacheOrder := [];
        failBeforeRemaining := Config.FailBeforeFirstCount (Config.Failure cfg);
        dataAddress := Config.wc_DataAddress cfg |}.

Definition with_state (w : Worker) (s : WorkerState) : Worker :=
  {| mw_config := mw_config w; mw_state := s; cache := cache w; cacheOrder := cacheOrder w;
     failBeforeRemaining := failBeforeRemaining w; dataAddress := dataAddress w |}.

(** ** Accounting *)
Definition set_counts (s : WorkerState) (waiting waiting_tokens running running_tokens : Z) : WorkerState :=
  {| StatusVersion := StatusVersion s; Status := Status s;
     WaitingRequestCount := waiting; WaitingTokenCount := waiting_tokens;
     RunningRequestCount := running; RunningWorkTokens := running_tokens;
     ws_KVUsage := ws_KVUsage s; PrefillTokensPerSecond := PrefillTokensPerSecond s;
     DecodeTokensPerSecond := DecodeTokensPerSecond s;
     DecodeSchedulingQuantumTokens := DecodeSchedulingQuantumTokens s;
     CachedPrefixes := CachedPrefixes s; ObservedAt := ObservedAt s |}.

(** A counter is lowered by [amount] and stops at zero. *)
Definition lowered (counter amount : Z) : Z := if amount <=? counter then counter - amount else 0.
Definition decremented (counter : Z) : Z := if 0 <? counter then counter - 1 else counter.

Definition addWaiting (w : Worker) (work : Z) : Worker :=
  let s := mw_state w in
  with_state w (set_counts s (WaitingRequestCount s +u32 1) (WaitingTokenCount s +u64 work)
                  (RunningRequestCount s) (RunningWorkTokens s)).

Definition removeWaiting (w : Worker) (work : Z) : Worker :=
  let s := mw_state w in
  with_state w (set_counts s (decremented (WaitingRequestCount s)) (lowered (WaitingTokenCount s) work)
                  (RunningRequestCount s) (RunningWorkTokens s)).

Definition moveToRunning (w : Worker) (work : Z) : Worker :=
  let s := mw_state w in
  with_state w (set_counts s (decremented (WaitingRequestCount s)) (lowered (WaitingTokenCount s) work)
                  (RunningRequestCount s +u32 1) (RunningWorkTokens s +u64 work)).

Definition finishRunning (w : Worker) (work : Z) : Worker :=
  let s := mw_state w in
  with_state w (set_counts s (WaitingRequestCount s) (WaitingTokenCount s)
                  (decremented (RunningRequestCount s)) (lowered (RunningWorkTokens s) work)).

Definition ActiveRequests (w : Worker) : Z :=
  WaitingRequestCount (mw_state w) +u32 RunningRequestCount (mw_state w).

(** ** The prefix cache *)
Definition set_used (s : WorkerState) (used : Z) : WorkerState :=
  {| StatusVersion := StatusVersion s; Status := Status s;
     WaitingRequestCount := WaitingRequestCount s; WaitingTokenCount := WaitingTokenCount s;
     RunningRequestCount := RunningRequestCount s; RunningWorkTokens := RunningWorkTokens s;
     ws_KVUsage := {| CapacityTokens := CapacityTokens (ws_KVUsage s); UsedTokens := used |};
     PrefillTokensPerSecond := PrefillTokensPerSecond s;
     DecodeTokensPerSecond := DecodeTokensPerSecond s;
     DecodeSchedulingQuantumTokens := DecodeSchedulingQuantumTokens s;
     CachedPrefixes := CachedPrefixes s; ObservedAt := ObservedAt s |}.

Definition zero_fingerprint : PrefixFingerprint := {| TokenCount := 0; SHA256 := "" |}.

Definition over_limit (limit capacity : Z) (order : list string) (used : Z) : bool :=
  (limit <? Z.of_nat (length order)) || (capacity <? used).

(** The eviction loop; it ends because each turn removes the oldest entry. *)
Fixpoint evict (limit capacity : Z) (order : list string) (m : gmap string PrefixFingerprint) (used : Z) :
  list string * gmap string PrefixFingerprint * Z :=
  match order with
  | [] => ([], m, used)
  | evicted :: rest =>
      if over_limit limit capacity order used then
        let old := default zero_fingerprint (m !! evicted) in
        evict limit capacity rest (delete evicted m) (lowered used (TokenCount old))
      else (order, m, used)
  end.

Definition set_cache (w : Worker) (order : list string) (m : gmap string PrefixFingerprint) (used : Z) : Worker :=
  {| mw_config := mw_config w; mw_state := set_used (mw_state w) used; cache := m; cacheOrder := order;
     failBeforeRemaining := failBeforeRemaining w; dataAddress := dataAddress w |}.

(** One turn of the loop of [addPrefixes]. *)
Definition addPrefix (w : Worker) (f : PrefixFingerprint) : Worker :=
  match cache w !! SHA256 f with
  | Some _ => w
  | None =>
      let kv := ws_KVUsage (mw_state w) in
      let '(order, m, used) :=
        evict (Config.CachePrefixLimit (mw_config w)) (CapacityTokens kv)
          (cacheOrder w ++ [SHA256 f]) (<[SHA256 f := f]> (cache w))
          (UsedTokens kv +u64 TokenCount f) in
      set_cache w order m used
  end.

Definition addPrefixes (w : Worker) (prefixes : list PrefixFingerprint) : Worker :=
  foldl addPrefix w prefixes.

(** One injected failure before the first token is used up. *)
Definition spend_failure (w : Worker) : Worker :=
  {| mw_config := mw_config w; mw_state := mw_state w; cache := cache w; cacheOrder := cacheOrder w;
     failBeforeRemaining := failBeforeRemaining w - 1; dataAddress := dataAddress w |}.

(** ** The reported state *)
Definition cached_list (w : Worker) : list PrefixFingerprint :=
  (fun key => default zero_fingerprint (cache w !! key)) <$> cacheOrder w.

Definition nextState (w : Worker) (now : Time) : Worker * WorkerState :=
  let s := mw_state w in
  let s := {| StatusVersion := StatusVersion s +u64 1; Status := Status s;
              WaitingRequestCount := WaitingRequestCount s; WaitingTokenCount := WaitingTokenCount s;
              RunningRequestCount := RunningRequestCount s; RunningWorkTokens := RunningWorkTokens s;
              ws_KVUsage := ws_KVUsage s; PrefillTokensPerSecond := PrefillTokensPerSecond s;
              DecodeTokensPerSecond := DecodeTokensPerSecond s;
              DecodeSchedulingQuantumTokens := DecodeSchedulingQuantumTokens s;
              CachedPrefixes := cached_list w; ObservedAt := now |} in
  (with_state w s, s).

(** ** Accounting under concurrency *)

(** A call of [Generate] has counted its work before it tries the queue; the
    dispatcher has taken a job before it counts it as running. *)
Inductive dispatcher := Idle | Popped (work : Z) | Running (work : Z).

Record system := {
  sy_worker : Worker;
  entering : list Z;
  queue : list Z;
  disp : dispatcher;
}.

Inductive step : system -> system -> Prop :=
| step_enter s work :
    is_u64 work ->
    step s {| sy_worker := addWaiting (sy_worker s) work; entering := work :: entering s;
              queue := queue s; disp := disp s |}
| step_enqueue s work rest :
    entering s ≡ₚ work :: rest ->
    Z.of_nat (length (queue s)) < Config.QueueCapacity (mw_config (sy_worker s)) ->
    step s {| sy_worker := sy_worker s; entering := rest; queue := queue s ++ [work]; disp := disp s |}
| step_refuse s work rest :
    entering s ≡ₚ work :: rest ->
    step s {| sy_worker := removeWaiting (sy_worker s) work; entering := rest;
              queue := queue s; disp := disp s |}
| step_pop s work rest :
    disp s = Idle -> queue s = work :: rest ->
    step s {| sy_worker := sy_worker s; entering := entering s; queue := rest; disp := Popped work |}
| step_start s work :
    disp s = Popped work ->
    step s {| sy_worker := moveToRunning (sy_worker s) work; entering := entering s;
              queue := queue s; disp := Running work |}
| step_cache s work prefixes :
    disp s = Running work ->
    step s {| sy_worker := addPrefixes (sy_worker s) prefixes; entering := entering s;
              queue := queue s; disp := disp s |}
| step_fail s work :
    disp s = Running work ->
    step s {| sy_worker := spend_failure (sy_worker s); entering := entering s;
              queue := queue s; disp := disp s |}
| step_report s now :
    step s {| sy_worker := (nextState (sy_worker s) now).1; entering := entering s;
              queue := queue s; disp := disp s |}
| step_finish s work :
    disp s = Running work ->
    step s {| sy_worker := finishRunning (sy_worker s) work; entering := entering s;
              queue := queue s; disp := Idle |}.

Definition popped (d : dispatcher) : list Z := match d with Popped w => [w] | _ => [] end.
Definition running (d : dispatcher) : list Z := match d with Running w => [w] | _ => [] end.

(** The jobs that wait, wherever they are. *)
Definition waiting (s : system) : list Z := entering s ++ queue s ++ popped (disp s).

(** The outstanding work fits the counters. *)
Definition fits (s : system) : Prop :=
  Z.of_nat (length (waiting s)) + 1 < 2 ^ 32 /\ sum_list_Z (waiting s) < 2 ^ 64.

Definition reachable (cfg : Config.WorkerConfig) (s : system) : Prop :=
  exists w, New cfg = Ok w /\
    rtc (fun s s' => step s s' /\ fits s')
      {| sy_worker := w; entering := []; queue := []; disp := Idle |} s.

Record counted (st : WorkerState) (ws rs : list Z) : Prop := {
  ct_waiting : WaitingRequestCount st = Z.of_nat (length ws);
  ct_waiting_tokens : WaitingTokenCount st = sum_list_Z ws;
  ct_running : RunningRequestCount st = Z.of_nat (length rs);
  ct_running_tokens : RunningWorkTokens st = sum_list_Z rs;
}.

Record sys_inv (s : system) : Prop := {
  si_counted : counted (mw_state (sy_worker s)) (waiting s) (running (disp s));
  si_works : Forall is_u64 (waiting s ++ running (disp s));
}.

Lemma counted_perm (st : WorkerState) (ws ws' rs : list Z) :
  ws ≡ₚ ws' -> counted st ws rs -> counted st ws' rs.
Proof. intros Hp []. split; rewrite <- ?Hp; done. Qed.

Lemma lowered_exact (a b : Z) : 0 <= b -> lowered (a + b) a = b.
Proof. unfold lowered. intros. case_if; bool_facts; lia. Qed.

Lemma decremented_exact (n : nat) : decremented (Z.of_nat (S n)) = Z.of_nat n.
Proof. unfold decremented. case_if; bool_facts; lia. Qed.

Lemma u64_nonneg (l : list Z) : Forall is_u64 l -> 0 <= sum_list_Z l.
Proof. intros H. apply sum_list_Z_nonneg. eapply Forall_impl; [|exact H]. unfold is_u64. lia. Qed.

Lemma counted_same (st st' : WorkerState) (ws rs : list Z) :
  WaitingRequestCount st' = WaitingRequestCount st -> WaitingTokenCount st' = WaitingTokenCount st ->
  RunningRequestCount st' = RunningRequestCount st -> RunningWorkTokens st' = RunningWorkTokens st ->
  counted st ws rs -> counted st' ws rs.
Proof. intros H1 H2 H3 H4 []. split; congruence. Qed.

Lemma addPrefixes_counts (fs : list PrefixFingerprint) (w : Worker) :
  let s := mw_state w in let s' := mw_state (addPrefixes w fs) in
  WaitingRequestCount s' = WaitingRequestCount s /\ WaitingTokenCount s' = WaitingTokenCount s /\
  RunningRequestCount s' = RunningRequestCount s /\ RunningWorkTokens s' = RunningWorkTokens s.
Proof.
  revert w. induction fs as [|f fs IH]; intros w; [done|]. cbn zeta. cbn [addPrefixes foldl].
  destruct (IH (addPrefix w f)) as (E1 & E2 & E3 & E4). unfold addPrefixes in *. rewrite E1, E2, E3, E4.
  unfold addPrefix. destruct (cache w !! SHA256 f); [done|].
  by destruct (evict _ _ _ _ _) as [[order m] used].
Qed.

(** The steps that change the counters. *)
Lemma enter_inv (s : system) (k : Z) :
  is_u64 k -> sys_inv s ->
  let s' := {| sy_worker := addWaiting (sy_worker s) k; entering := k :: entering s;
               queue := queue s; disp := disp s |} in
  fits s' -> sys_inv s'.
Proof.
  intros Hk [Hc Hw] s' [Hf1 Hf2]. assert (waiting s' = k :: waiting s) as E by done. rewrite E in *.
  apply Forall_app in Hw as [Hw Hr]. pose proof (u64_nonneg _ Hw).
  rewrite sum_list_Z_cons in Hf2. cbn [length] in Hf1. unfold is_u64 in Hk. split.
  - destruct Hc as [H1 H2 H3 H4]. rewrite E. split; simpl; rewrite ?H1, ?H2; try done.
    + rewrite wrap_u32_id by (unfold is_u32; lia). lia.
    + rewrite wrap_u64_id by (unfold is_u64; lia). apply Z.add_comm.
  - rewrite E. by constructor; [|apply Forall_app].
Qed.

Lemma refuse_inv (s : system) (k : Z) (rest : list Z) :
  entering s ≡ₚ k :: rest -> sys_inv s ->
  sys_inv {| sy_worker := removeWaiting (sy_worker s) k; entering := rest; queue := queue s; disp := disp s |}.
Proof.
  intros He [Hc Hw].
  assert (waiting s ≡ₚ k :: rest ++ queue s ++ popped (disp s)) as Hp by (unfold waiting; by rewrite He).
  rewrite Hp in Hw. apply (counted_perm _ _ _ _ Hp) in Hc. apply Forall_app in Hw as [Hw1 Hw2].
  apply list.Forall_cons in Hw1 as [Hk Hw1]. split; simpl.
  - destruct Hc as [H1 H2 H3 H4]. split; simpl; try done.
    + rewrite H1. exact (decremented_exact (length _)).
    + rewrite H2. apply lowered_exact. by apply u64_nonneg.
  - by apply Forall_app.
Qed.

Lemma start_inv (s : system) (k : Z) :
  disp s = Popped k -> sys_inv s ->
  sys_inv {| sy_worker := moveToRunning (sy_worker s) k; entering := entering s;
             queue := queue s; disp := Running k |}.
Proof.
  intros Hd [Hc Hw].
  assert (waiting s ≡ₚ k :: entering s ++ queue s) as Hp
    by (unfold waiting; rewrite Hd; simpl; solve_Permutation).
  rewrite Hp, Hd in Hw. apply (counted_perm _ _ _ _ Hp) in Hc. rewrite Hd in Hc.
  apply Forall_app in Hw as [Hw1 Hw2]. apply list.Forall_cons in Hw1 as [Hk Hw1]. split; simpl.
  - destruct Hc as [H1 H2 H3 H4]. unfold waiting; simpl. rewrite app_nil_r. split; simpl.
    + rewrite H1. exact (decremented_exact (length _)).
    + rewrite H2. apply lowered_exact. by apply u64_nonneg.
    + by rewrite H3.
    + rewrite H4. simpl. rewrite wrap_u64_id; [simpl; lia|done].
  - unfold waiting; simpl. rewrite app_nil_r. apply Forall_app. split; [done|by constructor].
Qed.

Lemma finish_inv (s : system) (k : Z) :
  disp s = Running k -> sys_inv s ->
  sys_inv {| sy_worker := finishRunning (sy_worker s) k; entering := entering s;
             queue := queue s; disp := Idle |}.
Proof.
  intros Hd [Hc Hw]. rewrite Hd in *. split; simpl; unfold waiting in *; simpl; rewrite Hd in *; simpl in *.
  - destruct Hc as [H1 H2 H3 H4]. split; simpl; try done.
    + rewrite H3. exact (decremented_exact 0).
    + rewrite H4. by apply (lowered_exact k 0).
  - apply Forall_app in Hw as [Hw _]. apply Forall_app. split; [exact Hw|apply Forall_nil_2].
Qed.

(** A step that only moves a job from one place of waiting to the next. *)
Lemma move_inv (s s' : system) :
  sy_worker s' = sy_worker s -> waiting s ≡ₚ waiting s' -> running (disp s') = running (disp s) ->
  sys_inv s -> sys_inv s'.
Proof.
  intros Ew Hp Er [Hc Hw]. split; rewrite ?Ew, ?Er; [by apply (counted_perm _ _ _ _ Hp)|by rewrite <- Hp].
Qed.

Lemma step_inv (s s' : system) : sys_inv s -> step s s' -> fits s' -> sys_inv s'.
Proof.
  intros Hi Hs Hf.
  destruct Hs as [s k Hk|s k rest He _|s k rest He|s k rest Hd Hq|s k Hd|s k fs Hd|s k Hd|s now|s k Hd].
  - by apply enter_inv.
  - apply (move_inv s); try done. unfold waiting; simpl; rewrite He; solve_Permutation.
  - by apply refuse_inv.
  - apply (move_inv s); simpl; rewrite ?Hd; try done.
    unfold waiting; rewrite Hd, Hq; simpl; solve_Permutation.
  - by apply start_inv.
  - destruct Hi as [Hc Hw]. split; simpl; [|done].
    destruct (addPrefixes_counts fs (sy_worker s)) as (E1 & E2 & E3 & E4). by eapply counted_same.
  - destruct Hi as [[] Hw]. by split.
  - destruct Hi as [Hc Hw]. split; simpl; [|done]. destruct Hc. by split.
  - by apply finish_inv.
Qed.

Lemma New_ok (cfg : Config.WorkerConfig) (w : Worker) :
  New cfg = Ok w ->
  Config.ValidateWorker cfg = Ok tt /\ mw_config w = cfg /\ mw_state w = initial_state cfg /\
  cache w = ∅ /\ cacheOrder w = [].
Proof. unfold New. intros ([] & Hv & [= <-])%result_bind_ok. done. Qed.

Lemma reachable_counted (cfg : Config.WorkerConfig) (s : system) : reachable cfg s -> sys_inv s.
Proof.
  intros (w & (_ & _ & Hst & _)%New_ok & Hr). eapply (rtc_invariant _ sys_inv); [| |exact Hr].
  - intros x y Hi [Hs Hf]. by eapply step_inv.
  - split; simpl; [|constructor]. rewrite Hst. by split.
Qed.

(** ** Properties of the accounting *)

(** As long as the outstanding work fits the counters, they are exact in every
    interleaving: the waiting and running counts and tokens are those of the jobs
    that wait and run, no job is lost or counted twice, and an idle worker
    reports no work. *)
Theorem worker_accounting (cfg : Config.WorkerConfig) (s : system) :
  reachable cfg s ->
  let st := mw_state (sy_worker s) in
  WaitingRequestCount st = Z.of_nat (length (waiting s)) /\
  WaitingTokenCount st = sum_list_Z (waiting s) /\
  RunningRequestCount st = Z.of_nat (length (running (disp s))) /\
  RunningWorkTokens st = sum_list_Z (running (disp s)) /\
  (fits s -> ActiveRequests (sy_worker s) = Z.of_nat (length (waiting s ++ running (disp s)))) /\
  (entering s = [] -> queue s = [] -> disp s = Idle ->
     ActiveRequests (sy_worker s) = 0 /\ WaitingTokenCount st = 0 /\ RunningWorkTokens st = 0).
Proof.
  intros [[H1 H2 H3 H4] _]%reachable_counted. cbn zeta. split_and!; try done.
  - intros [Hf _]. unfold ActiveRequests. rewrite H1, H3, length_app, wrap_u32_id; [lia|].
    unfold is_u32. assert (length (running (disp s)) <= 1)%nat by (destruct (disp s); simpl; lia). lia.
  - intros He Hq Hd. unfold ActiveRequests. rewrite H1, H2, H3, H4. unfold waiting.
    by rewrite He, Hq, Hd.
Qed.

(** ** The cache invariant *)
Definition tokens_of (m : gmap string PrefixFingerprint) (key : string) : Z :=
  TokenCount (default zero_fingerprint (m !! key)).

Definition sum_over (m : gmap string PrefixFingerprint) (order : list string) : Z :=
  sum_list_Z (tokens_of m <$> order).

(** The order lists the cached keys once each, and [used] is their total. *)
Record entries_ok (order : list string) (m : gmap string PrefixFingerprint) (used : Z) : Prop := {
  eo_nodup : NoDup order;
  eo_keys : forall k, k ∈ order <-> is_Some (m !! k);
  eo_values : forall k f, m !! k = Some f -> SHA256 f = k /\ is_u32 (TokenCount f);
  eo_used : used = sum_over m order;
}.

Record cache_inv (w : Worker) : Prop := {
  ci_entries : entries_ok (cacheOrder w) (cache w) (UsedTokens (ws_KVUsage (mw_state w)));
  ci_capacity : UsedTokens (ws_KVUsage (mw_state w)) <= CapacityTokens (ws_KVUsage (mw_state w));
  ci_limit : Z.of_nat (length (cacheOrder w)) <= Config.CachePrefixLimit (mw_config w);
}.

Lemma sum_over_nonneg (order : list string) (m : gmap string PrefixFingerprint) (used : Z) :
  entries_ok order m used -> 0 <= used.
Proof.
  intros [_ _ Hv ->]. apply sum_list_Z_nonneg, Forall_fmap, Forall_true. intros k. simpl.
  unfold tokens_of. destruct (m !! k) as [f|] eqn:E; simpl; [|lia].
  apply Hv in E as [_ E]. unfold is_u32 in E. lia.
Qed.

Lemma sum_over_ext (m m' : gmap string PrefixFingerprint) (order : list string) :
  (forall k, k ∈ order -> m' !! k = m !! k) -> sum_over m' order = sum_over m order.
Proof.
  intros H. unfold sum_over. f_equal. apply list_fmap_ext. intros i k Hk.
  unfold tokens_of. by rewrite H by (by eapply list_elem_of_lookup_2).
Qed.

(** Removing the oldest entry. *)
Lemma entries_ok_pop (e : string) (rest : list string) (m : gmap string PrefixFingerprint) (used : Z) :
  entries_ok (e :: rest) m used ->
  entries_ok rest (delete e m) (lowered used (TokenCount (default zero_fingerprint (m !! e)))).
Proof.
  intros Hok. pose proof Hok as [Hnd Hk Hv Hu]. apply list.NoDup_cons in Hnd as [He Hnd].
  assert (sum_over (delete e m) rest = sum_over m rest) as Hs.
  { apply sum_over_ext. intros k Hin. apply lookup_delete_ne. by intros ->. }
  assert (entries_ok rest (delete e m) (sum_over m rest)) as Hok'.
  { split; [done| | |by rewrite Hs].
    - intros k. rewrite lookup_delete_is_Some, <- Hk, elem_of_cons. split.
      + intros Hin. split; [by intros ->|by right].
      + intros [Hne [-> | ?]]; done.
    - intros k f [_ Hf]%lookup_delete_Some. by apply Hv. }
  replace (lowered used _) with (sum_over m rest); [done|]. rewrite Hu. symmetry.
  change (sum_over m (e :: rest)) with (tokens_of m e + sum_over m rest).
  apply lowered_exact. by eapply sum_over_nonneg.
Qed.

(** The loop drops the shortest run of oldest entries that brings the cache back
    within its limits. *)
Lemma evict_spec (limit capacity : Z) (order : list string) (m : gmap string PrefixFingerprint)
    (used : Z) (order' : list string) (m' : gmap string PrefixFingerprint) (used' : Z) :
  0 <= limit -> 0 <= capacity -> entries_ok order m used ->
  evict limit capacity order m used = (order', m', used') ->
  entries_ok order' m' used' /\ over_limit limit capacity order' used' = false /\
  (forall k, k ∈ order' -> m' !! k = m !! k) /\
  exists n, order' = drop n order /\
    forall j, (j < n)%nat -> over_limit limit capacity (drop j order) (sum_over m (drop j order)) = true.
Proof.
  intros Hl Hc. revert m used. induction order as [|e rest IH]; intros m used Hok H; cbn [evict] in H.
  - simplify_eq. split; [done|]. rewrite (eo_used _ _ _ Hok). split.
    + unfold over_limit, sum_over; simpl. apply orb_false_iff. rewrite !Z.ltb_ge. lia.
    + split; [done|]. exists 0%nat. split; [done|lia].
  - destruct (over_limit limit capacity (e :: rest) used) eqn:Ho.
    + pose proof (entries_ok_pop _ _ _ _ Hok) as Hpop.
      destruct (IH _ _ Hpop H) as (Hok' & Hf & Hsame & n & -> & Hn).
      pose proof (eo_nodup _ _ _ Hok) as [He _]%list.NoDup_cons.
      split; [done|]. split; [done|]. split.
      * intros k Hk. rewrite Hsame by done. apply lookup_delete_ne. intros ->. apply He.
        apply list_elem_of_lookup in Hk as [i Hi]. rewrite lookup_drop in Hi.
        by eapply list_elem_of_lookup_2.
      * exists (S n). split; [done|]. intros [|j] Hj; simpl.
        -- by rewrite <- (eo_used _ _ _ Hok).
        -- rewrite <- (Hn j) by lia. f_equal. symmetry. apply sum_over_ext. intros k Hk.
           apply lookup_delete_ne. intros ->. apply He.
           apply list_elem_of_lookup in Hk as [i Hi]. rewrite lookup_drop in Hi.
           by eapply list_elem_of_lookup_2.
    + simplify_eq. split; [done|]. split; [done|]. split; [done|]. exists 0%nat. split; [done|lia].
Qed.

Lemma entries_ok_push (order : list string) (m : gmap string PrefixFingerprint) (used : Z)
    (f : PrefixFingerprint) :
  entries_ok order m used -> m !! SHA256 f = None -> is_u32 (TokenCount f) ->
  entries_ok (order ++ [SHA256 f]) (<[SHA256 f := f]> m) (used + TokenCount f).
Proof.
  intros [Hnd Hk Hv Hu] Hnew Hf.
  assert (SHA256 f ∉ order) as Hn by (rewrite Hk, Hnew; by intros []).
  split.
  - apply list.NoDup_app. split; [done|]. split; [|apply NoDup_singleton].
    intros k Hin. rewrite list_elem_of_singleton. by intros ->.
  - intros k. rewrite elem_of_app, list_elem_of_singleton, Hk, lookup_insert_is_Some'. naive_solver.
  - intros k g [[<- <-] | [_ Hg]]%lookup_insert_Some; [done|by apply Hv].
  - unfold sum_over. rewrite fmap_app, sum_list_Z_app. simpl.
    fold (sum_over (<[SHA256 f := f]> m) order). rewrite (sum_over_ext m) by
      (intros k Hin; apply lookup_insert_ne; by intros <-).
    rewrite Hu. unfold tokens_of. rewrite lookup_insert_eq. simpl. lia.
Qed.

(** The capacity leaves room for one more prefix in 64 bits. *)
Definition roomy (w : Worker) : Prop :=
  0 <= CapacityTokens (ws_KVUsage (mw_state w)) /\
  CapacityTokens (ws_KVUsage (mw_state w)) + 2 ^ 32 <= 2 ^ 64 /\
  0 <= Config.CachePrefixLimit (mw_config w).

Lemma addPrefix_new (w : Worker) (f : PrefixFingerprint) :
  cache_inv w -> roomy w -> is_u32 (TokenCount f) -> cache w !! SHA256 f = None ->
  let order := cacheOrder w ++ [SHA256 f] in
  cache_inv (addPrefix w f) /\
  (forall k, k ∈ cacheOrder (addPrefix w f) -> cache (addPrefix w f) !! k = <[SHA256 f := f]> (cache w) !! k) /\
  exists n, cacheOrder (addPrefix w f) = drop n order /\
    forall j, (j < n)%nat ->
      over_limit (Config.CachePrefixLimit (mw_config w)) (CapacityTokens (ws_KVUsage (mw_state w)))
        (drop j order) (sum_over (<[SHA256 f := f]> (cache w)) (drop j order)) = true.
Proof.
  intros [He Hcap Hlim] (H0 & Hroom & Hl0) Hf Hnew. cbn zeta.
  pose proof (sum_over_nonneg _ _ _ He) as Hu0. pose proof (entries_ok_push _ _ _ f He Hnew Hf) as Hpush.
  unfold addPrefix. rewrite Hnew.
  rewrite wrap_u64_id by (unfold is_u64, is_u32 in *; lia).
  destruct (evict _ _ _ _ _) as [[order' m'] used'] eqn:E.
  destruct (evict_spec _ _ _ _ _ _ _ _ Hl0 H0 Hpush E) as (Hok & Hov & Hsame & Hn).
  unfold over_limit in Hov. apply orb_false_iff in Hov as [Hov1 Hov2]. bool_facts.
  split; [by split|]. by split.
Qed.

Lemma addPrefix_known (w : Worker) (f g : PrefixFingerprint) :
  cache w !! SHA256 f = Some g -> addPrefix w f = w.
Proof. unfold addPrefix. by intros ->. Qed.

Lemma addPrefix_frame (w : Worker) (f : PrefixFingerprint) :
  mw_config (addPrefix w f) = mw_config w /\
  CapacityTokens (ws_KVUsage (mw_state (addPrefix w f))) = CapacityTokens (ws_KVUsage (mw_state w)).
Proof.
  unfold addPrefix. destruct (cache w !! SHA256 f); [done|]. by destruct (evict _ _ _ _ _) as [[order m] used].
Qed.

Lemma addPrefix_inv (w : Worker) (f : PrefixFingerprint) :
  cache_inv w -> roomy w -> is_u32 (TokenCount f) -> cache_inv (addPrefix w f) /\ roomy (addPrefix w f).
Proof.
  intros Hi Hr Hf. destruct (addPrefix_frame w f) as [Hc Hk]. split.
  - destruct (cache w !! SHA256 f) as [g|] eqn:E; [by rewrite (addPrefix_known _ _ _ E)|].
    by apply addPrefix_new.
  - unfold roomy. by rewrite Hc, Hk.
Qed.

Lemma addPrefixes_inv (fs : list PrefixFingerprint) (w : Worker) :
  cache_inv w -> roomy w -> Forall (fun f => is_u32 (TokenCount f)) fs ->
  cache_inv (addPrefixes w fs) /\ roomy (addPrefixes w fs).
Proof.
  intros Hi Hr Hfs. revert w Hi Hr. induction Hfs as [|f fs Hf _ IH]; intros w Hi Hr; [done|].
  destruct (addPrefix_inv w f Hi Hr Hf) as [Hi' Hr']. by apply IH.
Qed.

Lemma New_cache_inv (cfg : Config.WorkerConfig) (w : Worker) :
  is_u64 (Config.CacheCapacityTokens cfg) -> New cfg = Ok w -> cache_inv w.
Proof.
  intros Hc (Hv & Hcfg & Hst & Hm & Ho)%New_ok.
  apply Config.ValidateWorker_spec in Hv as (_ & (_ & _ & Hl & _) & _).
  unfold is_u64 in Hc. split; rewrite ?Hst, ?Hm, ?Ho, ?Hcfg; simpl; [|lia|lia].
  split; simpl; try done; [constructor|].
  intros k. rewrite lookup_empty. split; [by intros ?%not_elem_of_nil|by intros []].
Qed.

(** ** Properties of the cache *)

(** The cache lists every prefix once, its usage is the exact total of the cached
    prefixes, and both stay within the configured limits, through any additions.
    A prefix already cached changes nothing; a new one is appended and evicts the
    shortest run of oldest entries that restores the limits. *)
Theorem cache_well_formed (cfg : Config.WorkerConfig) (w0 : Worker) (fs : list PrefixFingerprint)
    (f : PrefixFingerprint) :
  0 <= Config.CacheCapacityTokens cfg <= 2 ^ 64 - 2 ^ 32 -> New cfg = Ok w0 ->
  Forall (fun f => is_u32 (TokenCount f)) fs -> is_u32 (TokenCount f) ->
  let w := addPrefixes w0 fs in
  cache_inv w /\
  match cache w !! SHA256 f with
  | Some _ => addPrefix w f = w
  | None => exists n, cacheOrder (addPrefix w f) = drop n (cacheOrder w ++ [SHA256 f]) /\
      (forall j, (j < n)%nat ->
         over_limit (Config.CachePrefixLimit cfg) (Config.CacheCapacityTokens cfg)
           (drop j (cacheOrder w ++ [SHA256 f]))
           (sum_over (<[SHA256 f := f]> (cache w)) (drop j (cacheOrder w ++ [SHA256 f]))) = true)
  end.
Proof.
  intros Hcap Hnew Hfs Hf. cbn zeta.
  pose proof (New_ok _ _ Hnew) as (Hv & Hcfg & Hst & _).
  assert (cache_inv w0) as Hi by (eapply New_cache_inv; [|done]; unfold is_u64; lia).
  assert (roomy w0) as Hr.
  { unfold roomy. rewrite Hst, Hcfg. simpl.
    apply Config.ValidateWorker_spec in Hv as (_ & (_ & _ & Hl & _) & _). lia. }
  assert (mw_config (addPrefixes w0 fs) = cfg /\
    CapacityTokens (ws_KVUsage (mw_state (addPrefixes w0 fs))) = Config.CacheCapacityTokens cfg) as [E1 E2].
  { clear Hfs Hi Hr. assert (CapacityTokens (ws_KVUsage (mw_state w0)) = Config.CacheCapacityTokens cfg) as Hk
      by (by rewrite Hst). clear Hst Hnew. revert w0 Hcfg Hk.
    induction fs as [|g fs IH]; intros w0 Hcfg Hk; [done|].
    destruct (addPrefix_frame w0 g) as [Hc' Hk']. by apply IH; rewrite ?Hc', ?Hk'. }
  destruct (addPrefixes_inv fs w0 Hi Hr Hfs) as [Hi' Hr']. split; [done|].
  destruct (cache (addPrefixes w0 fs) !! SHA256 f) as [g|] eqn:E; [by apply (addPrefix_known _ _ g)|].
  destruct (addPrefix_new _ f Hi' Hr' Hf E) as (_ & _ & Hn). by rewrite E1, E2 in Hn.
Qed.

(** ** What the worker reports *)

(** The changes of a worker. The prefixes that it caches are those of the requests,
    as they come. *)
Inductive wstep : Worker -> Worker -> Prop :=
| ws_waiting w work : is_u64 work -> wstep w (addWaiting w work)
| ws_leaves w work : is_u64 work -> wstep w (removeWaiting w work)
| ws_starts w work : is_u64 work -> wstep w (moveToRunning w work)
| ws_ends w work : is_u64 work -> wstep w (finishRunning w work)
| ws_caches w fs : Forall (fun f => is_u32 (TokenCount f)) fs -> wstep w (addPrefixes w fs)
| ws_fails w : wstep w (spend_failure w)
| ws_reports w now : wstep w (nextState w now).1.

Record report_inv (cfg : Config.WorkerConfig) (w : Worker) : Prop := {
  ri_config : mw_config w = cfg;
  ri_status : Status (mw_state w) = WorkerHealthy;
  ri_capacity : CapacityTokens (ws_KVUsage (mw_state w)) = Config.CacheCapacityTokens cfg;
  ri_rates : PrefillTokensPerSecond (mw_state w) = Config.wc_PrefillTokensPerSecond cfg /\
    DecodeTokensPerSecond (mw_state w) = Config.wc_DecodeTokensPerSecond cfg /\
    DecodeSchedulingQuantumTokens (mw_state w) = Config.wc_DecodeSchedulingQuantumTokens cfg;
  ri_cache : cache_inv w;
}.

Lemma addPrefix_report (cfg : Config.WorkerConfig) (w : Worker) (f : PrefixFingerprint) :
  roomy w -> is_u32 (TokenCount f) -> report_inv cfg w -> report_inv cfg (addPrefix w f).
Proof.
  intros Hr Hf Hi. pose proof Hi as [Hc Hs Hk Hrt Hci].
  destruct (cache w !! SHA256 f) as [g|] eqn:E; [by rewrite (addPrefix_known _ _ _ E)|].
  destruct (addPrefix_new w f Hci Hr Hf E) as (Hci' & _).
  assert (mw_config (addPrefix w f) = mw_config w /\
    exists used, mw_state (addPrefix w f) = set_used (mw_state w) used) as (Ec & used & Es).
  { unfold addPrefix. rewrite E. destruct (evict _ _ _ _ _) as [[order m] used]. split; [done|]. by exists used. }
  by split; rewrite ?Ec, ?Es.
Qed.

Lemma report_roomy (cfg : Config.WorkerConfig) (w : Worker) :
  Config.ValidateWorker cfg = Ok tt ->
  0 <= Config.CacheCapacityTokens cfg <= 2 ^ 64 - 2 ^ 32 -> report_inv cfg w -> roomy w.
Proof.
  intros (_ & (_ & _ & Hl & _) & _)%Config.ValidateWorker_spec Hc [Hcfg _ Hk _ _].
  unfold roomy. rewrite Hcfg, Hk. lia.
Qed.

Lemma wstep_report (cfg : Config.WorkerConfig) (w w' : Worker) :
  Config.ValidateWorker cfg = Ok tt -> 0 <= Config.CacheCapacityTokens cfg <= 2 ^ 64 - 2 ^ 32 ->
  report_inv cfg w -> wstep w w' -> report_inv cfg w'.
Proof.
  intros Hv Hc Hi Hs. destruct Hs as [w k Hk|w k Hk|w k Hk|w k Hk|w fs Hfs|w|w now].
  1-4, 6-7: destruct Hi as [H1 H2 H3 H4 [H5 H6 H7]]; split; [assumption..|split; assumption].
  revert w Hi. induction Hfs as [|f fs Hf _ IH]; intros w Hi; [done|]. apply IH.
  apply addPrefix_report; try done. by eapply report_roomy.
Qed.

Lemma New_report (cfg : Config.WorkerConfig) (w : Worker) :
  is_u64 (Config.CacheCapacityTokens cfg) -> New cfg = Ok w -> report_inv cfg w.
Proof.
  intros Hc Hn. pose proof (New_cache_inv cfg w Hc Hn). apply New_ok in Hn as (_ & Hcfg & Hst & Hm & Ho).
  by split; rewrite ?Hst.
Qed.

(** ** Witnesses *)
Definition ex_fresh (fail_first fail_after : Z) : Worker :=
  {| mw_config := Config.ex_worker_config fail_first fail_after;
     mw_state := initial_state (Config.ex_worker_config fail_first fail_after); cache := ∅; cacheOrder := [];
     failBeforeRemaining := fail_first; dataAddress := "w1:9000" |}.

Lemma ex_fresh_new : New (Config.ex_worker_config 0 0) = Ok (ex_fresh 0 0).
Proof. vm_compute. reflexivity. Qed.

(** One request counted and queued, another still entering. *)
Definition ex_system : system :=
  {| sy_worker := addWaiting (addWaiting (ex_fresh 0 0) 10) 20; entering := [20]; queue := [10]; disp := Idle |}.

Lemma ex_system_reachable : reachable (Config.ex_worker_config 0 0) ex_system.
Proof.
  exists (ex_fresh 0 0). split; [exact ex_fresh_new|].
  eapply rtc_l; [split; [by apply (step_enter _ 10)|by vm_compute]|].
  eapply rtc_l; [split; [by eapply (step_enqueue _ 10 [])|by vm_compute]|].
  eapply rtc_l; [split; [by apply (step_enter _ 20)|by vm_compute]|].
  apply rtc_refl.
Qed.

Lemma worker_accounting_witness : WaitingTokenCount (mw_state (sy_worker ex_system)) = 30 /\
  WaitingTokenCount (mw_state (sy_worker ex_system)) = sum_list_Z (waiting ex_system).
Proof.
  split; [vm_compute; reflexivity|].
  apply (worker_accounting (Config.ex_worker_config 0 0) ex_system ex_system_reachable).
Defined.

(** A third prefix evicts the oldest of two. *)
Definition ex_prefix (n : Z) (digest : string) : PrefixFingerprint := {| TokenCount := n; SHA256 := digest |}.

Lemma cache_well_formed_witness :
  cacheOrder (addPrefix (addPrefixes (ex_fresh 0 0) [ex_prefix 16 "a"; ex_prefix 32 "b"]) (ex_prefix 16 "c")) = ["b"; "c"] /\
  cache_inv (addPrefixes (ex_fresh 0 0) [ex_prefix 16 "a"; ex_prefix 32 "b"]).
Proof.
  split; [vm_compute; reflexivity|].
  apply (cache_well_formed (Config.ex_worker_config 0 0) (ex_fresh 0 0) _ (ex_prefix 16 "c")).
  - vm_compute. split; discriminate.
  - exact ex_fresh_new.
  - repeat (apply Forall_cons_2; [vm_compute; split; congruence|]). apply Forall_nil_2.
  - vm_compute. split; congruence.
Defined.
