(* ===== verification/PrefixCache.v ===== *)
(** * The prefix cache as a queue

    The mock worker keeps its prefix cache as a map, an order and a running total
    ([MockWorker.addPrefix]).  The reference keeps a list: a new prefix is appended,
    and the longest end of the list that is within the limits remains. *)

From S2P Require Import Prelude GoFloat GoString Model MockWorker.
From S2P Require Config.

#[local] Open Scope Z_scope.

(** ** The reference *)
Fixpoint longest_suffix {A} (P : list A -> bool) (l : list A) : list A :=
  if P l then l else match l with [] => [] | _ :: l => longest_suffix P l end.

Definition total (l : list PrefixFingerprint) : Z := sum_list_Z (TokenCount <$> l).

Definition within (limit capacity : Z) (l : list PrefixFingerprint) : bool :=
  (Z.of_nat (length l) <=? limit) && (total l <=? capacity).

Definition remember (limit capacity : Z) (l : list PrefixFingerprint) (f : PrefixFingerprint) : list PrefixFingerprint :=
  if bool_decide (SHA256 f ∈ SHA256 <$> l) then l else longest_suffix (within limit capacity) (l ++ [f]).

(** The longest end, as a property. *)
Lemma longest_suffix_spec {A} (P : list A -> bool) (l : list A) (n : nat) :
  (forall j, (j < n)%nat -> P (drop j l) = false) -> P (drop n l) = true -> longest_suffix P l = drop n l.
Proof.
  revert n. induction l as [|x l IH]; intros n Hj Hn.
  - rewrite drop_nil in *. cbn. by rewrite Hn.
  - destruct n as [|n]; cbn; cbn in Hn; [by rewrite Hn|]. pose proof (Hj 0%nat ltac:(lia)) as H0. cbn in H0. rewrite H0.
    apply IH; [|done]. intros j Hlt. apply (Hj (S j)). lia.
Qed.

(** ** The worker's cache as a list *)
Definition listed (m : gmap string PrefixFingerprint) (order : list string) : list PrefixFingerprint :=
  (fun key => default zero_fingerprint (m !! key)) <$> order.

Lemma total_listed (m : gmap string PrefixFingerprint) (order : list string) : total (listed m order) = sum_over m order.
Proof. unfold total, listed, sum_over. by rewrite <- list_fmap_compose. Qed.

Lemma listed_ext (m m' : gmap string PrefixFingerprint) (order : list string) :
  (forall k, k ∈ order -> m' !! k = m !! k) -> listed m' order = listed m order.
Proof. intros H. apply list_fmap_ext. intros i k Hk. by rewrite H by (by eapply list_elem_of_lookup_2). Qed.

Lemma listed_keys (order : list string) (m : gmap string PrefixFingerprint) (used : Z) :
  entries_ok order m used -> SHA256 <$> listed m order = order.
Proof.
  intros [_ Hk Hv _]. unfold listed. rewrite <- list_fmap_compose. rewrite <- (list_fmap_id order) at 2.
  apply list_fmap_ext. intros i k Hi. apply list_elem_of_lookup_2, Hk in Hi as [f Hf]. cbn. rewrite Hf. cbn. by apply Hv in Hf as [-> _].
Qed.

Lemma within_over (limit capacity : Z) (m : gmap string PrefixFingerprint) (order : list string) :
  within limit capacity (listed m order) = negb (over_limit limit capacity order (sum_over m order)).
Proof.
  unfold within, over_limit. rewrite total_listed. unfold listed. rewrite length_fmap, negb_orb.
  by rewrite <- !Z.leb_antisym.
Qed.

Lemma drop_listed (m : gmap string PrefixFingerprint) (order : list string) (n : nat) :
  drop n (listed m order) = listed m (drop n order).
Proof. unfold listed. by rewrite fmap_drop. Qed.

Lemma addPrefix_remembers (w : Worker) (f : PrefixFingerprint) :
  cache_inv w -> roomy w -> is_u32 (TokenCount f) ->
  cached_list (addPrefix w f) =
    remember (Config.CachePrefixLimit (mw_config w)) (CapacityTokens (ws_KVUsage (mw_state w))) (cached_list w) f.
Proof.
  intros Hi Hr Hf. pose proof (ci_entries _ Hi) as He. change (cached_list w) with (listed (cache w) (cacheOrder w)).
  unfold remember. rewrite (listed_keys _ _ _ He). destruct (cache w !! SHA256 f) as [g|] eqn:E.
  - rewrite (addPrefix_known w f g E), bool_decide_eq_true_2 by (apply (eo_keys _ _ _ He); eauto). done.
  - assert (SHA256 f ∉ cacheOrder w) as Hno by (rewrite (eo_keys _ _ _ He), E; by intros []).
    rewrite bool_decide_eq_false_2 by done.
    destruct (addPrefix_new w f Hi Hr Hf E) as (Hi' & Hsame & n & Ho & Hn). set (m := <[SHA256 f := f]> (cache w)) in *.
    assert (listed (cache w) (cacheOrder w) ++ [f] = listed m (cacheOrder w ++ [SHA256 f])) as ->.
    { unfold listed at 2. rewrite fmap_app. cbn. unfold m at 2. rewrite lookup_insert_eq. cbn. f_equal. symmetry.
      apply listed_ext. intros k Hk. apply lookup_insert_ne. by intros <-. }
    assert (cached_list (addPrefix w f) = drop n (listed m (cacheOrder w ++ [SHA256 f]))) as Hc.
    { rewrite drop_listed, <- Ho. change (cached_list (addPrefix w f)) with (listed (cache (addPrefix w f)) (cacheOrder (addPrefix w f))).
      by apply listed_ext. }
    rewrite Hc. symmetry. apply longest_suffix_spec.
    + intros j Hj. by rewrite drop_listed, within_over, Hn.
    + rewrite <- Hc. destruct (addPrefix_frame w f) as [Hcfg Hcap]. destruct Hi' as [He' Hc' Hl'].
      unfold within. change (cached_list (addPrefix w f)) with (listed (cache (addPrefix w f)) (cacheOrder (addPrefix w f))).
      rewrite total_listed, <- (eo_used _ _ _ He'). unfold listed. rewrite length_fmap.
      rewrite Hcfg in Hl'. rewrite Hcap in Hc'. apply andb_true_iff. by rewrite !Z.leb_le.
Qed.

Lemma addPrefixes_remember (fs : list PrefixFingerprint) (w : Worker) :
  cache_inv w -> roomy w -> Forall (fun f => is_u32 (TokenCount f)) fs ->
  cached_list (addPrefixes w fs) =
    foldl (remember (Config.CachePrefixLimit (mw_config w)) (CapacityTokens (ws_KVUsage (mw_state w)))) (cached_list w) fs.
Proof.
  intros Hi Hr Hfs. revert w Hi Hr. induction Hfs as [|f fs Hf _ IH]; intros w Hi Hr; [done|].
  destruct (addPrefix_inv w f Hi Hr Hf) as [Hi' Hr']. cbn [addPrefixes foldl].
  change (foldl addPrefix (addPrefix w f) fs) with (addPrefixes (addPrefix w f) fs). rewrite (IH _ Hi' Hr').
  destruct (addPrefix_frame w f) as [-> ->]. by rewrite (addPrefix_remembers w f Hi Hr Hf).
Qed.

(** ** The equivalence *)

(** C27: The cache of a mock worker with a capacity of at most 2^64 - 2^32 tokens - a
    map, an order and a running total, updated one eviction at a time - is the
    reference queue: what it reports after any
    additions is what the queue remembers of them, its usage is their total, and
    a lookup finds a prefix exactly when the queue has it. *)
Theorem cache_is_queue (cfg : Config.WorkerConfig) (w0 : Worker) (fs : list PrefixFingerprint) :
  0 <= Config.CacheCapacityTokens cfg <= 2 ^ 64 - 2 ^ 32 -> New cfg = Ok w0 ->
  Forall (fun f => is_u32 (TokenCount f)) fs ->
  let w := addPrefixes w0 fs in
  let queue := foldl (remember (Config.CachePrefixLimit cfg) (Config.CacheCapacityTokens cfg)) [] fs in
  cached_list w = queue /\ UsedTokens (ws_KVUsage (mw_state w)) = total queue /\
  within (Config.CachePrefixLimit cfg) (Config.CacheCapacityTokens cfg) queue = true /\
  forall key f, cache w !! key = Some f <-> f ∈ queue /\ SHA256 f = key.
Proof.
  intros Hcap Hnew Hfs w queue. pose proof (New_ok _ _ Hnew) as (Hv & Hcfg & Hst & Hm & Ho).
  assert (cache_inv w0) as Hi by (eapply New_cache_inv; [|done]; unfold is_u64; lia).
  assert (CapacityTokens (ws_KVUsage (mw_state w0)) = Config.CacheCapacityTokens cfg) as Hk by (by rewrite Hst).
  assert (roomy w0) as Hr.
  { unfold roomy. rewrite Hk, Hcfg. apply Config.ValidateWorker_spec in Hv as (_ & (_ & _ & Hl & _) & _). lia. }
  destruct (addPrefixes_inv fs w0 Hi Hr Hfs) as [[He Hc Hl] _]. fold w in He, Hc, Hl.
  assert (cached_list w = queue) as Hq.
  { unfold w. rewrite addPrefixes_remember by done. rewrite Hk, Hcfg. unfold cached_list. by rewrite Ho. }
  assert (mw_config w = cfg /\ CapacityTokens (ws_KVUsage (mw_state w)) = Config.CacheCapacityTokens cfg) as [E1 E2].
  { rewrite <- Hk, <- Hcfg. unfold w. clear. revert w0. induction fs as [|f fs IH]; intros w0; [done|].
    cbn [addPrefixes foldl]. destruct (IH (addPrefix w0 f)) as [H1 H2]. destruct (addPrefix_frame w0 f) as [H3 H4].
    unfold addPrefixes in *. by rewrite H1, H2, H3, H4. }
  change (cached_list w) with (listed (cache w) (cacheOrder w)) in Hq. rewrite <- Hq.
  split_and!.
  - done.
  - by rewrite total_listed, <- (eo_used _ _ _ He).
  - rewrite within_over, <- (eo_used _ _ _ He). unfold over_limit. rewrite E2 in Hc. rewrite E1 in Hl.
    apply negb_true_iff, orb_false_iff. by rewrite !Z.ltb_ge.
  - intros key f. split.
    + intros Hf. split; [|by apply (eo_values _ _ _ He) in Hf as [? _]]. apply list_elem_of_fmap. exists key. rewrite Hf.
      split; [done|]. apply (eo_keys _ _ _ He). eauto.
    + intros [(k & -> & Hin)%list_elem_of_fmap <-]. apply (eo_keys _ _ _ He) in Hin as [g Hg]. rewrite Hg. cbn.
      by apply (eo_values _ _ _ He) in Hg as Hv'; destruct Hv' as [-> _].
Qed.

(** ** Witness: a third prefix drops the first *)
Definition ex_prefix (count : Z) (key : string) : PrefixFingerprint := {| TokenCount := count; SHA256 := key |}.

Lemma cache_is_queue_witness : exists w0, New (Config.ex_worker_config 0 0) = Ok w0 /\
  cached_list (addPrefixes w0 [ex_prefix 16 "a"; ex_prefix 32 "b"; ex_prefix 16 "a"; ex_prefix 16 "c"]) =
    [ex_prefix 32 "b"; ex_prefix 16 "c"].
Proof.
  eexists. split; [reflexivity|]. etransitivity.
  - eapply (cache_is_queue (Config.ex_worker_config 0 0)).
    + vm_compute. split; discriminate.
    + reflexivity.
    + repeat (apply Forall_cons_2; [vm_compute; split; congruence|]). apply Forall_nil_2.
  - vm_compute. reflexivity.
Defined.
