(* ===== verification/Membership.v ===== *)
(** * Membership: a worker's registration loop and the gateway's control plane

    [registrationLoop] and [registerAndHeartbeat] of
    [src/internal/mockworker/worker.go], run against [RegisterWorker] and
    [Heartbeat] of [src/internal/gateway/server.go]. The network may refuse a
    connection and may lose a request or a response; meanwhile the worker serves
    its jobs, and the gateway serves everybody else, may be restarted, and may take
    another worker with the same ID. *)

From S2P Require Import Prelude GoFloat GoString Model Examples Wire Protocol Stream Gateway MockWorker.
From S2P Require Config Registry Metrics.

#[local] Open Scope Z_scope.
#[local] Open Scope go_scope.

(** The address that [Start] advertises. *)
Definition Start (w : Worker) (listener : string) : Worker :=
  {| mw_config := mw_config w; mw_state := mw_state w; cache := cache w; cacheOrder := cacheOrder w;
     failBeforeRemaining := failBeforeRemaining w;
     dataAddress := if negb (Config.AdvertisedAddress (mw_config w) =? "")%string
                    then Config.AdvertisedAddress (mw_config w) else listener |}.

Section Membership.
Context {T : TimestampPb} (registry_error_text : Registry.RegistryError -> string).

(** ** Calls *)
Inductive call_error :=
| CallFailed (code : Z)
| CallLost
| Rejected (message : string).

Inductive delivery := Delivered | RequestLost | ResponseLost.

Definition received {A} (d : delivery) (r : result (Z * GoError) A) : result call_error A :=
  match d with
  | Delivered => match r with Ok a => Ok a | Err (code, _) => Err (CallFailed code) end
  | RequestLost | ResponseLost => Err CallLost
  end.

(** The clock of the worker is read for the timestamp of the request and for the
    state. *)
Record worker_clock := { at_request : Time; at_state : Time }.

Definition register_request (w : Worker) (now : Time) (state : WorkerState) :
  option pb_RegisterWorkerRequest :=
  registration (Config.wc_ID (mw_config w)) (dataAddress w) (Config.wc_Model (mw_config w)) now state.

Definition heartbeat_request (w : Worker) (now : Time) (state : WorkerState) :
  option pb_HeartbeatRequest :=
  Some {| hb_ProtocolVersion := ProtocolVersion; hb_WorkerId := Config.wc_ID (mw_config w);
          hb_WorkerTimestamp := Some (NewTimestamp now); hb_State := Some (StateToProto state) |}.

Definition accepted (ok : bool) (message : string) : result call_error unit :=
  reject_if (negb ok) (Rejected message).

Definition register_call (w : Worker) (s : Server) (c : worker_clock) (d : delivery) (t : readings) :
  Worker * Server * result call_error unit :=
  let '(w, state) := nextState w (at_state c) in
  let '(s', response) := RegisterWorker registry_error_text s t (register_request w (at_request c) state) in
  (w, match d with RequestLost => s | _ => s' end,
   response ← received d response;
   accepted (RegisterWorkerResponse_GetAccepted (Some response))
     ("registration rejected: " +:+ RegisterWorkerResponse_GetMessage (Some response))).

Definition heartbeat_call (w : Worker) (s : Server) (c : worker_clock) (d : delivery) (t : readings) :
  Worker * Server * result call_error unit :=
  let '(w, state) := nextState w (at_state c) in
  let '(s', response) := Heartbeat registry_error_text s t (heartbeat_request w (at_request c) state) in
  (w, match d with RequestLost => s | _ => s' end,
   response ← received d response;
   accepted (HeartbeatResponse_GetAccepted (Some response))
     ("heartbeat rejected: " +:+ HeartbeatResponse_GetMessage (Some response))).

(** ** The loop *)

(** Before the dial, before the registration, before the next tick, in the wait
    after an error, and after the return. *)
Inductive phase := Dialing | Registering | Beating | Pausing | Returned.

(** [m_disturbed] records that somebody else has changed the gateway's entry of the
    worker since its last accepted registration. *)
Record system := { m_worker : Worker; m_server : Server; m_phase : phase; m_disturbed : bool }.

Definition clock_ok (c : worker_clock) : Prop :=
  timestamp_range (at_request c) /\ timestamp_range (at_state c).

Definition after (r : result call_error unit) : phase :=
  match r with Ok _ => Beating | Err _ => Pausing end.

(** Jobs change the worker, but only the loop makes reports; what the others do to
    the gateway leaves the entry of this worker alone, or disturbs it. *)
Inductive step : system -> system -> Prop :=
| step_dial_error w s b :
    step {| m_worker := w; m_server := s; m_phase := Dialing; m_disturbed := b |}
         {| m_worker := w; m_server := s; m_phase := Pausing; m_disturbed := b |}
| step_dial w s b :
    step {| m_worker := w; m_server := s; m_phase := Dialing; m_disturbed := b |}
         {| m_worker := w; m_server := s; m_phase := Registering; m_disturbed := b |}
| step_register w s b c d t w' s' r :
    clock_ok c -> register_call w s c d t = (w', s', r) ->
    step {| m_worker := w; m_server := s; m_phase := Registering; m_disturbed := b |}
         {| m_worker := w'; m_server := s'; m_phase := after r; m_disturbed := negb (is_ok r) && b |}
| step_heartbeat w s b c d t w' s' r :
    clock_ok c -> heartbeat_call w s c d t = (w', s', r) ->
    step {| m_worker := w; m_server := s; m_phase := Beating; m_disturbed := b |}
         {| m_worker := w'; m_server := s'; m_phase := after r; m_disturbed := b |}
| step_resume w s b :
    step {| m_worker := w; m_server := s; m_phase := Pausing; m_disturbed := b |}
         {| m_worker := w; m_server := s; m_phase := Dialing; m_disturbed := b |}
| step_stop w s p b :
    p = Beating \/ p = Pausing ->
    step {| m_worker := w; m_server := s; m_phase := p; m_disturbed := b |}
         {| m_worker := w; m_server := s; m_phase := Returned; m_disturbed := b |}
| step_job w w' s p b :
    wstep w w' -> StatusVersion (mw_state w') = StatusVersion (mw_state w) ->
    step {| m_worker := w; m_server := s; m_phase := p; m_disturbed := b |}
         {| m_worker := w'; m_server := s; m_phase := p; m_disturbed := b |}
| step_other w s s' p b :
    Registry.workers (s_registry s') !! Config.wc_ID (mw_config w) =
      Registry.workers (s_registry s) !! Config.wc_ID (mw_config w) ->
    step {| m_worker := w; m_server := s; m_phase := p; m_disturbed := b |}
         {| m_worker := w; m_server := s'; m_phase := p; m_disturbed := b |}
| step_disturb w s s' p b :
    step {| m_worker := w; m_server := s; m_phase := p; m_disturbed := b |}
         {| m_worker := w; m_server := s'; m_phase := p; m_disturbed := true |}.

(** ** Frames *)
Lemma wstep_address (w w' : Worker) : wstep w w' -> dataAddress w' = dataAddress w.
Proof.
  destruct 1 as [| | | |w fs _| |]; try done. unfold addPrefixes.
  revert w. induction fs as [|f fs IH]; intros w; [done|]. simpl. rewrite IH.
  unfold addPrefix. repeat case_match; done.
Qed.

Lemma Start_report (cfg : Config.WorkerConfig) (w : Worker) (listener : string) :
  report_inv cfg w -> report_inv cfg (Start w listener).
Proof. intros [H1 H2 H3 H4 [H5 H6 H7]]. by split. Qed.

Lemma nextState_version (w : Worker) (now : Time) (n : nat) :
  0 <= StatusVersion (mw_state w) <= Z.of_nat n -> Z.of_nat n < 2 ^ 64 - 1 ->
  StatusVersion (nextState w now).2 = StatusVersion (mw_state w) + 1.
Proof. intros Hv Hn. simpl. apply wrap_u64_id. unfold is_u64. lia. Qed.

(** The worker has cached a prefix with no tokens or no digest. *)
Definition malformed (w : Worker) : bool := existsb Registry.invalid_cached (cached_list w).

(** A report of a worker is a healthy state, and valid but for what it has cached. *)
Lemma nextState_valid (cfg : Config.WorkerConfig) (w : Worker) (now : Time) (n : nat) :
  Config.ValidateWorker cfg = Ok tt -> report_inv cfg w ->
  0 <= StatusVersion (mw_state w) <= Z.of_nat n -> Z.of_nat n < 2 ^ 64 - 1 ->
  Status (nextState w now).2 = WorkerHealthy /\
  if malformed w then exists m, Registry.validateState (nextState w now).2 = Err (Registry.ErrInvalidWorker m)
  else Registry.valid_state (nextState w now).2.
Proof.
  intros Hval Hi Hv Hn. pose proof (nextState_version w now n Hv Hn) as Hver.
  destruct Hi as [_ Hst Hk (Hp & Hd & Hq) [_ Hu _]]. split; [done|]. destruct (malformed w) eqn:Hm.
  - destruct (Registry.validateState (nextState w now).2) as [[]|e] eqn:E.
    + apply Registry.validateState_conds in E as (_ & _ & _ & _ & _ & E). cbn in E. unfold malformed in Hm. congruence.
    + apply Registry.validateState_invalid in E as [m ->]. by exists m.
  - apply Config.ValidateWorker_spec in Hval as (_ & (_ & _ & _ & Hcap) & (Hpr & Hdr & Hqr) & _).
    split; try (rewrite Hver; lia); simpl; rewrite ?Hk, ?Hp, ?Hd, ?Hq; try done.
    + by left.
    + by rewrite <- Hk.
    + by apply fle_zero_guard.
    + by apply fle_zero_guard.
    + by apply Registry.invalid_cached_spec.
Qed.

(** ** Delivered reports *)
Section Valid.
Context (L : TimestampPbLaws T) (cfg : Config.WorkerConfig) (Hcfg : Config.ValidateWorker cfg = Ok tt).

(** The entry of the worker in the registry, for a state received at [now]. *)
Definition entry (w : Worker) (st : WorkerState) (now : Time) : Model.Worker :=
  registered (Config.wc_ID (mw_config w)) (dataAddress w) (Config.wc_Model (mw_config w)) st now.

Definition stored (w : Worker) (s : Server) (st : WorkerState) (now : Time) : Registry.Registry :=
  Registry.set_workers (s_registry s)
    (<[Config.wc_ID (mw_config w) := entry w st now]> (Registry.workers (s_registry s))).

(** What holds of the worker after [n] steps. *)
Record worker_ok (n : nat) (w : Worker) : Prop := {
  wo_report : report_inv cfg w;
  wo_version : 0 <= StatusVersion (mw_state w) <= Z.of_nat n;
  wo_address : dataAddress w <> "";
}.

(** The registry holds an earlier report of the worker. *)
Definition known (w : Worker) (s : Server) : Prop :=
  exists st now, Registry.workers (s_registry s) !! Config.wc_ID (mw_config w) = Some (entry w st now) /\
    StatusVersion st <= StatusVersion (mw_state w).

(** A call: a report that was stored, or one that was refused and changed nothing. *)
Definition answered (w : Worker) (s : Server) (c : worker_clock) (d : delivery) (t : readings)
    (x : Worker * Server * result call_error unit) : Prop :=
  let '(w', st) := nextState w (at_state c) in
  exists s' r, x = (w', match d with RequestLost => s | _ => s' end, match d with Delivered => r | _ => Err CallLost end) /\
  if malformed w then s_registry s' = s_registry s /\ exists m, r = Err (Rejected m)
  else s_registry s' = stored w s st (at_operation t) /\ r = Ok tt.

Lemma register_call_spec (n : nat) (w : Worker) (s : Server) (c : worker_clock) (d : delivery) (t : readings) :
  worker_ok n w -> Z.of_nat n < 2 ^ 64 - 1 -> clock_ok c -> answered w s c d t (register_call w s c d t).
Proof.
  intros [Hi Hv Ha] Hn [Hr Hs]. unfold answered.
  destruct (nextState_valid cfg w (at_state c) n Hcfg Hi Hv Hn) as [Hh Hval].
  destruct (nextState w (at_state c)) as [w' st] eqn:E. cbn [snd] in *.
  pose proof (ri_config _ _ Hi) as Hc.
  apply Config.ValidateWorker_spec in Hcfg as ((Hid & _ & _ & Hm) & _). rewrite <- Hc in Hid, Hm.
  unfold register_call. rewrite E.
  assert (w' = (nextState w (at_state c)).1) as Hw by (by rewrite E).
  assert (ObservedAt st = at_state c) as Ho by (by injection E as _ <-).
  assert (mw_config w' = mw_config w /\ dataAddress w' = dataAddress w) as [Ec Ea] by (by rewrite Hw).
  unfold register_request. rewrite Ec, Ea. destruct (malformed w).
  - destruct Hval as [m Hval].
    destruct (register_bad registry_error_text L s t (Config.wc_ID (mw_config w)) (dataAddress w) (Config.wc_Model (mw_config w))
      (at_request c) st _ Hid Ha Hm Hr ltac:(by rewrite Ho) Hval ltac:(rewrite Hh; unfold known_status; tauto)) as [m' ->].
    exists (count s [Metrics.OInc "aetherserve_worker_registration_failures_total"]),
      (Err (Rejected ("registration rejected: " +:+ m'))). split; [by destruct d|]. split; [done|]. by eexists.
  - rewrite (register_ok registry_error_text L) by (rewrite ?Ho, ?Hh; unfold known_status; tauto || done).
    match goal with |- context [publish_health ?a ?b ?o] => exists (publish_health a b o), (Ok tt) end.
    split; [by destruct d|done].
Qed.

Lemma heartbeat_call_spec (n : nat) (w : Worker) (s : Server) (c : worker_clock) (d : delivery) (t : readings) :
  worker_ok n w -> Z.of_nat n < 2 ^ 64 - 1 -> clock_ok c -> known w s -> answered w s c d t (heartbeat_call w s c d t).
Proof.
  intros [Hi Hv Ha] Hn [Hr Hs] (st0 & now0 & Hk & Hle). unfold answered.
  pose proof (nextState_version w (at_state c) n Hv Hn) as Hver.
  destruct (nextState_valid cfg w (at_state c) n Hcfg Hi Hv Hn) as [Hh Hval].
  destruct (nextState w (at_state c)) as [w' st] eqn:E. cbn [snd] in *.
  assert (w' = (nextState w (at_state c)).1) as Hw by (by rewrite E).
  assert (ObservedAt st = at_state c) as Ho by (by injection E as _ <-).
  assert (mw_config w' = mw_config w) as Ec by (by rewrite Hw).
  unfold heartbeat_call. rewrite E. unfold Heartbeat, heartbeat_request. rewrite Ec.
  cbn [HeartbeatRequest_GetProtocolVersion HeartbeatRequest_GetWorkerTimestamp HeartbeatRequest_GetState
    HeartbeatRequest_GetWorkerId hb_ProtocolVersion hb_WorkerTimestamp hb_State hb_WorkerId].
  unfold TimestampFromProto. rewrite NewTimestamp_valid, AsTime_NewTimestamp, String.eqb_refl by done.
  cbn [negb mbind result_bind invalid_argument].
  rewrite (proj2 (StateFromProto_ToProto L st ltac:(by rewrite Ho))) by (rewrite Hh; unfold known_status; tauto).
  cbn [invalid_argument]. destruct (malformed w).
  - destruct Hval as [m Hval]. unfold Registry.Heartbeat. rewrite Hval.
    match goal with |- context [count s ?o] => exists (count s o) end. eexists (Err (Rejected _)).
    split; [destruct d; reflexivity|]. split; [done|]. by eexists.
  - rewrite (proj2 (Registry.heartbeat_ok (s_registry s) (stored w s st (at_operation t)) _ _ _ tt)).
    + match goal with |- context [publish_health ?a ?b ?o] => exists (publish_health a b o), (Ok tt) end.
      split; [by destruct d|done].
    + exists (entry w st0 now0). split_and!; [done..| |done]. simpl. lia.
Qed.

Lemma worker_ok_nextState (n : nat) (w : Worker) (now : Time) :
  0 <= Config.CacheCapacityTokens cfg <= 2 ^ 64 - 2 ^ 32 -> Z.of_nat n < 2 ^ 64 - 1 ->
  worker_ok n w -> worker_ok (S n) (nextState w now).1.
Proof.
  intros Hc Hn [Hi Hv Ha]. pose proof (nextState_version w now n Hv Hn) as Hver. split; [|simpl in *; lia|done].
  eapply wstep_report; [done..|apply ws_reports].
Qed.

Lemma known_stored (w w' : Worker) (s s' : Server) (now at_ : Time) (st : WorkerState) :
  nextState w now = (w', st) -> s_registry s' = stored w s st at_ -> known w' s'.
Proof.
  intros Hn Hs. assert (w' = (nextState w now).1 /\ st = (nextState w now).2) as [-> ->] by (by rewrite Hn).
  eexists _, at_. rewrite Hs. split; [|reflexivity]. simpl. by rewrite lookup_insert_eq.
Qed.

Record system_ok (n : nat) (sys : system) : Prop := {
  so_worker : worker_ok n (m_worker sys);
  so_known : m_phase sys = Beating -> m_disturbed sys = false -> known (m_worker sys) (m_server sys);
}.

Lemma worker_ok_S (n : nat) (w : Worker) : worker_ok n w -> worker_ok (S n) w.
Proof. intros [Hi Hv Ha]. split; [done|lia|done]. Qed.

(** One report: an accepted one makes the worker known. *)
Lemma report_ok (n : nat) (w w' : Worker) (s s' : Server) (c : worker_clock) (dl : delivery) (t : readings)
    (r : result call_error unit) (b : bool) :
  0 <= Config.CacheCapacityTokens cfg <= 2 ^ 64 - 2 ^ 32 -> Z.of_nat n < 2 ^ 64 - 1 ->
  worker_ok n w -> answered w s c dl t (w', s', r) ->
  system_ok (S n) {| m_worker := w'; m_server := s'; m_phase := after r; m_disturbed := b |}.
Proof.
  intros Hc Hn Hw Ha. pose proof (worker_ok_nextState n w (at_state c) Hc Hn Hw) as Hw'. unfold answered in Ha.
  destruct (nextState w (at_state c)) as [w1 st] eqn:E. destruct Ha as (s1 & r1 & [= -> -> ->] & Ha). split; [exact Hw'|].
  cbn [m_worker m_server m_phase m_disturbed]. intros Hb _. destruct dl; try done. destruct (malformed w).
  - by destruct Ha as (_ & m & ->).
  - destruct Ha as [Hs _]. by eapply known_stored.
Qed.

Lemma step_ok (n : nat) (sys sys' : system) :
  0 <= Config.CacheCapacityTokens cfg <= 2 ^ 64 - 2 ^ 32 -> Z.of_nat n < 2 ^ 64 - 1 ->
  system_ok n sys -> step sys sys' -> system_ok (S n) sys'.
Proof.
  intros Hc Hn [Hw Hk] Hs.
  destruct Hs as [w s b|w s b|w s b c dl t w' s' r Hcl Hr|w s b c dl t w' s' r Hcl Hr|w s b|w s p b Hp
    |w w' s p b Hj Hv|w s s' p b He|w s s' p b]; cbn [m_worker m_server m_phase m_disturbed] in *;
    try (split; [by apply worker_ok_S|done || by destruct Hp as [-> | ->]]; fail).
  - apply (report_ok n w _ s _ c dl t); try done. rewrite <- Hr. by apply (register_call_spec n).
  - destruct b.
    { destruct (heartbeat_call w s c dl t) as [[w1 s1] r1] eqn:E. injection Hr as -> -> ->. split; [|done].
      cbn [m_worker]. assert (w' = (nextState w (at_state c)).1) as ->; [|by apply worker_ok_nextState].
      unfold heartbeat_call in E. destruct (nextState w (at_state c)) as [w1 st].
      destruct (Heartbeat _ _ _ _) as [s2 resp]. by injection E as <- _ _. }
    apply (report_ok n w _ s _ c dl t); try done. rewrite <- Hr. by apply (heartbeat_call_spec n); [..|apply Hk].
  - destruct Hw as [Hi Hvn Ha]. pose proof (wstep_address _ _ Hj) as Hadr.
    pose proof (wstep_report _ _ _ Hcfg Hc Hi Hj) as Hi'.
    pose proof (ri_config _ _ Hi) as E1. pose proof (ri_config _ _ Hi') as E2.
    split; [split; [done|simpl; lia|by cbn [m_worker]; rewrite Hadr]|].
    intros Hb Hd. destruct (Hk Hb Hd) as (st & now & Hl & Hle). exists st, now. simpl. unfold entry in *.
    rewrite Hadr, E2, Hv. by rewrite E1 in Hl.
  - split; [by apply worker_ok_S|]. intros Hb Hd. destruct (Hk Hb Hd) as (st & now & Hl & Hle).
    exists st, now. simpl. by rewrite He.
Qed.

Lemma steps_ok (n m : nat) (sys sys' : system) :
  0 <= Config.CacheCapacityTokens cfg <= 2 ^ 64 - 2 ^ 32 -> Z.of_nat (n + m) < 2 ^ 64 - 1 ->
  system_ok n sys -> nsteps step m sys sys' -> system_ok (n + m) sys'.
Proof.
  intros Hc Hn Hok Hs. revert n Hn Hok. induction Hs as [sys|m x y z Hxy Hyz IH]; intros n Hn Hok.
  { by rewrite Nat.add_0_r. }
  rewrite Nat.add_succ_r, <- Nat.add_succ_l. apply IH; [lia|]. eapply step_ok; [..|done]; [done|lia|done].
Qed.

Lemma start_ok (w0 : Worker) (s : Server) (listener : string) (b : bool) :
  is_u64 (Config.CacheCapacityTokens cfg) -> New cfg = Ok w0 -> listener <> "" ->
  system_ok 0 {| m_worker := Start w0 listener; m_server := s; m_phase := Dialing; m_disturbed := b |}.
Proof.
  intros Hc Hn Hl. pose proof (New_report _ _ Hc Hn) as Hi. apply New_ok in Hn as (_ & _ & Hst & _).
  split; [|done]. split.
  - by apply Start_report.
  - simpl. rewrite Hst. simpl. lia.
  - simpl. destruct (_ =? _)%string eqn:E; cbn [negb]; [done|by apply String.eqb_neq].
Qed.

End Valid.

(** ** Properties *)

(** C33: Started with any valid configuration with a cache of at most 2^64 - 2^32
    tokens, against any gateway, whatever the network loses and whatever the others
    do to the gateway, and in every state of the loop reached in fewer than 2^64-1
    steps: a registration that is delivered, and a heartbeat that is delivered when
    nobody else has changed the worker's entry since its last accepted registration
    (no restart of the gateway, no other worker with the same ID), is accepted
    exactly when the worker has cached no prefix without tokens or without a
    digest. When it is accepted, the loop goes on to its next tick, and until the
    report is stale the gateway's snapshots list the worker with the state it
    reported, its address and its model; when it is not, the directory stays as it
    was and the loop dials again. *)
Theorem membership_accepted_iff_sound (L : TimestampPbLaws T) (cfg : Config.WorkerConfig) (w0 w w' : Worker)
    (s0 s s' : Server) (listener : string) (n : nat) (p : phase) (b0 b : bool) (c : worker_clock) (t : readings)
    (r : result call_error unit) :
  0 <= Config.CacheCapacityTokens cfg <= 2 ^ 64 - 2 ^ 32 -> New cfg = Ok w0 -> listener <> "" ->
  nsteps step n {| m_worker := Start w0 listener; m_server := s0; m_phase := Dialing; m_disturbed := b0 |}
                {| m_worker := w; m_server := s; m_phase := p; m_disturbed := b |} ->
  Z.of_nat n < 2 ^ 64 - 1 -> clock_ok c ->
  p = Registering /\ register_call w s c Delivered t = (w', s', r) \/
  p = Beating /\ b = false /\ heartbeat_call w s c Delivered t = (w', s', r) ->
  if existsb (fun f => (TokenCount f =? 0) || (SHA256 f =? "")%string) (cached_list w)
  then (exists m, r = Err (Rejected m)) /\ after r = Pausing /\ s_registry s' = s_registry s
  else r = Ok tt /\ after r = Beating /\
    forall now, is_i64 (Registry.staleAfter (s_registry s)) ->
      at_operation t <= now <= at_operation t + Registry.staleAfter (s_registry s) ->
      {| w_ID := Config.wc_ID cfg; DataAddress := dataAddress w'; w_Model := Config.wc_Model cfg;
         w_ProtocolVersion := ProtocolVersion; State := mw_state w'; LastHeartbeat := at_operation t;
         Stale := false |} ∈ Registry.Snapshot (s_registry s') now.
Proof.
  intros Hc Hnew Hl Hsteps Hn Hcl Hcall. pose proof (proj1 (New_ok _ _ Hnew)) as Hcfg.
  pose proof (start_ok cfg w0 s0 listener b0 ltac:(unfold is_u64; lia) Hnew Hl) as H0.
  pose proof (steps_ok L cfg Hcfg 0 n _ _ Hc ltac:(lia) H0 Hsteps) as [Hw Hk].
  cbn [m_worker m_server m_phase m_disturbed] in *.
  assert (answered w s c Delivered t (w', s', r)) as Ha.
  { destruct Hcall as [[Hp <-]|(Hp & Hb & <-)].
    - by apply (register_call_spec L cfg Hcfg n).
    - by apply (heartbeat_call_spec L cfg Hcfg n); [..|apply Hk]. }
  unfold answered in Ha. change (nextState w (at_state c)) with ((nextState w (at_state c)).1, (nextState w (at_state c)).2) in Ha.
  destruct Ha as (s1 & r1 & [= -> -> ->] & Ha). change (existsb _ (cached_list w)) with (malformed w).
  destruct (malformed w); destruct Ha as [Hs1 Hr1].
  - split; [done|]. split; [by destruct Hr1 as [m ->]|done].
  - subst r1. split; [done|]. split; [done|]. intros now H64 Hnow.
    rewrite <- (ri_config _ _ (wo_report _ _ _ Hw)).
    apply (fresh_in_snapshot _ (Config.wc_ID (mw_config w))); rewrite ?Hs1; simpl; try done; try lia.
    by rewrite lookup_insert_eq.
Qed.
End Membership.

(** ** Witnesses *)
Definition ex_text (e : Registry.RegistryError) : string := "rejected".
Definition ex_worker_clock (n : Z) : worker_clock := {| at_request := n; at_state := n + 1 |}.

Definition ex_started : Worker := Start (ex_fresh 0 0) "127.0.0.1:9000".

(** The worker registers, takes a job of 10 tokens, and reports. *)
Definition ex_joined : Worker * Server * result call_error unit :=
  @register_call SecondsNanos ex_text ex_started ex_server (ex_worker_clock 90) Delivered ex_readings.

Definition ex_busy : Worker := addWaiting ex_joined.1.1 10.

Definition ex_reported : Worker * Server * result call_error unit :=
  @heartbeat_call SecondsNanos ex_text ex_busy ex_joined.1.2 (ex_worker_clock 95) Delivered ex_readings.

Lemma ex_steps : nsteps (@step SecondsNanos ex_text) 3
  {| m_worker := Start (ex_fresh 0 0) "127.0.0.1:9000"; m_server := ex_server; m_phase := Dialing; m_disturbed := true |}
  {| m_worker := ex_busy; m_server := ex_joined.1.2; m_phase := Beating; m_disturbed := false |}.
Proof.
  eapply nsteps_l; [apply step_dial|].
  eapply nsteps_l; [apply (step_register ex_text _ _ true (ex_worker_clock 90) Delivered ex_readings
    ex_joined.1.1 ex_joined.1.2 (Ok tt)); [vm_compute; repeat split; congruence|vm_compute; reflexivity]|].
  eapply nsteps_l; [apply step_job; [apply (ws_waiting _ 10); by vm_compute|reflexivity]|]. apply nsteps_O.
Qed.

Lemma ex_busy_sound :
  existsb (fun f => (TokenCount f =? 0) || (SHA256 f =? "")%string) (cached_list ex_busy) = false.
Proof. vm_compute. reflexivity. Qed.

Lemma membership_accepted_iff_sound_witness :
  ex_reported.2 = Ok tt /\
  (exists w, w ∈ Registry.Snapshot (s_registry ex_reported.1.2) 200 /\ w_ID w = "w1" /\
     WaitingTokenCount (State w) = 10 /\ StatusVersion (State w) = 2 /\ Stale w = false).
Proof.
  pose proof (@membership_accepted_iff_sound SecondsNanos ex_text SecondsNanos_laws (Config.ex_worker_config 0 0)
    (ex_fresh 0 0) ex_busy ex_reported.1.1 ex_server
    ex_joined.1.2 ex_reported.1.2 "127.0.0.1:9000" 3 Beating true false (ex_worker_clock 95) ex_readings
    ex_reported.2) as H.
  rewrite ex_busy_sound in H.
  destruct H as (H1 & _ & H2).
  - vm_compute. split; discriminate.
  - exact ex_fresh_new.
  - discriminate.
  - exact ex_steps.
  - reflexivity.
  - vm_compute. repeat split; congruence.
  - right. split; [reflexivity|]. split; [reflexivity|]. unfold ex_reported. by destruct (heartbeat_call _ _ _ _ _ _) as [[? ?] ?].
  - split; [exact H1|]. eexists. split; [apply (H2 200); vm_compute; split; congruence|].
    repeat split; vm_compute; reflexivity.
Defined.

(** *** A fingerprint without tokens *)

(** The job of a request with such a fingerprint ends, and caches it. *)
Definition ex_poisoned : Worker := addPrefixes ex_joined.1.1 [ex_prefix 0 "digest"].

Definition ex_refused : Worker * Server * result call_error unit :=
  @heartbeat_call SecondsNanos ex_text ex_poisoned ex_joined.1.2 (ex_worker_clock 95) Delivered ex_readings.

(** One request whose prefix fingerprint has no tokens, which [Generate] does not
    check, takes a registered worker out of the gateway: its next heartbeat is
    refused, and so is the registration that it tries then. *)
Theorem malformed_fingerprint_expels_worker :
  nsteps (@step SecondsNanos ex_text) 3
    {| m_worker := Start (ex_fresh 0 0) "127.0.0.1:9000"; m_server := ex_server; m_phase := Dialing; m_disturbed := true |}
    {| m_worker := ex_poisoned; m_server := ex_joined.1.2; m_phase := Beating; m_disturbed := false |} /\
  ex_refused.2 = Err (Rejected "heartbeat rejected: rejected") /\
  (@register_call SecondsNanos ex_text ex_refused.1.1 ex_refused.1.2 (ex_worker_clock 99) Delivered ex_readings).2 =
    Err (Rejected "registration rejected: rejected").
Proof.
  split; [|split; vm_compute; reflexivity].
  eapply nsteps_l; [apply step_dial|].
  eapply nsteps_l; [apply (step_register ex_text _ _ true (ex_worker_clock 90) Delivered ex_readings
    ex_joined.1.1 ex_joined.1.2 (Ok tt)); [vm_compute; repeat split; congruence|vm_compute; reflexivity]|].
  eapply nsteps_l; [apply (step_job ex_text _ ex_poisoned); [|vm_compute; reflexivity]|].
  { apply (ws_caches ex_joined.1.1 [ex_prefix 0 "digest"]), Forall_cons_2; [by vm_compute|apply Forall_nil_2]. }
  apply nsteps_O.
Qed.
