(* ===== verification/Generation.v ===== *)
(** * Mock generation, end to end: [src/internal/mockworker/worker.go]

    The durations, tokens and chunks of a job, and what they become at the other
    end: the events that the gateway's receiver makes of them.  The conversion of a float
    outside the range of an integer type is left to the processor by Go and is an
    argument here. *)

From S2P Require Import Prelude GoFloat GoString Sha256 Model Examples Wire Protocol Stream MockWorker.
From S2P Require Config.

#[local] Open Scope Z_scope.
#[local] Open Scope go_scope.

Definition codes_Unavailable : Z := 14.
Definition codes_InvalidArgument : Z := 3.
Definition codes_ResourceExhausted : Z := 8.

Section Generation.
Context {T : TimestampPb}.
Context (out_of_range : float64 -> Z).

(** [uint64(x)] and [int64(x)]. *)
Definition float_to_int (lo hi : Z) (x : float64) : Z :=
  match float_trunc x with
  | Some z => if in_range lo hi z then z else out_of_range x
  | None => out_of_range x
  end.

Definition normalizedWork (input output : Z) (prefillRate decodeRate : float64) : Z :=
  input +u64 float_to_int 0 (2 ^ 64 - 1) (fceil (float_of_Z output *f prefillRate /f decodeRate)).

Definition scaledDuration (seconds multiplier : float64) : Duration :=
  float_to_int (- 2 ^ 63) (2 ^ 63 - 1) (seconds *f multiplier *f float_of_Z Second).

Definition prefillDuration (w : Worker) (tokens : Z) : Duration :=
  scaledDuration (float_of_Z tokens /f Config.wc_PrefillTokensPerSecond (mw_config w))
    (Config.SlowdownMultiplier (Config.Failure (mw_config w))).

Definition decodeDuration (w : Worker) : Duration :=
  scaledDuration (float_of_Z 1 /f Config.wc_DecodeTokensPerSecond (mw_config w))
    (Config.SlowdownMultiplier (Config.Failure (mw_config w))).

Definition token (w : Worker) (requestID : string) (index : Z) : string :=
  let text := itoa (Config.Seed (mw_config w)) +:+ ":" +:+ requestID +:+ ":" +:+ itoa index in
  "mock-" +:+ EncodeToString (take 4 (Sum256 (byte_val <$> to_bytes text))).

(** ** A job *)
Inductive job_result :=
| JChunk (chunk : Chunk) (done : bool)
| JErr (e : GoError).

(** [alive] is the number of waits and sends that succeed before the context of
    the request or of the worker ends. A wait of no duration always succeeds. *)
Definition wait (duration : Duration) (alive : nat) : option nat :=
  if duration <=? 0 then Some alive else match alive with S n => Some n | O => None end.

Definition send (alive : nat) (r : job_result) : list job_result * option nat :=
  match alive with S n => ([r], Some n) | O => ([], None) end.

Definition send_last (alive : nat) (r : job_result) : list job_result := (send alive r).1.

Section Job.
Context (w : Worker) (request : option pb_GenerateRequest) (clock : nat -> Time).

Definition token_chunk (index : nat) : Chunk :=
  {| c_RequestID := GenerateRequest_GetRequestId request;
     c_AttemptID := GenerateRequest_GetAttemptId request;
     c_WorkerID := Config.wc_ID (mw_config w); TokenIndex := wrap_u32 (Z.of_nat index);
     TokenText := token w (GenerateRequest_GetRequestId request) (Z.of_nat index);
     Final := false; Reason := ""; At := clock index |}.

Definition final_chunk (outputs : nat) (reason : FinishReason) : Chunk :=
  {| c_RequestID := GenerateRequest_GetRequestId request;
     c_AttemptID := GenerateRequest_GetAttemptId request;
     c_WorkerID := Config.wc_ID (mw_config w); TokenIndex := wrap_u32 (Z.of_nat outputs);
     TokenText := ""; Final := true; Reason := reason; At := clock outputs |}.

Definition injected_midstream : GoError := EStatus codes_Unavailable "injected midstream failure".
Definition injected_before : GoError := EStatus codes_Unavailable "injected failure before first token".

Definition fails_at (index : nat) : bool :=
  let after := Config.FailAfterTokens (Config.Failure (mw_config w)) in
  (0 <? after) && (after <=? Z.of_nat index).

(** The loop over the remaining [n] tokens from [index] on; the second component
    is [None] when the job returned. *)
Fixpoint token_loop (n index alive : nat) : list job_result * option nat :=
  match n with
  | O => ([], Some alive)
  | S n =>
      if fails_at index then (send_last alive (JErr injected_midstream), None)
      else
        match wait (decodeDuration w) alive with
        | None => ([], None)
        | Some alive =>
            match send alive (JChunk (token_chunk index) false) with
            | (r, None) => (r, None)
            | (r, Some alive) =>
                let '(rest, last) := token_loop n (S index) alive in (r ++ rest, last)
            end
        end
  end.

Definition max_outputs : Z := 8.

Definition outputs_of (limit : Z) : nat := Z.to_nat (if max_outputs <? limit then max_outputs else limit).

Definition runJob (alive : nat) : Worker * list job_result :=
  match wait (prefillDuration w (GenerateRequest_GetEstimatedInputTokens request)) alive with
  | None => (w, [])
  | Some alive =>
      if 0 <? failBeforeRemaining w
      then (spend_failure w, send_last alive (JErr injected_before))
      else
        let limit := GenerateRequest_GetMaxOutputTokens request in
        let outputs := outputs_of limit in
        match token_loop outputs 0 alive with
        | (rs, None) => (w, rs)
        | (rs, Some alive) =>
            let reason := if Z.of_nat outputs =? limit then FinishLength else FinishStop in
            (addPrefixes w (PrefixesFromProto (GenerateRequest_GetPrefixFingerprints request)),
             rs ++ send_last alive (JChunk (final_chunk outputs reason) true))
        end
  end.

(** The checks with which [Generate] begins. *)
Definition check_request : result GoError unit :=
  _ ← reject_if (negb (GenerateRequest_GetProtocolVersion request =? ProtocolVersion)%string
                 || negb (GenerateRequest_GetWorkerId request =? Config.wc_ID (mw_config w))%string
                 || negb (GenerateRequest_GetModel request =? Config.wc_Model (mw_config w))%string)
        (EStatus codes_InvalidArgument "invalid generation request");
  reject_if ((GenerateRequest_GetRequestId request =? "")%string
             || (GenerateRequest_GetAttemptId request =? "")%string
             || (GenerateRequest_GetMaxOutputTokens request =? 0))
    (EStatus codes_InvalidArgument "missing generation identifiers or output limit").

(** What the gateway's [Recv] returns for the results that [Generate] forwards:
    the chunks, then the error of the job, the end of the stream after the last
    chunk, or the error [interrupted] of the context. *)
Fixpoint stream_of (interrupted : GoError) (rs : list job_result) : list recv_outcome :=
  match rs with
  | [] => [RecvErr interrupted]
  | JErr e :: _ => [RecvErr e]
  | JChunk c done :: rs =>
      Received (At c) (Some (ChunkToProto c)) ::
      (if done then [RecvErr EEOF] else stream_of interrupted rs)
  end.

(** ** The tokens of an undisturbed job *)
Lemma wait_alive (d : Duration) (alive : nat) :
  (0 < alive)%nat -> exists n, wait d alive = Some n /\ (alive - 1 <= n)%nat.
Proof.
  intros H. unfold wait. case_if; [exists alive; split; [done|lia]|].
  destruct alive as [|n]; [lia|]. exists n. split; [done|lia].
Qed.

Definition token_results (index n : nat) : list job_result :=
  (fun i => JChunk (token_chunk i) false) <$> seq index n.

Lemma token_loop_complete (n index alive : nat) :
  (2 * n <= alive)%nat -> (forall i, (index <= i < index + n)%nat -> fails_at i = false) ->
  exists left, token_loop n index alive = (token_results index n, Some left) /\ (alive - 2 * n <= left)%nat.
Proof.
  revert index alive. induction n as [|n IH]; intros index alive Ha Hf; cbn [token_loop].
  { exists alive. split; [done|lia]. }
  rewrite Hf by lia. destruct (wait_alive (decodeDuration w) alive) as (m & -> & Hm); [lia|].
  destruct m as [|m]; [lia|]. cbn [send].
  destruct (IH (S index) m) as (left & -> & Hl); [lia|intros; apply Hf; lia|].
  exists left. split; [done|lia].
Qed.

Lemma token_loop_fails (n k index alive : nat) :
  (2 * n <= alive)%nat -> (k < n)%nat -> (forall i, (index <= i < index + k)%nat -> fails_at i = false) ->
  fails_at (index + k) = true ->
  token_loop n index alive = (token_results index k ++ [JErr injected_midstream], None).
Proof.
  revert k index alive. induction n as [|n IH]; intros k index alive Ha Hk Hf Hfail; [lia|].
  cbn [token_loop]. destruct k as [|k].
  - rewrite Nat.add_0_r in Hfail. rewrite Hfail. by destruct alive; [lia|].
  - rewrite Hf by lia. destruct (wait_alive (decodeDuration w) alive) as (m & -> & Hm); [lia|].
    destruct m as [|m]; [lia|]. cbn [send].
    assert (fails_at (S index + k) = true)
      by (by replace (S index + k)%nat with (index + S k)%nat by lia).
    by rewrite (IH k (S index) m) by (done || lia || (intros; apply Hf; lia)).
Qed.

Lemma outputs_of_le (limit : Z) : (outputs_of limit <= 8)%nat.
Proof. unfold outputs_of, max_outputs. case_if; bool_facts; lia. Qed.

(** ** Whole jobs *)
Abbreviation job_outputs := (outputs_of (GenerateRequest_GetMaxOutputTokens request)).

Definition last_reason : FinishReason :=
  if Z.of_nat job_outputs =? GenerateRequest_GetMaxOutputTokens request then FinishLength else FinishStop.

Lemma runJob_before (alive : nat) :
  0 < failBeforeRemaining w -> (2 <= alive)%nat -> (runJob alive).2 = [JErr injected_before].
Proof.
  intros Hf%Z.ltb_lt Ha. unfold runJob.
  destruct (wait_alive (prefillDuration w (GenerateRequest_GetEstimatedInputTokens request)) alive)
    as (m & -> & Hm); [lia|]. rewrite Hf. by destruct m; [lia|].
Qed.

Lemma runJob_midstream (k alive : nat) :
  failBeforeRemaining w <= 0 -> (2 * job_outputs + 1 <= alive)%nat -> (k < job_outputs)%nat ->
  (forall i, (i < k)%nat -> fails_at i = false) -> fails_at k = true ->
  (runJob alive).2 = token_results 0 k ++ [JErr injected_midstream].
Proof.
  intros Hf%Z.ltb_ge Ha Hk Hb Hfail. unfold runJob.
  destruct (wait_alive (prefillDuration w (GenerateRequest_GetEstimatedInputTokens request)) alive)
    as (m & -> & Hm); [lia|]. rewrite Hf. cbn zeta.
  rewrite (token_loop_fails _ k 0 m) by (done || lia || (intros; apply Hb; lia)). done.
Qed.

Lemma runJob_complete (alive : nat) :
  failBeforeRemaining w <= 0 -> (2 * job_outputs + 2 <= alive)%nat ->
  (forall i, (i < job_outputs)%nat -> fails_at i = false) ->
  (runJob alive).2 = token_results 0 job_outputs ++ [JChunk (final_chunk job_outputs last_reason) true].
Proof.
  intros Hf%Z.ltb_ge Ha Hb. unfold runJob.
  destruct (wait_alive (prefillDuration w (GenerateRequest_GetEstimatedInputTokens request)) alive)
    as (m & -> & Hm); [lia|]. rewrite Hf. cbn zeta.
  destruct (token_loop_complete job_outputs 0 m) as (left & -> & Hl); [lia|intros; apply Hb; lia|].
  by destruct left; [lia|].
Qed.

(** Time runs out after any number of tokens. *)
Lemma token_loop_cut (j n index : nat) :
  (j <= n)%nat -> (forall i, (index <= i < index + j)%nat -> fails_at i = false) ->
  exists alive last, token_loop n index alive = (token_results index j, last) /\ (last = None \/ last = Some O).
Proof.
  revert n index. induction j as [|j IH]; intros n index Hj Hf.
  - exists O. destruct n as [|n]; cbn [token_loop]; [eauto|].
    destruct (fails_at index); [eauto|]. unfold wait. destruct (decodeDuration w <=? 0); simpl; eauto.
  - destruct n as [|n]; [lia|]. destruct (IH n (S index)) as (alive & last & Ht & Hl);
      [lia|intros; apply Hf; lia|].
    exists (if decodeDuration w <=? 0 then S alive else S (S alive)), last. split; [|done].
    cbn [token_loop]. rewrite Hf by lia. unfold wait.
    destruct (decodeDuration w <=? 0); cbn [send]; by rewrite Ht.
Qed.

Lemma runJob_cut (j : nat) :
  failBeforeRemaining w <= 0 -> (j <= job_outputs)%nat ->
  (forall i, (i < j)%nat -> fails_at i = false) ->
  exists alive, (runJob alive).2 = token_results 0 j.
Proof.
  intros Hf%Z.ltb_ge Hj Hb. destruct (token_loop_cut j job_outputs 0) as (alive & last & Ht & Hl);
    [done|intros; apply Hb; lia|].
  set (d := prefillDuration w (GenerateRequest_GetEstimatedInputTokens request)).
  exists (if d <=? 0 then alive else S alive). unfold runJob. fold d.
  assert (wait d (if d <=? 0 then alive else S alive) = Some alive) as -> by (unfold wait; by destruct (d <=? 0)).
  rewrite Hf. cbn zeta. rewrite Ht. destruct Hl as [-> | ->]; [done|]. simpl. by rewrite app_nil_r.
Qed.
End Job.

(** ** The call *)
(** What the send to the job queue finds: room, the end of the request's context,
    or a full queue. *)
Inductive enqueue := Queued | Interrupted | QueueFull.

Definition queue_full : GoError := EStatus codes_ResourceExhausted "mock worker queue is full".

(** The call, the dispatcher's turn for its job, and the worker afterwards;
    [interrupted] is the status of the context's error. *)
Definition Generate (w : Worker) (request : option pb_GenerateRequest) (clock : nat -> Time)
    (slot : enqueue) (interrupted : GoError) (alive : nat) : Worker * list recv_outcome :=
  match check_request w request with
  | Err e => (w, [RecvErr e])
  | Ok _ =>
      let work := normalizedWork (GenerateRequest_GetEstimatedInputTokens request)
                    (GenerateRequest_GetMaxOutputTokens request)
                    (Config.wc_PrefillTokensPerSecond (mw_config w))
                    (Config.wc_DecodeTokensPerSecond (mw_config w)) in
      let w1 := addWaiting w work in
      match slot with
      | Interrupted => (removeWaiting w1 work, [RecvErr interrupted])
      | QueueFull => (removeWaiting w1 work, [RecvErr queue_full])
      | Queued =>
          let '(w2, rs) := runJob (moveToRunning w1 work) request clock alive in
          (finishRunning w2 work, stream_of interrupted rs)
      end
  end.

Lemma Generate_queued (w : Worker) (request : option pb_GenerateRequest) (clock : nat -> Time)
    (interrupted : GoError) (alive : nat) :
  check_request w request = Ok tt ->
  (Generate w request clock Queued interrupted alive).2 = stream_of interrupted (runJob w request clock alive).2.
Proof.
  intros Hc. unfold Generate. rewrite Hc. cbn zeta. set (w' := moveToRunning _ _).
  assert ((runJob w' request clock alive).2 = (runJob w request clock alive).2) as <-.
  { unfold runJob. change (prefillDuration w') with (prefillDuration w).
    destruct (wait _ alive) as [m|]; [|done].
    change (failBeforeRemaining w') with (failBeforeRemaining w). destruct (0 <? _); [done|].
    change (token_loop w') with (token_loop w). by destruct (token_loop _ _ _ _ _ _) as [rs []]. }
  by destruct (runJob w' request clock alive).
Qed.

(** ** At the gateway *)
Section EndToEnd.
Context {L : TimestampPbLaws T}.
Context (w : Worker) (r : Request) (clock : nat -> Time).
Context (Hclock : forall i, timestamp_range (clock i)).

Abbreviation id := (Config.wc_ID (mw_config w)).
Abbreviation wire := (Some (RequestToProto r id)).

Lemma own_token (i : nat) :
  own_chunk r id (token_chunk w wire clock i) (wrap_u32 (Z.of_nat i)).
Proof. split; [done..|]. simpl. by split. Qed.

Lemma own_final (n : nat) (reason : FinishReason) :
  own_chunk r id (final_chunk w wire clock n reason) (wrap_u32 (Z.of_nat n)).
Proof. split; [done..|]. simpl. by split. Qed.

(** A chunk of the worker, sent and received. *)
Lemma receive_own (n : Z) (c : Chunk) :
  own_chunk r id c n -> timestamp_range (At c) ->
  (if Final c then known_reason (Reason c) else Reason c = "") ->
  receive_step r id n (Received (At c) (Some (ChunkToProto c))) =
    (EvChunk c, if Final c then None else Some (n +u32 1)).
Proof.
  intros Ho Ht Hr. unfold receive_step.
  rewrite (proj2 (ChunkFromProto_ToProto L (At c) c Ht) Hr).
  cbn [lift_protocol mbind result_bind].
  rewrite (proj2 (validateChunk_spec r id c n) Ho). cbn [mbind result_bind].
  by destruct (Final c).
Qed.

Lemma receive_tokens (n index : nat) (e : GoError) (rest : list job_result) :
  receiveAttempt r id (wrap_u32 (Z.of_nat index))
    (stream_of e (token_results w wire clock index n ++ rest)) =
  (EvChunk <$> (token_chunk w wire clock <$> seq index n)) ++
  receiveAttempt r id (wrap_u32 (Z.of_nat (index + n))) (stream_of e rest).
Proof.
  revert index. induction n as [|n IH]; intros index.
  { by rewrite Nat.add_0_r. }
  cbn [token_results seq fmap list_fmap app stream_of receiveAttempt].
  rewrite receive_own; [|apply own_token|apply Hclock|done]. cbn [Final token_chunk].
  f_equal. rewrite Nat.add_succ_r, <- Nat.add_succ_l.
  assert (wrap_u32 (wrap_u32 (Z.of_nat index) + 1) = wrap_u32 (Z.of_nat (S index))) as ->.
  { unfold wrap_u32. rewrite Z.add_mod_idemp_l by lia. f_equal. lia. }
  apply IH.
Qed.

(** The request carries what the worker checks. *)
Lemma check_request_ok :
  r_Model r = Config.wc_Model (mw_config w) -> r_ID r <> "" -> r_AttemptID r <> "" ->
  MaxOutputTokens r <> 0 -> check_request w wire = Ok tt.
Proof.
  intros Hm Hi%String.eqb_neq Ha%String.eqb_neq Hx%Z.eqb_neq. unfold check_request. simpl.
  rewrite Hm, !String.eqb_refl. simpl. by rewrite Hi, Ha, Hx.
Qed.

Definition outputs : nat := outputs_of (MaxOutputTokens r).

Lemma outputs_bound : 0 <= MaxOutputTokens r -> (outputs <= 8)%nat.
Proof. intros H. unfold outputs, outputs_of, max_outputs. case_if; bool_facts; lia. Qed.

(** The reason of the final chunk. *)
Definition final_reason : FinishReason :=
  if MaxOutputTokens r <=? max_outputs then FinishLength else FinishStop.

Lemma final_reason_eq :
  0 <= MaxOutputTokens r ->
  (if Z.of_nat outputs =? MaxOutputTokens r then FinishLength else FinishStop) = final_reason.
Proof.
  intros H. unfold outputs, outputs_of, final_reason, max_outputs.
  destruct (8 <? MaxOutputTokens r) eqn:E, (MaxOutputTokens r <=? 8) eqn:E'; bool_facts; try lia;
    case_if; bool_facts; try done; lia.
Qed.

(** What the gateway's receiver makes of a mock worker's whole stream, for a
    request that it sent and enough time: without injected failures, the tokens
    0 to n-1 with the worker's texts and then the final chunk with the reason
    that the output limit gives; with a failure injected after k tokens, k tokens
    and then that error; with one injected before the first token, that error
    alone. *)
Lemma mock_stream_received (alive : nat) (e : GoError) :
  r_Model r = Config.wc_Model (mw_config w) -> r_ID r <> "" -> r_AttemptID r <> "" ->
  0 < MaxOutputTokens r -> (18 <= alive)%nat ->
  let tokens n := EvChunk <$> (token_chunk w wire clock <$> seq 0 n) in
  let after := Config.FailAfterTokens (Config.Failure (mw_config w)) in
  let events := receiveAttempt r id 0 (Generate w wire clock Queued e alive).2 in
  if 0 <? failBeforeRemaining w then events = [EvErr injected_before]
  else if (0 <? after) && (after <? Z.of_nat outputs)
  then events = tokens (Z.to_nat after) ++ [EvErr injected_midstream]
  else events = tokens outputs ++ [EvChunk (final_chunk w wire clock outputs final_reason)].
Proof.
  intros Hm Hi Ha Hx Halive. cbn zeta. rewrite Generate_queued by (apply check_request_ok; done || lia).
  set (after := Config.FailAfterTokens (Config.Failure (mw_config w))).
  assert (forall i, fails_at w i = (0 <? after) && (after <=? Z.of_nat i)) as Hfa by done.
  pose proof (outputs_of_le (GenerateRequest_GetMaxOutputTokens wire)) as Hb.
  destruct (0 <? failBeforeRemaining w) eqn:Ef; bool_facts.
  { by rewrite runJob_before by (done || lia). }
  destruct ((0 <? after) && (after <? Z.of_nat outputs)) eqn:Em.
  - apply andb_true_iff in Em as [E0%Z.ltb_lt E1%Z.ltb_lt].
    rewrite (runJob_midstream w wire clock (Z.to_nat after));
      [|done|lia|unfold outputs in *; simpl; lia| |].
    + pose proof (receive_tokens (Z.to_nat after) 0 e [JErr injected_midstream]) as Hr.
      change (wrap_u32 (Z.of_nat 0)) with 0 in Hr. rewrite Hr. done.
    + intros i Hlt. rewrite Hfa. apply andb_false_iff. right. apply Z.leb_gt. lia.
    + rewrite Hfa. apply andb_true_iff. rewrite Z.ltb_lt, Z.leb_le. lia.
  - rewrite runJob_complete; [|done|lia|].
    + change (outputs_of (GenerateRequest_GetMaxOutputTokens wire)) with outputs.
      assert (last_reason wire = final_reason) as -> by (apply final_reason_eq; lia).
      pose proof (receive_tokens outputs 0 e [JChunk (final_chunk w wire clock outputs final_reason) true]) as Hr.
      change (wrap_u32 (Z.of_nat 0)) with 0 in Hr. rewrite Hr. f_equal. cbn [stream_of receiveAttempt].
      rewrite receive_own; [done|apply own_final|apply Hclock|].
      unfold final_reason, known_reason. simpl. case_if; tauto.
    + intros i Hlt. rewrite Hfa. destruct (0 <? after); [|done]. simpl in *.
      apply Z.ltb_ge in Em. apply Z.leb_gt. unfold outputs in *. lia.
Qed.
End EndToEnd.

End Generation.

(** ** Witnesses *)
Definition ex_clock (i : nat) : Time := 1000.

Lemma ex_clock_range (i : nat) : timestamp_range (ex_clock i).
Proof. vm_compute. split; congruence. Qed.
