(* ===== verification/WorkerRun.v ===== *)
(** * A running mock worker: [src/internal/mockworker/worker.go]

    The goroutines of the worker: one for each call of [Generate], the
    dispatcher with the job that it runs, and the queue and the channels of
    results between them.  A select takes any of its ready branches.  The
    accounting of [MockWorker] and the atomic calls of [Generation] are
    abstractions of this system: the accounting is related to it here, the calls
    in [WorkerCalls]. *)

From S2P Require Import Prelude GoFloat GoString Model Examples Wire Protocol Stream MockWorker Generation.
From S2P Require Config.

#[local] Open Scope Z_scope.
#[local] Open Scope go_scope.

Section Run.
Context {T : TimestampPb} (out_of_range : float64 -> Z).

(** ** State *)

(** A call: it has counted its work and is about to try the queue; it waits for a
    result; it sends a chunk to its client; it has returned, with an error or
    nil. *)
Inductive call_phase :=
| Counted
| Reading
| Sending (c : Chunk) (last : bool)
| Returned (e : option GoError).

Record call := {
  k_request : option pb_GenerateRequest;
  k_phase : call_phase;
  k_done : bool;                  (* the context of its stream *)
  k_results : list job_result;    (* the channel of its job, of capacity one *)
  k_sent : list Chunk;            (* what its client was sent *)
  k_pushed : list job_result;     (* what its job put in the channel so far *)
}.

(** Where [runJob] stands. *)
Inductive job_pc :=
| AtPrefill
| AtCheck
| AtLoop (index : nat)
| AtSend (index : nat) (now : Time)
| AtLast (r : job_result)
| AtEnd.

Inductive dispatch :=
| DIdle
| DPopped (k : nat)
| DJob (k : nat) (pc : job_pc)
| DExited.

Record state := {
  st_worker : Worker;
  st_calls : list call;
  st_queue : list nat;
  st_disp : dispatch;
  st_stopped : bool;              (* the context of the worker *)
}.

Definition start (w : Worker) : state :=
  {| st_worker := w; st_calls := []; st_queue := []; st_disp := DIdle; st_stopped := false |}.

Definition work_of (w : Worker) (request : option pb_GenerateRequest) : Z :=
  normalizedWork out_of_range (GenerateRequest_GetEstimatedInputTokens request)
    (GenerateRequest_GetMaxOutputTokens request)
    (Config.wc_PrefillTokensPerSecond (mw_config w)) (Config.wc_DecodeTokensPerSecond (mw_config w)).

Definition new_call (request : option pb_GenerateRequest) (p : call_phase) : call :=
  {| k_request := request; k_phase := p; k_done := false; k_results := []; k_sent := []; k_pushed := [] |}.

Definition set_phase (c : call) (p : call_phase) : call :=
  {| k_request := k_request c; k_phase := p; k_done := k_done c; k_results := k_results c;
     k_sent := k_sent c; k_pushed := k_pushed c |}.

(** The call takes the result of its channel. *)
Definition take_result (c : call) (p : call_phase) : call :=
  {| k_request := k_request c; k_phase := p; k_done := k_done c; k_results := [];
     k_sent := k_sent c; k_pushed := k_pushed c |}.

Definition sent_chunk (c : call) (x : Chunk) (p : call_phase) : call :=
  {| k_request := k_request c; k_phase := p; k_done := k_done c; k_results := k_results c;
     k_sent := k_sent c ++ [x]; k_pushed := k_pushed c |}.

Definition cancel_call (c : call) : call :=
  {| k_request := k_request c; k_phase := k_phase c; k_done := true; k_results := k_results c;
     k_sent := k_sent c; k_pushed := k_pushed c |}.

(** The job puts a result in the channel. *)
Definition push_result (c : call) (r : job_result) : call :=
  {| k_request := k_request c; k_phase := k_phase c; k_done := k_done c; k_results := k_results c ++ [r];
     k_sent := k_sent c; k_pushed := k_pushed c ++ [r] |}.

Definition set_call (s : state) (k : nat) (c : call) : state :=
  {| st_worker := st_worker s; st_calls := <[k := c]> (st_calls s); st_queue := st_queue s;
     st_disp := st_disp s; st_stopped := st_stopped s |}.

Definition set_worker (s : state) (w : Worker) : state :=
  {| st_worker := w; st_calls := st_calls s; st_queue := st_queue s; st_disp := st_disp s;
     st_stopped := st_stopped s |}.

Definition set_queue (s : state) (q : list nat) : state :=
  {| st_worker := st_worker s; st_calls := st_calls s; st_queue := q; st_disp := st_disp s;
     st_stopped := st_stopped s |}.

Definition set_disp (s : state) (d : dispatch) : state :=
  {| st_worker := st_worker s; st_calls := st_calls s; st_queue := st_queue s; st_disp := d;
     st_stopped := st_stopped s |}.

Definition add_call (s : state) (c : call) : state :=
  {| st_worker := st_worker s; st_calls := st_calls s ++ [c]; st_queue := st_queue s;
     st_disp := st_disp s; st_stopped := st_stopped s |}.

(** [Stop] cancels the context of the worker. *)
Definition Stop (s : state) : state :=
  {| st_worker := st_worker s; st_calls := st_calls s; st_queue := st_queue s; st_disp := st_disp s;
     st_stopped := true |}.

Definition capacity (s : state) : Z := Config.QueueCapacity (mw_config (st_worker s)).

(** The statuses that a call returns for the ends of the two contexts; those of
    the library are any. *)
Definition stopping : GoError := EStatus codes_Unavailable "worker stopping".

Definition is_status (e : GoError) : Prop :=
  exists code message, e = EStatus code message.

(** ** Steps of the environment *)
Inductive env_step : state -> state -> Prop :=
| env_call s request :
    is_ok (check_request (st_worker s) request) = true ->
    env_step s (set_worker (add_call s (new_call request Counted))
                  (addWaiting (st_worker s) (work_of (st_worker s) request)))
| env_invalid s request e :
    check_request (st_worker s) request = Err e ->
    env_step s (add_call s (new_call request (Returned (Some e))))
| env_cancel s k c :
    st_calls s !! k = Some c -> env_step s (set_call s k (cancel_call c))
| env_report s now :
    env_step s (set_worker s (nextState (st_worker s) now).1)
| env_stop s :
    env_step s (Stop s).

(** ** Steps of the calls *)
Inductive call_step : state -> state -> Prop :=
| call_enqueue s k c :
    st_calls s !! k = Some c -> k_phase c = Counted ->
    Z.of_nat (length (st_queue s)) < capacity s ->
    call_step s (set_queue (set_call s k (set_phase c Reading)) (st_queue s ++ [k]))
| call_interrupted s k c e :
    st_calls s !! k = Some c -> k_phase c = Counted -> k_done c = true -> is_status e ->
    call_step s (set_worker (set_call s k (set_phase c (Returned (Some e))))
                   (removeWaiting (st_worker s) (work_of (st_worker s) (k_request c))))
| call_refused s k c :
    st_calls s !! k = Some c -> k_phase c = Counted -> k_done c = false ->
    capacity s <= Z.of_nat (length (st_queue s)) ->
    call_step s (set_worker (set_call s k (set_phase c (Returned (Some queue_full))))
                   (removeWaiting (st_worker s) (work_of (st_worker s) (k_request c))))
| call_take_error s k c e :
    st_calls s !! k = Some c -> k_phase c = Reading -> k_results c = [JErr e] ->
    call_step s (set_call s k (take_result c (Returned (Some e))))
| call_take_chunk s k c x last :
    st_calls s !! k = Some c -> k_phase c = Reading -> k_results c = [JChunk x last] ->
    call_step s (set_call s k (take_result c (Sending x last)))
| call_sent s k c x last :
    st_calls s !! k = Some c -> k_phase c = Sending x last ->
    call_step s (set_call s k (sent_chunk c x (if last then Returned None else Reading)))
| call_send_fails s k c x last e :
    st_calls s !! k = Some c -> k_phase c = Sending x last -> k_done c = true -> is_status e ->
    call_step s (set_call s k (set_phase c (Returned (Some e))))
| call_canceled s k c e :
    st_calls s !! k = Some c -> k_phase c = Reading -> k_done c = true -> is_status e ->
    call_step s (set_call s k (set_phase c (Returned (Some e))))
| call_stopping s k c :
    st_calls s !! k = Some c -> k_phase c = Reading -> st_stopped s = true ->
    call_step s (set_call s k (set_phase c (Returned (Some stopping))))
| call_released s k c :     (* gRPC ends the context of a stream whose handler returned or was stopped *)
    st_calls s !! k = Some c -> k_done c = false ->
    (exists e, k_phase c = Returned e) \/ st_stopped s = true ->
    call_step s (set_call s k (cancel_call c)).

(** ** Steps of the dispatcher *)
Section Job.
Context (w : Worker) (request : option pb_GenerateRequest).

Definition job_outputs : nat := outputs_of (GenerateRequest_GetMaxOutputTokens request).

Definition job_token (index : nat) (now : Time) : job_result :=
  JChunk (token_chunk w request (fun _ => now) index) false.

Definition job_final (now : Time) : job_result :=
  JChunk (final_chunk w request (fun _ => now) job_outputs
    (if Z.of_nat job_outputs =? GenerateRequest_GetMaxOutputTokens request then FinishLength else FinishStop)) true.

(** The durations of the waits. *)
Definition prefill_wait : Duration :=
  prefillDuration out_of_range w (GenerateRequest_GetEstimatedInputTokens request).
Definition decode_wait : Duration := decodeDuration out_of_range w.
End Job.

(** [canceled] says whether one of the two contexts of the job has ended. The
    step of the job, what it puts in its channel, and the worker after it. *)
Inductive job_step (w : Worker) (request : option pb_GenerateRequest) (canceled : bool) (room : bool) :
  job_pc -> job_pc -> option job_result -> Worker -> Prop :=
| job_prefilled :
    job_step w request canceled room AtPrefill AtCheck None w
| job_prefill_canceled :
    canceled = true -> 0 < prefill_wait w request ->
    job_step w request canceled room AtPrefill AtEnd None w
| job_fail_before :
    0 < failBeforeRemaining w ->
    job_step w request canceled room AtCheck (AtLast (JErr injected_before)) None (spend_failure w)
| job_begin :
    failBeforeRemaining w <= 0 ->
    job_step w request canceled room AtCheck (AtLoop 0) None w
| job_fail_midstream i :
    (i < job_outputs request)%nat -> fails_at w i = true ->
    job_step w request canceled room (AtLoop i) (AtLast (JErr injected_midstream)) None w
| job_decoded i now :
    (i < job_outputs request)%nat -> fails_at w i = false ->
    job_step w request canceled room (AtLoop i) (AtSend i now) None w
| job_decode_canceled i :
    (i < job_outputs request)%nat -> fails_at w i = false -> canceled = true -> 0 < decode_wait w ->
    job_step w request canceled room (AtLoop i) AtEnd None w
| job_send_token i now :
    room = true ->
    job_step w request canceled room (AtSend i now) (AtLoop (S i)) (Some (job_token w request i now)) w
| job_token_canceled i now :
    canceled = true ->
    job_step w request canceled room (AtSend i now) AtEnd None w
| job_complete i now :
    (job_outputs request <= i)%nat ->
    job_step w request canceled room (AtLoop i) (AtLast (job_final w request now)) None
      (addPrefixes w (PrefixesFromProto (GenerateRequest_GetPrefixFingerprints request)))
| job_send_last r :
    room = true ->
    job_step w request canceled room (AtLast r) AtEnd (Some r) w
| job_last_canceled r :
    canceled = true ->
    job_step w request canceled room (AtLast r) AtEnd None w.

Definition push_option (c : call) (r : option job_result) : call :=
  match r with Some r => push_result c r | None => c end.

Definition room_in (c : call) : bool := match k_results c with [] => true | _ => false end.

Inductive dispatch_step : state -> state -> Prop :=
| disp_pop s k rest :
    st_disp s = DIdle -> st_queue s = k :: rest ->
    dispatch_step s (set_disp (set_queue s rest) (DPopped k))
| disp_exit s :
    st_disp s = DIdle -> st_stopped s = true ->
    dispatch_step s (set_disp s DExited)
| disp_start s k c :
    st_disp s = DPopped k -> st_calls s !! k = Some c ->
    dispatch_step s (set_disp (set_worker s
      (moveToRunning (st_worker s) (work_of (st_worker s) (k_request c)))) (DJob k AtPrefill))
| disp_job s k c pc pc' r w :
    st_disp s = DJob k pc -> st_calls s !! k = Some c ->
    job_step (st_worker s) (k_request c) (k_done c || st_stopped s) (room_in c) pc pc' r w ->
    dispatch_step s (set_disp (set_worker (set_call s k (push_option c r)) w) (DJob k pc'))
| disp_finish s k c :
    st_disp s = DJob k AtEnd -> st_calls s !! k = Some c ->
    dispatch_step s (set_disp (set_worker s
      (finishRunning (st_worker s) (work_of (st_worker s) (k_request c)))) DIdle).

Inductive own_step (s s' : state) : Prop :=
| own_call : call_step s s' -> own_step s s'
| own_dispatch : dispatch_step s s' -> own_step s s'.

Inductive step (s s' : state) : Prop :=
| by_env : env_step s s' -> step s s'
| by_own : own_step s s' -> step s s'.

Definition reachable (cfg : Config.WorkerConfig) (s : state) : Prop :=
  exists w, New cfg = Ok w /\ rtc step (start w) s.
(** ** The accounting *)

(** The worker's configuration never changes. *)
Lemma addPrefixes_config (fs : list PrefixFingerprint) (w : Worker) :
  mw_config (addPrefixes w fs) = mw_config w.
Proof.
  unfold addPrefixes. revert w. induction fs as [|f fs IH]; intros w; [done|]. simpl. rewrite IH.
  unfold addPrefix. by repeat case_match.
Qed.

Lemma job_step_config (w w' : Worker) (request : option pb_GenerateRequest) (canceled room : bool)
    (pc pc' : job_pc) (r : option job_result) :
  job_step w request canceled room pc pc' r w' -> mw_config w' = mw_config w.
Proof. destruct 1; try done. apply addPrefixes_config. Qed.

Lemma work_of_config (w w' : Worker) (request : option pb_GenerateRequest) :
  mw_config w' = mw_config w -> work_of w' request = work_of w request.
Proof. unfold work_of. by intros ->. Qed.

Lemma work_of_u64 (w : Worker) (request : option pb_GenerateRequest) : is_u64 (work_of w request).
Proof. apply wrap_u64_range. Qed.

(** The work of a call that has not tried the queue yet. *)
Definition counted_work (w : Worker) (c : call) : option Z :=
  match k_phase c with Counted => Some (work_of w (k_request c)) | _ => None end.

Definition counted_works (s : state) : list Z := omap (counted_work (st_worker s)) (st_calls s).

Definition work_at (s : state) (k : nat) : Z :=
  from_option (fun c => work_of (st_worker s) (k_request c)) 0 (st_calls s !! k).

Definition abs_disp (s : state) : dispatcher :=
  match st_disp s with
  | DIdle | DExited => Idle
  | DPopped k => Popped (work_at s k)
  | DJob k _ => Running (work_at s k)
  end.

(** A system of [MockWorker] that a state implements. *)
Record implements (s : state) (a : MockWorker.system) : Prop := {
  im_worker : sy_worker a = st_worker s;
  im_entering : entering a ≡ₚ counted_works s;
  im_queue : queue a = work_at s <$> st_queue s;
  im_disp : disp a = abs_disp s;
}.

(** The queue and the dispatcher name calls that exist. *)
Definition busy_with (d : dispatch) : list nat :=
  match d with DIdle | DExited => [] | DPopped k | DJob k _ => [k] end.

Definition indices_ok (s : state) : Prop :=
  Forall (fun k => is_Some (st_calls s !! k)) (st_queue s ++ busy_with (st_disp s)).

(** Two states whose worker has one configuration and whose calls have the same
    requests have the same works. *)
Definition same_requests (s s' : state) : Prop :=
  mw_config (st_worker s') = mw_config (st_worker s) /\
  forall k c, st_calls s !! k = Some c ->
    exists c', st_calls s' !! k = Some c' /\ k_request c' = k_request c.

Lemma work_at_same (s s' : state) (k : nat) :
  same_requests s s' -> is_Some (st_calls s !! k) -> work_at s' k = work_at s k.
Proof.
  intros [Hw Hc] [c Hk]. destruct (Hc k c Hk) as (c' & Hk' & Hr). unfold work_at. rewrite Hk, Hk'. simpl.
  rewrite Hr. by apply work_of_config.
Qed.

Lemma works_same (s s' : state) (q : list nat) :
  same_requests s s' -> Forall (fun k => is_Some (st_calls s !! k)) q ->
  work_at s' <$> q = work_at s <$> q.
Proof.
  intros Hs Hq. induction Hq as [|k q Hk _ IH]; [done|]. csimpl. rewrite IH. f_equal. by apply work_at_same.
Qed.

Lemma insert_requests (s : state) (k : nat) (c c' : call) (j : nat) (x : call) :
  st_calls s !! k = Some c -> k_request c' = k_request c -> st_calls s !! j = Some x ->
  exists x', <[k := c']> (st_calls s) !! j = Some x' /\ k_request x' = k_request x.
Proof.
  intros Hk Hr Hj. destruct (decide (j = k)) as [->|Hne].
  - exists c'. rewrite list_lookup_insert_eq by by eapply lookup_lt_Some. split; [done|congruence].
  - exists x. by rewrite list_lookup_insert_ne.
Qed.

Lemma counted_work_config (w w' : Worker) (l : list call) :
  mw_config w' = mw_config w -> omap (counted_work w') l = omap (counted_work w) l.
Proof.
  intros Hw. induction l as [|c l IH]; [done|]. csimpl. rewrite IH. unfold counted_work.
  by rewrite (work_of_config w w').
Qed.

(** A step that replaces the call [k]. *)
Lemma update_counted (s s' : state) (k : nat) (c c' : call) :
  st_calls s !! k = Some c -> st_calls s' = <[k := c']> (st_calls s) ->
  mw_config (st_worker s') = mw_config (st_worker s) ->
  exists l, counted_works s ≡ₚ option_list (counted_work (st_worker s) c) ++ l /\
    counted_works s' ≡ₚ option_list (counted_work (st_worker s) c') ++ l.
Proof.
  intros Hk Hc Hw. unfold counted_works. rewrite Hc, (counted_work_config (st_worker s) (st_worker s')) by done.
  by apply omap_insert.
Qed.

Lemma update_same (s s' : state) (k : nat) (c c' : call) :
  st_calls s !! k = Some c -> st_calls s' = <[k := c']> (st_calls s) ->
  mw_config (st_worker s') = mw_config (st_worker s) ->
  k_request c' = k_request c -> (k_phase c' = Counted <-> k_phase c = Counted) ->
  counted_works s' ≡ₚ counted_works s.
Proof.
  intros Hk Hc Hw Hr Hp. destruct (update_counted s s' k c c' Hk Hc Hw) as (l & H1 & H2).
  assert (counted_work (st_worker s) c' = counted_work (st_worker s) c) as E.
  { unfold counted_work. rewrite Hr. destruct (k_phase c'), (k_phase c); naive_solver. }
  rewrite E in H2. by rewrite H1, H2.
Qed.

Lemma update_requests (s s' : state) (k : nat) (c c' : call) :
  st_calls s !! k = Some c -> st_calls s' = <[k := c']> (st_calls s) -> k_request c' = k_request c ->
  mw_config (st_worker s') = mw_config (st_worker s) -> same_requests s s'.
Proof. intros Hk Hc Hr Hw. split; [done|]. intros j x Hj. rewrite Hc. by eapply insert_requests. Qed.

Lemma keep_requests (s s' : state) :
  st_calls s' = st_calls s -> mw_config (st_worker s') = mw_config (st_worker s) -> same_requests s s'.
Proof. intros Hc Hw. split; [done|]. intros k c Hk. exists c. by rewrite Hc. Qed.

Lemma step_requests (s s' : state) : step s s' -> same_requests s s'.
Proof.
  intros [He|[Hc|Hd]].
  - destruct He as [s r Hr|s r e Hr|s k c Hk|s now|s]; try (by apply keep_requests);
      try (by apply (update_requests s _ k c (cancel_call c))).
    all: split; [done|]; intros j x Hj; exists x; split; [|done]; by apply lookup_app_l_Some.
  - destruct Hc; (eapply update_requests; [eassumption|reflexivity|reflexivity|reflexivity]).
  - destruct Hd as [s k rest|s|s k c|s k c pc pc' r w Hd Hk Hj|s k c]; try (by apply keep_requests).
    apply (update_requests s _ k c (push_option c r)); try done; [by destruct r|].
    by eapply job_step_config.
Qed.

Lemma requests_keep (s s' : state) (q : list nat) :
  same_requests s s' -> Forall (fun k => is_Some (st_calls s !! k)) q ->
  Forall (fun k => is_Some (st_calls s' !! k)) q.
Proof.
  intros [_ Hs] Hq. eapply list.Forall_impl; [exact Hq|]. intros k [c Hk]. destruct (Hs k c Hk) as (c' & -> & _). eauto.
Qed.

Lemma step_indices (s s' : state) : indices_ok s -> step s s' -> indices_ok s'.
Proof.
  intros Hi Hs. pose proof (step_requests s s' Hs) as Hr. unfold indices_ok in *.
  pose proof (requests_keep s s' _ Hr Hi) as Hk.
  destruct Hs as [He|[Hc|Hd]].
  - by destruct He.
  - destruct Hc as [s k c Hc Hp Hl| | | | | | | | |]; try exact Hk.
    apply Forall_app in Hk as [Hq Hb]. apply Forall_app. split; [|exact Hb].
    apply Forall_app. split; [exact Hq|]. apply Forall_cons_2; [|apply Forall_nil_2].
    destruct Hr as [_ Hr]. destruct (Hr k c Hc) as (c' & -> & _). eauto.
  - destruct Hd as [s k rest Hd Hq|s Hd _|s k c Hd _|s k c pc pc' r w Hd Hc Hj|s k c Hd Hc];
      rewrite Hd in Hk; simpl in Hk |- *; try exact Hk.
    + rewrite app_nil_r, Hq in Hk. apply list.Forall_cons in Hk as [Hk Hrest].
      apply Forall_app. split; [exact Hrest|by apply Forall_cons_2].
    + apply Forall_app in Hk as [Hk _]. by rewrite app_nil_r.
Qed.

Lemma abs_disp_same (s s' : state) :
  same_requests s s' -> indices_ok s -> st_disp s' = st_disp s -> abs_disp s' = abs_disp s.
Proof.
  intros Hr Hi Hd. apply Forall_app in Hi as [_ Hb]. unfold abs_disp. rewrite Hd.
  destruct (st_disp s); simpl in Hb; try done;
    apply list.Forall_cons in Hb as [Hk _]; by rewrite (work_at_same s s').
Qed.

Lemma queue_same (s s' : state) :
  same_requests s s' -> indices_ok s -> work_at s' <$> st_queue s = work_at s <$> st_queue s.
Proof. intros Hr [Hq _]%Forall_app. by apply works_same. Qed.

(** A step that the accounting does not see. *)
Lemma implements_same (s s' : state) (a : MockWorker.system) :
  implements s a -> same_requests s s' -> indices_ok s -> st_worker s' = st_worker s ->
  st_queue s' = st_queue s -> st_disp s' = st_disp s -> counted_works s' ≡ₚ counted_works s ->
  implements s' a.
Proof.
  intros [H1 H2 H3 H4] Hr Hi Hw Hq Hd He. split.
  - congruence.
  - by rewrite He.
  - rewrite Hq, H3. symmetry. by apply queue_same.
  - rewrite H4. symmetry. by apply abs_disp_same.
Qed.

Definition simulated (a : MockWorker.system) (s' : state) : Prop :=
  exists a', (a' = a \/ MockWorker.step a a') /\ implements s' a'.

Lemma simulated_same (s s' : state) (a : MockWorker.system) :
  implements s a -> same_requests s s' -> indices_ok s -> st_worker s' = st_worker s ->
  st_queue s' = st_queue s -> st_disp s' = st_disp s -> counted_works s' ≡ₚ counted_works s ->
  simulated a s'.
Proof. intros. exists a. split; [by left|]. by eapply implements_same. Qed.

Lemma env_simulated (s s' : state) (a : MockWorker.system) :
  implements s a -> indices_ok s -> env_step s s' -> simulated a s'.
Proof.
  intros Ha Hi He. pose proof (step_requests _ _ (by_env _ _ He)) as Hr.
  destruct He as [s r Hok|s r e Herr|s k c Hk|s now|s].
  - destruct Ha as [H1 H2 H3 H4].
    eexists. split; [right; apply (step_enter a (work_of (st_worker s) r)), work_of_u64|].
    split; cbn [sy_worker entering queue disp].
    + by rewrite H1.
    + rewrite H2. unfold counted_works. cbn [set_worker add_call st_worker st_calls].
      rewrite (counted_work_config (st_worker s) (addWaiting _ _)) by done. rewrite omap_app. csimpl.
      solve_Permutation.
    + rewrite H3. symmetry. exact (queue_same s _ Hr Hi).
    + rewrite H4. symmetry. exact (abs_disp_same s _ Hr Hi eq_refl).
  - eapply simulated_same; try done. unfold counted_works. cbn [add_call st_worker st_calls].
    rewrite omap_app. csimpl. by rewrite app_nil_r.
  - eapply simulated_same; try done. by eapply update_same.
  - destruct Ha as [H1 H2 H3 H4]. eexists. split; [right; apply (step_report a now)|].
    split; cbn [sy_worker entering queue disp].
    + by rewrite H1.
    + rewrite H2. unfold counted_works. cbn [set_worker st_worker st_calls].
      by rewrite (counted_work_config (st_worker s) (nextState _ _).1).
    + rewrite H3. symmetry. exact (queue_same s _ Hr Hi).
    + rewrite H4. symmetry. exact (abs_disp_same s _ Hr Hi eq_refl).
  - by eapply simulated_same.
Qed.

(** A call that leaves the counted ones. *)
Lemma counted_leaves (s s' : state) (a : MockWorker.system) (k : nat) (c c' : call) :
  implements s a -> st_calls s !! k = Some c -> st_calls s' = <[k := c']> (st_calls s) ->
  mw_config (st_worker s') = mw_config (st_worker s) -> k_phase c = Counted -> k_phase c' <> Counted ->
  exists rest, entering a ≡ₚ work_of (st_worker s) (k_request c) :: rest /\ rest ≡ₚ counted_works s'.
Proof.
  intros [_ He _ _] Hk Hc Hw Hp Hp'. destruct (update_counted s s' k c c' Hk Hc Hw) as (l & H1 & H2).
  assert (counted_work (st_worker s) c = Some (work_of (st_worker s) (k_request c))) as E
    by (unfold counted_work; by rewrite Hp).
  assert (counted_work (st_worker s) c' = None) as E' by (unfold counted_work; by destruct (k_phase c')).
  rewrite E in H1. rewrite E' in H2. exists l. by rewrite He, H1, H2.
Qed.

Lemma refused_simulated (s : state) (a : MockWorker.system) (k : nat) (c : call) (e : GoError) :
  implements s a -> indices_ok s -> st_calls s !! k = Some c -> k_phase c = Counted ->
  simulated a (set_worker (set_call s k (set_phase c (Returned (Some e))))
    (removeWaiting (st_worker s) (work_of (st_worker s) (k_request c)))).
Proof.
  intros Ha Hi Hk Hp.
  match goal with |- simulated a ?x => set (s' := x) end.
  assert (same_requests s s') as Hr by by eapply (update_requests s s' k c (set_phase c (Returned (Some e)))).
  destruct (counted_leaves s s' a k c (set_phase c (Returned (Some e))) Ha Hk) as (rest & H1 & H2); try done.
  destruct Ha as [E1 E2 E3 E4]. eexists. split; [right; exact (step_refuse a (work_of (st_worker s) (k_request c)) rest H1)|].
  split; cbn [sy_worker entering queue disp].
  - by rewrite E1.
  - done.
  - rewrite E3. symmetry. exact (queue_same s s' Hr Hi).
  - rewrite E4. symmetry. exact (abs_disp_same s s' Hr Hi eq_refl).
Qed.

Lemma set_call_simulated (s : state) (a : MockWorker.system) (k : nat) (c c' : call) :
  implements s a -> indices_ok s -> st_calls s !! k = Some c -> k_request c' = k_request c ->
  (k_phase c' = Counted <-> k_phase c = Counted) -> simulated a (set_call s k c').
Proof.
  intros Ha Hi Hk Hr Hp. eapply simulated_same; try done.
  - by eapply update_requests.
  - by eapply update_same.
Qed.

Lemma call_simulated (s s' : state) (a : MockWorker.system) :
  implements s a -> indices_ok s -> call_step s s' -> simulated a s'.
Proof.
  intros Ha Hi Hc. pose proof (step_requests _ _ (by_own _ _ (own_call _ _ Hc))) as Hr.
  destruct Hc as [s k c Hk Hp Hl|s k c e Hk Hp Hd He|s k c Hk Hp Hd Hl|s k c e Hk Hp He|s k c x last Hk Hp He
    |s k c x last Hk Hp|s k c x last e Hk Hp Hd He|s k c e Hk Hp Hd He|s k c Hk Hp Hst|s k c Hk Hd Hor];
    try (by apply refused_simulated);
    try (apply (set_call_simulated s a k c); [done..|]; simpl; rewrite ?Hp; first [done|by split|by destruct last]).
  match goal with |- simulated a ?x => set (s' := x) in * end.
  destruct (counted_leaves s s' a k c (set_phase c Reading) Ha Hk) as (rest & H1 & H2); try done.
  destruct Ha as [E1 E2 E3 E4]. eexists. split; [right; apply (step_enqueue a (work_of (st_worker s) (k_request c)) rest H1)|].
  - rewrite E3, length_fmap, E1. exact Hl.
  - split; cbn [sy_worker entering queue disp].
    + by rewrite E1.
    + done.
    + unfold s'. cbn [set_queue st_queue]. rewrite fmap_app. csimpl. f_equal.
      * rewrite E3. symmetry. exact (queue_same s s' Hr Hi).
      * rewrite (work_at_same s s') by (done || by eexists). unfold work_at. by rewrite Hk.
    + rewrite E4. symmetry. exact (abs_disp_same s s' Hr Hi eq_refl).
Qed.

(** What the dispatcher does to the worker of the abstraction. *)
Lemma job_simulated (s : state) (a : MockWorker.system) (k : nat) (c : call) (pc pc' : job_pc)
    (r : option job_result) (w : Worker) (canceled room : bool) :
  implements s a -> st_disp s = DJob k pc ->
  job_step (st_worker s) (k_request c) canceled room pc pc' r w ->
  exists a', (a' = a \/ MockWorker.step a a') /\
    a' = {| sy_worker := w; entering := entering a; queue := queue a; disp := disp a |}.
Proof.
  intros [E1 _ _ E4] Hd Hj.
  assert (exists x, disp a = Running x) as [x Hx] by (rewrite E4; unfold abs_disp; rewrite Hd; eauto).
  assert (a = {| sy_worker := st_worker s; entering := entering a; queue := queue a; disp := disp a |}) as Ea
    by (rewrite <- E1; by destruct a).
  destruct Hj; try (exists a; split; [by left|exact Ea]).
  - eexists. split; [right; exact (step_fail a x Hx)|]. by rewrite E1.
  - eexists. split; [right; eapply (step_cache a x); exact Hx|]. by rewrite E1.
Qed.

Lemma dispatch_simulated (s s' : state) (a : MockWorker.system) :
  implements s a -> indices_ok s -> dispatch_step s s' -> simulated a s'.
Proof.
  intros Ha Hi Hds. pose proof (step_requests _ _ (by_own _ _ (own_dispatch _ _ Hds))) as Hr.
  pose proof (queue_same s s' Hr Hi) as Hqs.
  destruct Hds as [s k rest Hd Hq|s Hd Hst|s k c Hd Hk|s k c pc pc' r w Hd Hk Hj|s k c Hd Hk];
    pose proof Ha as [E1 E2 E3 E4]; unfold abs_disp in E4; rewrite Hd in E4.
  - rewrite Hq in E3, Hqs. csimpl in E3. eexists. split; [right; eapply (step_pop a); [exact E4|exact E3]|].
    by split.
  - exists a. split; [by left|]. by split.
  - assert (work_at s k = work_of (st_worker s) (k_request c)) as Ew by (unfold work_at; by rewrite Hk).
    rewrite Ew in E4. eexists. split; [right; eapply (step_start a); exact E4|].
    split; cbn [sy_worker entering queue disp]; [by rewrite E1| |by rewrite E3|].
    + rewrite E2. unfold counted_works. simpl. by rewrite (counted_work_config (st_worker s) (moveToRunning _ _)).
    + unfold abs_disp, work_at. simpl. by rewrite Hk.
  - destruct (job_simulated s a k c pc pc' r w _ _ Ha Hd Hj) as (a' & Hstep & ->).
    pose proof (job_step_config _ _ _ _ _ _ _ _ Hj) as Hw.
    eexists. split; [exact Hstep|]. split; cbn [sy_worker entering queue disp]; [done| |by rewrite E3|].
    + rewrite E2. symmetry. eapply (update_same s _ k c (push_option c r)); try done; by destruct r.
    + rewrite E4. unfold abs_disp. simpl. f_equal. symmetry. by apply (work_at_same s _ k Hr).
  - assert (work_at s k = work_of (st_worker s) (k_request c)) as Ew by (unfold work_at; by rewrite Hk).
    rewrite Ew in E4. eexists. split; [right; eapply (step_finish a); exact E4|].
    split; cbn [sy_worker entering queue disp]; [by rewrite E1| |by rewrite E3|done].
    rewrite E2. unfold counted_works. simpl. by rewrite (counted_work_config (st_worker s) (finishRunning _ _)).
Qed.

Lemma step_simulated (s s' : state) (a : MockWorker.system) :
  implements s a -> indices_ok s -> step s s' -> simulated a s'.
Proof.
  intros Ha Hi [He|[Hc|Hd]]; [by eapply env_simulated|by eapply call_simulated|by eapply dispatch_simulated].
Qed.

(** The works that wait, wherever they are, and that they fit the counters. *)
Definition waiting_works (s : state) : list Z :=
  counted_works s ++ (work_at s <$> st_queue s) ++ popped (abs_disp s).

Definition fitting (s : state) : Prop :=
  Z.of_nat (length (waiting_works s)) + 1 < 2 ^ 32 /\ sum_list_Z (waiting_works s) < 2 ^ 64.

Lemma implements_waiting (s : state) (a : MockWorker.system) :
  implements s a -> waiting a ≡ₚ waiting_works s.
Proof. intros [_ E2 E3 E4]. unfold waiting, waiting_works. by rewrite E2, E3, E4. Qed.

Lemma implements_fits (s : state) (a : MockWorker.system) : implements s a -> fitting s -> fits a.
Proof. intros Ha%implements_waiting [H1 H2]. unfold fits. by rewrite Ha. Qed.

Definition reachable_fitting (cfg : Config.WorkerConfig) (s : state) : Prop :=
  exists w, New cfg = Ok w /\ rtc (fun s s' => step s s' /\ fitting s') (start w) s.

Lemma run_implements (cfg : Config.WorkerConfig) (s : state) :
  reachable_fitting cfg s -> exists a, MockWorker.reachable cfg a /\ implements s a.
Proof.
  intros (w & Hn & Hr).
  enough (indices_ok s /\ exists a, MockWorker.reachable cfg a /\ implements s a) as [_ ?] by done.
  revert s Hr. refine (rtc_ind_r (fun s => indices_ok s /\ exists a, MockWorker.reachable cfg a /\ implements s a)
    (start w) _ _).
  { split; [apply Forall_nil_2|]. exists {| sy_worker := w; entering := []; queue := []; disp := Idle |}.
    split; [|by split]. by exists w. }
  intros s s' _ [Hs Hf] [Hi (a & (w' & Hn' & Ha) & Him)]. split; [by eapply step_indices|].
  destruct (step_simulated s s' a Him Hi Hs) as (a' & [->|Hstep] & Him'); [by exists a; split; [exists w'|]|].
  exists a'. split; [|done]. exists w'. split; [done|]. eapply rtc_r; [exact Ha|]. split; [done|].
  by eapply implements_fits.
Qed.

(** ** Coming to rest *)
(** Every call has returned, and the dispatcher waits for the next or has exited. *)
Record settled (s : state) : Prop := {
  se_calls : forall k c, st_calls s !! k = Some c -> exists e, k_phase c = Returned e;
  se_running : st_stopped s = false -> st_disp s = DIdle /\ st_queue s = [];
  se_stopped : st_stopped s = true -> st_disp s = DExited;
}.

(** C24: The running worker implements the system of counters: in every run in which
    fewer than 2^32 - 1 calls with less than 2^64 tokens of work wait at any time, which
    [addWaiting] does not check, whatever the goroutines do, its state is one that the accounting reaches, the counters that it reports
    are the number and the work of its calls that have counted themselves, are
    queued or are popped and of the job that runs, and a worker all of whose work
    is done reports none. *)
Theorem run_accounting (cfg : Config.WorkerConfig) (s : state) :
  reachable_fitting cfg s ->
  let st := mw_state (st_worker s) in
  (exists a, MockWorker.reachable cfg a /\ implements s a) /\
  WaitingRequestCount st = Z.of_nat (length (waiting_works s)) /\
  WaitingTokenCount st = sum_list_Z (waiting_works s) /\
  RunningRequestCount st = (if st_disp s is DJob _ _ then 1 else 0) /\
  RunningWorkTokens st = (if st_disp s is DJob k _ then work_at s k else 0) /\
  (settled s -> st_stopped s = false ->
     WaitingRequestCount st = 0 /\ WaitingTokenCount st = 0 /\ RunningRequestCount st = 0 /\ RunningWorkTokens st = 0).
Proof.
  intros (a & Ha & Him)%run_implements. cbn zeta. pose proof (reachable_counted cfg a Ha) as [Hc _].
  apply (counted_perm _ _ _ _ (implements_waiting s a Him)) in Hc.
  rewrite (im_worker _ _ Him), (im_disp _ _ Him) in Hc. destruct Hc as [H1 H2 H3 H4].
  assert (RunningRequestCount (mw_state (st_worker s)) = (if st_disp s is DJob _ _ then 1 else 0) /\
    RunningWorkTokens (mw_state (st_worker s)) = (if st_disp s is DJob k _ then work_at s k else 0)) as [E3 E4].
  { rewrite H3, H4. unfold abs_disp. destruct (st_disp s); simpl; split; try done. lia. }
  split_and!; try done; [by exists a|]. intros [Hcalls Hrun _] Hst. destruct (Hrun Hst) as [Hd Hq].
  rewrite E3, E4, H1, H2. unfold waiting_works, abs_disp. rewrite Hd, Hq. simpl. rewrite app_nil_r.
  assert (counted_works s = []) as ->; [|done].
  unfold counted_works. apply elem_of_nil_inv. intros x (c & Hin & Hx)%list_elem_of_omap.
  apply list_elem_of_lookup in Hin as [k Hk]. destruct (Hcalls k c Hk) as [e He].
  unfold counted_work in Hx. by rewrite He in Hx.
Qed.

End Run.

Lemma reachable_fitting_reachable {T : TimestampPb} (out_of_range : float64 -> Z) (cfg : Config.WorkerConfig) (s : state) :
  reachable_fitting out_of_range cfg s -> reachable out_of_range cfg s.
Proof.
  intros (w & Hn & Hr). exists w. split; [done|]. eapply rtc_subrel; [|exact Hr]. by intros x y [? _].
Qed.

(** ** Witnesses *)
Section Witnesses.
#[local] Existing Instance SecondsNanos.

Definition ex_no_range (x : float64) : Z := 0.

(** A call for one token. *)
Definition ex_asked : Request :=
  {| r_ID := "req-1"; r_AttemptID := "req-1-a1"; TenantID := "public"; r_Model := "mock-llm";
     Messages := [ {| Role := "user"; Content := "hello" |} ];
     EstimatedInputToken := 2; ExpectedOutputToken := 1; MaxOutputTokens := 1; PrefixFingerprints := [];
     Deadline := 30000000200 |}.

Definition ex_generate : option (@pb_GenerateRequest SecondsNanos) := Some (RequestToProto ex_asked "w1").

Definition ex_token : Chunk := token_chunk (ex_fresh 0 0) ex_generate ex_clock 0.
Definition ex_last : Chunk := final_chunk (ex_fresh 0 0) ex_generate ex_clock 1 FinishLength.

(** The call has returned and its job is about to finish. *)
Definition ex_returned : @call SecondsNanos :=
  {| k_request := ex_generate; k_phase := Returned None; k_done := false; k_results := [];
     k_sent := [ex_token; ex_last]; k_pushed := [JChunk ex_token false; JChunk ex_last true] |}.

Definition ex_state_end : @state SecondsNanos :=
  {| st_worker := moveToRunning (addWaiting (ex_fresh 0 0) 12) 12; st_calls := [ex_returned]; st_queue := [];
     st_disp := DJob 0 AtEnd; st_stopped := false |}.

Ltac run_step t := eapply rtc_l; [split; [t|by vm_compute]|].
Ltac run_own t := run_step ltac:(apply by_own, own_call; eapply (t _ _ 0%nat); [reflexivity..|vm_compute; congruence]).
Ltac run_call t := run_step ltac:(apply by_own, own_call; eapply (t _ _ 0%nat); reflexivity).
Ltac run_disp t := run_step ltac:(apply by_own, own_dispatch; eapply t; reflexivity).
Ltac run_job t := run_step ltac:(apply by_own, own_dispatch; eapply (disp_job _ _ 0%nat); [reflexivity..|eapply t; vm_compute; try reflexivity; try congruence; try lia]).

Lemma ex_run_fitting : @reachable_fitting SecondsNanos ex_no_range (Config.ex_worker_config 0 0) ex_state_end.
Proof.
  exists (ex_fresh 0 0). split; [exact ex_fresh_new|].
  run_step ltac:(apply by_env; apply (env_call _ (start (ex_fresh 0 0)) ex_generate); vm_compute; reflexivity).
  run_own call_enqueue.
  run_disp disp_pop.
  run_disp disp_start.
  run_job job_prefilled.
  run_job job_begin.
  run_job (job_decoded ex_no_range (moveToRunning (addWaiting (ex_fresh 0 0) 12) 12) ex_generate false true 0 (ex_clock 0)).
  run_job job_send_token.
  run_call call_take_chunk.
  run_call call_sent.
  run_job (job_complete ex_no_range (moveToRunning (addWaiting (ex_fresh 0 0) 12) 12) ex_generate false true 1 (ex_clock 1)).
  run_job job_send_last.
  run_call call_take_chunk.
  run_call call_sent.
  apply rtc_refl.
Qed.

Lemma run_accounting_witness :
  RunningWorkTokens (mw_state (st_worker ex_state_end)) = 12 /\
  RunningWorkTokens (mw_state (st_worker ex_state_end)) = work_at ex_no_range ex_state_end 0.
Proof.
  split; [vm_compute; reflexivity|].
  apply (run_accounting ex_no_range (Config.ex_worker_config 0 0) ex_state_end ex_run_fitting).
Defined.

Lemma ex_run : reachable ex_no_range (Config.ex_worker_config 0 0) ex_state_end.
Proof. apply reachable_fitting_reachable, ex_run_fitting. Qed.
(** Outside of it: two calls of 2^63 tokens of work each make the counter of the
    waiting work wrap, and the worker with both of them waiting reports none. *)
Definition ex_huge : option (@pb_GenerateRequest SecondsNanos) :=
  Some (RequestToProto
    {| r_ID := "req-1"; r_AttemptID := "req-1-a1"; TenantID := "public"; r_Model := "mock-llm"; Messages := [];
       EstimatedInputToken := 2 ^ 63 - 10; ExpectedOutputToken := 1; MaxOutputTokens := 1; PrefixFingerprints := [];
       Deadline := 30000000200 |} "w1").

Definition ex_called (s : @state SecondsNanos) : state :=
  set_worker (add_call s (new_call ex_huge Counted)) (addWaiting (st_worker s) (work_of ex_no_range (st_worker s) ex_huge)).
Definition ex_wrapped : state := ex_called (ex_called (start (ex_fresh 0 0))).

Theorem waiting_work_wraps :
  reachable ex_no_range (Config.ex_worker_config 0 0) ex_wrapped /\
  waiting_works ex_no_range ex_wrapped = [2 ^ 63; 2 ^ 63] /\
  WaitingRequestCount (mw_state (st_worker ex_wrapped)) = 2 /\
  WaitingTokenCount (mw_state (st_worker ex_wrapped)) = 0.
Proof.
  split; [|split_and!; vm_compute; reflexivity]. exists (ex_fresh 0 0). split; [exact ex_fresh_new|].
  eapply rtc_l; [apply by_env, (env_call _ (start (ex_fresh 0 0)) ex_huge); vm_compute; reflexivity|].
  eapply rtc_l; [apply by_env, (env_call _ (ex_called (start (ex_fresh 0 0))) ex_huge); vm_compute; reflexivity|]. apply rtc_refl.
Qed.
End Witnesses.
