(* ===== verification/WorkerCalls.v ===== *)
(** * The calls of a running mock worker: [src/internal/mockworker/worker.go]

    What each call of [Generate] sends in the system of [WorkerRun], and that the
    system comes to rest: an invariant relates the channels, the job that runs and
    what the clients were sent to the results of an atomic job, and a measure
    bounds the steps that are left. *)

From S2P Require Import Prelude GoFloat GoString Model Examples Wire Protocol Stream MockWorker Generation WorkerRun.
From S2P Require Config.

#[local] Open Scope Z_scope.
#[local] Open Scope go_scope.

Section Run.
Context {T : TimestampPb} (out_of_range : float64 -> Z).

Abbreviation env_step := (WorkerRun.env_step out_of_range).
Abbreviation call_step := (WorkerRun.call_step out_of_range).
Abbreviation job_step := (WorkerRun.job_step out_of_range).
Abbreviation dispatch_step := (WorkerRun.dispatch_step out_of_range).
Abbreviation own_step := (WorkerRun.own_step out_of_range).
Abbreviation step := (WorkerRun.step out_of_range).
Abbreviation reachable := (WorkerRun.reachable out_of_range).

(** ** What a call sends *)
Section Outputs.
Context (w0 : Worker).

(** The job of a request never fails before token [i]. *)
Definition clean_until (i : nat) : Prop := forall j, (j < i)%nat -> fails_at w0 j = false.

Definition tokens_upto (request : option pb_GenerateRequest) (clock : nat -> Time) (i : nat) : list job_result :=
  token_results w0 request clock 0 i.

(** What a job may put in its channel in all. *)
Inductive job_output (request : option pb_GenerateRequest) : list job_result -> Prop :=
| out_tokens clock i :
    (i <= job_outputs request)%nat -> clean_until i -> job_output request (tokens_upto request clock i)
| out_before : job_output request [JErr injected_before]
| out_midstream clock i :
    (i < job_outputs request)%nat -> clean_until i -> fails_at w0 i = true ->
    job_output request (tokens_upto request clock i ++ [JErr injected_midstream])
| out_complete clock now :
    clean_until (job_outputs request) ->
    job_output request (tokens_upto request clock (job_outputs request) ++ [job_final w0 request now]).

(** The last chunk is the final one. *)
Definition flag_ok (r : job_result) : Prop :=
  match r with JChunk x last => last = Final x | JErr _ => True end.

Lemma job_output_flags (request : option pb_GenerateRequest) (rs : list job_result) :
  job_output request rs -> Forall flag_ok rs.
Proof.
  assert (forall clock i, Forall flag_ok (tokens_upto request clock i)) as Ht
    by (intros clock i; apply Forall_fmap, list.Forall_forall; done).
  destruct 1; [done| |apply Forall_app; split; [done|]..]; by apply Forall_cons_2; [|apply Forall_nil_2].
Qed.

Definition terminal (r : job_result) : Prop :=
  match r with JErr _ => True | JChunk _ last => last = true end.

(** What a job has put there when it stands at [pc]. *)
Definition pc_ok (request : option pb_GenerateRequest) (pushed : list job_result) (pc : job_pc) : Prop :=
  match pc with
  | AtPrefill | AtCheck => pushed = []
  | AtLoop i => exists clock, pushed = tokens_upto request clock i /\ (i <= job_outputs request)%nat /\ clean_until i
  | AtSend i _ => exists clock, pushed = tokens_upto request clock i /\ (i < job_outputs request)%nat /\
      clean_until (S i)
  | AtLast r => terminal r /\ job_output request pushed /\ job_output request (pushed ++ [r])
  | AtEnd => job_output request pushed
  end.

Lemma job_output_nil (request : option pb_GenerateRequest) : job_output request [].
Proof. apply (out_tokens request (fun _ => 0) 0); [lia|]. intros j Hj. lia. Qed.

Lemma tokens_snoc_at (request : option pb_GenerateRequest) (clock : nat -> Time) (i : nat) (now : Time) :
  exists clock', tokens_upto request clock' (S i) = tokens_upto request clock i ++ [job_token w0 request i now].
Proof.
  exists (fun j => if (j =? i)%nat then now else clock j). unfold tokens_upto, token_results.
  rewrite seq_S, fmap_app. csimpl. f_equal.
  - apply list_fmap_ext. intros j x Hx. apply lookup_seq in Hx as [-> Hj].
    unfold token_chunk. by rewrite (proj2 (Nat.eqb_neq _ _)) by lia.
  - unfold job_token, token_chunk. by rewrite Nat.eqb_refl.
Qed.

Lemma clean_S (i : nat) : clean_until i -> fails_at w0 i = false -> clean_until (S i).
Proof. intros Hc Hf j Hj. destruct (decide (j = i)) as [->|]; [done|]. apply Hc. lia. Qed.

(** The results of a worker of the same configuration. *)
Lemma fails_same (w : Worker) (i : nat) : mw_config w = mw_config w0 -> fails_at w i = fails_at w0 i.
Proof. unfold fails_at. by intros ->. Qed.

Lemma job_token_same (w : Worker) (request : option pb_GenerateRequest) (i : nat) (now : Time) :
  mw_config w = mw_config w0 -> job_token w request i now = job_token w0 request i now.
Proof. unfold job_token, token_chunk, token. by intros ->. Qed.

Lemma job_final_same (w : Worker) (request : option pb_GenerateRequest) (now : Time) :
  mw_config w = mw_config w0 -> job_final w request now = job_final w0 request now.
Proof. unfold job_final, final_chunk. by intros ->. Qed.

(** A step of the job keeps [pc_ok], and it ends uncanceled only after it has
    put a terminal result in the channel. *)
Lemma job_step_pushed (w w' : Worker) (request : option pb_GenerateRequest) (canceled room : bool)
    (pc pc' : job_pc) (r : option job_result) (pushed : list job_result) :
  mw_config w = mw_config w0 -> job_step w request canceled room pc pc' r w' -> pc_ok request pushed pc ->
  pc_ok request (pushed ++ option_list r) pc' /\ (is_Some r -> room = true) /\
  (pc' = AtEnd -> canceled = true \/ exists x, r = Some x /\ terminal x).
Proof.
  intros Hw Hj Hp.
  destruct Hj as [|Hc Hd|Hf|Hf|i Hi Hf|i now Hi Hf|i Hi Hf Hc Hd|i now Hr|i now Hc|i now Hi|x Hr|x Hc];
    cbn [option_list]; rewrite ?app_nil_r; rewrite ?(fails_same w) in * by done.
  - by split_and!; [|intros [? ?]|].
  - simpl in Hp. subst pushed. split_and!; [apply job_output_nil|by intros [? ?]|by left].
  - simpl in *. subst pushed. split_and!; [done|apply job_output_nil|apply out_before|by intros [? ?]|done].
  - simpl in *. subst pushed. split_and!; [|by intros [? ?]|done].
    exists (fun _ => 0). split_and!; [done|lia|]. intros j Hj. lia.
  - destruct Hp as (clock & -> & Hi' & Hcl). cbn [pc_ok]. split_and!; [done| | |by intros [? ?]|done].
    + by apply out_tokens.
    + by apply out_midstream.
  - destruct Hp as (clock & -> & Hi' & Hcl). split_and!; [|by intros [? ?]|done].
    exists clock. split_and!; [done..|by apply clean_S].
  - destruct Hp as (clock & -> & Hi' & Hcl). split_and!; [by apply out_tokens|by intros [? ?]|by left].
  - destruct Hp as (clock & -> & Hi' & Hcl). split_and!; [|done|done].
    rewrite (job_token_same w) by done. destruct (tokens_snoc_at request clock i now) as (clock' & Hs).
    exists clock'. split_and!; [done|lia|done].
  - destruct Hp as (clock & -> & Hi' & Hcl). split_and!; [|by intros [? ?]|by left].
    apply out_tokens; [lia|]. intros j Hj. apply Hcl. lia.
  - destruct Hp as (clock & -> & Hi' & Hcl). assert (i = job_outputs request) as -> by lia.
    rewrite (job_final_same w) by done. cbn [pc_ok]. split_and!; [done| | |by intros [? ?]|done].
    + by apply out_tokens.
    + by apply out_complete.
  - destruct Hp as (Ht & Ho & Hx). split_and!; [exact Hx|done|]. intros _. right. eauto.
  - destruct Hp as (Ht & Ho & Hx). split_and!; [exact Ho|by intros [? ?]|by left].
Qed.
Definition results_of (cs : list Chunk) : list job_result := (fun x => JChunk x (Final x)) <$> cs.

Definition token_chunks (cs : list Chunk) : Prop := Forall (fun x => Final x = false) cs.

(** The channel and the client hold what the job put there, in order. *)
Definition sent_ok (c : call) : Prop :=
  match k_phase c with
  | Counted => k_pushed c = [] /\ k_sent c = [] /\ k_results c = []
  | Reading => k_pushed c = results_of (k_sent c) ++ k_results c /\ token_chunks (k_sent c)
  | Sending x last => k_pushed c = results_of (k_sent c) ++ JChunk x last :: k_results c /\ token_chunks (k_sent c)
  | Returned None => exists cs x, k_sent c = cs ++ [x] /\ Final x = true /\ token_chunks cs /\
      results_of (k_sent c) `prefix_of` k_pushed c
  | Returned (Some e) => token_chunks (k_sent c) /\ results_of (k_sent c) `prefix_of` k_pushed c /\
      (results_of (k_sent c) ++ [JErr e] `prefix_of` k_pushed c \/ is_status e)
  end.

Record call_ok (c : call) : Prop := {
  co_room : (length (k_results c) <= 1)%nat;
  co_pushed : job_output (k_request c) (k_pushed c);
  co_sent : sent_ok c;
  co_check : match check_request w0 (k_request c) with
             | Ok _ => True
             | Err e => k_phase c = Returned (Some e) /\ k_sent c = []
             end;
}.

(** A call that waits for a result it has not got yet. *)
Definition owed (c : call) : Prop :=
  match k_phase c with Reading | Sending _ false => True | _ => False end.

(** A call that has entered the queue and has nothing from its job. *)
Definition fresh (s : state) (k : nat) : Prop :=
  exists c, st_calls s !! k = Some c /\ k_phase c <> Counted /\ k_pushed c = [].

Definition disp_ok (s : state) : Prop :=
  match st_disp s with
  | DIdle | DExited => True
  | DPopped k => fresh s k
  | DJob k pc => exists c, st_calls s !! k = Some c /\ k_phase c <> Counted /\ pc_ok (k_request c) (k_pushed c) pc
  end.

(** The dispatcher still has results for the call. *)
Definition served (s : state) (k : nat) : Prop :=
  k ∈ st_queue s \/ st_disp s = DPopped k \/ exists pc, st_disp s = DJob k pc /\ pc <> AtEnd.

Record run_ok (s : state) : Prop := {
  ro_config : mw_config (st_worker s) = mw_config w0;
  ro_calls : forall k c, st_calls s !! k = Some c -> call_ok c;
  ro_nodup : NoDup (st_queue s ++ busy_with (st_disp s));
  ro_queue : forall k, k ∈ st_queue s -> fresh s k;
  ro_disp : disp_ok s;
  ro_owed : forall k c, st_calls s !! k = Some c -> owed c -> k_done c = false -> st_stopped s = false ->
    served s k \/ exists r, k_results c = [r] /\ terminal r;
  ro_exited : st_disp s = DExited -> st_stopped s = true;
}.

(** ** Frames *)
Lemma set_call_lookup (s : state) (k j : nat) (c c' x : call) :
  st_calls s !! k = Some c -> st_calls (set_call s k c') !! j = Some x ->
  (j = k /\ x = c') \/ (j <> k /\ st_calls s !! j = Some x).
Proof.
  intros Hk. simpl. intros H. apply list_lookup_insert_Some in H as [(-> & -> & _)|[Hne Hj]]; [by left|].
  right. by split; [congruence|].
Qed.

Lemma fresh_set (s : state) (k j : nat) (c c' : call) :
  st_calls s !! k = Some c -> k_pushed c' = k_pushed c -> (k_phase c <> Counted -> k_phase c' <> Counted) ->
  fresh s j -> fresh (set_call s k c') j.
Proof.
  intros Hk Hp Hc (x & Hx & Hx1 & Hx2). unfold fresh. simpl. destruct (decide (j = k)) as [->|Hne].
  - rewrite list_lookup_insert_eq by by eapply lookup_lt_Some. simplify_eq. exists c'. rewrite Hp. by split_and!; [|apply Hc|].
  - rewrite list_lookup_insert_ne by done. by exists x.
Qed.

Lemma run_ok_set_call (s : state) (k : nat) (c c' : call) :
  run_ok s -> st_calls s !! k = Some c -> k_request c' = k_request c -> k_pushed c' = k_pushed c ->
  (k_phase c <> Counted -> k_phase c' <> Counted) -> call_ok c' ->
  (owed c' -> k_done c' = false -> st_stopped s = false ->
     served s k \/ exists r, k_results c' = [r] /\ terminal r) ->
  run_ok (set_call s k c').
Proof.
  intros [H1 H2 H3 H4 H5 H6 H7] Hk Hr Hp Hc Hok Ho. split; try done.
  - intros j x Hj. destruct (set_call_lookup _ _ _ _ _ _ Hk Hj) as [[_ ->]|[_ Hx]]; [done|by eapply H2].
  - intros j Hj. eapply fresh_set; [done..|by apply H4].
  - unfold disp_ok in *. cbn [set_call st_disp]. destruct (st_disp s) as [|j|j pc|]; try done.
    + by eapply fresh_set.
    + destruct H5 as (x & Hx & Hx1 & Hx2). simpl. destruct (decide (j = k)) as [->|Hne].
      * rewrite list_lookup_insert_eq by by eapply lookup_lt_Some. simplify_eq. exists c'.
        rewrite Hr, Hp. by split_and!; [|apply Hc|].
      * rewrite list_lookup_insert_ne by done. by exists x.
  - intros j x Hj Hx Hd Hst. destruct (set_call_lookup _ _ _ _ _ _ Hk Hj) as [[-> ->]|[_ Hx']]; [by apply Ho|].
    by apply (H6 j x).
Qed.

Lemma run_ok_worker (s : state) (w : Worker) :
  mw_config w = mw_config (st_worker s) -> run_ok s -> run_ok (set_worker s w).
Proof. intros Hw [H1 H2 H3 H4 H5 H6 H7]. split; try done. simpl. congruence. Qed.

Lemma run_ok_add (s : state) (c : call) : run_ok s -> call_ok c -> ~ owed c -> run_ok (add_call s c).
Proof.
  intros [H1 H2 H3 H4 H5 H6 H7] Hok Ho.
  assert (forall k x, st_calls s !! k = Some x -> st_calls (add_call s c) !! k = Some x) as Hl
    by (intros; by apply lookup_app_l_Some).
  assert (forall k x, st_calls (add_call s c) !! k = Some x -> st_calls s !! k = Some x \/ x = c) as Hl'.
  { intros k x. simpl. rewrite lookup_app_Some. intros [?|[_ Hx]]; [by left|].
    apply list_lookup_singleton_Some in Hx as [_ <-]. by right. }
  split; try done.
  - intros k x [Hk| ->]%Hl'; [by eapply H2|done].
  - intros k (x & Hx & ?)%H4. exists x. split; [by apply Hl|done].
  - unfold disp_ok in *. cbn [add_call st_disp]. destruct (st_disp s) as [|j|j pc|]; try done;
      destruct H5 as (x & Hx & ?); exists x; (split; [by apply Hl|done]).
  - intros k x [Hk| ->]%Hl' Hx Hd Hst; [|done]. by apply (H6 k x).
Qed.

(** A call that changes only its phase, with nothing owed afterwards. *)
Lemma call_ok_phase (c : call) (p : call_phase) :
  call_ok c -> is_ok (check_request w0 (k_request c)) = true -> sent_ok (set_phase c p) -> call_ok (set_phase c p).
Proof.
  intros [H1 H2 H3 H4] Hok Hs. split; try done. simpl. by destruct (check_request w0 (k_request c)).
Qed.

(** A call that was let through, when it has not been refused at once. *)
Lemma call_checked (c : call) :
  call_ok c -> (forall e, k_phase c <> Returned (Some e)) -> is_ok (check_request w0 (k_request c)) = true.
Proof.
  intros [_ _ _ Hc] Hp. destruct (check_request w0 (k_request c)); [done|]. destruct Hc as [Hc _]. by destruct (Hp e).
Qed.

Lemma check_same (w : Worker) (request : option pb_GenerateRequest) :
  mw_config w = mw_config w0 -> check_request w request = check_request w0 request.
Proof. unfold check_request. by intros ->. Qed.

Lemma cancel_ok (c : call) : call_ok c -> call_ok (cancel_call c).
Proof. intros [H1 H2 H3 H4]. by split. Qed.

Lemma run_ok_cancel (s : state) (k : nat) (c : call) :
  run_ok s -> st_calls s !! k = Some c -> run_ok (set_call s k (cancel_call c)).
Proof.
  intros Hs Hk. pose proof (ro_calls _ Hs k c Hk) as Hc.
  eapply run_ok_set_call; try done. by apply cancel_ok.
Qed.

Lemma env_run_ok (s s' : state) : run_ok s -> env_step s s' -> run_ok s'.
Proof.
  intros Hs He. pose proof (ro_config _ Hs) as Hw.
  destruct He as [s r Hok|s r e Herr|s k c Hk|s now|s].
  - apply run_ok_worker; [done|]. apply run_ok_add; [done| |by intros []].
    rewrite (check_same _ _ Hw) in Hok. split; simpl; [lia|apply job_output_nil|done|].
    by destruct (check_request w0 r).
  - apply run_ok_add; [done| |by intros []]. rewrite (check_same _ _ Hw) in Herr.
    split; simpl; [lia|apply job_output_nil| |by rewrite Herr].
    split_and!; [apply Forall_nil_2|done|]. right.
    unfold check_request, reject_if in Herr. repeat case_if; simpl in Herr; simplify_eq; by eexists _, _.
  - by apply run_ok_cancel.
  - by apply run_ok_worker.
  - destruct Hs as [H1 H2 H3 H4 H5 H6 H7]. by split.
Qed.

(** The phases in which a call with nothing more to come ends. *)
Lemma returns_ok (s : state) (k : nat) (c : call) (e : GoError) :
  run_ok s -> st_calls s !! k = Some c -> is_status e ->
  (k_phase c = Counted \/ k_phase c = Reading \/ exists x last, k_phase c = Sending x last) ->
  run_ok (set_call s k (set_phase c (Returned (Some e)))).
Proof.
  intros Hs Hk He Hp. pose proof (ro_calls _ Hs k c Hk) as Hc.
  eapply run_ok_set_call; try done. apply call_ok_phase; [done| |].
  - apply call_checked; [done|]. intros e' Hr. destruct Hp as [Hp|[Hp|(x & last & Hp)]]; congruence.
  - pose proof (co_sent _ Hc) as Hsent. unfold sent_ok in *. cbn [set_phase k_phase k_sent k_pushed].
    destruct Hp as [Hp|[Hp|(x & last & Hp)]]; rewrite Hp in Hsent.
    + destruct Hsent as (-> & -> & _). split_and!; [apply Forall_nil_2|done|by right].
    + destruct Hsent as [-> Ht]. split_and!; [done|by apply prefix_app_r|by right].
    + destruct Hsent as [-> Ht]. split_and!; [done|by apply prefix_app_r|by right].
Qed.

Lemma take_error_ok (s : state) (k : nat) (c : call) (e : GoError) :
  run_ok s -> st_calls s !! k = Some c -> k_phase c = Reading -> k_results c = [JErr e] ->
  run_ok (set_call s k (take_result c (Returned (Some e)))).
Proof.
  intros Hs Hk Hp Hr. pose proof (ro_calls _ Hs k c Hk) as Hc.
  eapply run_ok_set_call; try done. pose proof (call_checked c Hc) as Hch.
  destruct Hc as [H1 H2 H4 H5]. unfold sent_ok in H4. rewrite Hp in H4.
  split; simpl; [lia|done| |].
  - unfold sent_ok; simpl. destruct H4 as [E Ht]. rewrite E, Hr.
    split_and!; [done|by apply prefix_app_r|by left].
  - rewrite Hp in Hch. by destruct (check_request w0 (k_request c)); [|specialize (Hch ltac:(done))].
Qed.

Lemma take_chunk_ok (s : state) (k : nat) (c : call) (x : Chunk) (last : bool) :
  run_ok s -> st_calls s !! k = Some c -> k_phase c = Reading -> k_results c = [JChunk x last] ->
  run_ok (set_call s k (take_result c (Sending x last))).
Proof.
  intros Hs Hk Hp Hr. pose proof (ro_calls _ Hs k c Hk) as Hc.
  pose proof (call_checked c Hc) as Hch. rewrite Hp in Hch. specialize (Hch ltac:(done)).
  assert (owed (take_result c (Sending x last)) -> k_done c = false -> st_stopped s = false -> served s k) as Ho.
  { intros Hx Hd Hst. destruct last; [done|].
    destruct (ro_owed _ Hs k c Hk) as [?|(r & Hr' & Ht)]; [unfold owed; by rewrite Hp|done|done|done|].
    rewrite Hr in Hr'. by injection Hr' as <-. }
  eapply run_ok_set_call; try done; [|intros; left; by apply Ho].
  destruct Hc as [H1 H2 H4 H5]. unfold sent_ok in H4. rewrite Hp in H4.
  split; simpl; [lia|done| |by destruct (check_request w0 (k_request c))].
  unfold sent_ok; simpl. destruct H4 as [E Ht]. by rewrite E, Hr.
Qed.

Lemma sent_chunk_ok (s : state) (k : nat) (c : call) (x : Chunk) (last : bool) :
  run_ok s -> st_calls s !! k = Some c -> k_phase c = Sending x last ->
  run_ok (set_call s k (sent_chunk c x (if last then Returned None else Reading))).
Proof.
  intros Hs Hk Hp. pose proof (ro_calls _ Hs k c Hk) as Hc.
  pose proof (call_checked c Hc) as Hch. rewrite Hp in Hch. specialize (Hch ltac:(done)).
  assert (last = Final x) as Hl.
  { destruct Hc as [_ Hf%job_output_flags Hsent _]. unfold sent_ok in Hsent. rewrite Hp in Hsent.
    destruct Hsent as [E _]. rewrite E in Hf. apply Forall_app in Hf as [_ Hf]. by apply list.Forall_cons in Hf as [? _]. }
  eapply run_ok_set_call; try done; [by destruct last| |].
  - destruct Hc as [H1 H2 H4 H5]. unfold sent_ok in H4. rewrite Hp in H4. destruct H4 as [E Ht].
    split; [done|done| |by simpl; destruct (check_request w0 (k_request c))].
    assert (k_pushed c = results_of (k_sent c ++ [x]) ++ k_results c) as E'.
    { rewrite E. unfold results_of. rewrite fmap_app, <- app_assoc. simpl. by rewrite <- Hl. }
    unfold sent_ok; simpl. destruct last.
    + exists (k_sent c), x. split_and!; try done. rewrite E'. by apply prefix_app_r.
    + split; [done|]. apply Forall_app. split; [done|]. by apply Forall_cons_2; [|apply Forall_nil_2].
  - simpl. intros Ho Hd Hst. destruct last; [by destruct Ho|].
    destruct (ro_owed _ Hs k c Hk) as [?|?]; [unfold owed; by rewrite Hp|done|done|by left|by right].
Qed.

Lemma counted_not_busy (s : state) (k : nat) (c : call) :
  run_ok s -> st_calls s !! k = Some c -> k_phase c = Counted -> k ∉ st_queue s ++ busy_with (st_disp s).
Proof.
  intros [_ _ _ H4 H5 _ _] Hk Hp [Hq|Hb]%elem_of_app.
  - destruct (H4 k Hq) as (x & Hx & Hx1 & _). congruence.
  - unfold disp_ok in H5. destruct (st_disp s) as [|j|j pc|]; simpl in Hb; try by apply not_elem_of_nil in Hb.
    + apply list_elem_of_singleton in Hb as ->. destruct H5 as (x & Hx & Hx1 & _). congruence.
    + apply list_elem_of_singleton in Hb as ->. destruct H5 as (x & Hx & Hx1 & _). congruence.
Qed.

Lemma enqueue_ok (s : state) (k : nat) (c : call) :
  run_ok s -> st_calls s !! k = Some c -> k_phase c = Counted ->
  run_ok (set_queue (set_call s k (set_phase c Reading)) (st_queue s ++ [k])).
Proof.
  intros Hs Hk Hp. pose proof (counted_not_busy s k c Hs Hk Hp) as Hnb.
  pose proof (ro_calls _ Hs k c Hk) as Hc. pose proof (call_checked c Hc) as Hch.
  rewrite Hp in Hch. specialize (Hch ltac:(done)).
  pose proof (co_sent _ Hc) as Hsent. unfold sent_ok in Hsent. rewrite Hp in Hsent.
  destruct Hsent as (E1 & E2 & E3).
  assert (forall j, fresh s j -> fresh (set_call s k (set_phase c Reading)) j) as Hf
    by (intros j Hj; by eapply fresh_set).
  assert (fresh (set_call s k (set_phase c Reading)) k) as Hfk.
  { eexists. simpl. rewrite list_lookup_insert_eq by by eapply lookup_lt_Some. by split_and!. }
  pose proof Hs as [H1 H2 H3 H4 H5 H6 H7]. split; try done.
  - intros j x Hj. destruct (set_call_lookup _ _ _ _ _ _ Hk Hj) as [[_ ->]|[_ Hx]]; [|by eapply H2].
    apply call_ok_phase; [done..|]. unfold sent_ok; simpl. rewrite E1, E2, E3. split; [done|apply Forall_nil_2].
  - cbn [set_queue set_call st_queue st_disp]. rewrite <- app_assoc. simpl.
    rewrite <- Permutation_middle. by apply list.NoDup_cons.
  - intros j [Hj|Hj]%elem_of_app; [by apply Hf, H4|]. by apply list_elem_of_singleton in Hj as ->.
  - unfold disp_ok in *. cbn [set_queue set_call st_disp]. destruct (st_disp s) as [|j|j pc|] eqn:Ed; try done.
    + by apply Hf.
    + destruct H5 as (x & Hx & Hx1 & Hx2). exists x. split; [|done]. simpl.
      rewrite list_lookup_insert_ne; [done|]. intros ->. apply Hnb, elem_of_app. right. simpl. by left.
  - intros j x Hj Hx Hd Hst. destruct (set_call_lookup _ _ _ _ _ _ Hk Hj) as [[-> ->]|[_ Hx']].
    + left. left. apply elem_of_app. right. by left.
    + destruct (H6 j x Hx' Hx Hd Hst) as [[Hq|?]|?]; [|by left; right|by right].
      left. left. apply elem_of_app. by left.
Qed.

Lemma call_run_ok (s s' : state) : run_ok s -> call_step s s' -> run_ok s'.
Proof.
  intros Hs Hc.
  destruct Hc as [s k c Hk Hp Hl|s k c e Hk Hp Hd He|s k c Hk Hp Hd Hl|s k c e Hk Hp He|s k c x last Hk Hp He
    |s k c x last Hk Hp|s k c x last e Hk Hp Hd He|s k c e Hk Hp Hd He|s k c Hk Hp Hst|s k c Hk Hd Hor].
  - by apply enqueue_ok.
  - apply run_ok_worker; [done|]. apply returns_ok; auto.
  - apply run_ok_worker; [done|]. apply returns_ok; auto. by eexists _, _.
  - by apply take_error_ok.
  - by apply take_chunk_ok.
  - by eapply sent_chunk_ok.
  - apply returns_ok; eauto.
  - apply returns_ok; auto.
  - apply returns_ok; auto. by eexists _, _.
  - by apply run_ok_cancel.
Qed.


(** ** The dispatcher *)
Lemma pop_ok (s : state) (k : nat) (rest : list nat) :
  run_ok s -> st_disp s = DIdle -> st_queue s = k :: rest ->
  run_ok (set_disp (set_queue s rest) (DPopped k)).
Proof.
  intros [H1 H2 H3 H4 H5 H6 H7] Hd Hq. rewrite Hd, Hq in H3. simpl in H3. rewrite app_nil_r in H3.
  split; try done.
  - simpl. rewrite <- Permutation_cons_append. exact H3.
  - intros j Hj. apply H4. rewrite Hq. by right.
  - apply H4. rewrite Hq. by left.
  - intros j x Hj Hx Hdn Hst. destruct (H6 j x Hj Hx Hdn Hst) as [[Hjq|[Hdj|(pc & Hdj & _)]]|?];
      [|congruence|congruence|by right].
    rewrite Hq in Hjq. apply elem_of_cons in Hjq as [->|Hjq]; left; [by right; left|by left].
Qed.

Lemma exit_ok (s : state) : run_ok s -> st_disp s = DIdle -> st_stopped s = true -> run_ok (set_disp s DExited).
Proof.
  intros [H1 H2 H3 H4 H5 H6 H7] Hd Hst. rewrite Hd in H3. split; try done.
  intros j x Hj Hx Hdn Hst'. simpl in Hst'. congruence.
Qed.

Lemma disp_start_ok (s : state) (k : nat) :
  run_ok s -> st_disp s = DPopped k -> run_ok (set_disp s (DJob k AtPrefill)).
Proof.
  intros [H1 H2 H3 H4 H5 H6 H7] Hd. rewrite Hd in H3. unfold disp_ok in H5. rewrite Hd in H5.
  split; try done.
  intros j x Hj Hx Hdn Hst. destruct (H6 j x Hj Hx Hdn Hst) as [[Hjq|[Hdj|(pc & Hdj & _)]]|?];
      [by left; left| |congruence|by right].
    rewrite Hd in Hdj. injection Hdj as ->. left. right. right. by exists AtPrefill.
Qed.

Lemma finish_ok (s : state) (k : nat) : run_ok s -> st_disp s = DJob k AtEnd -> run_ok (set_disp s DIdle).
Proof.
  intros [H1 H2 H3 H4 H5 H6 H7] Hd. rewrite Hd in H3. split; try done.
  - simpl. rewrite app_nil_r. by apply list.NoDup_app in H3 as [? _].
  - intros j x Hj Hx Hdn Hst. destruct (H6 j x Hj Hx Hdn Hst) as [[Hjq|[Hdj|(pc & Hdj & Hpc)]]|?];
      [by left; left|congruence|congruence|by right].
Qed.

(** The call after its job pushed a result. *)
Lemma push_ok (c : call) (r : job_result) :
  call_ok c -> k_results c = [] -> k_phase c <> Counted -> job_output (k_request c) (k_pushed c ++ [r]) ->
  call_ok (push_result c r).
Proof.
  intros [H1 H2 H4 H5] Hr Hp Ho. split; simpl; [rewrite Hr; simpl; lia|done| |done].
  - unfold sent_ok in *. simpl. destruct (k_phase c) as [| |x last|[e|]]; try done.
    + destruct H4 as [-> Ht]. by rewrite <- app_assoc.
    + destruct H4 as [-> Ht]. by rewrite <- app_assoc.
    + destruct H4 as (Ht & Hpre & He). split_and!; [done|by apply prefix_app_r|].
      destruct He; [left; by apply prefix_app_r|by right].
    + destruct H4 as (cs & x & Hs & Hx & Ht & Hpre). exists cs, x. split_and!; try done. by apply prefix_app_r.
Qed.


Lemma room_in_true (c : call) : room_in c = true -> k_results c = [].
Proof. unfold room_in. by destruct (k_results c). Qed.

Lemma pc_output (request : option pb_GenerateRequest) (pushed : list job_result) (pc : job_pc) :
  pc_ok request pushed pc -> job_output request pushed.
Proof.
  destruct pc; simpl.
  - intros ->. apply job_output_nil.
  - intros ->. apply job_output_nil.
  - intros (clock & -> & Hi & Hc). by apply out_tokens.
  - intros (clock & -> & Hi & Hc). apply out_tokens; [lia|]. intros j Hj. apply Hc. lia.
  - by intros (_ & ? & _).
  - done.
Qed.

Lemma job_ok (s : state) (k : nat) (c : call) (pc pc' : job_pc) (r : option job_result) (w : Worker) :
  run_ok s -> st_disp s = DJob k pc -> st_calls s !! k = Some c ->
  job_step (st_worker s) (k_request c) (k_done c || st_stopped s) (room_in c) pc pc' r w ->
  run_ok (set_disp (set_worker (set_call s k (push_option c r)) w) (DJob k pc')).
Proof.
  intros Hs Hd Hk Hj. pose proof Hs as [H1 H2 H3 H4 H5 H6 H7].
  unfold disp_ok in H5. rewrite Hd in H5, H3. destruct H5 as (c' & Hk' & Hc1 & Hpc). simplify_eq.
  destruct (job_step_pushed _ _ _ _ _ _ _ _ _ H1 Hj Hpc) as (Hpc' & Hroom & Hend).
  assert (k_request (push_option c r) = k_request c /\ k_phase (push_option c r) = k_phase c /\
    k_pushed (push_option c r) = k_pushed c ++ option_list r /\ k_done (push_option c r) = k_done c)
    as (Er & Ep & Epu & Edn) by (destruct r; simpl; by rewrite ?app_nil_r).
  assert (forall j, j <> k -> st_calls (set_call s k (push_option c r)) !! j = st_calls s !! j) as Hne
    by (intros j Hj'; simpl; by rewrite list_lookup_insert_ne).
  assert (st_calls (set_call s k (push_option c r)) !! k = Some (push_option c r)) as Heq
    by (simpl; by rewrite list_lookup_insert_eq by by eapply lookup_lt_Some).
  split; try done.
  - simpl. rewrite <- H1. by eapply job_step_config.
  - intros j x Hx. destruct (set_call_lookup _ _ _ _ _ _ Hk Hx) as [[_ ->]|[_ Hx']]; [|by eapply H2].
    destruct r as [r|]; [|by apply (H2 k)].
    apply push_ok; [by apply (H2 k)|apply room_in_true, Hroom; eauto|done|by eapply pc_output].
  - intros j Hj'. destruct (H4 j Hj') as (x & Hx & ?).
    assert (j <> k) as Hjk.
    { intros ->. apply list.NoDup_app in H3 as (_ & Hdis & _). apply (Hdis k Hj'). simpl. by left. }
    exists x. split; [by rewrite <- (Hne j Hjk) in Hx|done].
  - unfold disp_ok. cbn [set_disp st_disp]. exists (push_option c r).
    split; [exact Heq|]. rewrite Er, Ep, Epu. by split.
  - intros j x Hx Ho Hdn Hst. cbn [set_disp set_worker set_call st_stopped] in Hst.
    destruct (set_call_lookup _ _ _ _ _ _ Hk Hx) as [[-> ->]|[Hjk Hx']].
    + destruct pc'; try (left; right; right; eexists; split; [done|discriminate]).
      right. destruct (Hend eq_refl) as [Hcan|(x & -> & Ht)].
      * rewrite <- Edn, Hdn, Hst in Hcan. discriminate.
      * exists x. split; [|done]. simpl. rewrite (room_in_true c); [done|]. apply Hroom. eauto.
    + destruct (H6 j x Hx' Ho Hdn Hst) as [[?|[Hdj|(p & Hdj & _)]]|?]; [by left; left|congruence| |by right].
      rewrite Hd in Hdj. congruence.
Qed.

Lemma dispatch_run_ok (s s' : state) : run_ok s -> dispatch_step s s' -> run_ok s'.
Proof.
  intros Hs Hd. destruct Hd as [s k rest Hd Hq|s Hd Hst|s k c Hd Hk|s k c pc pc' r w Hd Hk Hj|s k c Hd Hk].
  - by apply pop_ok.
  - by apply exit_ok.
  - apply (run_ok_worker (set_disp s (DJob k AtPrefill))); [done|]. by apply disp_start_ok.
  - by eapply job_ok.
  - apply (run_ok_worker (set_disp s DIdle)); [done|]. by eapply finish_ok.
Qed.

Lemma step_run_ok (s s' : state) : run_ok s -> step s s' -> run_ok s'.
Proof. intros Hs [He|[Hc|Hd]]; [by eapply env_run_ok|by eapply call_run_ok|by eapply dispatch_run_ok]. Qed.

Lemma start_run_ok : run_ok (start w0).
Proof. split; try done. all: try by intros k c ?. apply NoDup_nil_2. by intros k ?%not_elem_of_nil. Qed.

Lemma reachable_run_ok (s : state) : rtc step (start w0) s -> run_ok s.
Proof. apply rtc_invariant; [|apply start_run_ok]. intros x y. apply step_run_ok. Qed.

(** ** Outputs are jobs of the atomic model *)
Definition with_failures (n : Z) : Worker :=
  {| mw_config := mw_config w0; mw_state := mw_state w0; cache := cache w0; cacheOrder := cacheOrder w0;
     failBeforeRemaining := n; dataAddress := dataAddress w0 |}.

Lemma output_run (request : option pb_GenerateRequest) (rs : list job_result) :
  job_output request rs ->
  exists n clock alive, (runJob out_of_range (with_failures n) request clock alive).2 = rs.
Proof.
  destruct 1 as [clock i Hi Hc| |clock i Hi Hc Hf|clock now Hc].
  - destruct (runJob_cut out_of_range (with_failures 0) request clock i) as (alive & Ha); [done..|].
    exists 0, clock, alive. exact Ha.
  - exists 1, (fun _ => 0), 2%nat.
    exact (runJob_before out_of_range (with_failures 1) request (fun _ => 0) 2 Z.lt_0_1 (le_n 2)).
  - exists 0, clock, (2 * job_outputs request + 1)%nat.
    exact (runJob_midstream out_of_range (with_failures 0) request clock i _ (Z.le_refl 0) (le_n _) Hi Hc Hf).
  - exists 0, (fun j => if (j =? job_outputs request)%nat then now else clock j), (2 * job_outputs request + 2)%nat.
    rewrite (runJob_complete out_of_range (with_failures 0) request _ _ (Z.le_refl 0) (le_n _) Hc).
    f_equal.
    + apply list_fmap_ext. intros j x Hx. apply lookup_seq in Hx as [-> Hj].
      unfold token_chunk, job_outputs in *. by rewrite (proj2 (Nat.eqb_neq _ _)) by lia.
    + unfold job_final, final_chunk, last_reason, job_outputs. by rewrite Nat.eqb_refl.
Qed.

(** Tokens, and at most one terminal result after them. *)
Lemma job_output_body (request : option pb_GenerateRequest) (rs : list job_result) :
  job_output request rs ->
  exists clock m tail, rs = tokens_upto request clock m ++ tail /\ (m <= job_outputs request)%nat /\
    clean_until m /\ (tail = [] \/ exists r, tail = [r] /\ terminal r).
Proof.
  destruct 1 as [clock i Hi Hc| |clock i Hi Hc Hf|clock now Hc].
  - exists clock, i, []. rewrite app_nil_r. split_and!; auto.
  - exists (fun _ => 0), O, [JErr injected_before]. split_and!; [done|lia|intros j Hj; lia|right; by eexists].
  - exists clock, i, [JErr injected_midstream]. split_and!; [done|lia|done|right; by eexists].
  - eexists clock, _, [job_final w0 request now]. split_and!; [done|lia|done|right; by eexists].
Qed.

Lemma tokens_terminal (request : option pb_GenerateRequest) (clock : nat -> Time) (m i : nat) (r : job_result) :
  tokens_upto request clock m !! i = Some r -> ~ terminal r.
Proof. unfold tokens_upto, token_results. rewrite list_lookup_fmap. by destruct (seq 0 m !! i); intros [= <-]. Qed.

(** A terminal result is the last. *)
Lemma terminal_last (request : option pb_GenerateRequest) (rs p : list job_result) (r : job_result) :
  job_output request rs -> terminal r -> p ++ [r] `prefix_of` rs -> rs = p ++ [r].
Proof.
  intros (clock & m & tail & -> & _ & _ & Htail)%job_output_body Hr Hp.
  assert ((tokens_upto request clock m ++ tail) !! length p = Some r) as Hl.
  { eapply prefix_lookup_Some; [|exact Hp]. rewrite lookup_app_r by lia. by rewrite Nat.sub_diag. }
  apply lookup_app_Some in Hl as [Hl|[Hlen Hl]]; [by apply tokens_terminal in Hl|].
  destruct Htail as [-> |(x & -> & Hx)]; [done|].
  apply list_lookup_singleton_Some in Hl as [Hlen' ->].
  destruct Hp as [rest Hrest]. pose proof (f_equal length Hrest) as Hll.
  rewrite !length_app in Hll. simpl in Hll. destruct rest; [by rewrite app_nil_r in Hrest|simpl in Hll; lia].
Qed.

(** What was sent of the tokens is what a shorter job sends. *)
Lemma tokens_sent (request : option pb_GenerateRequest) (rs : list job_result) (cs : list Chunk) :
  job_output request rs -> token_chunks cs -> results_of cs `prefix_of` rs -> job_output request (results_of cs).
Proof.
  intros (clock & m & tail & -> & Hm & Hc & Htail)%job_output_body Hcs Hp.
  assert (results_of cs `prefix_of` tokens_upto request clock m) as [rest Hrest].
  { destruct Htail as [-> |(x & -> & Hx)]; [by rewrite app_nil_r in Hp|].
    destruct Hp as [rest Hrest].
    destruct rest as [|y rest _] using rev_ind.
    - exfalso. rewrite app_nil_r in Hrest.
      assert (results_of cs !! m = Some x) as Hl.
      { rewrite <- Hrest, lookup_app_r; unfold tokens_upto, token_results; rewrite length_fmap, length_seq; [|done].
        by rewrite Nat.sub_diag. }
      unfold results_of in Hl. rewrite list_lookup_fmap in Hl. destruct (cs !! m) as [z|] eqn:Ez; [|done].
      injection Hl as <-. pose proof (Forall_lookup_1 _ _ _ _ Hcs Ez) as Hf. simpl in Hf, Hx. congruence.
    - rewrite app_assoc in Hrest. apply app_inj_tail in Hrest as [-> _]. by exists rest. }
  pose proof (f_equal length Hrest) as Hl. rewrite length_app in Hl.
  unfold tokens_upto, token_results in Hl. rewrite length_fmap, length_seq in Hl.
  assert (results_of cs = tokens_upto request clock (length (results_of cs))) as ->.
  { rewrite <- (take_app_length (results_of cs) rest) at 1. rewrite <- Hrest. unfold tokens_upto, token_results.
    rewrite <- fmap_take. f_equal. rewrite take_seq. f_equal. lia. }
  apply out_tokens; [lia|]. intros j Hj. apply Hc. lia.
Qed.
End Outputs.


(** ** Every run ends *)
Definition call_weight (c : call) : nat :=
  match k_phase c with Counted => 70 | Reading => 1 | Sending _ _ => 2 | Returned _ => 0 end
  + 2 * length (k_results c) + (if k_done c then 0 else 1).

Definition pc_weight (pc : job_pc) : nat :=
  match pc with
  | AtPrefill => 49 | AtCheck => 48
  | AtLoop i => 7 + 5 * (8 - i)
  | AtSend i _ => 10 + 5 * (7 - i)
  | AtLast _ => 5 | AtEnd => 2
  end.

Definition disp_weight (d : dispatch) : nat :=
  match d with DExited => 0 | DIdle => 1 | DPopped _ => 50 | DJob _ pc => pc_weight pc end.

(** The steps that the worker can still make on its own. *)
Definition budget (s : state) : nat :=
  sum_list_with call_weight (st_calls s) + 51 * length (st_queue s) + disp_weight (st_disp s).

Lemma sum_with_insert {A} (f : A -> nat) (l : list A) (k : nat) (x y : A) :
  l !! k = Some x -> (sum_list_with f (<[k := y]> l) + f x = sum_list_with f l + f y)%nat.
Proof.
  revert k. induction l as [|z l IH]; intros [|k] Hk; simpl in *; simplify_eq; [lia|].
  specialize (IH k Hk). lia.
Qed.

Lemma job_step_weight (w w' : Worker) (request : option pb_GenerateRequest) (canceled room : bool)
    (pc pc' : job_pc) (r : option job_result) :
  job_step w request canceled room pc pc' r w' ->
  (pc_weight pc' + 2 * length (option_list r) < pc_weight pc)%nat.
Proof.
  pose proof (outputs_of_le (GenerateRequest_GetMaxOutputTokens request)) as Hb.
  destruct 1; simpl; unfold job_outputs in *; lia.
Qed.

Lemma own_step_budget (s s' : state) : own_step s s' -> (budget s' < budget s)%nat.
Proof.
  intros [Hc|Hd].
  - destruct Hc as [s k c Hk Hp Hl|s k c e Hk Hp Hd He|s k c Hk Hp Hd Hl|s k c e Hk Hp He|s k c x last Hk Hp He
      |s k c x last Hk Hp|s k c x last e Hk Hp Hd He|s k c e Hk Hp Hd He|s k c Hk Hp Hst|s k c Hk Hd Hor];
      unfold budget; simpl;
      match goal with |- context [sum_list_with call_weight (<[k := ?c']> _)] =>
        pose proof (sum_with_insert call_weight (st_calls s) k c c' Hk) as Hs end;
      repeat match goal with |- context [sum_list_with call_weight ?l] =>
        generalize dependent (sum_list_with call_weight l); intros end;
      unfold call_weight in *; simpl in *;
      try rewrite Hp in *; try rewrite Hd in *; try rewrite He in *; simpl in *;
      rewrite ?length_app; simpl; try (destruct last; simpl in *); lia.
  - destruct Hd as [s k rest Hd Hq|s Hd Hst|s k c Hd Hk|s k c pc pc' r w Hd Hk Hj|s k c Hd Hk];
      unfold budget; simpl; rewrite ?Hd; simpl; try lia.
    + rewrite Hq. simpl. lia.
    + pose proof (sum_with_insert call_weight (st_calls s) k c (push_option c r) Hk) as Hs.
      apply job_step_weight in Hj.
      assert (call_weight (push_option c r) = call_weight c + 2 * length (option_list r))%nat as Hw.
      { unfold call_weight. destruct r; simpl; [|lia]. rewrite length_app. simpl. lia. }
      lia.
Qed.

Lemma own_steps_budget (n : nat) (s s' : state) : nsteps own_step n s s' -> (n + budget s' <= budget s)%nat.
Proof. induction 1 as [|n x y z Hxy _ IH]; [lia|]. apply own_step_budget in Hxy. lia. Qed.

(** A call that has not returned, and is not waiting for its job, goes on. *)
Lemma status_exists : exists e, is_status e.
Proof. by exists stopping, codes_Unavailable, "worker stopping". Qed.

Section Progress.
Context (w0 : Worker) (s : state) (Hs : run_ok w0 s).

Lemma call_progress (k : nat) (c : call) :
  st_calls s !! k = Some c -> k_phase c <> Counted -> k_results c <> [] \/ k_done c = true \/ st_stopped s = true ->
  (exists s', own_step s s') \/ (exists e, k_phase c = Returned e /\ k_done c = true).
Proof.
  intros Hk Hp Hor. pose proof (co_room _ _ (ro_calls _ _ Hs k c Hk)) as Hroom. destruct status_exists as [e He].
  destruct (k_phase c) as [| |x last|e'] eqn:Ep; [done| | |].
  - left. destruct (k_results c) as [|r [|? ?]] eqn:Er; [|destruct r as [x last|e']|simpl in Hroom; lia].
    + destruct Hor as [?|[Hd|Hst]]; [done| |]; eexists; apply own_call;
        [by apply (call_canceled _ s k c e)|by apply (call_stopping _ s k c)].
    + eexists. apply own_call. by eapply call_take_chunk.
    + eexists. apply own_call. by eapply call_take_error.
  - left. eexists. apply own_call. by eapply call_sent.
  - destruct (k_done c) eqn:Ed; [right; eauto|left]. eexists. apply own_call.
    eapply (call_released _ s k c); eauto.
Qed.

Lemma send_progress (k : nat) (c : call) :
  st_calls s !! k = Some c -> k_phase c <> Counted ->
  (exists s', own_step s s') \/ room_in c = true \/ k_done c = true.
Proof.
  intros Hk Hp. destruct (room_in c) eqn:Er; [by right; left|].
  assert (k_results c <> []) as Hne by (unfold room_in in Er; by destruct (k_results c)).
  destruct (call_progress k c Hk Hp (or_introl Hne)) as [?|(e & _ & Hd)]; [by left|by right; right].
Qed.

Lemma disp_progress : match st_disp s with DPopped _ | DJob _ _ => exists s', own_step s s' | _ => True end.
Proof.
  pose proof (ro_disp _ _ Hs) as Hd. unfold disp_ok in Hd.
  destruct (st_disp s) as [|k|k pc|] eqn:Ed; try done.
  - destruct Hd as (c & Hk & _). eexists. apply own_dispatch. by apply (disp_start _ s k c).
  - destruct Hd as (c & Hk & Hp & _).
    assert (forall pc' r w, job_step (st_worker s) (k_request c) (k_done c || st_stopped s) (room_in c) pc pc' r w ->
      exists s', own_step s s') as Hj by (intros; eexists; apply own_dispatch; by eapply disp_job).
    destruct pc as [| |i|i now|r|].
    + eapply Hj, job_prefilled.
    + destruct (Z.lt_ge_cases 0 (failBeforeRemaining (st_worker s)));
        [by eapply Hj, job_fail_before|by eapply Hj, job_begin].
    + destruct (decide (i < job_outputs (k_request c))%nat).
      * destruct (fails_at (st_worker s) i) eqn:Ef; [by eapply Hj, job_fail_midstream|by eapply Hj, (job_decoded _ _ _ _ _ i 0)].
      * eapply Hj, (job_complete _ _ _ _ _ i 0). lia.
    + destruct (send_progress k c Hk Hp) as [?|[Hr|Hdn]]; [done|by eapply Hj, job_send_token|].
      eapply Hj, job_token_canceled. by rewrite Hdn.
    + destruct (send_progress k c Hk Hp) as [?|[Hr|Hdn]]; [done|by eapply Hj, job_send_last|].
      eapply Hj, job_last_canceled. by rewrite Hdn.
    + eexists. apply own_dispatch. by apply (disp_finish _ s k c).
Qed.

Definition can_step : Prop := exists s', own_step s s'.

Lemma disp_or_step :
  can_step \/ st_disp s = DExited \/ st_disp s = DIdle /\ st_queue s = [] /\ st_stopped s = false.
Proof.
  pose proof disp_progress as Hp. destruct (st_disp s) as [|k|k pc|] eqn:Ed; [|by left..|by right; left].
  destruct (st_queue s) as [|k rest] eqn:Eq; [destruct (st_stopped s) eqn:Est; [|by right; right]|]; left.
  - eexists. apply own_dispatch. by eapply disp_exit.
  - eexists. apply own_dispatch. by eapply disp_pop.
Qed.

Lemma enqueue_step (k : nat) (c : call) : st_calls s !! k = Some c -> k_phase c = Counted -> can_step.
Proof.
  intros Hk Hp. destruct status_exists as [e He].
  destruct (Z.lt_ge_cases (Z.of_nat (length (st_queue s))) (capacity s)).
  - eexists. apply own_call. by eapply call_enqueue.
  - destruct (k_done c) eqn:Ed; eexists; apply own_call; [by eapply (call_interrupted _ s k c e)|by eapply call_refused].
Qed.

Lemma reading_step (k : nat) (c : call) :
  st_calls s !! k = Some c -> k_phase c = Reading -> k_results c <> [] \/ k_done c = true \/ st_stopped s = true ->
  can_step.
Proof.
  intros Hk Hp Hor. destruct (call_progress k c Hk) as [?|(e & He & _)]; [congruence|done|done|congruence].
Qed.

Lemma call_or_step (k : nat) (c : call) :
  st_calls s !! k = Some c -> can_step \/ exists e, k_phase c = Returned e.
Proof.
  intros Hk. destruct (k_phase c) as [| |x last|e] eqn:Ep; [| | |by right; eauto]; left.
  - by eapply enqueue_step.
  - destruct (k_done c) eqn:Ed; [eapply reading_step; eauto|].
    destruct (st_stopped s) eqn:Est; [eapply reading_step; eauto|].
    destruct (ro_owed _ _ Hs k c Hk) as [Hsv|(r & Hr & _)]; [unfold owed; by rewrite Ep|done|done| |].
    + destruct disp_or_step as [?|[Hex|(Hi & Hq & _)]]; [done|apply (ro_exited _ _ Hs) in Hex; congruence|].
      destruct Hsv as [Hin|[Hdj|(pc & Hdj & _)]]; [|congruence..]. rewrite Hq in Hin. by apply not_elem_of_nil in Hin.
    + eapply (reading_step k c Hk Ep). left. by rewrite Hr.
  - eexists. apply own_call. by eapply call_sent.
Qed.

Lemma calls_or_step :
  can_step \/ forall k c, st_calls s !! k = Some c -> exists e, k_phase c = Returned e.
Proof.
  enough (can_step \/ Forall (fun c => exists e, k_phase c = Returned e) (st_calls s)) as [?|H].
  - by left.
  - right. intros k c Hk. by eapply Forall_lookup_1 in H.
  - pose proof call_or_step as H. revert H. generalize (st_calls s). intros l. induction l as [|c l IH]; intros H.
    + right. apply Forall_nil_2.
    + destruct (H O c eq_refl) as [?|Hc]; [by left|].
      destruct IH as [?|Hl]; [intros k; apply (H (S k))|by left|right; by apply Forall_cons_2].
Qed.

Lemma progress : can_step \/ settled s.
Proof.
  destruct calls_or_step as [?|Hc]; [by left|]. destruct disp_or_step as [?|Hd]; [by left|]. right.
  split; [done| |]; intros Hst; destruct Hd as [Hd|(Hd & Hq & Hst')]; try done; [|congruence].
  apply (ro_exited _ _ Hs) in Hd. congruence.
Qed.
End Progress.

Lemma own_run_ok (w0 : Worker) (s s' : state) : run_ok w0 s -> own_step s s' -> run_ok w0 s'.
Proof. intros Hs Ho. eapply step_run_ok; [exact Hs|by apply by_own]. Qed.

Lemma settles (w0 : Worker) (s : state) : run_ok w0 s -> exists s', rtc own_step s s' /\ settled s'.
Proof.
  remember (budget s) as n eqn:En. revert s En. induction n as [n IH] using lt_wf_ind. intros s En Hs.
  destruct (progress w0 s Hs) as [[s' Ho]|Hd]; [|by exists s].
  destruct (IH (budget s')) with s' as (s'' & Hr & Hd); [|done|by eapply own_run_ok|].
  - subst n. by apply own_step_budget.
  - exists s''. split; [|done]. by eapply rtc_l.
Qed.

(** ** What a client receives *)
Definition received (c : Chunk) : recv_outcome := Received (At c) (Some (ChunkToProto c)).

(** What the gateway's [Recv] has returned for a call so far. *)
Definition client_view (c : call) : list recv_outcome :=
  (received <$> k_sent c) ++ match k_phase c with Returned r => [RecvErr (default EEOF r)] | _ => [] end.

Lemma stream_of_tokens (e : GoError) (cs : list Chunk) (rest : list job_result) :
  token_chunks cs -> stream_of e (results_of cs ++ rest) = (received <$> cs) ++ stream_of e rest.
Proof.
  intros Hc. induction Hc as [|c cs Hf _ IH]; [done|]. csimpl. rewrite Hf, IH. done.
Qed.

Lemma stream_of_sent (e : GoError) (cs : list Chunk) :
  token_chunks cs -> stream_of e (results_of cs) = (received <$> cs) ++ [RecvErr e].
Proof. intros Hc. rewrite <- (app_nil_r (results_of cs)). by rewrite stream_of_tokens. Qed.

(** The view of a call is the beginning of the stream of a job, and all of it once
    the call has returned. *)
Lemma view_of_job (w0 : Worker) (c : call) :
  call_ok w0 c -> is_ok (check_request w0 (k_request c)) = true ->
  exists rs e, job_output w0 (k_request c) rs /\ client_view c `prefix_of` stream_of e rs /\
    (forall r, k_phase c = Returned r -> client_view c = stream_of e rs).
Proof.
  intros [_ Ho Hs _] _. unfold sent_ok, client_view in *.
  assert (forall e, token_chunks (k_sent c) -> results_of (k_sent c) `prefix_of` k_pushed c ->
    job_output w0 (k_request c) (results_of (k_sent c)) /\
    stream_of e (results_of (k_sent c)) = (received <$> k_sent c) ++ [RecvErr e]) as Hcut.
  { intros e Ht Hp. split; [by eapply tokens_sent|by apply stream_of_sent]. }
  destruct (k_phase c) as [| |x last|[e|]].
  - destruct Hs as (E1 & E2 & E3). rewrite E2. exists [], EEOF.
    split_and!; [apply job_output_nil|apply prefix_nil|done].
  - destruct Hs as [Hp Ht]. destruct (Hcut EEOF Ht) as [H1 H2]; [rewrite Hp; by apply prefix_app_r|].
    exists (results_of (k_sent c)), EEOF. split_and!; [done| |done]. rewrite H2, app_nil_r. by apply prefix_app_r.
  - destruct Hs as [Hp Ht]. destruct (Hcut EEOF Ht) as [H1 H2]; [rewrite Hp; by apply prefix_app_r|].
    exists (results_of (k_sent c)), EEOF. split_and!; [done| |done]. rewrite H2, app_nil_r. by apply prefix_app_r.
  - destruct Hs as (Ht & Hp & [He|He]).
    + pose proof (terminal_last _ _ _ _ (JErr e) Ho I He) as E. exists (k_pushed c), e.
      rewrite E, stream_of_tokens by done. rewrite <- E. split_and!; [done..|].
      intros r [= <-]. done.
    + destruct (Hcut e Ht Hp) as [H1 H2]. exists (results_of (k_sent c)), e. rewrite H2.
      split_and!; [done..|]. intros r [= <-]. done.
  - destruct Hs as (cs & x & Hsent & Hx & Ht & Hp). rewrite Hsent in Hp |- *.
    unfold results_of in Hp. rewrite fmap_app in Hp. csimpl in Hp.
    pose proof (terminal_last _ _ _ _ (JChunk x (Final x)) Ho Hx Hp) as E.
    exists (k_pushed c), EEOF. split; [done|]. rewrite E. change ((fun x => JChunk x (Final x)) <$> cs) with (results_of cs).
    rewrite stream_of_tokens, fmap_app by done. simpl. rewrite Hx, <- app_assoc. by split.
Qed.

(** ** Properties of the running worker *)

(** C9: The goroutines of a worker, in every interleaving with calls that come and are
    canceled, heartbeats and a stop, give each client a stream of the atomic
    [Generate]: what it has received is a beginning of the stream that [Generate]
    gives for some number of injected failures, clock, error of the context and
    time that the context lasts, and once its call has returned it is the whole
    stream. *)
Theorem run_refines_Generate (cfg : Config.WorkerConfig) (s : state) (k : nat) (c : call) :
  reachable cfg s -> st_calls s !! k = Some c ->
  exists w clock e alive, mw_config w = cfg /\
    let stream := (Generate out_of_range w (k_request c) clock Queued e alive).2 in
    client_view c `prefix_of` stream /\ (forall r, k_phase c = Returned r -> client_view c = stream).
Proof.
  intros (w0 & (_ & Hcfg & _)%New_ok & Hr) Hk. apply reachable_run_ok in Hr.
  pose proof (ro_calls _ _ Hr k c Hk) as Hc. pose proof (co_check _ _ Hc) as Hck.
  destruct (check_request w0 (k_request c)) as [[]|e] eqn:Ec.
  - destruct (view_of_job w0 c Hc) as (rs & e & Ho & Hp & Hret); [by rewrite Ec|].
    destruct (output_run w0 (k_request c) rs Ho) as (n & clock & alive & Hrun).
    exists (with_failures w0 n), clock, e, alive. split; [done|]. cbn zeta.
    rewrite Generate_queued by exact Ec. by rewrite Hrun.
  - exists w0, (fun _ => 0), EEOF, O. split; [done|]. unfold Generate. rewrite Ec. cbn zeta.
    destruct Hck as [Hp Hs]. unfold client_view. rewrite Hp, Hs. by split.
Qed.

(** C25: A worker left to itself comes to rest: from every state that it can be in, no
    run of its goroutines takes more steps than its budget, some run ends, and
    where it ends every call has returned, and the dispatcher waits with an empty
    queue, or has exited when the worker was stopped. No call is forgotten, and
    neither a full channel nor a canceled client blocks the dispatcher for ever.
    A [Send] to a client is taken to complete. *)
Theorem worker_terminates (cfg : Config.WorkerConfig) (s : state) :
  reachable cfg s ->
  (forall n s', nsteps own_step n s s' -> (n <= budget s)%nat) /\
  (exists s', rtc own_step s s' /\ settled s') /\
  (forall s', rtc own_step s s' -> (forall s'', ~ own_step s' s'') -> settled s').
Proof.
  intros (w0 & _ & Hr). apply reachable_run_ok in Hr. split_and!.
  - intros n s' Hn%own_steps_budget. lia.
  - by eapply settles.
  - intros s' Ho Hstuck.
    assert (run_ok w0 s') as Hs' by (eapply rtc_invariant; [|exact Hr|exact Ho]; intros x y; apply own_run_ok).
    destruct (progress w0 s' Hs') as [[s'' ?%Hstuck]|?]; done.
Qed.
End Run.

(** ** Witnesses *)
Section Witnesses.
#[local] Existing Instance SecondsNanos.

Lemma run_refines_Generate_witness :
  client_view ex_returned = [received ex_token; received ex_last; RecvErr EEOF] /\
  exists w clock e alive, mw_config w = Config.ex_worker_config 0 0 /\
    (Generate ex_no_range w ex_generate clock Queued e alive).2 = [received ex_token; received ex_last; RecvErr EEOF].
Proof.
  split; [reflexivity|].
  destruct (run_refines_Generate ex_no_range (Config.ex_worker_config 0 0) ex_state_end 0 ex_returned ex_run eq_refl)
    as (w & clock & e & alive & Hw & _ & Hret).
  exists w, clock, e, alive. split; [exact Hw|]. symmetry. exact (Hret None eq_refl).
Defined.

Lemma worker_terminates_witness :
  budget ex_state_end = 3%nat /\ forall s', rtc (own_step ex_no_range) ex_state_end s' ->
    (forall s'', ~ own_step ex_no_range s' s'') -> settled s'.
Proof.
  split; [reflexivity|].
  apply (worker_terminates ex_no_range (Config.ex_worker_config 0 0) ex_state_end ex_run).
Defined.
End Witnesses.
