(* ===== verification/EndToEnd.v ===== *)
(** * The gateway against the mock worker

    A chat request served by mock workers: the events of [Generation] carried
    through the attempts of [Chat] to what the client receives. *)

From S2P Require Import Prelude GoFloat GoString Model Examples Wire Protocol Parse Sse Stream Gateway Chat.
From S2P Require Import MockWorker Generation.
From S2P Require Config Registry Admission.

#[local] Open Scope Z_scope.

(** The handler takes the events of the channel one by one, and every write
    succeeds. *)
Fixpoint arrivals_of (now : Time) (events : list attemptEvent) : arrivals :=
  match events with
  | [] => AEnd now ChannelClosed
  | e :: events => ANext now true e (arrivals_of now events)
  end.

Section Served.
Context {T : TimestampPb} {L : TimestampPbLaws T}.
Context (Code : GoError -> Z) (error_text : GoError -> string) (out_of_range : float64 -> Z).
Context (clock : nat -> Time) (Hclock : forall i, timestamp_range (clock i)).

Abbreviation id_of mw := (Config.wc_ID (mw_config mw)).
Abbreviation wire_of mw request := (Some (RequestToProto request (id_of mw))).

(** What the receiver gets from a mock worker that has a free place in its queue
    and enough time. *)
Definition events_of (mw : MockWorker.Worker) (request : Request) (e : GoError) (alive : nat) :
  list attemptEvent :=
  receiveAttempt request (id_of mw) 0
    (Generate out_of_range mw (wire_of mw request) clock Queued e alive).2.

(** The environment of an attempt in which the connection is made, the worker's
    queue has a free place and the worker enough time ([alive], the sleeps before
    the end of its context: 18 are enough), the client stays and takes everything
    and neither its context nor its deadline ends, with the events of [mw]. *)
Record serves (mw : MockWorker.Worker) (request : Request) (env : attempt_env) : Prop := {
  sv_dial : is_ok (e_dial env) = true;
  sv_generate : e_generate env = None;
  sv_write : e_write_ok env = true;
  sv_events : exists e alive, (18 <= alive)%nat /\
    e_first env = head (events_of mw request e alive) /\
    e_rest env = arrivals_of (e_commit_now env) (tail (events_of mw request e alive));
}.

(** The events that the client gets for a request that [mw] generates. *)
Definition token_events (mw : MockWorker.Worker) (request : Request) (now : Time) (n : nat) : list sse :=
  (fun i => SSEToken (token_payload request (unix_seconds now) (token_chunk mw (wire_of mw request) clock i)))
    <$> seq 0 n.

Definition midstream_after (mw : MockWorker.Worker) (request : Request) : option nat :=
  let after := Config.FailAfterTokens (Config.Failure (mw_config mw)) in
  if (0 <? after) && (after <? Z.of_nat (outputs request)) then Some (Z.to_nat after) else None.

Definition client_events (mw : MockWorker.Worker) (request : Request) (now : Time) : list sse :=
  match midstream_after mw request with
  | Some n => token_events mw request now n ++
      [SSEError (stream_error request (error_text injected_midstream)); SSEDone]
  | None => token_events mw request now (outputs request) ++
      [SSECompletion (completion_payload request (unix_seconds now)
         (final_chunk mw (wire_of mw request) clock (outputs request) (final_reason request))); SSEDone]
  end.

(** ** Forwarding a list of events *)
Lemma forward_tokens (request : Request) (started now : Time) (cs : list Chunk) (rest : list attemptEvent) :
  Forall (fun c => Final c = false) cs ->
  writes (forwardCommitted request error_text started (arrivals_of now ((EvChunk <$> cs) ++ rest))) =
  ((fun c => WriteSSE (SSEToken (token_payload request (unix_seconds now) c))) <$> cs) ++
  writes (forwardCommitted request error_text started (arrivals_of now rest)).
Proof.
  induction 1 as [|c cs Hc _ IH]; [done|]. csimpl. cbn [arrivals_of forwardCommitted forward_step].
  rewrite Hc. cbn [write_token continues join writes]. by rewrite IH.
Qed.

Lemma forward_error (request : Request) (started now : Time) (e : GoError) (rest : list attemptEvent) :
  writes (forwardCommitted request error_text started (arrivals_of now (EvErr e :: rest))) =
  [WriteSSE (SSEError (stream_error request (error_text e))); WriteSSE SSEDone].
Proof. done. Qed.

Lemma forward_final (request : Request) (started now : Time) (c : Chunk) (rest : list attemptEvent) :
  Final c = true -> Reason c <> FinishError ->
  writes (forwardCommitted request error_text started (arrivals_of now (EvChunk c :: rest))) =
  [WriteSSE (SSECompletion (completion_payload request (unix_seconds now) c)); WriteSSE SSEDone].
Proof.
  intros Hf Hr%String.eqb_neq. cbn [arrivals_of forwardCommitted forward_step]. by rewrite Hf, Hr.
Qed.

(** Responding to a first token and forwarding the rest is forwarding it all,
    behind the headers. *)
Lemma respond_token (env : attempt_env) (request : Request) (started : Time) (c : Chunk)
    (rest : list attemptEvent) :
  Final c = false -> e_write_ok env = true -> e_rest env = arrivals_of (e_commit_now env) rest ->
  writes (respond error_text env request started c) =
  WriteStreamHeaders (r_ID request) ::
    writes (forwardCommitted request error_text started (arrivals_of (e_commit_now env) (EvChunk c :: rest))).
Proof.
  intros Hc Hw Hr. unfold respond, commit_step. rewrite Hc, Hw, Hr.
  cbn [write_token continues prepend join writes arrivals_of forwardCommitted forward_step]. by rewrite Hc.
Qed.

(** ** One attempt on a mock worker *)
Context (mw : MockWorker.Worker) (request : Request).
Context (Hmodel : r_Model request = Config.wc_Model (mw_config mw)).
Context (Hid : r_ID request <> "") (Haid : r_AttemptID request <> "") (Hmax : 0 < MaxOutputTokens request).

Lemma outputs_pos : (0 < outputs request)%nat.
Proof. unfold outputs, outputs_of, max_outputs. case_if; bool_facts; lia. Qed.

Lemma final_reason_ok : final_reason request <> FinishError.
Proof. unfold final_reason. by case_if. Qed.

Lemma tokens_forwarded (n : nat) (now : Time) :
  ((fun c => WriteSSE (SSEToken (token_payload request (unix_seconds now) c))) <$>
     (token_chunk mw (wire_of mw request) clock <$> seq 0 n)) =
  WriteSSE <$> token_events mw request now n.
Proof. unfold token_events. by rewrite <- !list_fmap_compose. Qed.

Lemma served_writes (env : attempt_env) (started : Time) (c : Chunk) :
  failBeforeRemaining mw <= 0 -> serves mw request env -> first_event (e_first env) = Ok c ->
  writes (respond error_text env request started c) =
    WriteStreamHeaders (r_ID request) :: (WriteSSE <$> client_events mw request (e_commit_now env)).
Proof.
  intros Hf [_ _ Hw (e & alive & Hal & H1 & H2)] Hc.
  pose proof (mock_stream_received out_of_range mw request clock Hclock alive e Hmodel Hid Haid Hmax Hal) as Hev.
  apply Z.ltb_ge in Hf. cbn zeta in Hev. rewrite Hf in Hev. fold (events_of mw request e alive) in Hev.
  unfold client_events, midstream_after in *. rewrite H1 in Hc.
  assert (forall k tl,
    events_of mw request e alive = (EvChunk <$> (token_chunk mw (wire_of mw request) clock <$> seq 0 k)) ++ tl ->
    (0 < k)%nat ->
    writes (respond error_text env request started c) = WriteStreamHeaders (r_ID request) ::
      ((WriteSSE <$> token_events mw request (e_commit_now env) k) ++
       writes (forwardCommitted request error_text started (arrivals_of (e_commit_now env) tl)))) as Hall.
  { intros k tl Heq Hk. destruct k as [|k]; [lia|]. rewrite Heq in Hc, H2. simpl in Hc. injection Hc as <-.
    rewrite (respond_token env request started _ (tail (events_of mw request e alive)));
      [|done|done|by rewrite Heq].
    f_equal. rewrite Heq. rewrite <- tokens_forwarded, <- forward_tokens; [done|].
    apply Forall_fmap, list.Forall_forall. done. }
  pose proof outputs_pos as Hop.
  destruct (_ && _) eqn:Ea.
  - apply andb_true_iff in Ea as [Ha%Z.ltb_lt _]. rewrite (Hall _ _ Hev) by lia. rewrite forward_error.
    by rewrite fmap_app.
  - rewrite (Hall _ _ Hev Hop), forward_final; [by rewrite fmap_app|done|apply final_reason_ok].
Qed.

Lemma failing_first (env : attempt_env) :
  0 < failBeforeRemaining mw -> serves mw request env ->
  first_event (e_first env) = Err injected_before.
Proof.
  intros Hf [_ _ _ (e & alive & Hal & -> & _)].
  pose proof (mock_stream_received out_of_range mw request clock Hclock alive e Hmodel Hid Haid Hmax Hal) as Hev.
  apply Z.ltb_lt in Hf. cbn zeta in Hev. rewrite Hf in Hev. fold (events_of mw request e alive) in Hev.
  by rewrite Hev.
Qed.

Lemma served_first (env : attempt_env) :
  failBeforeRemaining mw <= 0 -> serves mw request env ->
  exists c, first_event (e_first env) = Ok c.
Proof.
  intros Hf [_ _ _ (e & alive & Hal & -> & _)].
  pose proof (mock_stream_received out_of_range mw request clock Hclock alive e Hmodel Hid Haid Hmax Hal) as Hev.
  apply Z.ltb_ge in Hf. cbn zeta in Hev. rewrite Hf in Hev. fold (events_of mw request e alive) in Hev.
  pose proof outputs_pos as Hop. destruct (_ && _) eqn:Ea; rewrite Hev.
  - apply andb_true_iff in Ea as [Ha%Z.ltb_lt _].
    destruct (Z.to_nat _) as [|k] eqn:Ek; [lia|]. by eexists.
  - destruct (outputs request) as [|k]; [lia|]. by eexists.
Qed.
End Served.

(** ** The attempts of a request *)
Section Request.
Context {T : TimestampPb} {L : TimestampPbLaws T}.
Context (Code : GoError -> Z) (error_text : GoError -> string) (out_of_range : float64 -> Z).
Context (clock : nat -> Time) (Hclock : forall i, timestamp_range (clock i)).

(** The result of a connected attempt is that of its first event. *)
Lemma connected_attempt (env : attempt_env) (s : Server) (address : string) :
  is_ok (e_dial env) = true -> e_generate env = None ->
  (start_attempt env s address).2 = first_event (e_first env).
Proof.
  intros Hd Hg. unfold start_attempt, openAttempt, client.
  destruct (WorkerClient.client_lookup _ _); [by cbn; rewrite Hg|].
  destruct (e_dial env) as [d|]; [|done].
  destruct (WorkerClient.client_publish _ _ _) as [[p c] x]. cbn. by rewrite Hg.
Qed.

(** The first opened attempt: what was written when its first event was a chunk,
    and what was left to a retry when it failed. *)
Lemma attempts_head (env : attempt_env) (envs : list attempt_env) (n : Z) (s : Server) (request : Request)
    (excluded : gset string) (previous : option GoError) (started : Time) (a w : string)
    (rest : list (string * string)) :
  let run := attempts Code error_text (env :: envs) n s request excluded previous started in
  run.2 = (a, w) :: rest -> is_ok (e_dial env) = true -> e_generate env = None ->
  a = attempt_name (r_ID request) n /\ (w ∉ excluded) /\
  match first_event (e_first env) with
  | Ok chunk => rest = [] /\ run.1.2 = writes (respond error_text env (with_attempt request n) started chunk)
  | Err e =>
      if shouldRetry Code (e_ctx_retry env) e n
      then exists s', let next := attempts Code error_text envs (n + 1) s' (with_attempt request n)
                        ({[w]} ∪ excluded) (Some e) started in
             rest = next.2 /\ run.1.2 = next.1.2
      else rest = []
  end.
Proof.
  intros run Hrun Hd Hg. unfold run in *. clear run. cbn [attempts] in *.
  destruct (selectWorker _ _ _ _) as [s1 [d [wk|e]]] eqn:Hsel.
  2: { destruct previous; [|done]. by destruct (writePrecommitAttemptError _ _ _ _). }
  pose proof (selectWorker_not_excluded _ _ _ _ _ _ _ Hsel) as Hne.
  pose proof (connected_attempt env (count s1 (decision_metrics (e_decision_seconds env) d wk)) (DataAddress wk) Hd Hg) as Hst.
  destruct (start_attempt _ _ _) as [s2 r]. simpl in Hst. subst r.
  destruct (first_event (e_first env)) as [chunk|e]; [by injection Hrun as <- <- <-|].
  destruct (shouldRetry _ _ _ _).
  - set (s3 := count _ _) in *.
    destruct (attempts _ _ _ _ s3 _ _ _ _) as [[s4 ws] opened] eqn:E. simpl in Hrun.
    injection Hrun as <- <- <-. split_and!; try done. exists s3. cbn zeta. by rewrite E.
  - destruct (writePrecommitAttemptError _ _ _ _) as [s3 ws]. by injection Hrun as <- <- <-.
Qed.

(** Whatever the others do before the retry, a worker that is not excluded can be
    chosen then. *)
Definition retry_possible (env : attempt_env) (request : Request) (excluded : gset string) : Prop :=
  forall s, let s' := e_before env s in
    Registry.inv (s_registry s') /\
    exists w, w ∈ Registry.Snapshot (s_registry s') (e_select_now env) /\
      Routing.may_route (s_router s') request excluded w.

(** A second attempt, where a worker may be routed to, is opened and is the last. *)
Lemma attempts_second (env : attempt_env) (s : Server) (request : Request) (excluded : gset string)
    (previous : option GoError) (started : Time) :
  retry_possible env (with_attempt request 2) excluded ->
  exists id, (id ∉ excluded) /\
    (attempts Code error_text [env] 2 s request excluded previous started).2 = [(attempt_name (r_ID request) 2, id)].
Proof.
  intros Hr. destruct (Hr s) as (Hok & w & Hw & Hm). cbn [attempts].
  destruct (selectWorker _ _ _ _) as [s1 [d [wk|e]]] eqn:Hsel.
  - exists (w_ID wk). split; [by eapply selectWorker_not_excluded|].
    destruct (start_attempt _ _ _) as [s2 [chunk|e]]; [done|].
    change (shouldRetry Code (e_ctx_retry env) e 2) with false. by destruct (writePrecommitAttemptError _ _ _ _).
  - exfalso. unfold selectWorker in Hsel.
    destruct (select_from (s_registry (e_before env s)) (e_select_now env) (s_router (e_before env s))
      (with_attempt request 2) excluded) as [router o] eqn:Hf.
    injection Hsel as _ ->. exact (select_from_spec (s_registry (e_before env s)) _ _ _ _ _ _ _ Hok Hf w Hw Hm).
Qed.

(** The attempts that a handled request opened are those of its loop. *)
Lemma handled_attempts (s : Server) (env : chat_env) (request : Request) :
  parseRequest (s_config s) (c_random env) (c_parse_now env) (c_incoming env) = Ok request ->
  cr_attempts (handleChat Code error_text s env) <> [] ->
  exists s', let run := attempts Code error_text [c_first env; c_second env] 1 s' request ∅ None (c_started env) in
    cr_attempts (handleChat Code error_text s env) = run.2 /\
    cr_writes (handleChat Code error_text s env) = run.1.2.
Proof.
  intros Hp Hne. unfold handleChat in *. change (s_config (count s _)) with (s_config s) in *. rewrite Hp in *.
  destruct (_ =? 0)%nat; [done|].
  destruct (Admission.Reserve _ _ _ _) as [a [lease|e]]; [|done].
  match goal with |- context [attempts _ _ _ 1 ?x request ∅ None _] => exists x end. cbn zeta.
  destruct (attempts _ _ _ _ _ _ _ _ _) as [[s3 ws] opened].
  unfold finish. by destruct (Admission.Release _ _).
Qed.

(** What a mock worker and its environment must be for a request. *)
Record mock_attempt (mw : MockWorker.Worker) (request : Request) (env : attempt_env) : Prop := {
  ma_model : r_Model request = Config.wc_Model (mw_config mw);
  ma_serves : serves out_of_range clock mw request env;
}.

(** ** Properties *)


End Request.

(** ** Witnesses: one request, two workers *)
Definition ex_two_workers : Server :=
  (@RegisterWorker SecondsNanos ex_registry_text ex_registered ex_readings
     (@registration SecondsNanos "w2" "w2:9000" "mock-llm" 100 (ex_state 1 10 5))).1.

Definition ex_mock (id : string) (fail_first fail_after : Z) : MockWorker.Worker :=
  let cfg := Config.ex_worker_config fail_first fail_after in
  {| mw_config :=
       {| Config.wc_ID := id; Config.wc_DataAddress := Config.wc_DataAddress cfg;
          Config.AdvertisedAddress := Config.AdvertisedAddress cfg;
          Config.RouterControlAddress := Config.RouterControlAddress cfg; Config.wc_Model := Config.wc_Model cfg;
          Config.HeartbeatInterval := Config.HeartbeatInterval cfg; Config.QueueCapacity := Config.QueueCapacity cfg;
          Config.wc_PrefillTokensPerSecond := Config.wc_PrefillTokensPerSecond cfg;
          Config.wc_DecodeTokensPerSecond := Config.wc_DecodeTokensPerSecond cfg;
          Config.wc_DecodeSchedulingQuantumTokens := Config.wc_DecodeSchedulingQuantumTokens cfg;
          Config.CacheCapacityTokens := Config.CacheCapacityTokens cfg;
          Config.CachePrefixLimit := Config.CachePrefixLimit cfg; Config.Seed := Config.Seed cfg;
          Config.Failure := Config.Failure cfg |};
     mw_state := initial_state cfg; cache := ∅; cacheOrder := []; failBeforeRemaining := fail_first;
     dataAddress := "" |}.

Definition ex_parsed_request : Request :=
  {| r_ID := "req-1"; r_AttemptID := ""; TenantID := "public"; r_Model := "mock-llm";
     Messages := [ {| Role := "user"; Content := "hello" |} ]; EstimatedInputToken := 2;
     ExpectedOutputToken := 2; MaxOutputTokens := 2; PrefixFingerprints := [];
     Deadline := 160 + 30 * Second |}.

Definition ex_events (mw : MockWorker.Worker) (n : Z) : list attemptEvent :=
  @events_of SecondsNanos (fun _ => 0) ex_clock mw (with_attempt ex_parsed_request n) ECanceled 18.

Definition ex_mock_env (mw : MockWorker.Worker) (n : Z) : attempt_env :=
  {| e_before := fun _ => ex_two_workers; e_select_now := 200; e_decision_seconds := fzero; e_dial := Ok 0%nat;
     e_dialing := id; e_generate := None; e_waiting := id; e_first := head (ex_events mw n);
     e_ctx_retry := None; e_ctx_write := None; e_commit_now := 300; e_write_ok := true;
     e_rest := arrivals_of 300 (tail (ex_events mw n)) |}.

Definition ex_request_env (mw1 mw2 : MockWorker.Worker) : chat_env :=
  {| c_started := 150; c_random := Err "unused"; c_parse_now := 160; c_incoming := incoming_request 2;
     c_healthy_now := 170; c_reserving := id; c_reserve_now := 180;
     c_first := ex_mock_env mw1 1; c_second := ex_mock_env mw2 2; c_releasing := id |}.

Lemma ex_serves (mw : MockWorker.Worker) (n : Z) :
  @serves SecondsNanos (fun _ => 0) ex_clock mw (with_attempt ex_parsed_request n) (ex_mock_env mw n).
Proof. split; [done..|]. by exists ECanceled, 18%nat. Qed.

Definition ex_handled (mw1 mw2 : MockWorker.Worker) : chat_result :=
  handleChat ex_code ex_text_of ex_two_workers (ex_request_env mw1 mw2).


Lemma ex_register_inv (s : Server) (t : readings) (request : option pb_RegisterWorkerRequest) :
  Registry.inv (s_registry s) ->
  Registry.inv (s_registry (@RegisterWorker SecondsNanos ex_registry_text s t request).1).
Proof.
  intros Hi. unfold RegisterWorker. destruct (negb _); [done|]. destruct (_ ≫= _) as [st|e]; [|done].
  pose proof (Registry.inv_apply _ (Registry.ORegister (at_operation t) (modelWorker request st)) Hi) as H. cbn [Registry.apply_op] in H.
  by destruct (Registry.Register _ _ _) as [registry [r|e]].
Qed.

Lemma ex_retry_possible (mw : MockWorker.Worker) :
  retry_possible (ex_mock_env mw 2) (with_attempt ex_parsed_request 2) {["w1"]}.
Proof.
  intros s. cbn [ex_mock_env e_before e_select_now]. split.
  - apply ex_register_inv, ex_register_inv. split; [apply map_Forall_empty|reflexivity].
  - exists (default (registered "" "" "" (ex_state 1 10 5) 0) (list.last (Registry.Snapshot (s_registry ex_two_workers) 200))).
    split; [|vm_compute; reflexivity].
    apply list.last_Some_elem_of. vm_compute. reflexivity.
Qed.

