(* ===== verification/Delivery.v ===== *)
(** * From a running worker to the client of the gateway

    The goroutines of the mock worker ([WorkerRun]) and those of an attempt of the
    gateway ([Stream]) at work together: what the worker's call has sent travels
    to the receiver of the attempt, which may lose the connection at any moment,
    and its tokens reach the client. *)

From S2P Require Import Prelude GoFloat GoString Model Examples Wire Protocol Parse Sse Stream MockWorker Generation.
From S2P Require Import WorkerRun WorkerCalls.
From S2P Require Config.

#[local] Open Scope Z_scope.
#[local] Open Scope go_scope.

Section Delivery.
Context {T : TimestampPb} (out_of_range : float64 -> Z).

(** ** What the worker sends *)
Section Worker.
Context (w0 : Worker) (request : option pb_GenerateRequest).

(** A chunk in the place [i] of a call's stream. *)
Definition in_place (i : nat) (x : Chunk) : Prop :=
  Final x = false /\ (i < job_outputs request)%nat /\
    TokenText x = token w0 (GenerateRequest_GetRequestId request) (Z.of_nat i) \/
  Final x = true /\ i = job_outputs request /\ Reason x = last_reason request.

Lemma output_in_place (rs : list job_result) (i : nat) (x : Chunk) (last : bool) :
  job_output w0 request rs -> rs !! i = Some (JChunk x last) -> in_place i x.
Proof.
  assert (forall clock n, tokens_upto w0 request clock n !! i = Some (JChunk x last) ->
    (n <= job_outputs request)%nat -> in_place i x) as Ht.
  { intros clock n Hl Hn. unfold tokens_upto, token_results in Hl. rewrite list_lookup_fmap in Hl.
    destruct (seq 0 n !! i) as [j|] eqn:Ej; [|done]. apply lookup_seq in Ej as [-> Hj].
    injection Hl as <- _. left. split_and!; [done|lia|done]. }
  assert (forall clock n r, (tokens_upto w0 request clock n ++ [r]) !! i = Some (JChunk x last) ->
    (n <= job_outputs request)%nat -> in_place i x \/ i = n /\ r = JChunk x last) as Hs.
  { intros clock n r [Hl|[Hi Hl]]%lookup_app_Some Hn; [left; by eapply Ht|right].
    unfold tokens_upto, token_results in Hi, Hl. rewrite length_fmap, length_seq in Hi, Hl.
    apply list_lookup_singleton_Some in Hl as [? ->]. split; [lia|done]. }
  destruct 1 as [clock n Hn Hc| |clock n Hn Hc Hf|clock now Hc]; intros Hl.
  - by eapply Ht.
  - by apply list_lookup_singleton_Some in Hl as [_ ?].
  - destruct (Hs _ _ _ Hl) as [?|[_ ?]]; [lia|done|done].
  - destruct (Hs _ _ _ Hl) as [?|[-> E]]; [lia|done|]. right. unfold job_final in E. by injection E as <- _.
Qed.

Lemma sent_in_place (s : state) (k : nat) (c : call) (i : nat) (x : Chunk) :
  run_ok w0 s -> st_calls s !! k = Some c -> k_request c = request -> k_sent c !! i = Some x -> in_place i x.
Proof.
  intros Hs Hk Hq Hx. destruct (ro_calls _ _ Hs k c Hk) as [_ Ho Hsent _]. rewrite Hq in Ho.
  assert (results_of (k_sent c) `prefix_of` k_pushed c) as Hp.
  { unfold sent_ok in Hsent. destruct (k_phase c) as [| |y last|[e|]].
    - destruct Hsent as (_ & -> & _). apply prefix_nil.
    - destruct Hsent as [-> _]. by apply prefix_app_r.
    - destruct Hsent as [-> _]. by apply prefix_app_r.
    - by destruct Hsent as (_ & Hp & _).
    - by destruct Hsent as (? & ? & _ & _ & _ & Hp). }
  apply (output_in_place (k_pushed c) i x (Final x)); [done|].
  eapply prefix_lookup_Some; [|exact Hp]. unfold results_of. by rewrite list_lookup_fmap, Hx.
Qed.
End Worker.

(** ** What the gateway makes of it *)

(** [Recv] returns messages that were sent, in their order, each at some moment,
    and then perhaps an error. *)
Definition carried (sent : list Chunk) (h : list recv_outcome) : Prop :=
  exists n nows tail, length nows = n /\
    h = zip_with (fun now x => Received now (Some (ChunkToProto x))) nows (take n sent) ++ tail /\
    (tail = [] \/ exists e, tail = [RecvErr e]).

Section Gateway.
Context (r : Request) (workerID : string) (error_text : GoError -> string).

Lemma receiveAttempt_source (h : list recv_outcome) (n : Z) (i : nat) (ev : attemptEvent) :
  receiveAttempt r workerID n h !! i = Some ev ->
  exists m o, h !! i = Some o /\ (receive_step r workerID m o).1 = ev.
Proof.
  revert n i. induction h as [|o h IH]; intros n i; [done|]. cbn [receiveAttempt].
  destruct (receive_step r workerID n o) as [e next] eqn:Es. destruct i as [|i]; cbn [lookup list_lookup].
  - intros [= <-]. exists n, o. by rewrite Es.
  - destruct next as [m|]; [|done]. apply IH.
Qed.

(** A chunk that was received is one that was sent, in the same place. *)
Lemma received_chunk (sent : list Chunk) (h : list recv_outcome) (i : nat) (c : Chunk) :
  carried sent h -> receiveAttempt r workerID 0 h !! i = Some (EvChunk c) ->
  exists x, sent !! i = Some x /\ TokenText c = TokenText x /\ Final c = Final x /\
    (Final x = true -> known_reason (Reason x) -> Reason c = Reason x).
Proof.
  intros (n & nows & tail & Hn & -> & Htail) Hi. apply receiveAttempt_source in Hi as (m & o & Ho & Hc).
  apply lookup_app_Some in Ho as [Ho|[_ Ho]].
  2: { destruct Htail as [-> |[e ->]]; [done|]. apply list_lookup_singleton_Some in Ho as [_ <-].
       unfold receive_step in Hc. by destruct e. }
  apply lookup_zip_with_Some in Ho as (now & x & -> & _ & Hx). apply lookup_take_Some in Hx as [Hx _].
  exists x. split; [done|]. unfold receive_step in Hc.
  destruct (ChunkFromProto now (Some (ChunkToProto x))) as [c'|e] eqn:Ef; [|done].
  cbn [lift_protocol mbind result_bind] in Hc. destruct (validateChunk c' r workerID m) as [[]|e]; [|done].
  cbn [mbind result_bind] in Hc. assert (c' = c) as -> by (destruct (Final c'); by injection Hc).
  apply ChunkFromProto_spec in Ef. destruct Ef as [_ _ (_ & Ht & Hf) Hr _]. simpl in *. split_and!; [done..|].
  intros Hfx Hk. rewrite Hfx in Hr. apply finish_roundtrip in Hk. congruence.
Qed.
End Gateway.

(** ** Together *)
Context (error_text : GoError -> string) (SSEBufferSize : nat) (started : Time).

(** The [i]-th token of a worker for a request, in an event. *)
Definition token_of (w : Worker) (r : Request) (i : nat) (e : http_event) : Prop :=
  exists created, e = WriteSSE (SSEToken (token_payload r created
    (token_chunk w (Some (RequestToProto r (Config.wc_ID (mw_config w)))) (fun _ => 0) i))).

Definition completion_of (r : Request) (wire : option pb_GenerateRequest) (tail : list http_event) : Prop :=
  exists created fin, Reason fin = last_reason wire /\
    tail = [WriteSSE (SSECompletion (completion_payload r created fin)); WriteSSE SSEDone].

Lemma last_reason_known (wire : option pb_GenerateRequest) : known_reason (last_reason wire).
Proof. unfold last_reason, known_reason. case_if; tauto. Qed.

Lemma tokens_placed (w0 : Worker) (r : Request) (sent : list Chunk) (h : list recv_outcome)
    (cs : list Chunk) (ws : list http_event) :
  let wire := Some (RequestToProto r (Config.wc_ID (mw_config w0))) in
  (forall i x, sent !! i = Some x -> in_place w0 wire i x) ->
  carried sent h -> EvChunk <$> cs `prefix_of` receiveAttempt r (Config.wc_ID (mw_config w0)) 0 h ->
  tokens_out r cs ws ->
  (length ws <= job_outputs wire)%nat /\ (forall i e, ws !! i = Some e -> token_of w0 r i e).
Proof.
  intros wire Hsent Hh Hpre [Hws Hf].
  assert (forall i c, cs !! i = Some c -> (i < job_outputs wire)%nat /\
    TokenText c = token w0 (r_ID r) (Z.of_nat i)) as Hcs.
  { intros i c Hi. pose proof (Forall_lookup_1 _ _ _ _ Hf Hi) as Hc. simpl in Hc.
    destruct (received_chunk r (Config.wc_ID (mw_config w0)) sent h i c Hh) as (x & Hx & Ht & Hfx & _).
    { eapply prefix_lookup_Some; [|exact Hpre]. by rewrite list_lookup_fmap, Hi. }
    destruct (Hsent i x Hx) as [(_ & Hlt & Htx)|(Hfin & _)]; [|congruence]. by rewrite Ht. }
  split.
  - assert (length cs = length ws) as <- by by eapply Forall2_length.
    destruct (list.last cs) as [c|] eqn:El.
    + rewrite list.last_lookup in El. apply Hcs in El as [El _]. lia.
    + apply list.last_None in El as ->. simpl. lia.
  - intros i e He. destruct (Forall2_lookup_r _ _ _ _ _ Hws He) as (c & Hi & created & ->).
    exists created. unfold token_payload. cbn [token_chunk TokenText]. by rewrite (proj2 (Hcs i c Hi)).
Qed.

(** Whatever the interleavings in a mock worker that serves any calls, and in the
    attempt of the gateway that carries one of them, and wherever the connection
    between them breaks: the client of the attempt gets nothing, or the headers
    once and then the tokens 0, 1, 2, ... that the worker computes for the
    request, in order and not more than its output limit; a completion follows
    only after all of them, and carries the reason that the limit gives. *)
Theorem client_gets_worker_tokens (cfg : Config.WorkerConfig) (w0 : Worker) (s : state) (k : nat) (c : call)
    (r : Request) (p : pipe) :
  let wire := Some (RequestToProto r (Config.wc_ID cfg)) in
  New cfg = Ok w0 -> WorkerRun.reachable out_of_range cfg s -> st_calls s !! k = Some c -> k_request c = wire ->
  Stream.reachable r (Config.wc_ID cfg) error_text SSEBufferSize started p -> carried (k_sent c) (history p) ->
  out p = [] \/
  exists ws tail, out p = headers r :: ws ++ tail /\
    (length ws <= job_outputs wire)%nat /\ (forall i e, ws !! i = Some e -> token_of w0 r i e) /\
    (tail = [] \/ (exists e, tail = [WriteSSE (SSEError e); WriteSSE SSEDone]) \/
     length ws = job_outputs wire /\ completion_of r wire tail).
Proof.
  intros wire Hnew (w & Hw & Hrun) Hk Hq Hp Hh. assert (w = w0) as -> by congruence.
  pose proof (New_ok _ _ Hnew) as (_ & Hcfg & _). apply reachable_run_ok in Hrun.
  pose proof (fun i x => sent_in_place w0 wire s k c i x Hrun Hk Hq) as Hsent.
  apply stream_reachable_inv in Hp as [He Hp]. apply consumed_prefix in He. unfold phase_inv in Hp.
  assert (forall cs ws, EvChunk <$> cs `prefix_of` consumed p -> tokens_out r cs ws ->
    (length ws <= job_outputs wire)%nat /\ (forall i e, ws !! i = Some e -> token_of w0 r i e)) as Hcs.
  { intros cs ws Hpre Ht. unfold wire in *. rewrite <- Hcfg in *.
    eapply (tokens_placed w0 r (k_sent c) (history p) cs); [exact Hsent|done|by etrans|done]. }
  destruct (p_phase p) as [| |[e|]]; [by left; destruct Hp| |by left|]; right.
  - destruct Hp as (cs & ws & Hc & Ht & Ho). destruct (Hcs cs ws) as [Hl Hws]; [by rewrite Hc|done|].
    exists ws, []. rewrite app_nil_r. split_and!; try done. by left.
  - destruct Hp as (cs & ws & tail & Hpre & Ht & Hend & Ho). destruct (Hcs cs ws) as [Hl Hws]; [done..|].
    exists ws, tail. split_and!; try done. destruct Hend as [?|[?|(created & fin & Htook & Hf & Hr & ->)]]; [by left|by right; left|].
    right; right. destruct (received_chunk r (Config.wc_ID cfg) (k_sent c) (history p) (length cs) fin Hh) as (x & Hx & _ & Hfx & Hrx).
    { eapply prefix_lookup_Some; [|exact He]. rewrite Htook, lookup_app_r by (by rewrite length_fmap).
      by rewrite length_fmap, Nat.sub_diag. }
    rewrite Hf in Hfx. destruct (Hsent _ x Hx) as [(Hno & _)|(_ & Hlen & Hlast)]; [congruence|].
    assert (length cs = length ws) as <- by by eapply Forall2_length, Ht. split; [done|]. exists created, fin. split; [|done].
    rewrite (Hrx (eq_sym Hfx)); [done|]. rewrite Hlast. apply last_reason_known.
Qed.
End Delivery.

(** ** Witness: the call of [WorkerRun] for one token, carried to a client *)
Section Witnesses.
#[local] Existing Instance SecondsNanos.

Definition ex_message (now : Time) (x : Chunk) : recv_outcome := Received now (Some (ChunkToProto x)).

Definition ex_took_1 : pipe :=
  settle 2 (take_first ex_asked (push (Stream.received ex_asked "w1" open_pipe 0 (ex_message 2000 WorkerRun.ex_token))
    (EvChunk WorkerRun.ex_token) (Some 1)) 5 3000 true [EvChunk WorkerRun.ex_token] []).

Definition ex_took_2 : pipe :=
  push (Stream.received ex_asked "w1" ex_took_1 1 (ex_message 4000 ex_last)) (EvChunk ex_last) None.

Definition ex_delivered : pipe :=
  write ex_took_2 [EvChunk ex_last] []
    (forward_step ex_asked ex_text_of 5 5000 true (Arrived (EvChunk ex_last))) None.

Lemma ex_delivered_reachable : Stream.reachable ex_asked "w1" ex_text_of 4 5 ex_delivered.
Proof.
  eapply rtc_l; [apply (step_recv _ "w1" ex_text_of 4 5 open_pipe 0 (ex_message 2000 WorkerRun.ex_token)); reflexivity|].
  eapply rtc_l; [eapply (step_deliver ex_asked "w1" ex_text_of 4 5 _ (EvChunk WorkerRun.ex_token) (Some 1));
    [vm_compute; reflexivity|simpl; lia]|].
  eapply rtc_l; [apply (step_first ex_asked "w1" ex_text_of 4 5 _ (EvChunk WorkerRun.ex_token) [] 3000 true); vm_compute; reflexivity|].
  transitivity ex_took_1; [apply rtc_nsteps; exists 2%nat; apply settle_steps; vm_compute; lia|].
  eapply rtc_l; [apply (step_recv _ "w1" ex_text_of 4 5 ex_took_1 1 (ex_message 4000 ex_last)); vm_compute; reflexivity|].
  eapply rtc_l; [eapply (step_deliver ex_asked "w1" ex_text_of 4 5 _ (EvChunk ex_last) None);
    [vm_compute; reflexivity|vm_compute; lia]|].
  change (push _ (EvChunk ex_last) None) with ex_took_2.
  eapply rtc_l; [apply (step_forward ex_asked "w1" ex_text_of 4 5 ex_took_2 (EvChunk ex_last) [] 5000 true); vm_compute; reflexivity|].
  apply rtc_refl.
Qed.

Lemma client_gets_worker_tokens_witness :
  length (out ex_delivered) = 4%nat /\
  exists ws tail, out ex_delivered = headers ex_asked :: ws ++ tail /\ (length ws <= 1)%nat.
Proof.
  split; [vm_compute; reflexivity|].
  destruct (client_gets_worker_tokens ex_no_range ex_text_of 4 5 (Config.ex_worker_config 0 0) (ex_fresh 0 0) ex_state_end 0
    ex_returned ex_asked ex_delivered ex_fresh_new ex_run eq_refl eq_refl ex_delivered_reachable) as [H|(ws & tail & Ho & Hl & _)].
  - exists 2%nat, [2000; 4000], []. split; [reflexivity|]. split; [reflexivity|left; reflexivity].
  - vm_compute in H. discriminate H.
  - exists ws, tail. split; [exact Ho|exact Hl].
Defined.
End Witnesses.
