(* ===== verification/Fleet.v ===== *)
(** * A gateway and its mock workers

    The composition of all the parts: the gateway of [Traffic] with any number of
    requests in flight, workers that register and report, and a shutdown, and a
    fleet of mock workers ([WorkerRun]) that serve any calls.  Between them, a
    call's chunks travel to the attempt that made it, and the connection may break
    anywhere ([Delivery.carried]). *)

From S2P Require Import Prelude GoFloat GoString Model Examples Interfaces Wire Protocol Parse Sse Stream Gateway Chat.
From S2P Require Import MockWorker Generation WorkerRun WorkerCalls Delivery.
From S2P Require Config Registry Admission AttemptRun Traffic TrafficRun.

#[local] Open Scope Z_scope.
#[local] Open Scope go_scope.

Section Fleet.
Context {T : TimestampPb} (Code : GoError -> Z) (error_text : GoError -> string) (out_of_range : float64 -> Z).
Context (registry_error_text : Registry.RegistryError -> string) (cfg : Config.RouterConfig).

(** A mock worker of the fleet: its configuration, itself at its start, and where
    its run stands. *)
Record member := { m_config : Config.WorkerConfig; m_start : Worker; m_state : state }.

Record member_ok (m : member) : Prop := {
  mo_new : New (m_config m) = Ok (m_start m);
  mo_run : WorkerRun.reachable out_of_range (m_config m) (m_state m);
}.

Definition fleet_ok (fleet : gmap string member) : Prop :=
  map_Forall (fun id m => Config.wc_ID (m_config m) = id /\ member_ok m) fleet.

(** The stream of an attempt is one of the calls of the worker that it was sent to. *)
Definition served_by (fleet : gmap string member) (a : Traffic.opened_attempt) : Prop :=
  exists m k c, fleet !! w_ID (Traffic.o_worker a) = Some m /\ st_calls (m_state m) !! k = Some c /\
    k_request c = Some (RequestToProto (Traffic.o_request a) (w_ID (Traffic.o_worker a))) /\
    carried (k_sent c) (history (Traffic.o_pipe a)).

(** C1: Whatever the interleavings in the gateway and in the workers, and wherever a
    connection breaks: a request that has returned got one API error, or the
    stream of its last attempt, for the request that was parsed: the headers,
    then the tokens 0, 1, 2, ... that the worker it was routed to computes for it, in
    order and not more than its output limit, and a completion only after all of
    them. Nothing of a failed attempt, and nothing of another request, is in it. *)
Theorem fleet_serves_tokens (fleet : gmap string member) (s : Traffic.state) (k : nat) (q : Traffic.req) :
  is_u64 (Admission.GlobalInFlightTokens (Config.rc_Admission cfg)) -> fleet_ok fleet ->
  Traffic.reachable Code error_text registry_error_text cfg s ->
  Traffic.st_reqs s !! k = Some q -> Traffic.q_pc q = Traffic.Left -> Forall (served_by fleet) (Traffic.q_pipes q) ->
  (exists e, Traffic.q_writes q = [WriteAPIError e]) \/
  exists random now r n id m, parseRequest cfg random now (Traffic.q_incoming q) = Ok r /\ fleet !! id = Some m /\
    list.last (Traffic.q_opened q) = Some (attempt_name (r_ID r) n, id) /\
    let r := with_attempt r n in let wire := Some (RequestToProto r id) in
    exists ws tail, Traffic.q_writes q = headers r :: ws ++ tail /\ (length ws <= job_outputs wire)%nat /\
      (forall i e, ws !! i = Some e -> token_of (m_start m) r i e) /\
      (tail = [] \/ (exists e, tail = [WriteSSE (SSEError e); WriteSSE SSEDone]) \/
       length ws = job_outputs wire /\ completion_of r wire tail).
Proof.
  intros Hu Hf Hr Hk Hpc Hserved.
  destruct (TrafficRun.run_known Code error_text registry_error_text cfg s Hu Hr k q Hk) as (Ht & Hst & Hp & Ha).
  unfold TrafficRun.told in Ht. rewrite Hpc in Ht. destruct Ht as [_ [He|(a & Hin & Hfin & Hw & Hlast)]]; [by left|right].
  pose proof (proj1 (list.Forall_forall _ _) Hserved a Hin) as (m & j & c & Hm & Hc & Hq & Hcar).
  pose proof (proj1 (list.Forall_forall _ _) Hst a Hin) as Hreach.
  pose proof (proj1 (list.Forall_forall _ _) Ha a Hin) as (r & n & Hrq & Hor).
  destruct (Hp r Hrq) as (random & now & Hparse). destruct (Hf _ _ Hm) as [Hid [Hnew Hrun]].
  exists random, now, r, n, (w_ID (Traffic.o_worker a)), m. split; [done|]. split; [done|].
  split; [by rewrite Hlast, Hor|]. cbn zeta. rewrite Hw, <- Hor, <- Hid. cbn beta in Hreach. rewrite <- Hid in Hq, Hreach.
  destruct (client_gets_worker_tokens out_of_range error_text _ _ (m_config m) (m_start m) (m_state m) j c (Traffic.o_request a)
    (Traffic.o_pipe a) Hnew Hrun Hc Hq Hreach Hcar) as [Hno|H]; [|exact H].
  apply AttemptRun.reachable_answer in Hreach. unfold AttemptRun.answer_inv in Hreach. rewrite Hfin in Hreach.
  destruct Hreach as (env & x & _ & _ & Ho & _). destruct (respond_writes error_text env (Traffic.o_request a) (Traffic.q_started q) x)
    as [es Hes]. congruence.
Qed.
End Fleet.

(** ** Witness: a request for one token, served by a mock worker *)
Section Witnesses.
#[local] Existing Instance SecondsNanos.

Definition ex_fleet : gmap string member :=
  {["w1" := {| m_config := Config.ex_worker_config 0 0; m_start := ex_fresh 0 0; m_state := ex_state_end |}]}.

Definition ex_fleet_moves : list Traffic.move :=
  [Traffic.Registers 100 (registration "w1" "w1:9000" "mock-llm" 100 (ex_state 1 10 5));
   Traffic.Arrives (incoming_request 1)]
  ++ replicate 20 (Traffic.Turns 0 (Traffic.ex_turn 200 None))
  ++ [Traffic.Streams 0 0 (Traffic.SRecv (ex_message 2000 WorkerRun.ex_token)); Traffic.Streams 0 0 Traffic.SDeliver;
      Traffic.Streams 0 0 (Traffic.STake 3000 true); Traffic.Streams 0 0 Traffic.SUpdate; Traffic.Streams 0 0 Traffic.SUpdate;
      Traffic.Streams 0 0 (Traffic.SRecv (ex_message 4000 ex_last)); Traffic.Streams 0 0 Traffic.SDeliver;
      Traffic.Streams 0 0 (Traffic.STake 5000 true); Traffic.Streams 0 0 Traffic.SUpdate]
  ++ replicate 5 (Traffic.Turns 0 (Traffic.ex_turn 200 None)).

Definition ex_served : Traffic.state := Traffic.played ex_code ex_text_of ex_registry_text ex_server ex_fleet_moves.

Lemma ex_served_reachable : Traffic.reachable ex_code ex_text_of ex_registry_text Config.ex_router_config ex_served.
Proof. apply Traffic.played_reachable; vm_compute; reflexivity. Qed.

Lemma ex_fleet_ok : fleet_ok ex_no_range ex_fleet.
Proof.
  apply map_Forall_singleton. split; [reflexivity|]. split; [exact ex_fresh_new|exact ex_run].
Qed.

(** What is to be seen of a request. *)
Definition seen (q : Traffic.req) : bool * nat * list (Request * string * list recv_outcome) :=
  (Traffic.left_b q, length (Traffic.q_writes q),
   (fun a => (Traffic.o_request a, w_ID (Traffic.o_worker a), history (Traffic.o_pipe a))) <$> Traffic.q_pipes q).

Definition ex_seen : bool * nat * list (Request * string * list recv_outcome) :=
  (true, 4%nat, [(ex_asked, "w1", [ex_message 2000 WorkerRun.ex_token; ex_message 4000 ex_last])]).

Lemma ex_one_request : seen <$> Traffic.st_reqs ex_served !! 0%nat = Some ex_seen.
Proof. vm_cast_no_check (eq_refl (Some ex_seen)). Qed.

Lemma fleet_serves_tokens_witness : exists q ws tail,
  Traffic.st_reqs ex_served !! 0%nat = Some q /\ length (Traffic.q_writes q) = 4%nat /\
  exists r, Traffic.q_writes q = headers r :: ws ++ tail.
Proof.
  destruct (proj1 (fmap_Some _ _ _) ex_one_request) as (q & Hk & Hs). unfold ex_seen, seen in Hs. exists q.
  injection Hs as Hb Hl Hp.
  destruct (fleet_serves_tokens ex_code ex_text_of ex_no_range ex_registry_text Config.ex_router_config ex_fleet ex_served 0 q)
    as [[e He]|(random & now & r & n & id & m & _ & _ & _ & ws & tail & Hw & _)].
  - vm_compute. split; congruence.
  - exact ex_fleet_ok.
  - exact ex_served_reachable.
  - exact Hk.
  - unfold Traffic.left_b in Hb. destruct (Traffic.q_pc q); first [discriminate Hb|reflexivity].
  - destruct (Traffic.q_pipes q) as [|a [|? ?]]; [discriminate Hp| |discriminate Hp]. injection Hp as Hr Hw Hh.
    apply Forall_cons_2; [|apply Forall_nil_2].
    exists {| m_config := Config.ex_worker_config 0 0; m_start := ex_fresh 0 0; m_state := ex_state_end |}, 0%nat, ex_returned.
    rewrite <- Hw, <- Hr, <- Hh. split; [reflexivity|]. split; [reflexivity|]. split; [reflexivity|].
    exists 2%nat, [2000; 4000], []. split; [reflexivity|]. split; [reflexivity|left; reflexivity].
  - rewrite He in Hl. cbn in Hl. discriminate Hl.
  - exists ws, tail. split; [exact Hk|]. split; [symmetry; exact Hl|]. exists (with_attempt r n). exact Hw.
Defined.
End Witnesses.
