(* ===== verification/Serving.v ===== *)
(** * Serving: the listeners, the routes and the two commands

    [Start], [HTTPAddress], [ControlAddress] and [Close] of
    [src/internal/gateway/server.go], [Start], [Stop] and [Run] of
    [src/internal/mockworker/worker.go], and the commands
    [src/cmd/router/main.go] and [src/cmd/mock-worker/main.go].  A host holds the
    sockets that listen and what was written to the standard error: the lines of
    [fatal] and those of the gateway's logger ([src/internal/observability/log.go]).
    What [net.Listen] answers is an argument, and so are the JSON text of a log
    record and what happens to the server between its start and the end of the
    process.  What the libraries themselves print there is left out. *)

From S2P Require Import Prelude GoFloat GoString Duration Model Examples Wire Protocol Parse Sse Stream Gateway Chat.
From S2P Require Config Metrics MockWorker Membership WorkerClient Registry Traffic.

#[local] Open Scope Z_scope.
#[local] Open Scope go_scope.

(** ** Sockets *)
Record listener := { l_id : nat; Addr : string }.

Record host := {
  listening : gmap nat string;   (* the addresses of the open sockets *)
  opened : nat;                  (* the sockets opened so far *)
  stderr : list string;
}.

Section Host.
Context (listen : gmap nat string -> string -> result string string).

Definition Listen (h : host) (address : string) : host * result string listener :=
  match listen (listening h) address with
  | Err e => (h, Err e)
  | Ok a => ({| listening := <[opened h := a]> (listening h); opened := S (opened h); stderr := stderr h |},
             Ok {| l_id := opened h; Addr := a |})
  end.

Definition CloseListener (h : host) (l : listener) : host :=
  {| listening := delete (l_id l) (listening h); opened := opened h; stderr := stderr h |}.

Definition close_optional (h : host) (l : option listener) : host :=
  match l with Some l => CloseListener h l | None => h end.

(** [fatal]: a line on the standard error and the exit code. *)
Definition fatal (command : string) (h : host) (e : string) : host * Z :=
  ({| listening := listening h; opened := opened h; stderr := stderr h ++ [command +:+ ": " +:+ e] |}, 1).

(** ** The log *)

(** The records of the gateway's logger: those of its handlers, and one of each
    serving loop that ends otherwise than by a shutdown. All are of the level
    Info or above it. *)
Inductive server_log :=
| FromHandler (r : Traffic.log_record)
| HTTPStopped (e : string)
| ControlStopped (e : string).

(** [NewJSON(os.Stderr, slog.LevelInfo)]: a line for each record. *)
Context (json_line : server_log -> string).

Definition NewJSON (h : host) (records : list server_log) : host :=
  {| listening := listening h; opened := opened h; stderr := stderr h ++ (json_line <$> records) |}.

(** ** The gateway *)
Record gateway := {
  g_server : Server;
  httpListener : option listener;
  controlListener : option listener;
  started : bool;                (* both servers exist *)
}.

Definition new_gateway (s : Server) : gateway :=
  {| g_server := s; httpListener := None; controlListener := None; started := false |}.

Definition Start (g : gateway) (h : host) : gateway * host * option string :=
  match Listen h (Config.rc_HTTPAddress (s_config (g_server g))) with
  | (h, Err e) => (g, h, Some ("listen HTTP: " +:+ e))
  | (h, Ok http) =>
      match Listen h (Config.rc_ControlAddress (s_config (g_server g))) with
      | (h, Err e) => (g, CloseListener h http, Some ("listen control gRPC: " +:+ e))
      | (h, Ok control) =>
          ({| g_server := g_server g; httpListener := Some http; controlListener := Some control;
              started := true |}, h, None)
      end
  end.

Definition HTTPAddress (g : gateway) : string := from_option Addr "" (httpListener g).
Definition ControlAddress (g : gateway) : string := from_option Addr "" (controlListener g).

(** The servers that do not exist are not shut down. *)
Definition shutdown_of (g : gateway) (o : close_outcome) : close_outcome :=
  if started g then o
  else {| shutdown_error := None; control_stopped := true; active_done := active_done o;
          context_error := context_error o; pool_error := pool_error o |}.

Definition Close (g : gateway) (o : close_outcome) (h : host) : gateway * host * option GoError :=
  let '(s, e) := Gateway.Close (g_server g) (shutdown_of g o) in
  ({| g_server := s; httpListener := httpListener g; controlListener := controlListener g; started := started g |},
   if closed_once (g_server g) then h
   else close_optional (close_optional h (httpListener g)) (controlListener g),
   e).

(** What the goroutines of a started server do: to the server until the signal, and
    to the log until [main] returns or writes its line, and after that line until
    the process is gone. *)
Record service := {
  served : Server -> Server;
  logged : list server_log;
  logged_late : list server_log;
}.

(** [main] of the router, which loads a configuration with [load]. *)
Definition router_main (load : string -> result string Config.RouterConfig) (error_text : GoError -> string)
    (serving : service) (o : close_outcome) (configPath : string) (h : host) : host * Z :=
  match load configPath with
  | Err e => fatal "router" h e
  | Ok cfg =>
      match Gateway.New cfg with
      | Err e => fatal "router" h e
      | Ok s =>
          match Start (new_gateway s) h with
          | (_, h, Some e) => fatal "router" h e
          | (g, h, None) =>
              let g := {| g_server := served serving (g_server g); httpListener := httpListener g;
                          controlListener := controlListener g; started := started g |} in
              match Close g o h with
              | (_, h, Some e) =>
                  let '(h, code) := fatal "router" (NewJSON h (logged serving)) (error_text e) in
                  (NewJSON h (logged_late serving), code)
              | (_, h, None) => (NewJSON h (logged serving), 0)
              end
          end
      end
  end.

(** ** The worker *)
Record worker := {
  r_worker : MockWorker.Worker;
  r_listener : option listener;
  r_stopped : bool;
}.

Definition new_worker (w : MockWorker.Worker) : worker :=
  {| r_worker := w; r_listener := None; r_stopped := false |}.

Definition StartWorker (w : worker) (h : host) : worker * host * option string :=
  match Listen h (Config.wc_DataAddress (MockWorker.mw_config (r_worker w))) with
  | (h, Err e) => (w, h, Some ("listen worker: " +:+ e))
  | (h, Ok l) =>
      ({| r_worker := Membership.Start (r_worker w) (Addr l); r_listener := Some l; r_stopped := r_stopped w |},
       h, None)
  end.

Definition Address (w : worker) : string := MockWorker.dataAddress (r_worker w).

(** [Stop] runs once. *)
Definition StopWorker (w : worker) (h : host) : worker * host :=
  if r_stopped w then (w, h)
  else ({| r_worker := r_worker w; r_listener := r_listener w; r_stopped := true |},
        close_optional h (r_listener w)).

(** [Run] until the context ends; the goroutine of [Start] that watches the context
    may stop the worker first. *)
Definition Run (working : MockWorker.Worker -> MockWorker.Worker) (stopped_first : bool) (w : worker) (h : host) :
  worker * host * option string :=
  match StartWorker w h with
  | (w, h, Some e) => (w, h, Some e)
  | (w, h, None) =>
      let w := {| r_worker := working (r_worker w); r_listener := r_listener w; r_stopped := r_stopped w |} in
      let '(w, h) := if stopped_first then StopWorker w h else (w, h) in
      let '(w, h) := StopWorker w h in (w, h, None)
  end.

Definition worker_main (load : string -> result string Config.WorkerConfig)
    (working : MockWorker.Worker -> MockWorker.Worker) (stopped_first : bool) (configPath : string) (h : host) :
  host * Z :=
  match load configPath with
  | Err e => fatal "mock-worker" h e
  | Ok cfg =>
      match MockWorker.New cfg with
      | Err e => fatal "mock-worker" h e
      | Ok w =>
          match Run working stopped_first (new_worker w) h with
          | (_, h, Some e) => fatal "mock-worker" h e
          | (_, h, None) => (h, 0)
          end
      end
  end.
End Host.

(** ** Routes *)
Inductive route := RChat | RLive | RReady | RMetrics.

Definition patterns : list (string * string * route) :=
  [("POST", "/v1/chat/completions", RChat); ("GET", "/livez", RLive); ("GET", "/readyz", RReady);
   ("GET", "/metrics", RMetrics)].

Definition paths : list string := (fun p => p.1.2) <$> patterns.

(** A pattern for GET takes HEAD too. *)
Definition method_matches (pattern method : string) : bool :=
  (pattern =? method)%string || ((pattern =? "GET")%string && (method =? "HEAD")%string).

Inductive reply :=
| Handled (events : list http_event)
| Exposition (lines : list string)
| NotFound
| MethodNotAllowed (allow : string).

(** The choice of the multiplexer, for a path in its canonical form. *)
Definition find_route (method path : string) : result reply route :=
  match list_find (fun p => p.1.2 = path) patterns with
  | None => Err NotFound
  | Some (_, (pattern, _, r)) =>
      if method_matches pattern method then Ok r
      else Err (MethodNotAllowed (if (pattern =? "GET")%string then "GET, HEAD" else pattern))
  end.

Section Handlers.
Context {T : TimestampPb} (Code : GoError -> Z) (error_text : GoError -> string).
Context (format_g : float64 -> string) (Quote : string -> string).

Record http_request := {
  method : string;
  path : string;
  at_probe : Time;             (* the reading of the clock of a probe *)
  chat : chat_env;             (* what a chat request meets *)
  iteration : Metrics.orders;  (* the orders in which the maps of the metrics are read *)
}.

Definition handle (s : Server) (r : http_request) : Server * reply :=
  match find_route (method r) (path r) with
  | Err e => (s, e)
  | Ok RChat => let c := handleChat Code error_text s (chat r) in (cr_server c, Handled (cr_writes c))
  | Ok RLive => (s, Handled handleLive)
  | Ok RReady => let '(s, ws) := handleReady s (at_probe r) in (s, Handled ws)
  | Ok RMetrics => (s, Exposition (Metrics.Handler format_g Quote (iteration r)))
  end.
End Handlers.

(** ** Lemmas on the host *)
Section HostProps.
Context (listen : gmap nat string -> string -> result string string).

(** The open sockets were opened. *)
Definition host_ok (h : host) : Prop := forall id, is_Some (listening h !! id) -> (id < opened h)%nat.

Lemma Listen_ok (h h' : host) (address : string) (l : listener) :
  host_ok h -> Listen listen h address = (h', Ok l) ->
  listen (listening h) address = Ok (Addr l) /\ l_id l = opened h /\ host_ok h' /\
  listening h' = <[opened h := Addr l]> (listening h) /\ opened h' = S (opened h) /\ stderr h' = stderr h /\
  delete (l_id l) (listening h') = listening h.
Proof.
  intros Hh. unfold Listen. destruct (listen (listening h) address) as [a|e]; [|done]. intros [= <- <-].
  split_and!; try done; simpl.
  - intros id. simpl. destruct (decide (id = opened h)) as [->|Hne]; [lia|].
    rewrite lookup_insert_ne by done. intros Hs%Hh. lia.
  - rewrite delete_insert_id; [done|]. apply eq_None_not_Some. intros Hs%Hh. lia.
Qed.

Lemma Listen_err (h h' : host) (address e : string) :
  Listen listen h address = (h', Err e) -> h' = h /\ listen (listening h) address = Err e.
Proof. unfold Listen. destruct (listen (listening h) address); [done|]. by intros [= <- <-]. Qed.

(** Nothing is left open by a start that fails, and two sockets by one that does
    not. *)
Lemma Start_spec (g g' : gateway) (h h' : host) (e : option string) :
  host_ok h -> Start listen g h = (g', h', e) ->
  let cfg := s_config (g_server g) in
  match e with
  | Some _ => g' = g /\ listening h' = listening h /\ stderr h' = stderr h /\
      forall a, listen (listening h) (Config.rc_HTTPAddress cfg) = Ok a ->
        forall b, listen (<[opened h := a]> (listening h)) (Config.rc_ControlAddress cfg) <> Ok b
  | None => exists http control, g' = {| g_server := g_server g; httpListener := Some http;
        controlListener := Some control; started := true |} /\
      listen (listening h) (Config.rc_HTTPAddress cfg) = Ok (Addr http) /\
      listen (<[opened h := Addr http]> (listening h)) (Config.rc_ControlAddress cfg) = Ok (Addr control) /\
      stderr h' = stderr h /\
      listening (CloseListener (CloseListener h' http) control) = listening h
  end.
Proof.
  intros Hh. cbn zeta. unfold Start. destruct (Listen listen h _) as [h1 [http|e1]] eqn:E1.
  2: { intros [= <- <- <-]. apply Listen_err in E1 as [-> E1]. split_and!; try done. intros a Ha. congruence. }
  apply Listen_ok in E1 as (H1 & Hid & Hh1 & Hl1 & Ho1 & Hs1 & Hd1); [|done].
  destruct (Listen listen h1 _) as [h2 [control|e2]] eqn:E2; intros [= <- <- <-].
  - apply Listen_ok in E2 as (H2 & Hid2 & Hh2 & Hl2 & Ho2 & Hs2 & Hd2); [|done].
    exists http, control. rewrite Hl1 in H2. split_and!; try done; [congruence|].
    simpl. by rewrite delete_delete, Hd2, Hd1.
  - apply Listen_err in E2 as [-> E2]. split_and!; try done. intros a Ha b Hb.
    rewrite Hl1 in E2. congruence.
Qed.

(** The calls that the shutdown makes all succeed in time. *)
Definition clean (o : close_outcome) : Prop :=
  shutdown_error o = None /\ pool_error o = None /\
  (context_error o = None \/ control_stopped o = true /\ active_done o = true).

Lemma close_error (s : Server) (o : close_outcome) :
  closed_once s = false -> (Gateway.Close s o).2 = None <-> clean o.
Proof.
  unfold Gateway.Close. intros ->. unfold clean.
  destruct (shutdown_error o), (control_stopped o), (active_done o), (context_error o), (pool_error o);
    simpl; naive_solver.
Qed.
End HostProps.

(** ** Properties *)
Section Commands.
Context (listen : gmap nat string -> string -> result string string) (error_text : GoError -> string).
Context (json_line : server_log -> string) (ReadFile : string -> result string bytes).

(** An exit with a line on the standard error. *)
Definition failed (command : string) (h h' : host) (code : Z) : Prop :=
  code = 1 /\ exists e, stderr h' = stderr h ++ [command +:+ ": " +:+ e].

(** A configuration that loads, with both addresses free. *)
Definition can_start (load : string -> result string Config.RouterConfig) (configPath : string) (h : host) : Prop :=
  exists cfg a b, load configPath = Ok cfg /\
    listen (listening h) (Config.rc_HTTPAddress cfg) = Ok a /\
    listen (<[opened h := a]> (listening h)) (Config.rc_ControlAddress cfg) = Ok b.

(** C38: The router exits with 0 exactly when its configuration file was read, decoded
    and valid, both addresses could be bound, and the shutdown after the signal
    was clean; otherwise it exits with 1. On every path it closes every socket
    that it opened. The standard error then has what the logger wrote while the
    server ran, and nothing else after a clean exit; after a shutdown that failed,
    one line of the command follows, before the last records of goroutines that
    are still running; when the server never started, that line is all. *)
Theorem router_main_outcome
    (Decode : (string -> result duration_error Duration) -> bytes -> result string Config.RouterConfig)
    (serving : service) (o : close_outcome) (configPath : string) (h : host) :
  host_ok h -> (forall s, closed_once (served serving s) = closed_once s) ->
  let load := Config.LoadRouter ReadFile Decode in
  let '(h', code) := router_main listen json_line load error_text serving o configPath h in
  let log := json_line <$> logged serving in
  let late := json_line <$> logged_late serving in
  listening h' = listening h /\
  (code = 0 <-> can_start load configPath h /\ clean o) /\
  (code = 0 -> stderr h' = stderr h ++ log) /\
  (code <> 0 -> code = 1 /\ exists e,
     let line := "router: " +:+ e in
     (can_start load configPath h -> stderr h' = stderr h ++ log ++ [line] ++ late) /\
     (~ can_start load configPath h -> stderr h' = stderr h ++ [line])).
Proof.
  intros Hh Hserve. cbn zeta. unfold router_main.
  destruct (Config.LoadRouter ReadFile Decode configPath) as [cfg|e] eqn:Hload.
  2: { assert (~ can_start (Config.LoadRouter ReadFile Decode) configPath h) as Hno
         by (intros (cfg & a & b & Hl & _); congruence).
       cbn. split_and!; [done|by split; [|intros [? _]]|done|]. intros _. split; [done|]. by exists e. }
  assert (exists s, Gateway.New cfg = Ok s /\ s_config s = cfg /\ closed_once s = false) as (s & Hs & Hcfg & Hclosed).
  { apply Config.LoadRouter_valid in Hload as [_ Hv]. eexists. split; [by apply New_total|done]. }
  rewrite Hs. destruct (Start listen (new_gateway s) h) as [[g h1] e] eqn:Hst.
  apply Start_spec in Hst; [|done]. cbn [new_gateway g_server] in Hst. rewrite Hcfg in Hst. destruct e as [e|].
  { destruct Hst as (_ & Hl & Hse & Hno).
    assert (~ can_start (Config.LoadRouter ReadFile Decode) configPath h) as Hcan.
    { intros (cfg' & a & b & Hl' & Ha & Hb). rewrite Hload in Hl'. injection Hl' as <-. by destruct (Hno a Ha b). }
    cbn. split_and!; [done|by split; [|intros [? _]]|done|]. intros _. split; [done|]. exists e. by rewrite Hse. }
  destruct Hst as (http & control & -> & Ha & Hb & Hse & Hl).
  assert (can_start (Config.LoadRouter ReadFile Decode) configPath h) as Hcan by by exists cfg, (Addr http), (Addr control).
  unfold Close. cbn [g_server httpListener controlListener started shutdown_of close_optional].
  pose proof (close_error (served serving s) o) as Hc. rewrite Hserve in Hc. specialize (Hc Hclosed).
  rewrite Hserve, Hclosed. destruct (Gateway.Close (served serving s) o) as [s' [e|]]; cbn [snd] in Hc.
  - cbn [fatal NewJSON CloseListener listening stderr]. split_and!; [exact Hl|split; [done|]|done|].
    + by intros [_ Hcl%Hc].
    + intros _. split; [done|]. exists (error_text e). split; [|done]. intros _. by rewrite Hse, <- !(assoc_L (++)).
  - cbn [NewJSON CloseListener listening stderr]. split_and!; [exact Hl|split; [|done]|by rewrite Hse|done].
    intros _. split; [done|by apply Hc].
Qed.

(** The mock worker exits with 0 exactly when its configuration loads and its
    address can be bound, whichever goroutine stops it; otherwise with 1 after
    one line on the standard error. It leaves no socket open, and it advertises
    the configured address, or the one that it is bound to. *)
Theorem worker_main_outcome
    (Decode : (string -> result duration_error Duration) -> bytes -> result string Config.WorkerConfig)
    (working : MockWorker.Worker -> MockWorker.Worker) (stopped_first : bool) (configPath : string) (h : host) :
  host_ok h ->
  let '(h', code) := worker_main listen (Config.LoadWorker ReadFile Decode) working stopped_first configPath h in
  listening h' = listening h /\
  (code = 0 /\ stderr h' = stderr h \/ failed "mock-worker" h h' code) /\
  (code = 0 <-> exists cfg a, Config.LoadWorker ReadFile Decode configPath = Ok cfg /\
     listen (listening h) (Config.wc_DataAddress cfg) = Ok a) /\
  (forall cfg w a, MockWorker.New cfg = Ok w -> listen (listening h) (Config.wc_DataAddress cfg) = Ok a ->
     Address (StartWorker listen (new_worker w) h).1.1 =
       (if (Config.AdvertisedAddress cfg =? "")%string then a else Config.AdvertisedAddress cfg)).
Proof.
  intros Hh.
  assert (forall cfg w a, MockWorker.New cfg = Ok w -> listen (listening h) (Config.wc_DataAddress cfg) = Ok a ->
    Address (StartWorker listen (new_worker w) h).1.1 =
      (if (Config.AdvertisedAddress cfg =? "")%string then a else Config.AdvertisedAddress cfg)) as Hadr.
  { intros cfg w a (_ & Hcfg & _)%MockWorker.New_ok Ha. unfold StartWorker, Listen. cbn [new_worker r_worker].
    rewrite Hcfg, Ha. unfold Address. simpl. rewrite Hcfg. by destruct (Config.AdvertisedAddress cfg =? "")%string. }
  unfold worker_main. destruct (Config.LoadWorker ReadFile Decode configPath) as [cfg|e] eqn:Hload.
  2: { split_and!; [done|right; by split; [|eexists]| |done]. split; [done|intros (cfg & a & Hl & _); done]. }
  assert (exists w, MockWorker.New cfg = Ok w /\ MockWorker.mw_config w = cfg) as (w & Hw & Hcfg).
  { apply Config.LoadWorker_ok in Hload as [_ Hv]. unfold MockWorker.New. rewrite Hv. by eexists. }
  rewrite Hw. unfold Run, StartWorker. cbn [new_worker r_worker r_listener r_stopped]. rewrite Hcfg.
  destruct (Listen listen h _) as [h2 [l|e2]] eqn:Hl.
  - apply Listen_ok in Hl as (Ha & Hid & _ & _ & _ & Hse & Hd); [|done].
    destruct stopped_first; simpl; (split_and!; [exact Hd|by left| |done]); split; eauto; done.
  - apply Listen_err in Hl as [-> Hl]. split_and!; [done|right; by split; [|eexists]| |done].
    split; [done|]. intros (cfg' & a & [= <-] & Ha). congruence.
Qed.
End Commands.

Section Routing.
Context {T : TimestampPb} (Code : GoError -> Z) (error_text : GoError -> string).
Context (format_g : float64 -> string) (Quote : string -> string).

Definition get_method (m : string) : Prop := m = "GET" \/ m = "HEAD".

#[export] Instance get_method_dec (m : string) : Decision (get_method m).
Proof. unfold get_method. apply _. Defined.

Lemma paths_chat : "/v1/chat/completions" ∈ paths /\ ("/v1/chat/completions" ∉ ["/livez"; "/readyz"; "/metrics"]).
Proof.
  split; [by left|]. intros H. by repeat (apply elem_of_cons in H as [?|H]; [done|]); apply not_elem_of_nil in H.
Qed.

Lemma paths_probe (p : string) : p ∈ ["/livez"; "/readyz"; "/metrics"] -> p ∈ paths /\ p <> "/v1/chat/completions".
Proof.
  intros H. split; [by right|]. intros ->. by apply paths_chat in H.
Qed.

(** The choices of the multiplexer. *)
Lemma find_route_cases (m p : string) :
  (p = "/v1/chat/completions" /\ m = "POST" /\ find_route m p = Ok RChat) \/
  (p = "/v1/chat/completions" /\ m <> "POST" /\ find_route m p = Err (MethodNotAllowed "POST")) \/
  (p ∈ ["/livez"; "/readyz"; "/metrics"] /\ get_method m /\
     (p = "/livez" /\ find_route m p = Ok RLive \/ p = "/readyz" /\ find_route m p = Ok RReady \/
      p = "/metrics" /\ find_route m p = Ok RMetrics)) \/
  (p ∈ ["/livez"; "/readyz"; "/metrics"] /\ ~ get_method m /\
     find_route m p = Err (MethodNotAllowed "GET, HEAD")) \/
  ((p ∉ paths) /\ find_route m p = Err NotFound).
Proof.
  assert (method_matches "GET" m = bool_decide (get_method m)) as Hget.
  { unfold method_matches. change ("GET" =? "GET")%string with true. destruct (decide (get_method m)) as [H|H].
    - rewrite bool_decide_true by done. apply orb_true_iff. destruct H as [->| ->]; [by left|by right].
    - rewrite bool_decide_false by done. apply orb_false_iff. cbn [andb]. rewrite !String.eqb_neq.
      split; intros E; apply H; [by left|by right]. }
  assert (method_matches "POST" m = bool_decide (m = "POST")) as Hpost.
  { unfold method_matches. change ("POST" =? "GET")%string with false. cbn [andb]. rewrite orb_false_r.
    destruct (decide (m = "POST")) as [->|H]; [done|]. rewrite bool_decide_false by done.
    apply String.eqb_neq. congruence. }
  assert (forall i q, list_find (fun q => q.1.2 = p) patterns = Some (i, q) -> find_route m p =
    if method_matches q.1.1 m then Ok q.2
    else Err (MethodNotAllowed (if (q.1.1 =? "GET")%string then "GET, HEAD" else q.1.1))) as Hfind
    by (intros i [[a b] r] Hq; unfold find_route; by rewrite Hq).
  destruct (decide (p = "/v1/chat/completions")) as [->|H1].
  { rewrite (Hfind 0%nat ("POST", "/v1/chat/completions", RChat) eq_refl). cbn [fst snd]. rewrite Hpost.
    destruct (decide (m = "POST")); [rewrite bool_decide_true by done|rewrite bool_decide_false by done]; tauto. }
  destruct (decide (p ∈ ["/livez"; "/readyz"; "/metrics"])) as [Hin|Hout].
  - right. right. destruct (decide (get_method m)) as [Hm|Hm]; [left|right; left]; (split_and!; [done..|]);
      (apply elem_of_cons in Hin as [->|Hin]; [rewrite (Hfind 1%nat ("GET", "/livez", RLive) eq_refl)|
       apply elem_of_cons in Hin as [->|Hin]; [rewrite (Hfind 2%nat ("GET", "/readyz", RReady) eq_refl)|
       apply elem_of_cons in Hin as [->|Hin%not_elem_of_nil]; [rewrite (Hfind 3%nat ("GET", "/metrics", RMetrics) eq_refl)|done]]]);
      cbn [fst snd]; rewrite Hget; first [rewrite bool_decide_true by done; tauto|by rewrite bool_decide_false by done].
  - do 4 right. assert (p ∉ paths) as Hno by (unfold paths; simpl; set_solver). split; [done|].
    unfold find_route. destruct (list_find _ patterns) as [[i q]|] eqn:Hf; [|done].
    apply list_find_Some in Hf as (Hi & Hq & _). exfalso. apply Hno. rewrite <- Hq.
    apply list_elem_of_fmap. exists q. split; [done|by eapply list_elem_of_lookup_2].
Qed.

Abbreviation handle := (Serving.handle Code error_text format_g Quote).

(** Every HTTP request gets exactly one reply, from the handler that its path and
    method name: a chat request its API error or its stream, a probe one JSON
    object, of status 200 or 503, the metrics their text; any other path is not
    found, and any other method of a known path is refused with the methods that
    are allowed. Only a chat request and a readiness probe change the server, and
    the probe only the flag. *)
Theorem handle_one_reply (s : Server) (r : http_request) :
  let '(s', reply) := handle s r in
  let get := get_method (method r) in
  (reply = NotFound <-> path r ∉ paths) /\
  (reply = MethodNotAllowed "POST" <-> path r = "/v1/chat/completions" /\ method r <> "POST") /\
  (reply = MethodNotAllowed "GET, HEAD" <-> path r ∈ ["/livez"; "/readyz"; "/metrics"] /\ ~ get) /\
  match reply with
  | Handled ws =>
      path r = "/v1/chat/completions" /\ method r = "POST" /\ s' = cr_server (handleChat Code error_text s (chat r)) /\
        ws = cr_writes (handleChat Code error_text s (chat r)) \/
      path r = "/livez" /\ get /\ s' = s /\ ws = [WriteJSON StatusOK [("status", "live")]] \/
      path r = "/readyz" /\ get /\ s' = set_ready s (ready s') /\
        ws = [if ready s' then WriteJSON StatusOK [("status", "ready")]
              else WriteJSON StatusServiceUnavailable [("status", "not_ready")]] /\
        ready s' = (0 <? Registry.HealthyCount (s_registry s) (at_probe r))%nat && negb (root_canceled s)
  | Exposition lines => path r = "/metrics" /\ get /\ s' = s
  | NotFound => s' = s
  | MethodNotAllowed allow => s' = s /\ (allow = "POST" \/ allow = "GET, HEAD")
  end.
Proof.
  unfold handle. destruct (find_route_cases (method r) (path r)) as
    [(Hp & Hm & ->)|[(Hp & Hm & ->)|[(Hp & Hm & Hr)|[(Hp & Hm & ->)|(Hno & ->)]]]].
  - pose proof paths_chat as [Hc Hc']. rewrite Hp, Hm. split_and!; try (by split; [|tauto]). by left.
  - pose proof paths_chat as [Hc Hc']. rewrite Hp. split_and!; [by split; [|tauto]|by split|by split; [|tauto]|done|by left].
  - destruct (paths_probe _ Hp) as [Hin Hne].
    assert (forall (x : reply) P Q R, x <> NotFound -> x <> MethodNotAllowed "POST" -> x <> MethodNotAllowed "GET, HEAD" ->
      (R : Prop) -> (x = NotFound <-> path r ∉ paths) /\ (x = MethodNotAllowed "POST" <-> path r = "/v1/chat/completions" /\ P) /\
      (x = MethodNotAllowed "GET, HEAD" <-> Q /\ ~ get_method (method r)) /\ R) as H by (intros; tauto).
    destruct Hr as [[Er ->]|[[Er ->]|[Er ->]]]; [|unfold handleReady|]; apply H; try done.
    + right. left. by split_and!.
    + right. right. split_and!; try done. simpl. by destruct (_ && _).
  - destruct (paths_probe _ Hp) as [Hin Hne]. split_and!; [by split; [|tauto]|by split; [|tauto]|by split|done|by right].
  - pose proof paths_chat as [Hc _]. split_and!; [by split| | |done]; (split; [done|]); intros [Hp' _]; exfalso; apply Hno.
    + by rewrite Hp'.
    + by apply paths_probe.
Qed.
End Routing.

(** ** Witnesses *)

(** A host where the ports in use are refused. *)
Definition ex_listen (sockets : gmap nat string) (address : string) : result string string :=
  if decide (address ∈ (map_to_list sockets).*2) then Err ("listen tcp " +:+ address +:+ ": bind: address already in use")
  else Ok address.

Definition ex_host (sockets : list (nat * string)) : host :=
  {| listening := list_to_map sockets; opened := length sockets; stderr := [] |}.

Definition ex_read (path : string) : result string bytes :=
  if (path =? "router.yaml")%string then Ok [] else Err "no such file".
Definition ex_decode {A} (a : A) (_ : string -> result duration_error Duration) (_ : bytes) : result string A := Ok a.

Definition ex_outcome : close_outcome :=
  {| shutdown_error := None; control_stopped := true; active_done := true; context_error := None; pool_error := None |}.

(** One worker registers, and another one while the process shuts down. *)
Definition ex_json (r : server_log) : string :=
  match r with
  | FromHandler (Traffic.LogRegistered id _) => "registered " +:+ id
  | FromHandler (Traffic.LogRouting id _ _) => "routed " +:+ id
  | HTTPStopped e | ControlStopped e => "stopped " +:+ e
  end.

Definition ex_service : service :=
  {| served := id; logged := [FromHandler (Traffic.LogRegistered "w1" "w1:9000")];
     logged_late := [FromHandler (Traffic.LogRegistered "w2" "w2:9000")] |}.

Definition ex_late : close_outcome :=
  {| shutdown_error := None; control_stopped := false; active_done := true;
     context_error := Some EDeadlineExceeded; pool_error := None |}.

Definition ex_router (sockets : list (nat * string)) (o : close_outcome) : host * Z :=
  router_main ex_listen ex_json (Config.LoadRouter ex_read (ex_decode Config.ex_router_config)) ex_text_of ex_service o
    "router.yaml" (ex_host sockets).

(** The control port is taken, and the HTTP socket is closed again; a clean run;
    a run that ends with the deadline of its shutdown. *)
Lemma router_main_outcome_witness :
  stderr (ex_router [(0%nat, ":9090")] ex_outcome).1 =
    ["router: listen control gRPC: listen tcp :9090: bind: address already in use"] /\
  (ex_router [] ex_outcome).2 = 0 /\ stderr (ex_router [] ex_outcome).1 = ["registered w1"] /\
  stderr (ex_router [] ex_late).1 = ["registered w1"; "router: " +:+ ex_text_of EDeadlineExceeded; "registered w2"] /\
  listening (ex_router [(0%nat, ":9090")] ex_outcome).1 = {[0%nat := ":9090"]}.
Proof.
  split; [vm_compute; reflexivity|]. split; [vm_compute; reflexivity|]. split; [vm_compute; reflexivity|].
  split; [vm_compute; reflexivity|].
  assert (host_ok (ex_host [(0%nat, ":9090")])) as Hh.
  { intros i [a Ha]. destruct i as [|i]; [apply le_n|].
    change (<[0%nat := ":9090"]> (∅ : gmap nat string) !! S i = Some a) in Ha.
    by rewrite lookup_insert_ne, lookup_empty in Ha. }
  pose proof (router_main_outcome ex_listen ex_text_of ex_json ex_read (ex_decode Config.ex_router_config) ex_service ex_outcome
    "router.yaml" (ex_host [(0%nat, ":9090")]) Hh (fun s => eq_refl)) as H.
  cbn zeta in H. fold (ex_router [(0%nat, ":9090")] ex_outcome) in H.
  destruct (ex_router [(0%nat, ":9090")] ex_outcome) as [h' code].
  exact (proj1 H).
Defined.

Definition ex_worker_process (path : string) : host * Z :=
  worker_main ex_listen (Config.LoadWorker ex_read (ex_decode (Config.ex_worker_config 0 0))) id true path (ex_host []).

Lemma worker_main_outcome_witness :
  (ex_worker_process "router.yaml").2 = 0 /\ stderr (ex_worker_process "none.yaml").1 = ["mock-worker: read configuration: no such file"] /\
  listening (ex_worker_process "router.yaml").1 = ∅.
Proof.
  split; [vm_compute; reflexivity|]. split; [vm_compute; reflexivity|].
  assert (host_ok (ex_host [])) as Hh by (intros i [a Ha]; change ((∅ : gmap nat string) !! i = Some a) in Ha; by rewrite lookup_empty in Ha).
  pose proof (worker_main_outcome ex_listen ex_read (ex_decode (Config.ex_worker_config 0 0)) id true
    "router.yaml" (ex_host []) Hh) as H.
  fold (ex_worker_process "router.yaml") in H. destruct (ex_worker_process "router.yaml") as [h' code].
  exact (proj1 H).
Defined.
