(* ===== verification/LoadGen.v ===== *)
(** * The load generator: [src/cmd/loadgen/main.go]

    Workload items, the deterministic routing simulator, what a client reads from
    a stream, and the summary statistics; [LoadRun] holds the command that uses
    them.  The random source is an argument. *)

From Stdlib Require Import Ascii String.
From S2P Require Import Prelude GoFloat GoString Model Parse Sse.
From S2P Require Tokenizer Prefix Routing.

#[local] Open Scope Z_scope.
#[local] Open Scope go_scope.

Record workItem := {
  ArrivalMS : Z;
  wi_TenantID : string;
  wi_Messages : list Message;
  MaxTokens : Z;
  Fault : string;
}.

Record sample := {
  sm_Request : Z;
  TTFTMS : float64;
  LatencyMS : float64;
  sm_Status : Z;
  sm_Error : string;
}.

(** ** Workloads *)
Fixpoint Repeat (s : string) (n : nat) : string :=
  match n with O => "" | S n => s +:+ Repeat s n end.

Section Workload.
(** The random source: a state, and [IntN]. *)
Context {R : Type} (IntN : R -> Z -> R * Z).

Definition workload_prompt (kind : string) (i : nat) (r : R) : R * result string string :=
  if (kind =? "uniform")%string then (r, Ok ("request-" +:+ itoa (Z.of_nat i)))
  else if (kind =? "high_prefix_sharing")%string
  then (r, Ok (Repeat "shared system prompt and document " 5))
  else if (kind =? "hot_prefix")%string then
    let '(r, n) := IntN r 10 in
    (r, Ok (if n <? 8 then Repeat "hot prefix prompt " 8 else "cold-" +:+ itoa (Z.of_nat i)))
  else if (kind =? "mixed_lengths")%string then
    let '(r, n) := IntN r 64 in (r, Ok (Repeat "mixed " (Z.to_nat (1 + n))))
  else if (kind =? "mixed_outputs")%string then (r, Ok "mixed output prompt")
  else if (kind =? "heterogeneous_workers")%string then (r, Ok "heterogeneous worker routing prompt")
  else if (kind =? "slowdown")%string then (r, Ok "slowdown injection prompt")
  else if (kind =? "failure_before_first")%string then (r, Ok "pre-first-token failure prompt")
  else if (kind =? "failure_during_streaming")%string then (r, Ok "midstream failure prompt")
  else if (kind =? "bursty")%string then (r, Ok "bursty shared prompt")
  else (r, Err "unknown workload").

Definition workload_fault (kind : string) : string :=
  let fault := if (kind =? "slowdown")%string then "slowdown" else "" in
  let fault := if (kind =? "failure_before_first")%string then "before_first" else fault in
  if (kind =? "failure_during_streaming")%string then "midstream" else fault.

Definition workload_item (kind : string) (i : nat) (r : R) : R * result string workItem :=
  match workload_prompt kind i r with
  | (r, Err e) => (r, Err e)
  | (r, Ok prompt) =>
      let '(r, n) := IntN r 24 in
      let maxTokens := 8 + n in
      let '(r, maxTokens) :=
        if (kind =? "mixed_outputs")%string then let '(r, m) := IntN r 64 in (r, 1 + m)
        else (r, maxTokens) in
      (r, Ok {| ArrivalMS := Z.of_nat i * 5; wi_TenantID := "benchmark"; MaxTokens := maxTokens;
                Fault := workload_fault kind;
                wi_Messages := [ {| Role := "user";
                                    Content := prompt +:+ " " +:+ itoa (Z.of_nat i) |} ] |})
  end.

Fixpoint workload_from (kind : string) (i n : nat) (r : R) : result string (list workItem) :=
  match n with
  | O => Ok []
  | S n =>
      match workload_item kind i r with
      | (_, Err e) => Err e
      | (r, Ok item) => items ← workload_from kind (S i) n r; Ok (item :: items)
      end
  end.

(** Without a trace file. *)
Definition workloadItems (kind : string) (count : Z) (seed : R) : result string (list workItem) :=
  if count <=? 0 then Err "requests must be positive"
  else workload_from kind 0 (Z.to_nat count) seed.
End Workload.

(** ** The routing simulator *)
Record routingSimulator := { router : Routing.Router; workers : list Worker }.

Definition sim_worker (id : string) (prefill decode : Z) : Worker :=
  {| w_ID := id; DataAddress := id; w_Model := "mock-llm"; w_ProtocolVersion := ProtocolVersion;
     State := {| StatusVersion := 1; Status := WorkerHealthy; WaitingRequestCount := 0;
                 WaitingTokenCount := 0; RunningRequestCount := 0; RunningWorkTokens := 0;
                 ws_KVUsage := {| CapacityTokens := 8192; UsedTokens := 0 |};
                 PrefillTokensPerSecond := float_of_Z prefill; DecodeTokensPerSecond := float_of_Z decode;
                 DecodeSchedulingQuantumTokens := 1; CachedPrefixes := []; ObservedAt := 0 |};
     LastHeartbeat := 0; Stale := false |}.

Definition newRoutingSimulator (policy : Routing.Policy) (seed : Z) : result string routingSimulator :=
  r ← Routing.New policy seed;
  Ok {| router := r;
        workers := [sim_worker "sim-a" 1200 120; sim_worker "sim-b" 800 80; sim_worker "sim-c" 500 50] |}.

Definition set_load (w : Worker) (waiting running count version : Z)
    (cached : list PrefixFingerprint) : Worker :=
  let st := State w in
  {| w_ID := w_ID w; DataAddress := DataAddress w; w_Model := w_Model w;
     w_ProtocolVersion := w_ProtocolVersion w;
     State := {| StatusVersion := version; Status := Status st;
                 WaitingRequestCount := WaitingRequestCount st; WaitingTokenCount := waiting;
                 RunningRequestCount := count; RunningWorkTokens := running;
                 ws_KVUsage := ws_KVUsage st; PrefillTokensPerSecond := PrefillTokensPerSecond st;
                 DecodeTokensPerSecond := DecodeTokensPerSecond st;
                 DecodeSchedulingQuantumTokens := DecodeSchedulingQuantumTokens st;
                 CachedPrefixes := cached; ObservedAt := ObservedAt st |};
     LastHeartbeat := LastHeartbeat w; Stale := Stale w |}.

(** The synthetic load of worker [i] at request [index]. *)
Definition apply_load (index : Z) (i : nat) (w : Worker) : Worker :=
  let k := Z.of_nat i in
  set_load w ((index * (k + 3) + k * 11) mod 48) ((index + k * 5) mod 20) ((index + k) mod 3)
    (StatusVersion (State w) +u64 1) (CachedPrefixes (State w)).

(** [seen] are the digests already listed. *)
Fixpoint unseen (seen : gset string) (additions : list PrefixFingerprint) : list PrefixFingerprint :=
  match additions with
  | [] => []
  | f :: additions =>
      if decide (SHA256 f ∈ seen) then unseen seen additions
      else f :: unseen ({[SHA256 f]} ∪ seen) additions
  end.

Definition cache_limit : nat := 64.

Definition appendUniquePrefixes (current additions : list PrefixFingerprint) : list PrefixFingerprint :=
  let current := current ++ unseen (list_to_set (SHA256 <$> current)) additions in
  if (cache_limit <? length current)%nat then drop (length current - cache_limit) current else current.

Definition set_cached (cached : list PrefixFingerprint) (w : Worker) : Worker :=
  let st := State w in
  set_load w (WaitingTokenCount st) (RunningWorkTokens st) (RunningRequestCount st) (StatusVersion st) cached.

Definition failed_sample (index status : Z) (error : string) : sample :=
  {| sm_Request := index; TTFTMS := fzero; LatencyMS := fzero; sm_Status := status; sm_Error := error |}.

Definition sim_request (index : Z) (item : workItem) : Request :=
  let tokens := Tokenizer.Tokens (wi_Messages item) in
  {| r_ID := "sim-" +:+ itoa index; r_AttemptID := ""; TenantID := wi_TenantID item;
     r_Model := "mock-llm"; Messages := wi_Messages item;
     EstimatedInputToken := Tokenizer.Estimate (wi_Messages item);
     ExpectedOutputToken := wrap_u64 (MaxTokens item); MaxOutputTokens := wrap_u64 (MaxTokens item);
     PrefixFingerprints := Prefix.Fingerprints tokens; Deadline := 0 |}.

Definition zero_evaluation : CandidateEvaluation :=
  {| ce_WorkerID := ""; Eligible := false; RejectionReason := ""; StateVersion := 0; MatchedTokens := 0;
     QueueDelay := fzero; UncachedPrefill := 0; PrefillDelay := fzero; OverloadPenalty := fzero;
     PredictedTTFT := fzero; Score := fzero; TieBreak := "" |}.

Definition run (s : routingSimulator) (index : Z) (item : workItem) : routingSimulator * sample :=
  let ws := imap (apply_load index) (workers s) in
  let request := sim_request index item in
  let '(rt, (decision, err)) := Routing.Select (router s) request ws ∅ in
  let s := {| router := rt; workers := ws |} in
  match err with
  | Some _ => (s, failed_sample index StatusServiceUnavailable "no eligible workers")
  | None =>
      if (Fault item =? "before_first")%string
      then (s, failed_sample index StatusBadGateway "simulated pre-first-token failure")
      else
        match list_find (fun w => w_ID w = SelectedWorker decision) ws with
        | None => (s, failed_sample index StatusServiceUnavailable "selected worker disappeared")
        | Some (selected, worker) =>
            let candidate := from_option snd zero_evaluation
              (list_find (fun t => ce_WorkerID t = SelectedWorker decision) (Candidates decision)) in
            let cached := appendUniquePrefixes (CachedPrefixes (State worker)) (PrefixFingerprints request) in
            let ttft := PredictedTTFT candidate *f float_of_Z 1000 in
            let latency := ttft +f float_of_Z (MaxTokens item) /f DecodeTokensPerSecond (State worker)
                             *f float_of_Z 1000 in
            ({| router := rt; workers := alter (set_cached cached) selected ws |},
             {| sm_Request := index; TTFTMS := ttft; LatencyMS := latency; sm_Status := StatusOK;
                sm_Error := if (Fault item =? "midstream")%string then "simulated midstream failure" else "" |})
        end
  end.

(** ** Reading a response *)

(** The scan of [execute]: whether a token line came before the end marker. *)
Fixpoint saw_token (lines : list string) : bool :=
  match lines with
  | [] => false
  | line :: lines =>
      if (line =? "event: token")%string then true
      else if (line =? "data: [DONE]")%string then false
      else saw_token lines
  end.

(** ** Statistics *)
Definition succeeded (s : sample) : bool :=
  (sm_Error s =? "")%string && (200 <=? sm_Status s) && (sm_Status s <? 300).

(** The order of [sort.Float64s]: NaN first. *)
Definition float_le (a b : float64) : Prop := is_nan a = true \/ fle a b = true.

#[export] Instance float_le_dec (a b : float64) : Decision (float_le a b).
Proof. unfold float_le. apply _. Defined.

Definition Float64s (l : list float64) : list float64 := merge_sort float_le l.

Definition f_050 : float64 := fdiv (float_of_Z 1) (float_of_Z 2).
Definition f_095 : float64 := fdiv (float_of_Z 95) (float_of_Z 100).

(** [int(math.Ceil(percent * n)) - 1], not below zero. *)
Definition rank_index (percent : float64) (n : nat) : Z :=
  let index := default 0 (float_trunc (fceil (percent *f float_of_Z (Z.of_nat n)))) - 1 in
  if index <? 0 then 0 else index.

(** A value at an index; [None] is the panic of an index out of range. *)
Definition percentiles (samples : list sample) (value : sample -> float64) : option (float64 * float64) :=
  let values := value <$> filter (fun s => succeeded s = true) samples in
  match values with
  | [] => Some (fzero, fzero)
  | _ =>
      let sorted := Float64s values in
      a ← sorted !! Z.to_nat (rank_index f_050 (length values));
      b ← sorted !! Z.to_nat (rank_index f_095 (length values));
      Some (a, b)
  end.

(** ** Paths *)
Fixpoint last_slash (s : string) : option nat :=
  match s with
  | EmptyString => None
  | String c s =>
      match last_slash s with
      | Some i => Some (S i)
      | None => if Ascii.eqb c "/" then Some O else None
      end
  end.

Definition filepathDir (path : string) : string :=
  match last_slash path with
  | None => "."
  | Some index => String.substring 0 index path
  end.

(** ** The synthetic caches *)
Lemma unseen_props (additions : list PrefixFingerprint) (seen : gset string) :
  let out := unseen seen additions in
  NoDup (SHA256 <$> out) /\ Forall (fun f => (SHA256 f ∉ seen) /\ f ∈ additions) out /\
  Forall (fun f => SHA256 f ∈ seen \/ SHA256 f ∈ SHA256 <$> out) additions.
Proof.
  revert seen. induction additions as [|f l IH]; intros seen; cbn [unseen].
  { split_and!; [apply NoDup_nil_2|apply Forall_nil_2..]. }
  case_decide as Hf.
  - destruct (IH seen) as (Hn & Ho & Ha). split_and!; [done| |].
    + eapply list.Forall_impl; [exact Ho|]. intros g [Hg Hin]. split; [done|by right].
    + apply Forall_cons_2; [by left|done].
  - destruct (IH ({[SHA256 f]} ∪ seen)) as (Hn & Ho & Ha). split_and!.
    + cbn [fmap list_fmap]. apply list.NoDup_cons. split; [|done].
      intros (g & Hg & Hin)%list_elem_of_fmap. rewrite list.Forall_forall in Ho.
      destruct (Ho g Hin) as [Hno _]. rewrite <- Hg in Hno. set_solver.
    + apply Forall_cons_2; [split; [done|by left]|].
      eapply list.Forall_impl; [exact Ho|]. intros g [Hg Hin]. split; [set_solver|by right].
    + apply Forall_cons_2; [right; by left|].
      eapply list.Forall_impl; [exact Ha|]. intros g [Hg|Hg]; [|right; by right].
      apply elem_of_union in Hg as [Hg|Hg]; [|by left].
      apply elem_of_singleton in Hg. right. rewrite Hg. by left.
Qed.

Lemma cached_suffix (current additions : list PrefixFingerprint) :
  appendUniquePrefixes current additions =
    let all := current ++ unseen (list_to_set (SHA256 <$> current)) additions in
    drop (length all - cache_limit) all.
Proof.
  unfold appendUniquePrefixes. cbn zeta. destruct (Nat.ltb_spec cache_limit
    (length (current ++ unseen (list_to_set (SHA256 <$> current)) additions))); [done|].
  rewrite (proj2 (Nat.sub_0_le _ _)) by done. done.
Qed.

(** The synthetic prefix cache stays within its limit and free of repeated
    digests; within the limit nothing is evicted and every digest of the request
    is cached, beyond it the oldest entries go first. *)
Theorem appendUniquePrefixes_spec (current additions : list PrefixFingerprint) :
  NoDup (SHA256 <$> current) ->
  let out := appendUniquePrefixes current additions in
  let all := current ++ unseen (list_to_set (SHA256 <$> current)) additions in
  (length out <= cache_limit)%nat /\ NoDup (SHA256 <$> out) /\ out `suffix_of` all /\
  Forall (fun f => f ∈ current \/ f ∈ additions) out /\
  ((length all <= cache_limit)%nat ->
     current `prefix_of` out /\ Forall (fun f => SHA256 f ∈ SHA256 <$> out) additions).
Proof.
  intros Hnd out all. unfold out. rewrite cached_suffix. fold all. cbn zeta.
  destruct (unseen_props additions (list_to_set (SHA256 <$> current))) as (Hn & Ho & Ha).
  set (new := unseen (list_to_set (SHA256 <$> current)) additions) in *.
  assert (NoDup (SHA256 <$> all)) as Hall.
  { unfold all. rewrite fmap_app. apply list.NoDup_app. split_and!; [done| |done].
    intros x Hx (g & -> & Hg)%list_elem_of_fmap. rewrite list.Forall_forall in Ho.
    destruct (Ho g Hg) as [Hno _]. apply Hno. by apply elem_of_list_to_set. }
  split_and!.
  - rewrite length_drop. lia.
  - rewrite <- (take_drop (length all - cache_limit) all), fmap_app in Hall.
    by apply list.NoDup_app in Hall as (_ & _ & ?).
  - apply suffix_drop.
  - apply Forall_drop, Forall_app. split; [apply list.Forall_forall; by left|].
    eapply list.Forall_impl; [exact Ho|]. intros f [_ Hf]. by right.
  - intros Hl. rewrite (proj2 (Nat.sub_0_le _ _)), drop_0 by done. split; [by exists new|].
    eapply list.Forall_impl; [exact Ha|]. intros f Hf. unfold all. rewrite fmap_app.
    apply elem_of_app. destruct Hf as [Hf|Hf]; [left|by right]. by apply elem_of_list_to_set in Hf.
Qed.

(** ** The simulation *)

(** The loop of [main] in deterministic mode. *)
Fixpoint simulate (s : routingSimulator) (index : Z) (items : list workItem) :
    routingSimulator * list sample :=
  match items with
  | [] => (s, [])
  | item :: items =>
      let '(s, x) := run s index item in
      let '(s, xs) := simulate s (index + 1) items in
      (s, x :: xs)
  end.

(** What the loop keeps: the parts of a worker that decide its eligibility. *)
Definition sim_ready (w : Worker) : Prop :=
  Stale w = false /\ w_ProtocolVersion w = ProtocolVersion /\ DataAddress w <> "" /\
  w_Model w = "mock-llm" /\ Status (State w) = WorkerHealthy /\
  CapacityTokens (ws_KVUsage (State w)) = 8192 /\ UsedTokens (ws_KVUsage (State w)) = 0 /\
  fle (PrefillTokensPerSecond (State w)) fzero = false /\
  fle (DecodeTokensPerSecond (State w)) fzero = false /\
  DecodeSchedulingQuantumTokens (State w) = 1 /\
  (length (CachedPrefixes (State w)) <= cache_limit)%nat.

Lemma sim_ready_load (index : Z) (i : nat) (w : Worker) : sim_ready w -> sim_ready (apply_load index i w).
Proof. done. Qed.

Lemma sim_ready_cached (cached additions : list PrefixFingerprint) (w : Worker) :
  sim_ready w -> sim_ready (set_cached (appendUniquePrefixes cached additions) w).
Proof.
  intros H. unfold sim_ready in *. cbn [set_cached set_load Stale w_ProtocolVersion DataAddress w_Model State
    Status ws_KVUsage PrefillTokensPerSecond DecodeTokensPerSecond DecodeSchedulingQuantumTokens CachedPrefixes].
  destruct H as (? & ? & ? & ? & ? & ? & ? & ? & ? & ? & _). split_and!; try done.
  rewrite cached_suffix. cbn zeta. rewrite length_drop. lia.
Qed.

Lemma sim_ready_routes (r : Routing.Router) (request : Request) (w : Worker) :
  r_Model request = "mock-llm" -> sim_ready w -> Routing.may_route r request ∅ w.
Proof.
  intros Hm (Hs & Hp & Ha & Hmod & Hh & Hc & Hu & Hpf & Hd & Hq & _).
  unfold Routing.may_route, Routing.ineligibility.
  rewrite decide_False by set_solver.
  rewrite Hs, Hp, Hmod, Hm, Hh, Hc, Hu, Hpf, Hd, Hq, !String.eqb_refl.
  apply String.eqb_neq in Ha. rewrite Ha. cbn. by rewrite andb_false_r.
Qed.

Lemma apply_load_ready (index : Z) (ws : list Worker) :
  Forall sim_ready ws -> Forall sim_ready (imap (apply_load index) ws).
Proof.
  intros H. apply Forall_lookup. intros i w. rewrite list_lookup_imap.
  destruct (ws !! i) as [v|] eqn:E; [|done]. intros [= <-].
  apply sim_ready_load. by eapply Forall_lookup_1.
Qed.

(** The status and the error text of the sample of a request whose router
    found a worker. *)
Definition outcome_of (fault : string) : Z * string :=
  if (fault =? "before_first")%string then (StatusBadGateway, "simulated pre-first-token failure")
  else (StatusOK, if (fault =? "midstream")%string then "simulated midstream failure" else "").

Lemma run_outcome (s : routingSimulator) (index : Z) (item : workItem) :
  workers s <> [] -> Forall sim_ready (workers s) ->
  let '(s', x) := run s index item in
  workers s' <> [] /\ Forall sim_ready (workers s') /\
  sm_Request x = index /\ (sm_Status x, sm_Error x) = outcome_of (Fault item).
Proof.
  intros Hne Hr. unfold run, outcome_of.
  set (ws := imap (apply_load index) (workers s)). set (q := sim_request index item).
  assert (Forall sim_ready ws) as Hws by by apply apply_load_ready.
  assert (ws <> []) as Hne' by (unfold ws; by destruct (workers s)).
  destruct (Routing.Select (router s) q ws ∅) as [rt [d err]] eqn:HS.
  destruct err as [e|].
  { apply Routing.select_none in HS as (_ & _ & Hno). destruct ws as [|w l]; [done|].
    destruct (Hno w); [by left|]. apply sim_ready_routes; [done|]. by inversion Hws. }
  case_if; [done|].
  apply Routing.select_worker in HS as (w & Hw & Hid & _).
  destruct (list_find (fun w => w_ID w = SelectedWorker d) ws) as [[i v]|] eqn:Hf.
  - cbn [workers sm_Request sm_Status sm_Error]. split_and!; [| |done..].
    + intros Ha. apply (f_equal length) in Ha. rewrite length_alter in Ha. by destruct ws.
    + apply Forall_alter; [done|]. intros u _ Hu. by apply sim_ready_cached.
  - apply list_find_None in Hf. rewrite list.Forall_forall in Hf. by destruct (Hf w).
Qed.

Lemma simulate_outcomes (s : routingSimulator) (index : Z) (items : list workItem) :
  workers s <> [] -> Forall sim_ready (workers s) ->
  let '(s', xs) := simulate s index items in
  Forall sim_ready (workers s') /\
  (fun x => (sm_Status x, sm_Error x)) <$> xs = (fun item => outcome_of (Fault item)) <$> items.
Proof.
  revert s index. induction items as [|item items IH]; intros s index Hne Hr; [done|].
  cbn [simulate]. pose proof (run_outcome s index item Hne Hr) as H.
  destruct (run s index item) as [s1 x]. destruct H as (Hne1 & Hr1 & _ & Hx).
  specialize (IH s1 (index + 1) Hne1 Hr1).
  destruct (simulate s1 (index + 1) items) as [s2 xs]. destruct IH as (? & Hxs).
  split; [done|].
  cbn [fmap list_fmap]. by rewrite Hx, Hxs.
Qed.

Lemma sim_workers_ready (r : Routing.Router) :
  Forall sim_ready (workers {| router := r;
    workers := [sim_worker "sim-a" 1200 120; sim_worker "sim-b" 800 80; sim_worker "sim-c" 500 50] |}).
Proof. repeat (apply Forall_cons_2; [unfold sim_ready; split_and!; (done || (cbn; lia))|]). apply Forall_nil_2. Qed.

Lemma simulated_outcomes (r : Routing.Router) (items : list workItem) :
  (fun x => (sm_Status x, sm_Error x)) <$> (simulate {| router := r;
    workers := [sim_worker "sim-a" 1200 120; sim_worker "sim-b" 800 80; sim_worker "sim-c" 500 50] |} 0 items).2 =
  (fun item => outcome_of (Fault item)) <$> items.
Proof.
  match goal with |- context [simulate ?s _ _] =>
    pose proof (simulate_outcomes s 0 items ltac:(discriminate) (sim_workers_ready r)) as H end.
  destruct (simulate _ 0 items) as [s' xs]. by destruct H.
Qed.

(** The simulator always finds a worker: under every known policy, from any
    seed and for any items, no sample reports an unavailable service; the status
    and the error are those of the injected fault, and no cache exceeds its
    limit. *)
Theorem simulation_always_routes (p : Routing.Policy) (seed : Z) (s : routingSimulator)
    (items : list workItem) :
  newRoutingSimulator p seed = Ok s ->
  let '(s', xs) := simulate s 0 items in
  (fun x => (sm_Status x, sm_Error x)) <$> xs = (fun item => outcome_of (Fault item)) <$> items /\
  Forall (fun w => (length (CachedPrefixes (State w)) <= cache_limit)%nat) (workers s').
Proof.
  unfold newRoutingSimulator. intros (r & _ & [= <-])%result_bind_ok.
  match goal with |- context [simulate ?s _ _] => pose proof (simulate_outcomes s 0 items) as H end.
  destruct (simulate _ 0 items) as [s' xs]. destruct H as (Hr & Hx); [done| |].
  { repeat (apply Forall_cons_2; [unfold sim_ready; split_and!; (done || (cbn; lia))|]). apply Forall_nil_2. }
  split; [done|]. eapply list.Forall_impl; [exact Hr|]. by intros w (_ & _ & _ & _ & _ & _ & _ & _ & _ & _ & ?).
Qed.

(** ** Statistics *)
Definition nearest_rank (percent : Z) (n : nat) : Z := (percent * Z.of_nat n + 99) / 100 - 1.

Lemma ranks_checked :
  forallb (fun n => (rank_index f_050 n =? nearest_rank 50 n) && (rank_index f_095 n =? nearest_rank 95 n))
    (seq 1 100) = true.
Proof. vm_compute. reflexivity. Qed.

Lemma rank_index_exact (n : nat) : (1 <= n <= 100)%nat ->
  rank_index f_050 n = nearest_rank 50 n /\ rank_index f_095 n = nearest_rank 95 n.
Proof.
  intros Hn. pose proof ranks_checked as H. rewrite forallb_forall in H.
  specialize (H n ltac:(apply in_seq; lia)). by bool_facts.
Qed.

Lemma nearest_rank_bound (p : Z) (n : nat) : 0 < p <= 100 -> (1 <= n)%nat ->
  0 <= nearest_rank p n < Z.of_nat n.
Proof. intros Hp Hn. unfold nearest_rank.
  assert (p * 1 <= p * Z.of_nat n) by (apply Z.mul_le_mono_nonneg_l; lia).
  assert (p * Z.of_nat n <= 100 * Z.of_nat n) by (apply Z.mul_le_mono_nonneg_r; lia).
  pose proof (Z.div_mod (p * Z.of_nat n + 99) 100 ltac:(lia)).
  pose proof (Z.mod_pos_bound (p * Z.of_nat n + 99) 100 ltac:(lia)). lia.
Qed.

(** The percentiles of a run of at most a hundred samples, the command's default
    number of requests: no index is out of range, and the two values are those at
    the nearest ranks of the sorted measurements of the successful requests. *)
Theorem percentiles_nearest_rank (samples : list sample) (value : sample -> float64) :
  (length samples <= 100)%nat ->
  let values := value <$> filter (fun s => succeeded s = true) samples in
  percentiles samples value =
    match values with
    | [] => Some (fzero, fzero)
    | _ => Some (nth (Z.to_nat (nearest_rank 50 (length values))) (Float64s values) fzero,
                 nth (Z.to_nat (nearest_rank 95 (length values))) (Float64s values) fzero)
    end /\ Float64s values ≡ₚ values.
Proof.
  intros Hn values. assert (Float64s values ≡ₚ values) as Hp by apply merge_sort_Permutation.
  split; [|done]. unfold percentiles. fold values.
  assert (length values <= 100)%nat as Hl.
  { unfold values. rewrite length_fmap. etransitivity; [apply length_filter|done]. }
  destruct values as [|x l] eqn:E; [done|]. rewrite <- E in *.
  assert (1 <= length values)%nat as H1 by (rewrite E; simpl; lia).
  destruct (rank_index_exact (length values)) as [-> ->]; [lia|].
  assert (forall p, 0 < p <= 100 -> Float64s values !! Z.to_nat (nearest_rank p (length values)) =
    Some (nth (Z.to_nat (nearest_rank p (length values))) (Float64s values) fzero)) as Hlook.
  { intros p Hpp. pose proof (nearest_rank_bound p (length values) Hpp H1).
    destruct (lookup_lt_is_Some_2 (Float64s values) (Z.to_nat (nearest_rank p (length values)))) as [y Hy].
    { rewrite Hp. lia. }
    rewrite Hy. f_equal. symmetry. by apply nth_lookup_Some. }
  rewrite !Hlook by lia. done.
Qed.

(** ** Reading the gateway's events *)
Definition is_token_event (e : sse) : bool := match e with SSEToken _ => true | _ => false end.
Definition is_done_event (e : sse) : bool := match e with SSEDone => true | _ => false end.

(** A token event before the end marker. *)
Fixpoint token_first (es : list sse) : bool :=
  match es with
  | [] => false
  | e :: es => if is_done_event e then false else is_token_event e || token_first es
  end.

Lemma saw_token_frame (event data : string) (lines : list string) :
  (event =? "token")%string = false -> (data =? "[DONE]")%string = false ->
  saw_token (frame_lines event data ++ lines) = saw_token lines.
Proof.
  intros He Hd. unfold frame_lines. cbn [app saw_token].
  assert (forall s, ("event: " +:+ s =? "event: token")%string = (s =? "token")%string) as -> by done.
  assert (forall s, ("data: " +:+ s =? "data: [DONE]")%string = (s =? "[DONE]")%string) as -> by done.
  by rewrite He, Hd.
Qed.

Lemma payload_not_done (p : streamPayload) : (json_payload p =? "[DONE]")%string = false.
Proof. done. Qed.
Lemma error_not_done (e : apiError) : (json_error e =? "[DONE]")%string = false.
Proof. done. Qed.

Lemma saw_token_lines (es : list sse) : saw_token (mjoin (lines_of <$> es)) = token_first es.
Proof.
  induction es as [|e es IH]; [done|]. cbn [fmap list_fmap mjoin list_join].
  destruct e as [p|p|e|]; [done| | |done]; cbn [lines_of];
    rewrite saw_token_frame by (done || apply payload_not_done || apply error_not_done); exact IH.
Qed.

Lemma token_first_iff (es : list sse) :
  token_first es = true <->
  exists before p after, es = before ++ SSEToken p :: after /\ Forall (fun e => is_done_event e = false) before.
Proof.
  induction es as [|e es IH]; cbn [token_first].
  { split; [done|]. by intros ([] & ? & ? & ? & _). }
  split.
  - destruct (is_done_event e) eqn:Hd; [done|]. intros [He|He]%orb_true_iff.
    + destruct e; try done. exists [], p, es. split; [done|apply Forall_nil_2].
    + apply IH in He as (b & p & a & -> & Hb). exists (e :: b), p, a. split; [done|]. by apply Forall_cons_2.
  - intros ([|e' b] & p & a & He & Hb); simplify_eq/=; [done|].
    apply list.Forall_cons in Hb as [-> Hb]. apply orb_true_iff. right. apply IH. eauto.
Qed.

(** The load generator reads the gateway's stream as it was written: whatever
    the contents of the events, scanning the rendered bytes line by line finds
    a token exactly when a token event was written before the end marker. *)
Theorem client_reads_tokens (es : list sse) :
  saw_token (scan_lines (render_all es)) = true <->
  exists before p after, es = before ++ SSEToken p :: after /\ Forall (fun e => is_done_event e = false) before.
Proof. rewrite scan_render, saw_token_lines. apply token_first_iff. Qed.

(** ** Generated workloads *)
Definition workload_kinds : list string :=
  ["uniform"; "high_prefix_sharing"; "hot_prefix"; "mixed_lengths"; "mixed_outputs";
   "heterogeneous_workers"; "slowdown"; "failure_before_first"; "failure_during_streaming"; "bursty"].

(** An item that the gateway's checks of messages and output limit (of at least
    64 tokens) let through. *)
Definition item_ok (i : nat) (item : workItem) : Prop :=
  ArrivalMS item = Z.of_nat i * 5 /\ wi_TenantID item = "benchmark" /\ 1 <= MaxTokens item <= 64 /\
  wi_Messages item <> [] /\ forallb Parse.valid_message (wi_Messages item) = true.

Lemma append_nonempty (s t : string) (a : ascii) : (s +:+ String a t =? "")%string = false.
Proof. by destruct s. Qed.

Section WorkloadProps.
Context {R : Type} (IntN : R -> Z -> R * Z).
Hypothesis IntN_range : forall r n, 0 < n -> 0 <= (IntN r n).2 < n.

Lemma workload_prompt_ok (kind : string) (i : nat) (r : R) :
  is_ok (workload_prompt IntN kind i r).2 = bool_decide (kind ∈ workload_kinds).
Proof.
  unfold workload_prompt.
  repeat match goal with
  | |- context [(kind =? ?k)%string] =>
      destruct (kind =? k)%string eqn:?; bool_facts;
      [subst; try (destruct (IntN r _)); by rewrite bool_decide_eq_true_2 by (unfold workload_kinds; set_solver)|]
  end.
  rewrite bool_decide_eq_false_2; [done|]. unfold workload_kinds. set_solver.
Qed.

Lemma workload_item_ok (kind : string) (i : nat) (r r' : R) (item : workItem) :
  workload_item IntN kind i r = (r', Ok item) -> item_ok i item.
Proof.
  unfold workload_item. destruct (workload_prompt IntN kind i r) as [r1 [prompt|]]; [|done].
  pose proof (IntN_range r1 24 ltac:(lia)) as H24. destruct (IntN r1 24) as [r2 n]. simpl in H24.
  pose proof (IntN_range r2 64 ltac:(lia)) as H64. destruct (IntN r2 64) as [r3 m]. simpl in H64.
  destruct (kind =? "mixed_outputs")%string; intros [= _ <-]; unfold item_ok;
    cbn [ArrivalMS wi_TenantID MaxTokens wi_Messages forallb Parse.valid_message Role Content];
    (split_and!; [done|done|lia|lia|done|]);
    unfold Parse.valid_message; cbn [Role Content]; by rewrite append_nonempty.
Qed.

Lemma workload_from_ok (kind : string) (n i : nat) (r : R) (items : list workItem) :
  workload_from IntN kind i n r = Ok items ->
  length items = n /\ forall j item, items !! j = Some item -> item_ok (i + j) item.
Proof.
  revert i r items. induction n as [|n IH]; intros i r items; cbn [workload_from].
  { intros [= <-]. done. }
  destruct (workload_item IntN kind i r) as [r' [item|e]] eqn:Hi; [|done].
  intros (l & Hl & [= <-])%result_bind_ok. apply IH in Hl as [Hlen Hok]. split; [simpl; lia|].
  intros [|j] it Hj; simplify_eq/=.
  - rewrite Nat.add_0_r. by eapply workload_item_ok.
  - rewrite Nat.add_succ_r. by apply (Hok j).
Qed.

Lemma workload_from_total (kind : string) (n i : nat) (r : R) :
  (0 < n)%nat -> is_ok (workload_from IntN kind i n r) = bool_decide (kind ∈ workload_kinds).
Proof.
  revert i r. induction n as [|n IH]; intros i r Hn; [lia|]. cbn [workload_from]. unfold workload_item.
  pose proof (workload_prompt_ok kind i r) as Hp.
  destruct (workload_prompt IntN kind i r) as [r1 [prompt|e]]; [|done].
  destruct (IntN r1 24) as [r2 k], (IntN r2 64) as [r3 m]. simpl in Hp. rewrite <- Hp.
  destruct n as [|n]; [by destruct (kind =? "mixed_outputs")%string|].
  assert (forall r, is_ok (workload_from IntN kind (S i) (S n) r) = true) as H by (intros; rewrite IH by lia; done).
  destruct (kind =? "mixed_outputs")%string;
    match goal with |- context [workload_from IntN kind ?a ?b ?c] => specialize (H c);
      destruct (workload_from IntN kind a b c); done end.
Qed.

(** Generated workloads are usable: a positive count of a known kind gives that
    many items, spaced five milliseconds apart, whose messages and output limits
    the gateway accepts; anything else is an error. *)
Theorem workloadItems_usable (kind : string) (count : Z) (seed : R) :
  match workloadItems IntN kind count seed with
  | Ok items => 0 < count /\ kind ∈ workload_kinds /\ Z.of_nat (length items) = count /\
      forall i item, items !! i = Some item -> item_ok i item
  | Err _ => count <= 0 \/ (kind ∉ workload_kinds)
  end.
Proof.
  unfold workloadItems. destruct (Z.leb_spec count 0) as [Hc|Hc]; [by left|].
  pose proof (workload_from_total kind (Z.to_nat count) 0 seed ltac:(lia)) as Ht.
  destruct (workload_from IntN kind 0 (Z.to_nat count) seed) as [items|e] eqn:E; simpl in Ht; symmetry in Ht.
  - apply bool_decide_eq_true in Ht. apply workload_from_ok in E as [Hl Hi].
    split_and!; [done|done|lia|exact Hi].
  - apply bool_decide_eq_false in Ht. by right.
Qed.
End WorkloadProps.

(** A file at the root of the file system has the empty directory, which the
    command then fails to create. *)
Lemma filepathDir_root (name : string) : last_slash name = None -> filepathDir ("/" +:+ name) = "".
Proof. intros H. unfold filepathDir. simpl. rewrite H. by destruct name. Qed.

(** ** Witnesses *)
Lemma appendUniquePrefixes_spec_witness :
  let f n d := {| TokenCount := n; SHA256 := d |} in
  NoDup (SHA256 <$> appendUniquePrefixes [f 16 "a"] [f 16 "a"; f 32 "b"]).
Proof.
  intros f. apply (appendUniquePrefixes_spec [f 16 "a"] [f 16 "a"; f 32 "b"]).
  apply NoDup_singleton.
Defined.

Definition ex_item (fault : string) : workItem :=
  {| ArrivalMS := 0; wi_TenantID := "benchmark"; wi_Messages := [ {| Role := "user"; Content := "hello" |} ];
     MaxTokens := 8; Fault := fault |}.

Lemma simulation_always_routes_witness : exists s,
  newRoutingSimulator Routing.PredictedTTFT 1 = Ok s /\
  (fun x => (sm_Status x, sm_Error x)) <$> (simulate s 0 [ex_item ""; ex_item "before_first"]).2 =
    [(StatusOK, ""); (StatusBadGateway, "simulated pre-first-token failure")].
Proof.
  destruct (newRoutingSimulator Routing.PredictedTTFT 1) as [s|e] eqn:E; [|discriminate E].
  exists s. split; [reflexivity|].
  pose proof (simulation_always_routes Routing.PredictedTTFT 1 s [ex_item ""; ex_item "before_first"] E) as H.
  destruct (simulate s 0 [ex_item ""; ex_item "before_first"]) as [s' xs]. exact (proj1 H).
Defined.

Definition ex_sample (ms : Z) : sample :=
  {| sm_Request := 0; TTFTMS := float_of_Z ms; LatencyMS := float_of_Z ms; sm_Status := StatusOK; sm_Error := "" |}.

Lemma percentiles_nearest_rank_witness :
  percentiles [ex_sample 30; ex_sample 10; ex_sample 20] TTFTMS = Some (float_of_Z 20, float_of_Z 30).
Proof.
  rewrite (proj1 (percentiles_nearest_rank [ex_sample 30; ex_sample 10; ex_sample 20] TTFTMS ltac:(simpl; lia))).
  vm_compute. reflexivity.
Defined.

Lemma workloadItems_usable_witness :
  match workloadItems (fun r n => (r + 1, r mod n)) "hot_prefix" 3 0 with
  | Ok items => length items = 3%nat | Err _ => False end.
Proof.
  pose proof (workloadItems_usable (fun r n => (r + 1, r mod n))
    (fun r n Hn => Z.mod_pos_bound r n Hn) "hot_prefix" 3 0) as H.
  destruct (workloadItems (fun r n => (r + 1, r mod n)) "hot_prefix" 3 0) as [items|e] eqn:E.
  - destruct H as (_ & _ & H & _). lia.
  - vm_compute in E. discriminate E.
Defined.
