(* ===== verification/Csv.v ===== *)
(** * Comma-separated values: [encoding/csv] over [bufio] as [writeCSV] uses them

    [writeCSV] of [src/cmd/loadgen/main.go] writes its records through the
    standard library's [csv.Writer], which buffers them.  The writer, its buffer
    and a file of limited space are modelled, and a reader of the format gives the
    records back. *)

From Stdlib Require Import Ascii String.
From S2P Require Import Prelude GoString Sse.

#[local] Open Scope Z_scope.
#[local] Open Scope go_scope.

Definition comma : ascii := byte_of 44.

(** ** The writer *)
Definition special (a : ascii) : bool := Ascii.eqb a lf || Ascii.eqb a cr || Ascii.eqb a quote || Ascii.eqb a comma.

Definition starts_with_space (field : string) : bool :=
  match runes (to_bytes field) with [] => false | (r, _) :: _ => IsSpace r end.

Definition fieldNeedsQuotes (field : string) : bool :=
  if (field =? "")%string then false
  else if (field =? "\.")%string then true
  else existsb special (to_bytes field) || starts_with_space field.

(** The strings that a quoted field is written in: the runs between the bytes that
    are treated on their own. *)
Fixpoint quoted_pieces (run : bytes) (l : bytes) : list bytes :=
  match l with
  | [] => [run]
  | a :: l =>
      if Ascii.eqb a quote then run :: [quote; quote] :: quoted_pieces [] l
      else if Ascii.eqb a cr || Ascii.eqb a lf then run :: [a] :: quoted_pieces [] l
      else quoted_pieces (run ++ [a]) l
  end.

Definition field_pieces (field : string) : list bytes :=
  if fieldNeedsQuotes field then [quote] :: quoted_pieces [] (to_bytes field) ++ [[quote]]
  else [to_bytes field].

Fixpoint record_pieces (record : list string) : list bytes :=
  match record with
  | [] => []
  | [field] => field_pieces field
  | field :: record => field_pieces field ++ [comma] :: record_pieces record
  end.

(** [Write] of the writer: the pieces of one record. *)
Definition record_writes (record : list string) : list bytes := record_pieces record ++ [[lf]].

Definition csv_text (records : list (list string)) : bytes := mjoin (mjoin ∘ record_writes <$> records).

(** ** The buffer *)
Record file := { content : bytes; space : nat }.

(** A write takes what there is room for, and fails when that is not all. *)
Definition file_write (f : file) (p : bytes) : file * bool :=
  let room := (space f - length (content f))%nat in
  ({| content := content f ++ take room p; space := space f |}, (length p <=? room)%nat).

Record bufio := { b_file : file; b_buf : bytes; b_err : bool }.

Definition buffer_size : nat := 4096.

Definition available (b : bufio) : nat := (buffer_size - length (b_buf b))%nat.

Definition Flush (b : bufio) : bufio :=
  if b_err b then b
  else
    let '(f, ok) := file_write (b_file b) (b_buf b) in
    {| b_file := f; b_buf := if ok then [] else drop (length (content f) - length (content (b_file b))) (b_buf b);
       b_err := negb ok |}.

Definition append (b : bufio) (s : bytes) : bufio :=
  {| b_file := b_file b; b_buf := b_buf b ++ s; b_err := b_err b |}.

(** A string that is larger than an empty buffer goes straight to the file. *)
Definition direct (b : bufio) (s : bytes) : bufio :=
  let '(f, ok) := file_write (b_file b) s in {| b_file := f; b_buf := b_buf b; b_err := negb ok |}.

(** A string larger than the room, into an empty buffer or not. *)
Definition spill (b : bufio) (s : bytes) : bufio :=
  if (length s <=? available b)%nat then append b s else direct b s.

Definition WriteString (b : bufio) (s : bytes) : bufio :=
  if b_err b then b
  else if (length s <=? available b)%nat then append b s
  else match b_buf b with
       | [] => direct b s
       | _ =>
           let room := available b in
           let b := Flush (append b (take room s)) in
           if b_err b then b else spill b (drop room s)
       end.

Definition write_pieces (b : bufio) (ps : list bytes) : bufio := foldl WriteString b ps.

(** The loop of [writeCSV]: it returns at the first record whose write fails. *)
Fixpoint write_records (b : bufio) (records : list (list string)) : bufio :=
  match records with
  | [] => b
  | record :: records =>
      let b := write_pieces b (record_writes record) in
      if b_err b then b else write_records b records
  end.

Definition new_buffer (n : nat) : bufio :=
  {| b_file := {| content := []; space := n |}; b_buf := []; b_err := false |}.

(** The file after the deferred flush, and whether [writeCSV] returned an error. *)
Definition write_csv (space : nat) (records : list (list string)) : bytes * bool :=
  let b := write_records (new_buffer space) records in
  (content (b_file (Flush b)), b_err b).

(** ** The reader of the format (RFC 4180) *)
Inductive reading := FieldStart | Unquoted | Quoted | QuoteEnd.

Fixpoint csv_read (st : reading) (cur : bytes) (fields : list string) (l : bytes) : option (list (list string)) :=
  match l with
  | [] => match st, fields with FieldStart, [] => Some [] | _, _ => None end
  | a :: l =>
      let field := csv_read FieldStart [] (fields ++ [of_bytes cur]) in
      let record l := cons (fields ++ [of_bytes cur]) <$> csv_read FieldStart [] [] l in
      match st with
      | FieldStart =>
          if Ascii.eqb a quote then csv_read Quoted [] fields l
          else if Ascii.eqb a comma then field l
          else if Ascii.eqb a lf then record l
          else csv_read Unquoted [a] fields l
      | Unquoted =>
          if Ascii.eqb a comma then field l
          else if Ascii.eqb a lf then record l
          else if Ascii.eqb a quote then None
          else csv_read Unquoted (cur ++ [a]) fields l
      | Quoted =>
          if Ascii.eqb a quote then csv_read QuoteEnd cur fields l
          else csv_read Quoted (cur ++ [a]) fields l
      | QuoteEnd =>
          if Ascii.eqb a quote then csv_read Quoted (cur ++ [quote]) fields l
          else if Ascii.eqb a comma then field l
          else if Ascii.eqb a lf then record l
          else None
      end
  end.

Definition read_csv (l : bytes) : option (list (list string)) := csv_read FieldStart [] [] l.

(** ** What is written is read back *)
Definition escape (l : bytes) : bytes := l ≫= fun a => if Ascii.eqb a quote then [quote; quote] else [a].

Definition field_text (field : string) : bytes :=
  if fieldNeedsQuotes field then quote :: escape (to_bytes field) ++ [quote] else to_bytes field.

Fixpoint record_text (record : list string) : bytes :=
  match record with
  | [] => []
  | [field] => field_text field
  | field :: record => field_text field ++ comma :: record_text record
  end.

Lemma quoted_pieces_text (run l : bytes) : mjoin (quoted_pieces run l) = run ++ escape l.
Proof.
  revert run. induction l as [|a l IH]; intros run; cbn [quoted_pieces]; [done|].
  change (escape (a :: l)) with ((if Ascii.eqb a quote then [quote; quote] else [a]) ++ escape l).
  destruct (Ascii.eqb a quote); [csimpl; by rewrite IH|].
  destruct (Ascii.eqb a cr || Ascii.eqb a lf); [csimpl; by rewrite IH|]. rewrite IH. by rewrite <- app_assoc.
Qed.

Lemma field_pieces_text (field : string) : mjoin (field_pieces field) = field_text field.
Proof.
  unfold field_pieces, field_text. destruct (fieldNeedsQuotes field); csimpl; [|by rewrite app_nil_r].
  by rewrite join_app, quoted_pieces_text.
Qed.

Lemma record_writes_text (record : list string) : mjoin (record_writes record) = record_text record ++ [lf].
Proof.
  unfold record_writes. rewrite join_app. f_equal. induction record as [|f [|g r] IH]; [done|apply field_pieces_text|].
  change (record_pieces (f :: g :: r)) with (field_pieces f ++ [comma] :: record_pieces (g :: r)).
  rewrite join_app, field_pieces_text.
  change (mjoin ([comma] :: record_pieces (g :: r))) with (comma :: mjoin (record_pieces (g :: r))). by rewrite IH.
Qed.

Lemma special_false (a : ascii) : special a = false ->
  Ascii.eqb a lf = false /\ Ascii.eqb a quote = false /\ Ascii.eqb a comma = false.
Proof. unfold special. rewrite !orb_false_iff. tauto. Qed.

Lemma read_quoted (cur : bytes) (fields : list string) (l rest : bytes) :
  csv_read Quoted cur fields (escape l ++ quote :: rest) = csv_read QuoteEnd (cur ++ l) fields rest.
Proof.
  revert cur. induction l as [|a l IH]; intros cur; [by rewrite app_nil_r|].
  change (escape (a :: l)) with ((if Ascii.eqb a quote then [quote; quote] else [a]) ++ escape l).
  destruct (Ascii.eqb a quote) eqn:E; rewrite <- app_assoc; cbn [app csv_read].
  - apply Ascii.eqb_eq in E as ->. change (Ascii.eqb quote quote) with true. cbn iota. by rewrite IH, <- app_assoc.
  - rewrite E. by rewrite IH, <- app_assoc.
Qed.

Lemma read_unquoted (cur : bytes) (fields : list string) (l rest : bytes) :
  existsb special l = false -> csv_read Unquoted cur fields (l ++ rest) = csv_read Unquoted (cur ++ l) fields rest.
Proof.
  revert cur. induction l as [|a l IH]; intros cur Hl; [by rewrite app_nil_r|]. cbn [existsb] in Hl.
  apply orb_false_iff in Hl as [Ha Hl]. apply special_false in Ha as (H1 & H2 & H3).
  cbn [app csv_read]. rewrite H1, H2, H3, IH by done. by rewrite <- app_assoc.
Qed.

(** A whole field, up to the separator that follows it. *)
Lemma read_field (fields : list string) (field : string) (a : ascii) (rest : bytes) :
  a = comma \/ a = lf ->
  csv_read FieldStart [] fields (field_text field ++ a :: rest) =
    if Ascii.eqb a comma then csv_read FieldStart [] (fields ++ [field]) rest
    else cons (fields ++ [field]) <$> csv_read FieldStart [] [] rest.
Proof.
  intros Ha. unfold field_text. destruct (fieldNeedsQuotes field) eqn:En.
  - cbn [app csv_read]. change (Ascii.eqb quote quote) with true. cbn iota.
    rewrite <- app_assoc. cbn [app]. rewrite read_quoted. cbn [app csv_read].
    rewrite String.string_of_list_ascii_of_string.
    destruct Ha as [-> | ->]; reflexivity.
  - unfold fieldNeedsQuotes in En. destruct (field =? "")%string eqn:E0; bool_facts.
    { subst field. cbn [app csv_read]. destruct Ha as [-> | ->]; reflexivity. }
    destruct (field =? "\.")%string; [done|]. apply orb_false_iff in En as [En _].
    assert (of_bytes (to_bytes field) = field) as Hf by apply String.string_of_list_ascii_of_string.
    destruct (to_bytes field) as [|b l] eqn:Eb; [by destruct E0|].
    pose proof En as En'. cbn [existsb] in En. apply orb_false_iff in En as [Hb Hl].
    apply special_false in Hb as (H1 & H2 & H3). cbn [app csv_read]. rewrite H1, H2, H3.
    rewrite read_unquoted by done. cbn [app csv_read]. rewrite Hf. destruct Ha as [-> | ->]; reflexivity.
Qed.

Lemma read_record (fields record : list string) (rest : bytes) :
  record <> [] ->
  csv_read FieldStart [] fields (record_text record ++ lf :: rest) =
    cons (fields ++ record) <$> csv_read FieldStart [] [] rest.
Proof.
  revert fields. induction record as [|f [|g r] IH]; intros fields Hne; [done| |].
  - cbn [record_text]. rewrite read_field by by right. reflexivity.
  - change (record_text (f :: g :: r)) with (field_text f ++ comma :: record_text (g :: r)).
    rewrite <- app_assoc. cbn [app]. rewrite read_field by by left.
    change (Ascii.eqb comma comma) with true. cbn iota. rewrite IH by done. by rewrite <- app_assoc.
Qed.

Lemma read_csv_text (records : list (list string)) :
  Forall (fun r => r <> []) records -> read_csv (csv_text records) = Some records.
Proof.
  intros Hr. unfold read_csv. induction Hr as [|r records Hne _ IH]; [done|].
  change (csv_text (r :: records)) with (mjoin (record_writes r) ++ csv_text records).
  rewrite record_writes_text, <- app_assoc. cbn [app]. rewrite read_record by done. by rewrite IH.
Qed.

(** ** What reaches the file *)

(** Of the text that was to be written up to now, [done] is the part that the
    writer took: without an error it is in the file or in the buffer; after one
    the file is full. *)
Record holds (b : bufio) (text : bytes) : Prop := {
  ho_room : (length (content (b_file b)) <= space (b_file b))%nat;
  ho_buf : (length (b_buf b) <= buffer_size)%nat;
  ho_fine : b_err b = false -> text = content (b_file b) ++ b_buf b;
  ho_error : b_err b = true -> content (b_file b) = take (space (b_file b)) text /\
    (space (b_file b) < length text)%nat;
}.

Lemma file_write_content (f : file) (p : bytes) (b : bool) (f' : file) :
  (length (content f) <= space f)%nat -> file_write f p = (f', b) ->
  space f' = space f /\ content f' = take (space f) (content f ++ p) /\
  b = (length (content f ++ p) <=? space f)%nat.
Proof.
  intros Hl [= <- <-]. simpl. split_and!; [done| |].
  - rewrite take_app, (take_ge (content f)) by done. done.
  - rewrite length_app. apply eq_true_iff_eq. rewrite !Nat.leb_le. lia.
Qed.

(** A write to the file, of text that the writer had not yet written to it. *)
Lemma holds_write (b : bufio) (f' : file) (p rest : bytes) (ok : bool) (text : bytes) :
  (length (content (b_file b)) <= space (b_file b))%nat -> file_write (b_file b) p = (f', ok) ->
  text = content (b_file b) ++ p ++ rest -> (length rest <= buffer_size)%nat -> forall buf,
  (ok = true -> buf = rest) -> (length buf <= buffer_size)%nat ->
  holds {| b_file := f'; b_buf := buf; b_err := negb ok |} text.
Proof.
  intros Hl Hw Ht Hr buf Hbuf Hlb. destruct (file_write_content _ _ _ _ Hl Hw) as (Hs & Hc & ->).
  split; cbn [b_file b_buf b_err].
  - rewrite Hc, Hs, length_take. lia.
  - done.
  - intros H%negb_false_iff. rewrite (Hbuf H). apply Nat.leb_le in H. rewrite Hc, take_ge by done.
    by rewrite Ht, app_assoc.
  - intros H%negb_true_iff%Nat.leb_gt. rewrite Hs, Hc, Ht, app_assoc. split.
    + rewrite (take_app_le (content (b_file b) ++ p)) by lia. done.
    + rewrite length_app. lia.
Qed.

Lemma holds_append (b : bufio) (s text : bytes) :
  b_err b = false -> holds b text -> (length s <= available b)%nat -> holds (append b s) (text ++ s).
Proof.
  intros He [H1 H2 H3 H4] Hs. unfold available in Hs. split; cbn [append b_file b_buf b_err]; try done.
  - rewrite length_app. lia.
  - intros _. by rewrite (H3 He), app_assoc.
  - congruence.
Qed.

Lemma holds_direct (b : bufio) (s text : bytes) :
  b_err b = false -> b_buf b = [] -> holds b text -> holds (direct b s) (text ++ s).
Proof.
  intros He Hb [H1 H2 H3 H4]. unfold direct. destruct (file_write (b_file b) s) as [f ok] eqn:Hw. rewrite Hb.
  eapply (holds_write b f s []); try done; [|simpl; lia|simpl; lia].
  rewrite (H3 He), Hb. by rewrite !app_nil_r.
Qed.

Lemma Flush_holds (b : bufio) (text : bytes) :
  holds b text -> holds (Flush b) text /\ (b_err (Flush b) = false -> b_buf (Flush b) = []).
Proof.
  intros Hh. pose proof Hh as [H1 H2 H3 H4]. unfold Flush. destruct (b_err b) eqn:He; [split; [done|congruence]|].
  destruct (file_write (b_file b) (b_buf b)) as [f ok] eqn:Hw. split.
  - eapply (holds_write b f (b_buf b) []); [done|done|by rewrite app_nil_r, H3|simpl; lia| |].
    + by intros ->.
    + destruct ok; [simpl; lia|]. rewrite length_drop. lia.
  - cbn [b_err b_buf]. by intros ->%negb_false_iff.
Qed.

Lemma WriteString_holds (b : bufio) (s text : bytes) :
  holds b text -> holds (WriteString b s) (text ++ s).
Proof.
  intros Hh. unfold WriteString. destruct (b_err b) eqn:He.
  { destruct Hh as [H1 H2 H3 H4]. split; try done; [congruence|]. intros H. destruct (H4 H) as [Hc Hl].
    rewrite take_app_le by lia. rewrite length_app. split; [done|lia]. }
  destruct (Nat.leb_spec (length s) (available b)); [by apply holds_append|].
  destruct (b_buf b) as [|x buf] eqn:Eb; [by apply holds_direct|]. cbn zeta. clear x buf Eb.
  assert (length (take (available b) s) <= available b)%nat as Ht by (rewrite length_take; lia).
  pose proof (holds_append b _ text He Hh Ht) as Ha. destruct (Flush_holds _ _ Ha) as [Hf Hempty].
  replace (text ++ s) with ((text ++ take (available b) s) ++ drop (available b) s) by (by rewrite <- app_assoc, take_drop).
  destruct (b_err (Flush (append b (take (available b) s)))) eqn:Ee.
  - destruct Hf as [H1 H2 H3 H4]. split; try done; [congruence|]. intros Hx. destruct (H4 Hx) as [Hc Hl].
    rewrite take_app_le by lia. rewrite length_app. split; [done|lia].
  - unfold spill. destruct (Nat.leb_spec (length (drop (available b) s)) (available (Flush (append b (take (available b) s))))).
    + by apply holds_append.
    + apply holds_direct; [done|by apply Hempty|done].
Qed.

Lemma write_pieces_holds (ps : list bytes) (b : bufio) (text : bytes) :
  holds b text -> holds (write_pieces b ps) (text ++ mjoin ps).
Proof.
  revert b text. induction ps as [|p ps IH]; intros b text Hh; [by rewrite app_nil_r|].
  csimpl. rewrite app_assoc. by apply IH, WriteString_holds.
Qed.

Lemma write_records_holds (records : list (list string)) (b : bufio) (text : bytes) :
  b_err b = false -> holds b text -> holds (write_records b records) (text ++ csv_text records).
Proof.
  revert b text. induction records as [|r records IH]; intros b text He Hh; [by rewrite app_nil_r|].
  cbn [write_records]. pose proof (write_pieces_holds (record_writes r) b text Hh) as Hw.
  change (csv_text (r :: records)) with (mjoin (record_writes r) ++ csv_text records). rewrite app_assoc.
  destruct (b_err (write_pieces b (record_writes r))) eqn:Ee; [|by apply IH].
  destruct Hw as [H1 H2 H3 H4]. split; try done; [congruence|]. intros H. destruct (H4 H) as [Hc Hl].
  rewrite take_app_le by lia. rewrite length_app. split; [done|lia].
Qed.

(** A text that fits the buffer is written by the flush alone. *)
Lemma write_pieces_small (ps : list bytes) (b : bufio) :
  b_err b = false -> (length (b_buf b) + length (mjoin ps) <= buffer_size)%nat ->
  write_pieces b ps = append b (mjoin ps).
Proof.
  revert b. induction ps as [|p ps IH]; intros b He Hl.
  { unfold append. simpl. rewrite app_nil_r. by destruct b. }
  csimpl in Hl. rewrite length_app in Hl.
  change (write_pieces b (p :: ps)) with (write_pieces (WriteString b p) ps). unfold WriteString. rewrite He.
  unfold available. rewrite (proj2 (Nat.leb_le _ _)) by lia. rewrite IH; [|done|].
  - unfold append. simpl. by rewrite <- app_assoc.
  - simpl. rewrite length_app. lia.
Qed.

Lemma write_records_small (records : list (list string)) (b : bufio) :
  b_err b = false -> (length (b_buf b) + length (csv_text records) <= buffer_size)%nat ->
  b_err (write_records b records) = false.
Proof.
  revert b. induction records as [|r records IH]; intros b He Hl; [done|].
  change (csv_text (r :: records)) with (mjoin (record_writes r) ++ csv_text records) in Hl.
  rewrite length_app in Hl. cbn [write_records]. rewrite write_pieces_small by (done || lia).
  cbn [append b_err]. rewrite He. apply IH; [done|]. simpl. rewrite length_app. lia.
Qed.

Lemma WriteString_space (b : bufio) (s : bytes) : space (b_file (WriteString b s)) = space (b_file b).
Proof. unfold WriteString, spill, direct, Flush, file_write. by repeat case_match; simplify_eq. Qed.

Lemma write_pieces_space (ps : list bytes) (b : bufio) : space (b_file (write_pieces b ps)) = space (b_file b).
Proof.
  revert b. induction ps as [|p ps IH]; intros b; [done|].
  change (write_pieces b (p :: ps)) with (write_pieces (WriteString b p) ps). by rewrite IH, WriteString_space.
Qed.

Lemma write_records_space (records : list (list string)) (b : bufio) :
  space (b_file (write_records b records)) = space (b_file b).
Proof.
  revert b. induction records as [|r records IH]; intros b; [done|]. cbn [write_records].
  destruct (b_err _); [apply write_pieces_space|]. by rewrite IH, write_pieces_space.
Qed.

Lemma Flush_prefix (b : bufio) (text : bytes) :
  holds b text -> content (b_file (Flush b)) = take (space (b_file b)) text.
Proof.
  intros Hh. assert (space (b_file (Flush b)) = space (b_file b)) as Hs.
  { unfold Flush. destruct (b_err b); [done|].
    destruct (file_write (b_file b) (b_buf b)) as [f ok] eqn:E. by injection E as <- <-. }
  destruct (Flush_holds b text Hh) as [[H1 H2 H3 H4] He]. rewrite <- Hs.
  destruct (b_err (Flush b)) eqn:Ee; [apply (H4 eq_refl)|].
  by rewrite (H3 eq_refl), (He eq_refl), app_nil_r, take_ge.
Qed.

Lemma written_holds (n : nat) (records : list (list string)) :
  holds (write_records (new_buffer n) records) (csv_text records).
Proof.
  apply (write_records_holds records (new_buffer n) []); [done|]. split; [simpl; lia|simpl; lia|done|done].
Qed.

Lemma write_csv_prefix (n : nat) (records : list (list string)) :
  (write_csv n records).1 = take n (csv_text records).
Proof.
  change (content (b_file (Flush (write_records (new_buffer n) records))) = take n (csv_text records)).
  rewrite (Flush_prefix _ _ (written_holds n records)). by rewrite write_records_space.
Qed.

(** The file always holds the beginning of the text that there is room for, and an
    error that is reported means that something is missing. The converse fails:
    the error of the deferred flush is dropped, so a text that fits the buffer
    is never reported as incomplete, however little of it reached the file. *)
Theorem write_csv_content (space : nat) (records : list (list string)) :
  let '(contents, err) := write_csv space records in
  let text := csv_text records in
  contents = take space text /\
  (err = true -> (space < length text)%nat) /\
  ((length text <= buffer_size)%nat -> err = false).
Proof.
  pose proof (write_csv_prefix space records) as Hp. destruct (write_csv space records) as [c err] eqn:Hw.
  unfold write_csv in Hw. injection Hw as _ <-. cbn zeta. split_and!; [exact Hp| |].
  - intros He. destruct (ho_error _ _ (written_holds space records) He) as [_ Hl].
    by rewrite write_records_space in Hl.
  - intros Hl. by apply write_records_small.
Qed.

(** A file with room for it gives every record back to a reader of the format,
    whatever bytes the fields hold: separators, quotes, line breaks and leading
    spaces included; and no error is reported. *)
Theorem csv_roundtrip (space : nat) (records : list (list string)) :
  Forall (fun r => r <> []) records -> (length (csv_text records) <= space)%nat ->
  let '(contents, err) := write_csv space records in
  err = false /\ read_csv contents = Some records.
Proof.
  intros Hr Hs. pose proof (write_csv_prefix space records) as Hp. destruct (write_csv space records) as [c err] eqn:Hw.
  cbn [fst] in Hp. split; [|by rewrite Hp, take_ge, read_csv_text].
  unfold write_csv in Hw. injection Hw as _ <-. destruct (b_err _) eqn:He; [|done].
  destruct (ho_error _ _ (written_holds space records) He) as [_ Hl]. rewrite write_records_space in Hl. simpl in Hl. lia.
Qed.

(** ** Witnesses *)
Definition ex_records : list (list string) :=
  [["request"; "error"]; ["0"; "a, " +:+ of_bytes [quote] +:+ "b" +:+ of_bytes [lf]]; ["1"; ""]].

Lemma csv_roundtrip_witness :
  length (csv_text ex_records) = 29%nat /\ read_csv (write_csv 100 ex_records).1 = Some ex_records.
Proof.
  split; [vm_compute; reflexivity|]. pose proof (csv_roundtrip 100 ex_records) as H.
  destruct (write_csv 100 ex_records) as [c e]. apply H.
  - repeat (apply Forall_cons_2; [discriminate|]). apply Forall_nil_2.
  - vm_compute. repeat constructor.
Defined.

(** A full disk that nobody hears of. *)
Lemma write_csv_content_witness :
  write_csv 10 ex_records = (to_bytes "request,er", false) /\ length (csv_text ex_records) = 29%nat /\
  (write_csv 10 ex_records).1 = take 10 (csv_text ex_records).
Proof.
  split; [vm_compute; reflexivity|]. split; [vm_compute; reflexivity|].
  pose proof (write_csv_content 10 ex_records) as H. destruct (write_csv 10 ex_records) as [c e]. exact (proj1 H).
Defined.
