(* ===== verification/LoadRun.v ===== *)
(** * A run of the load generator: [src/cmd/loadgen/main.go]

    The items of a trace, a request over HTTP and the reading of its stream, the
    loop and the summary of [main], and the files that it writes.  The HTTP client
    and the file system are arguments, and so are the renderings of floats and of
    the JSON result, the decoder of trace lines and the clock. *)

From Stdlib Require Import Ascii String.
From S2P Require Import Prelude GoFloat GoString Model Parse Sse LoadGen Csv.
From S2P Require Routing.

#[local] Open Scope Z_scope.
#[local] Open Scope go_scope.

(** ** [bufio.Scanner] over lines *)
Definition MaxScanTokenSize : Z := 65536.

Definition dropCR (line : bytes) : string :=
  of_bytes (match reverse line with a :: rest => if Ascii.eqb a cr then reverse rest else line | [] => line end).

(** The lines, and whether the scan stopped at one that does not fit the buffer. *)
Fixpoint scan_from (cur : bytes) (l : bytes) : list string * bool :=
  match l with
  | [] => (match cur with [] => [] | _ => [dropCR cur] end, false)
  | a :: l =>
      if Ascii.eqb a lf then let '(lines, long) := scan_from [] l in (dropCR cur :: lines, long)
      else if Z.of_nat (length cur) + 1 <? MaxScanTokenSize then scan_from (cur ++ [a]) l
      else ([], true)
  end.

Definition Scan (text : string) : list string * bool := scan_from [] (to_bytes text).

Definition ErrTooLong : string := "bufio.Scanner: token too long".

(** ** Traces *)
Section Trace.
Context (Unmarshal : string -> result string workItem).

Fixpoint decode_lines (lines : list string) : result string (list workItem) :=
  match lines with
  | [] => Ok []
  | line :: lines =>
      match Unmarshal line with
      | Err e => Err ("decode trace: " +:+ e)
      | Ok item => items ← decode_lines lines; Ok (item :: items)
      end
  end.

(** The contents of the trace and the error that ends its reading, if any. *)
Definition trace_items (text : string) (read_error : option string) : result string (list workItem) :=
  let '(lines, long) := Scan text in
  items ← decode_lines lines;
  match (if long then Some ErrTooLong else read_error) with Some e => Err e | None => Ok items end.
End Trace.

(** ** A request over HTTP *)
Fixpoint trim_slashes (l : bytes) : bytes :=
  match l with a :: l => if Ascii.eqb a "/" then trim_slashes l else a :: l | [] => [] end.

(** [strings.TrimRight(base, "/")]. *)
Definition TrimRight (base : string) : string := of_bytes (reverse (trim_slashes (reverse (to_bytes base)))).

Record post := { p_url : string; p_headers : list (string * string); p_body : string }.

Record response := {
  StatusCode : Z;
  StatusText : string;
  r_body : string;
  r_read_error : option string;   (* what ends the reading of the body, none for its end *)
}.

Definition json_message (m : Message) : string :=
  json_object [json_field "role" (json_string (Role m)); json_field "content" (json_string (Content m))].

(** The keys of a Go map are written in order. An item without messages has a nil
    slice; the empty array that a trace can hold is not told apart from it. *)
Definition payload (item : workItem) : string :=
  json_object
    [json_field "max_tokens" (itoa (MaxTokens item));
     json_field "messages" (match wi_Messages item with [] => "null" | ms => json_array (json_message <$> ms) end);
     json_field "model" (json_string "mock-llm"); json_field "stream" "true"].

Definition chat_post (base : string) (item : workItem) : post :=
  {| p_url := TrimRight base +:+ "/v1/chat/completions";
     p_headers := [("Content-Type", "application/json"); ("X-Aether-Tenant-ID", wi_TenantID item)];
     p_body := payload item |}.

(** The loop over the lines: whether a token came, and whether the end marker
    ended it. *)
Fixpoint read_events (first : bool) (lines : list string) : bool * bool :=
  match lines with
  | [] => (first, false)
  | line :: lines =>
      let first := first || (line =? "event: token")%string in
      if (line =? "data: [DONE]")%string then (first, true) else read_events first lines
  end.

Definition milliseconds (from till : Time) : float64 :=
  float_of_Z (Z.quot (time_sub till from) 1000) /f float_of_Z 1000.

(** The readings of the clock: at the start, at the first token, at the end. *)
Record request_clock := { at_start : Time; at_first : Time; at_end : Time }.

Definition ok_status (status : Z) : bool := (200 <=? status) && (status <? 300).

(** [Do] is the HTTP client, the parsing of the address included. *)
Definition execute (Do : post -> result string response) (clock : request_clock) (base : string) (index : Z)
    (item : workItem) : sample :=
  match Do (chat_post base item) with
  | Err e => failed_sample index 0 e
  | Ok r =>
      if negb (ok_status (StatusCode r)) then failed_sample index (StatusCode r) (StatusText r)
      else
        let '(lines, long) := Scan (r_body r) in
        let '(first, ended) := read_events false lines in
        match (if ended then None else if long then Some ErrTooLong else r_read_error r) with
        | Some e => failed_sample index (StatusCode r) e
        | None =>
            if negb first then failed_sample index (StatusCode r) "stream had no token event"
            else {| sm_Request := index; TTFTMS := milliseconds (at_start clock) (at_first clock);
                    LatencyMS := milliseconds (at_start clock) (at_end clock); sm_Status := StatusCode r;
                    sm_Error := "" |}
        end
  end.

(** ** The command *)
Record flags := {
  mode : string;
  workload : string;
  requests : Z;
  seed : Z;
  policyName : string;
  f_router : string;
  trace : string;
  output : string;
  csvPath : string;
}.

Record summary := {
  Kind : string;
  Workload : string;
  s_Policy : string;
  s_Seed : Z;
  StartedAt : Time;
  Requests : Z;
  Completed : Z;
  Failed : Z;
  Throughput : float64;
  TTFTP50MS : float64;
  TTFTP95MS : float64;
  LatencyP50MS : float64;
  LatencyP95MS : float64;
  Samples : list sample;
}.

(** How the process ends: with a code and a line on the standard error if the code
    is not zero, or with a panic. *)
Inductive exit := Exited | Fatal (line : string) | Panicked.

(** The files written so far. *)
Abbreviation files := (list (string * bytes)).

(** The file system: the error of making a directory, the space of a new file. *)
Record filesystem := {
  MkdirAll : string -> option string;
  Create : string -> result string nat;
  OpenTrace : string -> result string (string * option string);
}.

Definition csv_header : list string := ["request"; "ttft_ms"; "latency_ms"; "status"; "error"].

Definition csv_row (Sprint : float64 -> string) (s : sample) : list string :=
  [itoa (sm_Request s); Sprint (TTFTMS s); Sprint (LatencyMS s); itoa (sm_Status s); sm_Error s].

Section Main.
Context {R : Type} (NewPCG : Z -> Z -> R) (IntN : R -> Z -> R * Z).
Context (Unmarshal : string -> result string workItem) (Encode : summary -> result string string).
Context (Sprint : float64 -> string) (Quote : string -> string) (write_error : string).
Context (fs : filesystem) (Do : Z -> post -> result string response) (clock : Z -> request_clock).
Context (started finished : Time).

Definition items_of (f : flags) : result string (list workItem) :=
  if negb (trace f =? "")%string then
    opened ← OpenTrace fs (trace f); trace_items Unmarshal opened.1 opened.2
  else workloadItems IntN (workload f) (requests f) (NewPCG (seed f) (Z.lxor (seed f) 11400714819323198485)).

(** The loop of [main]; the simulator exists in its mode only. *)
Fixpoint run_items (f : flags) (sim : option routingSimulator) (index : Z) (items : list workItem) :
  result string (list sample) :=
  match items with
  | [] => Ok []
  | item :: items =>
      match sim with
      | Some s =>
          let '(s, x) := run s index item in
          xs ← run_items f (Some s) (index + 1) items; Ok (x :: xs)
      | None =>
          if (mode f =? "wall_clock_mock")%string then
            let x := execute (Do index) (clock index) (f_router f) index item in
            xs ← run_items f None (index + 1) items; Ok (x :: xs)
          else Err ("unknown mode " +:+ Quote (mode f))
      end
  end.

Definition completed (xs : list sample) : Z := Z.of_nat (length (filter (fun s => succeeded s = true) xs)).

Definition summarize (f : flags) (items : list workItem) (xs : list sample) : option summary :=
  let elapsed := dur_seconds (time_sub finished started) in
  ttft ← percentiles xs TTFTMS;
  latency ← percentiles xs LatencyMS;
  Some {| Kind := mode f; Workload := workload f; s_Policy := policyName f; s_Seed := seed f;
          StartedAt := started; Requests := Z.of_nat (length items); Completed := completed xs;
          Failed := Z.of_nat (length (filter (fun s => succeeded s = false) xs));
          Throughput := if fzero <f elapsed then float_of_Z (completed xs) /f elapsed else fzero;
          TTFTP50MS := ttft.1; TTFTP95MS := ttft.2; LatencyP50MS := latency.1; LatencyP95MS := latency.2;
          Samples := xs |}.

(** A new file in a directory that is made for it. *)
Definition create (path : string) : result string nat :=
  match MkdirAll fs (filepathDir path) with Some e => Err e | None => Create fs path end.

Definition writeJSON (path : string) (run : summary) : files * option string :=
  match create path with
  | Err e => ([], Some e)
  | Ok space =>
      match Encode run with
      | Err e => ([(path, [])], Some e)
      | Ok text =>
          let '(f, ok) := file_write {| content := []; space := space |} (to_bytes text ++ [lf]) in
          ([(path, content f)], if ok then None else Some write_error)
      end
  end.

Definition writeCSV (path : string) (xs : list sample) : files * option string :=
  match create path with
  | Err e => ([], Some e)
  | Ok space =>
      let '(contents, err) := write_csv space (csv_header :: (csv_row Sprint <$> xs)) in
      ([(path, contents)], if err then Some write_error else None)
  end.

Definition fatal (e : string) : exit := Fatal ("loadgen: " +:+ e).

Definition main (f : flags) : files * exit :=
  match items_of f with
  | Err e => ([], fatal e)
  | Ok items =>
      match (if (mode f =? "deterministic_simulation")%string
             then s ← newRoutingSimulator (policyName f) (seed f); Ok (Some s) else Ok None) with
      | Err e => ([], fatal e)
      | Ok sim =>
          match run_items f sim 0 items with
          | Err e => ([], fatal e)
          | Ok xs =>
              match summarize f items xs with
              | None => ([], Panicked)
              | Some run =>
                  match writeJSON (output f) run with
                  | (written, Some e) => (written, fatal e)
                  | (written, None) =>
                      if (csvPath f =? "")%string then (written, Exited)
                      else match writeCSV (csvPath f) xs with
                           | (more, Some e) => (written ++ more, fatal e)
                           | (more, None) => (written ++ more, Exited)
                           end
                  end
              end
          end
      end
  end.
End Main.

(** ** The scanner on short lines *)

(** A text that ends its last line. *)
Definition whole (cur l : bytes) : Prop :=
  match list.last l with Some a => a = lf | None => cur = [] end.

Lemma whole_next (cur cur' : bytes) (a : ascii) (l : bytes) :
  whole cur (a :: l) -> (a = lf -> cur' = []) -> whole cur' l.
Proof.
  unfold whole. rewrite list.last_cons. destruct (list.last l) as [b|]; [done|]. intros -> H. by apply H.
Qed.

Lemma split_head (cur l : bytes) :
  cur <> [] -> whole cur l ->
  exists line rest, split_lines cur l = line :: rest /\ (length cur <= String.length line)%nat.
Proof.
  revert cur. induction l as [|a l IH]; intros cur Hc Hw; cbn [split_lines]; [by destruct Hc|].
  destruct (Ascii.eqb a lf) eqn:Ea.
  - eexists _, _. split; [done|]. by rewrite <- length_to_bytes, String.list_ascii_of_string_of_list_ascii.
  - destruct (IH (cur ++ [a])) as (line & rest & -> & Hl).
    + by destruct cur.
    + apply (whole_next _ _ _ _ Hw). intros ->. by rewrite Ascii.eqb_refl in Ea.
    + eexists _, _. split; [done|]. rewrite length_app in Hl. simpl in Hl. lia.
Qed.

Definition short (line : string) : Prop := inline line /\ len line < MaxScanTokenSize.

Lemma dropCR_inline (line : bytes) : inline (of_bytes line) -> dropCR line = of_bytes line.
Proof.
  intros Hi. unfold dropCR. f_equal. destruct (reverse line) as [|a rest] eqn:E; [done|].
  assert (line = reverse rest ++ [a]) as Hl by (rewrite <- (reverse_involutive line), E; apply reverse_cons).
  unfold inline in Hi. rewrite String.list_ascii_of_string_of_list_ascii, Hl in Hi.
  apply Forall_app in Hi as [_ Ha]. apply list.Forall_cons in Ha as [Ha _]. unfold inline_byte in Ha.
  apply andb_true_iff in Ha as [_ Ha]. apply negb_true_iff in Ha.
  change (Ascii.eqb a cr = false) in Ha. by rewrite Ha.
Qed.

Lemma scan_short (cur l : bytes) :
  whole cur l -> Forall short (split_lines cur l) -> scan_from cur l = (split_lines cur l, false).
Proof.
  revert cur. induction l as [|a l IH]; intros cur Hw Hs; cbn [split_lines scan_from] in *.
  - unfold whole in Hw. simpl in Hw. by subst cur.
  - destruct (Ascii.eqb a lf) eqn:Ea.
    + apply list.Forall_cons in Hs as [[Hi _] Hs]. rewrite IH; [|by eapply whole_next|done]. by rewrite dropCR_inline.
    + assert (whole (cur ++ [a]) l) as Hw'.
      { apply (whole_next _ _ _ _ Hw). intros ->. by rewrite Ascii.eqb_refl in Ea. }
      destruct (split_head (cur ++ [a]) l) as (line & rest & E & Hl); [by destruct cur|done|].
      pose proof Hs as Hs'. rewrite E in Hs'. apply list.Forall_cons in Hs' as [[_ Hlen] _].
      rewrite length_app in Hl. simpl in Hl. unfold len in Hlen.
      rewrite (proj2 (Z.ltb_lt _ _)) by lia. by apply IH.
Qed.

Lemma last_frame (event data : string) : list.last (to_bytes (frame event data)) = Some lf.
Proof.
  unfold frame. rewrite !to_bytes_app, !list.last_app.
  change (to_bytes (String lf ("data: " +:+ data +:+ String lf (String lf ""))))
    with (lf :: to_bytes ("data: " +:+ data +:+ String lf (String lf ""))).
  by rewrite list.last_cons, !to_bytes_app, !list.last_app.
Qed.

Lemma render_whole (es : list sse) : whole [] (to_bytes (render_all es)).
Proof.
  unfold whole. induction es as [|e es IH]; [done|]. change (render_all (e :: es)) with (render e +:+ render_all es).
  rewrite to_bytes_app, list.last_app. destruct (list.last (to_bytes (render_all es))); [done|].
  destruct e; simpl render; by rewrite ?last_frame.
Qed.

Lemma frame_inline (event data : string) :
  inline event -> inline data -> Forall inline (frame_lines event data).
Proof.
  intros He Hd. unfold frame_lines.
  apply Forall_cons_2; [apply inline_app; by split; [repeat constructor|]|].
  apply Forall_cons_2; [apply inline_app; by split; [repeat constructor|]|].
  apply Forall_cons_2; [apply Forall_nil_2|apply Forall_nil_2].
Qed.

Lemma event_lines_inline (es : list sse) : Forall inline (mjoin (lines_of <$> es)).
Proof.
  induction es as [|e es IH]; [apply Forall_nil_2|]. csimpl. apply Forall_app. split; [|done].
  destruct e; cbn [lines_of]; try (apply frame_inline; [by repeat constructor|]);
    [apply json_payload_inline|apply json_payload_inline|apply json_error_inline|].
  apply Forall_cons_2; [by repeat constructor|]. apply Forall_cons_2; [apply Forall_nil_2|apply Forall_nil_2].
Qed.

Lemma read_events_token (first : bool) (lines : list string) :
  (read_events first lines).1 = first || saw_token lines.
Proof.
  revert first. induction lines as [|line lines IH]; intros first; cbn [read_events saw_token]; [by rewrite orb_false_r|].
  destruct (line =? "event: token")%string eqn:Et; bool_facts.
  - subst line. change ("event: token" =? "data: [DONE]")%string with false. cbn iota.
    by rewrite IH, !orb_true_r.
  - destruct (line =? "data: [DONE]")%string; [done|]. by rewrite IH, orb_false_r.
Qed.

(** ** The loop of the command *)
Lemma run_request (s : routingSimulator) (index : Z) (item : workItem) : sm_Request (run s index item).2 = index.
Proof.
  unfold run. destruct (Routing.Select _ _ _ _) as [rt [d [e|]]]; [done|]. case_if; [done|].
  by destruct (list_find _ _) as [[i w]|].
Qed.

Lemma execute_request (Do : post -> result string response) (clock : request_clock) (base : string) (index : Z)
    (item : workItem) : sm_Request (execute Do clock base index item) = index.
Proof.
  unfold execute. destruct (Do _) as [r|e]; [|done]. case_if; [done|]. destruct (Scan _) as [lines long].
  destruct (read_events _ _) as [first ended]. case_match; [done|]. by destruct first.
Qed.

(** The samples number the requests. *)
Definition numbered (from : Z) (xs : list sample) : Prop :=
  forall i x, xs !! i = Some x -> sm_Request x = from + Z.of_nat i.

Lemma numbered_cons (from : Z) (x : sample) (xs : list sample) :
  sm_Request x = from -> numbered (from + 1) xs -> numbered from (x :: xs).
Proof.
  intros Hx Hxs [|i] y Hy; simpl in Hy; [injection Hy as <-; lia|]. rewrite (Hxs i y Hy). lia.
Qed.

Lemma filter_split (xs : list sample) :
  (length (filter (fun s => succeeded s = true) xs) + length (filter (fun s => succeeded s = false) xs) = length xs)%nat.
Proof.
  induction xs as [|x xs IH]; [done|]. rewrite !filter_cons.
  destruct (succeeded x) eqn:E; repeat case_decide; try congruence; simpl; lia.
Qed.

(** The sample of an item is the simulator's answer after the items before it. *)
Lemma simulate_nth (s : routingSimulator) (from : Z) (items : list workItem) (i : nat) (item : workItem) :
  items !! i = Some item ->
  (simulate s from items).2 !! i = Some (run (simulate s from (take i items)).1 (from + Z.of_nat i) item).2.
Proof.
  revert s from i. induction items as [|y items IH]; intros s from i; [done|]. destruct i as [|i]; cbn [lookup list_lookup].
  - intros [= ->]. cbn [simulate take fst]. rewrite Z.add_0_r. destruct (run s from item) as [s' x].
    by destruct (simulate s' (from + 1) items).
  - intros Hi. cbn [simulate take]. destruct (run s from y) as [s' x]. pose proof (IH s' (from + 1) i Hi) as H.
    destruct (simulate s' (from + 1) items) as [s1 xs], (simulate s' (from + 1) (take i items)) as [s2 ys].
    cbn [fst snd] in *. transitivity (xs !! i); [done|]. rewrite H. do 3 f_equal. lia.
Qed.

Section Main.
Context {R : Type} (NewPCG : Z -> Z -> R) (IntN : R -> Z -> R * Z).
Context (Unmarshal : string -> result string workItem) (Encode : summary -> result string string).
Context (Sprint : float64 -> string) (Quote : string -> string) (write_error : string).
Context (fs : filesystem) (Do : Z -> post -> result string response) (clock : Z -> request_clock).
Context (started finished : Time).

Lemma run_items_samples (f : flags) (items : list workItem) (sim : option routingSimulator) (index : Z) (xs : list sample) :
  run_items Quote Do clock f sim index items = Ok xs ->
  length xs = length items /\ numbered index xs /\
  match sim with
  | Some s => xs = (simulate s index items).2
  | None => (items = [] \/ mode f = "wall_clock_mock") /\
      forall i item, items !! i = Some item ->
        xs !! i = Some (execute (Do (index + Z.of_nat i)) (clock (index + Z.of_nat i)) (f_router f) (index + Z.of_nat i) item)
  end.
Proof.
  revert sim index xs. induction items as [|item items IH]; intros sim index xs; cbn [run_items].
  { intros [= <-]. split_and!; [done|intros i x Hx; done|]. destruct sim; [done|split; [by left|done]]. }
  destruct sim as [s|].
  - pose proof (run_request s index item) as Hr. cbn [simulate]. destruct (run s index item) as [s' x].
    intros (ys & Hys & [= <-])%result_bind_ok. destruct (IH _ _ _ Hys) as (Hl & Hn & ->).
    split_and!; [simpl; by rewrite Hl|by apply numbered_cons|].
    by destruct (simulate s' (index + 1) items).
  - destruct (mode f =? "wall_clock_mock")%string eqn:Em; [|done]. cbv zeta.
    intros (ys & Hys & [= <-])%result_bind_ok. destruct (IH _ _ _ Hys) as (Hl & Hn & _ & Hx).
    split_and!; [simpl; by rewrite Hl|apply numbered_cons; [apply execute_request|done]| |].
    { right. by apply String.eqb_eq. }
    intros [|i] it Hi; cbn in Hi; [injection Hi as ->; by rewrite Z.add_0_r|].
    transitivity (ys !! i); [done|]. rewrite (Hx i it Hi). by replace (index + 1 + Z.of_nat i) with (index + Z.of_nat (S i)) by lia.
Qed.

Lemma summarize_counts (f : flags) (items : list workItem) (xs : list sample) (run : summary) :
  summarize started finished f items xs = Some run ->
  Samples run = xs /\ Requests run = Z.of_nat (length items) /\ Completed run = completed xs /\
  Completed run + Failed run = Z.of_nat (length xs) /\
  (Kind run, Workload run, s_Policy run, s_Seed run) = (mode f, workload f, policyName f, seed f) /\
  percentiles xs TTFTMS = Some (TTFTP50MS run, TTFTP95MS run) /\
  percentiles xs LatencyMS = Some (LatencyP50MS run, LatencyP95MS run).
Proof.
  unfold summarize. cbn zeta. destruct (percentiles xs TTFTMS) as [[]|]; [|done].
  destruct (percentiles xs LatencyMS) as [[]|]; [|done]. intros [= <-]. simpl. split_and!; try done.
  unfold completed. pose proof (filter_split xs). lia.
Qed.

Lemma writeJSON_ok (path : string) (run : summary) (written : files) :
  writeJSON Encode write_error fs path run = (written, None) ->
  exists text, Encode run = Ok text /\ written = [(path, to_bytes text ++ [lf])].
Proof.
  unfold writeJSON. destruct (create fs path) as [space|e]; [|done].
  destruct (Encode run) as [text|e]; [|done].
  destruct (file_write _ _) as [g ok] eqn:Hw. destruct ok; [|done]. intros [= <-].
  exists text. split; [done|]. apply file_write_content in Hw as (_ & Hc & Hok); [|simpl; lia].
  do 2 f_equal. rewrite Hc. simpl in *. symmetry in Hok. apply Nat.leb_le in Hok. by rewrite take_ge.
Qed.

Lemma writeCSV_ok (path : string) (xs : list sample) (written : files) :
  writeCSV Sprint write_error fs path xs = (written, None) ->
  exists n, written = [(path, take n (csv_text (csv_header :: (csv_row Sprint <$> xs))))].
Proof.
  unfold writeCSV. destruct (create fs path) as [space|e]; [|done].
  pose proof (write_csv_prefix space (csv_header :: (csv_row Sprint <$> xs))) as Hc.
  destruct (write_csv _ _) as [c err]. cbn [fst] in Hc. destruct err; [done|]. intros [= <-]. exists space. by rewrite Hc.
Qed.

(** C39: A run that exits with 0 accounts for every item: its summary has one sample for
    each, numbered in order, the requests are the items, and those that completed
    and those that failed add up to them. In the simulation the sample of an item
    is what the simulator of the policy and the seed answers after the items
    before it, with the status of the injected fault; in wall-clock mode it is the
    outcome of the HTTP request for that item; no other mode runs an item. The
    percentiles are those of the samples, and the summary names the mode, the
    workload, the policy and the seed. The JSON file holds the whole summary, and
    the CSV file the beginning of the rows of the samples. *)
Theorem main_accounts (f : flags) (written : files) :
  main NewPCG IntN Unmarshal Encode Sprint Quote write_error fs Do clock started finished f = (written, Exited) ->
  exists items run text csv,
    items_of NewPCG IntN Unmarshal fs f = Ok items /\ Encode run = Ok text /\
    written = (output f, to_bytes text ++ [lf]) :: csv /\
    (csvPath f = "" /\ csv = [] \/
     csvPath f <> "" /\ exists n, csv = [(csvPath f, take n (csv_text (csv_header :: (csv_row Sprint <$> Samples run))))]) /\
    length (Samples run) = length items /\ numbered 0 (Samples run) /\
    Requests run = Z.of_nat (length items) /\ Completed run = completed (Samples run) /\
    Completed run + Failed run = Requests run /\
    (Kind run, Workload run, s_Policy run, s_Seed run) = (mode f, workload f, policyName f, seed f) /\
    percentiles (Samples run) TTFTMS = Some (TTFTP50MS run, TTFTP95MS run) /\
    percentiles (Samples run) LatencyMS = Some (LatencyP50MS run, LatencyP95MS run) /\
    (mode f = "deterministic_simulation" /\
       (exists sim, newRoutingSimulator (policyName f) (seed f) = Ok sim /\
          forall i item, items !! i = Some item ->
            Samples run !! i = Some (LoadGen.run (simulate sim 0 (take i items)).1 (Z.of_nat i) item).2) /\
       (fun x => (sm_Status x, sm_Error x)) <$> Samples run = (fun item => outcome_of (Fault item)) <$> items \/
     mode f = "wall_clock_mock" /\
       (forall i item, items !! i = Some item ->
          Samples run !! i =
            Some (execute (Do (Z.of_nat i)) (clock (Z.of_nat i)) (f_router f) (Z.of_nat i) item)) \/
     mode f <> "deterministic_simulation" /\ mode f <> "wall_clock_mock" /\ items = []).
Proof.
  unfold main. destruct (items_of NewPCG IntN Unmarshal fs f) as [items|e] eqn:Hitems; [|done].
  destruct (if (mode f =? "deterministic_simulation")%string then _ else _) as [sim|e] eqn:Hsim; [|done].
  destruct (run_items Quote Do clock f sim 0 items) as [xs|e] eqn:Hrun; [|done].
  destruct (summarize started finished f items xs) as [run|] eqn:Hsum; [|done].
  destruct (run_items_samples _ _ _ _ _ Hrun) as (Hl & Hn & Hmode).
  destruct (summarize_counts _ _ _ _ Hsum) as (Hs & Hr & Hc & Hcf & Hkind & Ht50 & Hl50).
  destruct (writeJSON Encode write_error fs (output f) run) as [w [e|]] eqn:Hj; [done|].
  apply writeJSON_ok in Hj as (text & Henc & ->).
  intros Hw.
  assert (exists csv, written = (output f, to_bytes text ++ [lf]) :: csv /\
    (csvPath f = "" /\ csv = [] \/
     csvPath f <> "" /\ exists n, csv = [(csvPath f, take n (csv_text (csv_header :: (csv_row Sprint <$> xs))))]))
    as (csv & -> & Hcsv).
  { destruct (csvPath f =? "")%string eqn:Ec; bool_facts.
    - injection Hw as <-. exists []. split; [done|by left].
    - destruct (writeCSV Sprint write_error fs (csvPath f) xs) as [more [e|]] eqn:Hcsv; [done|]. injection Hw as <-.
      apply writeCSV_ok in Hcsv as (n & ->). eexists. split; [done|]. right. split; [done|by exists n]. }
  exists items, run, text, csv. rewrite Hs. split_and!; try done; [congruence|].
  destruct (mode f =? "deterministic_simulation")%string eqn:Em; bool_facts.
  - left. apply result_bind_ok in Hsim as (s & Hnew & [= <-]). split; [done|]. split.
    + exists s. split; [done|]. intros i item Hi. subst xs. by rewrite (simulate_nth s 0 items i item Hi).
    + unfold newRoutingSimulator in Hnew. apply result_bind_ok in Hnew as (rt & _ & [= <-]). subst xs.
      by apply simulated_outcomes.
  - right. injection Hsim as <-. destruct Hmode as [Hmode Hx].
    destruct (decide (mode f = "wall_clock_mock")) as [Hwall|Hwall]; [by left|right]. by destruct Hmode.
Qed.
End Main.

(** ** A request *)
Lemma Scan_rendered (es : list sse) :
  Forall (fun line => len line < MaxScanTokenSize) (mjoin (lines_of <$> es)) ->
  Scan (render_all es) = (mjoin (lines_of <$> es), false).
Proof.
  intros Hs. unfold Scan. rewrite <- scan_render in *. apply scan_short; [apply render_whole|].
  fold (scan_lines (render_all es)). pose proof (event_lines_inline es) as Hi. rewrite <- scan_render in Hi.
  apply list.Forall_and. by split.
Qed.

Definition slash : ascii := "/".

Lemma TrimRight_spec (root trailing : string) :
  Forall (fun a => a = slash) (to_bytes trailing) -> list.last (to_bytes root) <> Some slash ->
  TrimRight (root +:+ trailing) = root.
Proof.
  intros Ht Hr. unfold TrimRight. rewrite to_bytes_app, reverse_app.
  assert (forall l m, Forall (fun a => a = slash) l -> trim_slashes (l ++ m) = trim_slashes m) as Hskip.
  { intros l m. induction 1 as [|a l -> _ IH]; [done|]. exact IH. }
  rewrite Hskip by by rewrite Forall_reverse.
  assert (trim_slashes (reverse (to_bytes root)) = reverse (to_bytes root)) as ->.
  { rewrite <- (reverse_involutive (to_bytes root)) in Hr. destruct (reverse (to_bytes root)) as [|a l]; [done|].
    rewrite reverse_cons, list.last_snoc in Hr. cbn [trim_slashes].
    fold slash. destruct (Ascii.eqb_spec a slash) as [->|]; [by destruct Hr|done]. }
  by rewrite reverse_involutive, String.string_of_list_ascii_of_string.
Qed.

(** C40: A request of the load generator is a POST to the chat endpoint below the base
    address, without its trailing slashes, that carries the tenant in its header
    and, as its JSON body, the limit and the messages of the item, with the fixed
    model, as a stream. When it is answered with a stream of the gateway, whose lines
    fit the scanner's buffer, it succeeds exactly when a token event was written
    before the end marker, whatever comes after that token, an error event
    included; a stream without one is reported as such. *)
Theorem execute_reads_stream (Do : post -> result string response) (clock : request_clock)
    (root trailing : string) (index : Z) (item : workItem) (r : response) (es : list sse) :
  Forall (fun a => a = slash) (to_bytes trailing) -> list.last (to_bytes root) <> Some slash ->
  Do {| p_url := root +:+ "/v1/chat/completions";
        p_headers := [("Content-Type", "application/json"); ("X-Aether-Tenant-ID", wi_TenantID item)];
        p_body := json_object
          [json_field "max_tokens" (itoa (MaxTokens item));
           json_field "messages"
             (if bool_decide (wi_Messages item = []) then "null"
              else json_array ((fun m => json_object [json_field "role" (json_string (Role m));
                                                      json_field "content" (json_string (Content m))]) <$> wi_Messages item));
           json_field "model" (json_string "mock-llm"); json_field "stream" "true"] |} = Ok r ->
  ok_status (StatusCode r) = true -> r_read_error r = None ->
  r_body r = render_all es ->
  Forall (fun line => len line < MaxScanTokenSize) (mjoin (lines_of <$> es)) ->
  let x := execute Do clock (root +:+ trailing) index item in
  sm_Request x = index /\ sm_Status x = StatusCode r /\
  sm_Error x = (if succeeded x then "" else "stream had no token event") /\
  (succeeded x = true <->
   exists before p after, es = before ++ SSEToken p :: after /\ Forall (fun e => is_done_event e = false) before).
Proof.
  intros Hslash Hroot HDo0 Hok Herr Hbody Hs. cbv zeta.
  assert (Do (chat_post (root +:+ trailing) item) = Ok r) as HDo.
  { rewrite <- HDo0. unfold chat_post, payload. rewrite TrimRight_spec by done. by destruct (wi_Messages item). } rewrite <- token_first_iff, <- saw_token_lines.
  split; [apply execute_request|]. unfold execute. rewrite HDo, Hok, Hbody, (Scan_rendered es Hs). cbn [negb].
  pose proof (read_events_token false (mjoin (lines_of <$> es))) as Ht.
  destruct (read_events false _) as [first ended]. cbn [fst orb] in Ht. subst first. rewrite Herr.
  unfold ok_status in Hok. destruct ended, (saw_token _); unfold succeeded; simpl; by rewrite ?Hok.
Qed.

(** ** Witnesses *)
Definition ex_flags : flags :=
  {| mode := "wall_clock_mock"; workload := "short"; requests := 0; seed := 7;
     policyName := Routing.RoundRobin; f_router := "http://router:8080/"; trace := "trace.jsonl";
     output := "out/run.json"; csvPath := "out/run.csv" |}.

Definition ex_trace_item : workItem :=
  {| ArrivalMS := 0; wi_TenantID := "t"; wi_Messages := [{| Role := "user"; Content := "hi" |}];
     MaxTokens := 2; Fault := "" |}.

Definition ex_payload (text : string) : streamPayload :=
  {| sp_ID := "r"; Object := "chat.completion.chunk"; Created := 0; sp_Model := "mock-llm";
     Choices := [] |}.

(** A stream that fails after its first token. *)
Definition ex_stream : list sse :=
  [SSEToken (ex_payload "a");
   SSEError {| ae_Status := 502; ae_Message := "worker failed"; ae_Type := "server_error"; ae_Code := "worker_error"; ae_RequestID := "r" |};
   SSEDone].

Definition ex_response : response :=
  {| StatusCode := 200; StatusText := "200 OK"; r_body := render_all ex_stream; r_read_error := None |}.

Definition ex_request_clock : request_clock := {| at_start := 0; at_first := 1000000; at_end := 3000000 |}.

Lemma execute_reads_stream_witness :
  succeeded (execute (fun _ => Ok ex_response) ex_request_clock "http://router//" 0 ex_trace_item) = true.
Proof.
  pose proof (execute_reads_stream (fun _ => Ok ex_response) ex_request_clock "http://router" "//" 0 ex_trace_item
    ex_response ex_stream ltac:(repeat constructor) ltac:(vm_compute; congruence) eq_refl eq_refl eq_refl eq_refl
    ltac:(vm_compute; repeat constructor)) as H.
  apply (proj2 (proj2 (proj2 H))). exists [], (ex_payload "a"), (drop 1 ex_stream). split; [reflexivity|constructor].
Defined.

(** A trace of one request, whose files have room for 5 bytes of the CSV text. *)
Definition ex_filesystem : filesystem :=
  {| MkdirAll := fun _ => None;
     Create := fun path => Ok (if (path =? "out/run.csv")%string then 5%nat else 4096%nat);
     OpenTrace := fun _ => Ok ("line" +:+ String lf "", None) |}.

Definition ex_main : files * exit :=
  main (fun _ _ => 0) (fun r n => (r + 1, r mod n)) (fun _ => Ok ex_trace_item) (fun _ => Ok "{}") (fun _ => "1")
    (fun s => s) "write failed" ex_filesystem (fun _ _ => Ok ex_response) (fun _ => ex_request_clock) 0 1000000000
    ex_flags.

Lemma main_accounts_witness :
  ex_main = ([("out/run.json", to_bytes ("{}" +:+ String lf "")); ("out/run.csv", to_bytes "reque")], Exited) /\
  exists items, items_of (fun _ _ => 0) (fun r n => (r + 1, r mod n)) (fun _ => Ok ex_trace_item) ex_filesystem
    ex_flags = Ok items.
Proof.
  assert (ex_main = ([("out/run.json", to_bytes ("{}" +:+ String lf "")); ("out/run.csv", to_bytes "reque")], Exited))
    as E by (vm_compute; reflexivity).
  split; [exact E|].
  destruct (main_accounts (fun _ _ => 0) (fun r n => (r + 1, r mod n)) (fun _ => Ok ex_trace_item) (fun _ => Ok "{}")
    (fun _ => "1") (fun s => s) "write failed" ex_filesystem (fun _ _ => Ok ex_response) (fun _ => ex_request_clock)
    0 1000000000 ex_flags _ E) as (items & _ & _ & _ & Hi & _).
  exists items. exact Hi.
Defined.

(** Requests that fail are counted, and the command still exits with 0. *)
Theorem failed_requests_exit_zero :
  (main (fun _ _ => 0) (fun r n => (r + 1, r mod n)) (fun _ => Ok ex_trace_item)
    (fun run => Ok (itoa (Requests run) +:+ " " +:+ itoa (Completed run) +:+ " " +:+ itoa (Failed run)))
    (fun _ => "1") (fun s => s) "write failed" ex_filesystem (fun _ _ => Err "connection refused")
    (fun _ => ex_request_clock) 0 1000000000 ex_flags) =
  ([("out/run.json", to_bytes ("1 0 1" +:+ String lf "")); ("out/run.csv", to_bytes "reque")], Exited).
Proof. vm_compute. reflexivity. Qed.
