(* ===== verification/Conformance.v ===== *)
(** * The repository's tests, replayed on the model

    Each unit test of [src/internal/*/*_test.go] and [src/cmd/loadgen/main_test.go],
    and each test of [src/integration/e2e_test.go] that checks a response, as an
    evaluation of the definitions of this library on the test's own input.  They
    prove nothing in general; they show that the definitions compute what the
    code computes where the repository says what that is. *)

From S2P Require Import Prelude GoFloat GoString Model Examples Wire Protocol Parse Sse Stream Gateway Chat.
From S2P Require Import MockWorker Generation EndToEnd.
From S2P Require Duration Tokenizer Prefix Admission Registry Routing Config Metrics Membership LoadGen.

#[local] Open Scope Z_scope.
#[local] Open Scope string_scope.

(** ** [internal/tokenizer/tokenizer_test.go] *)
Definition two_messages : list Message :=
  [ {| Role := "system"; Content := "one  two" |}; {| Role := "user"; Content := "three" |} ].

Example TestCanonicalizeAndEstimate :
  Tokenizer.Canonicalize two_messages =
    "system" +:+ Tokenizer.nl +:+ "one  two" +:+ Tokenizer.nl +:+ "user" +:+ Tokenizer.nl +:+ "three" +:+ Tokenizer.nl /\
  Tokenizer.Tokens two_messages = ["system"; "one"; "two"; "user"; "three"] /\ Tokenizer.Estimate two_messages = 5.
Proof. split_and!; vm_compute; reflexivity. Qed.

(** ** [internal/prefix/prefix_test.go] *)
Definition letters : list string := (fun i => String (byte_of (97 + Z.of_nat i mod 26)) "") <$> seq 0 33.

Example TestFingerprintsAndLongestMatch :
  let fingerprints := Prefix.Fingerprints letters in
  (TokenCount <$> fingerprints) = [16; 32] /\
  Prefix.LongestMatch fingerprints (take 1 fingerprints) = 16 /\ Prefix.LongestMatch fingerprints [] = 0.
Proof. split_and!; vm_compute; reflexivity. Qed.

(** ** [internal/admission/admission_test.go] *)
Definition unix (seconds : Z) : Time := (62135596800 + seconds) * Second.

Definition test_limits (global rate burst : Z) : Admission.Config :=
  {| Admission.GlobalInFlightTokens := global; Admission.TenantRatePerSecond := float_of_Z rate;
     Admission.TenantBurstTokens := float_of_Z burst |}.

Example TestReservationReleasesExactlyOnce :
  (c ← Admission.New (test_limits 10 10 10);
   let '(c, lease) := Admission.Reserve c (unix 0) "tenant" 6 in
   let lease := match lease with Ok i => Some i | Err _ => None end in
   c ← Admission.Release c lease;
   c ← Admission.Release c lease;
   let '(c1, again) := Admission.Reserve c (unix 0) "tenant" 5 in
   Ok (lease, Admission.InFlight c, again, (Admission.Reserve c1 (unix 1) "tenant" 5).2)) =
  Ok (Some 0%nat, 0, Err Admission.ErrTenantLimit, Ok 1%nat).
Proof. vm_compute. reflexivity. Qed.

Example TestGlobalRejectionDoesNotChargeTenant :
  (c ← Admission.New (test_limits 4 100 100);
   let '(c, first) := Admission.Reserve c (unix 0) "tenant" 5 in
   Ok (first, (Admission.Reserve c (unix 0) "tenant" 4).2)) = Ok (Err Admission.ErrGlobalLimit, Ok 0%nat).
Proof. vm_compute. reflexivity. Qed.

(** ** [internal/registry/registry_test.go] *)
Definition test_state (version waiting : Z) (cached : list PrefixFingerprint) : WorkerState :=
  {| StatusVersion := version; Status := WorkerHealthy; WaitingRequestCount := 0; WaitingTokenCount := waiting;
     RunningRequestCount := 0; RunningWorkTokens := 0; ws_KVUsage := {| CapacityTokens := 100; UsedTokens := 0 |};
     PrefillTokensPerSecond := float_of_Z 100; DecodeTokensPerSecond := float_of_Z 50;
     DecodeSchedulingQuantumTokens := 1; CachedPrefixes := cached; ObservedAt := 0 |}.

Definition test_worker (id : string) (waiting : Z) (cached : list PrefixFingerprint) (stale : bool) : Model.Worker :=
  {| w_ID := id; DataAddress := id +:+ ":1"; w_Model := "mock-llm"; w_ProtocolVersion := ProtocolVersion;
     State := test_state 1 waiting cached; LastHeartbeat := 0; Stale := stale |}.

Example TestSnapshotStalenessAndRecovery :
  (r ← Registry.New Second;
   let '(r, registered) := Registry.Register r (unix 100) (test_worker "worker-a" 0 [] false) in
   let '(r1, heartbeat) := Registry.Heartbeat r (unix 102) "worker-a" (test_state 2 0 []) in
   Ok (Stale <$> Registry.Snapshot r (unix 100), Stale <$> Registry.Snapshot r (unix 102),
       Stale <$> Registry.Snapshot r1 (unix 102))) = Ok ([false], [true], [false]).
Proof. vm_compute. reflexivity. Qed.

Example TestHeartbeatDoesNotRegress :
  (r ← Registry.New Duration.Minute;
   let '(r, _) := Registry.Register r (unix 100) (test_worker "worker-a" 0 [] false) in
   Ok (Registry.Heartbeat r (unix 100) "worker-a" (test_state 1 0 [])).2) = Ok (Err Registry.ErrStateVersionRegression).
Proof. vm_compute. reflexivity. Qed.

(** ** [internal/routing/routing_test.go] *)
Definition same_prefix : PrefixFingerprint := {| TokenCount := 16; SHA256 := "same" |}.

Definition test_request : Request :=
  {| r_ID := "request"; r_AttemptID := ""; TenantID := ""; r_Model := "mock-llm"; Messages := [];
     EstimatedInputToken := 32; ExpectedOutputToken := 0; MaxOutputTokens := 0;
     PrefixFingerprints := [same_prefix]; Deadline := 0 |}.

Definition decided (policy : string) (workers : list Model.Worker) : result string (string * list string) :=
  router ← Routing.New policy 0;
  let '(_, (decision, err)) := Routing.Select router test_request workers ∅ in
  match err with
  | Some _ => Err "no eligible workers"
  | None => Ok (SelectedWorker decision, RejectionReason <$> Candidates decision)
  end.

Example TestPoliciesAreDeterministicAndExcludeStale :
  Forall (fun policy => decided policy [test_worker "b" 0 [] false; test_worker "a" 4 [same_prefix] true] =
      Ok ("b", ["stale_heartbeat"; ""]))
    [Routing.RoundRobin; Routing.LeastWaitingTokens; Routing.PrefixAffinity; Routing.PredictedTTFT].
Proof. repeat (apply Forall_cons_2; [vm_compute; reflexivity|]). apply Forall_nil_2. Qed.

Example TestPrefixAffinityPrefersSavedPrefillWhenQueueAllows :
  decided Routing.PrefixAffinity [test_worker "a" 0 [same_prefix] false; test_worker "b" 0 [] false] = Ok ("a", [""; ""]).
Proof. vm_compute. reflexivity. Qed.

(** ** [internal/metrics/metrics_test.go] *)
Definition test_metrics : Metrics.Registry :=
  Metrics.run_ops Metrics.New
    [Metrics.OInc "aetherserve_requests_total"; Metrics.OSet "aetherserve_active_requests" (float_of_Z 2);
     Metrics.OObserve "aetherserve_ttft_seconds" (fdiv (float_of_Z 1) (float_of_Z 10))].

Definition in_map_order (r : Metrics.Registry) : Metrics.orders :=
  {| Metrics.o_counters := map_to_list (Metrics.counters r);
     Metrics.o_labeled_counters := map_to_list (Metrics.labeledCounters r);
     Metrics.o_gauges := map_to_list (Metrics.gauges r);
     Metrics.o_labeled_gauges := map_to_list (Metrics.labeledGauges r);
     Metrics.o_histograms := map_to_list (Metrics.histograms r) |}.

(** A format that is right for the two values of the test. *)
Definition test_format (x : float64) : string := if bool_decide (x = float_of_Z 2) then "2" else "0.1".

Example TestPrometheusExposition :
  Metrics.Handler test_format id (in_map_order test_metrics) =
    ["aetherserve_requests_total 1"; "aetherserve_active_requests 2"; "aetherserve_ttft_seconds_count 1";
     "aetherserve_ttft_seconds_sum 0.1"].
Proof. vm_compute. reflexivity. Qed.

(** ** [internal/gateway/http_test.go] *)
Definition test_chunk (index : Z) (text : string) : Chunk :=
  {| c_RequestID := "r"; c_AttemptID := "r-a1"; c_WorkerID := "w"; TokenIndex := index; TokenText := text;
     Final := false; Reason := ""; At := 0 |}.

Definition chunk_request : Request :=
  {| r_ID := "r"; r_AttemptID := "r-a1"; TenantID := ""; r_Model := ""; Messages := []; EstimatedInputToken := 0;
     ExpectedOutputToken := 0; MaxOutputTokens := 0; PrefixFingerprints := []; Deadline := 0 |}.

Example TestValidateChunkRejectsDuplicateAndOutOfOrder :
  validateChunk (test_chunk 1 "x") chunk_request "w" 0 = Err (EIndex 1 0) /\
  validateChunk (test_chunk 0 "") chunk_request "w" 0 = Err ENoText /\
  validateChunk (test_chunk 0 "x") chunk_request "other" 0 = Err EIdentifiers /\
  validateChunk (test_chunk 0 "x") chunk_request "w" 0 = Ok tt.
Proof. split_and!; vm_compute; reflexivity. Qed.

Example TestClientRequestIDValidation :
  clientRequestID (Err "unused") "ok-id" = Ok "ok-id" /\
  is_ok (clientRequestID (Err "unused") ("bad" +:+ Tokenizer.nl +:+ "id")) = false.
Proof. split; vm_compute; reflexivity. Qed.

(** ** [internal/protocol/convert_test.go] *)
Section Protocol.
#[local] Existing Instance SecondsNanos.

Definition wire_state (observed : option Timestamp) : option pb_WorkerState :=
  Some {| pws_StatusVersion := 1; pws_Status := WORKER_STATUS_HEALTHY; pws_WaitingRequestCount := 0;
          pws_WaitingTokenCount := 0; pws_RunningRequestCount := 0; pws_RunningWorkTokens := 0;
          pws_KvUsage := Some {| kv_CapacityTokens := 1; kv_UsedTokens := 0 |};
          pws_PrefillTokensPerSecond := float_of_Z 1; pws_DecodeTokensPerSecond := float_of_Z 1;
          pws_DecodeSchedulingQuantumTokens := 1; pws_CachedPrefixes := []; pws_ObservedAt := observed |}.

Example TestStateFromProtoRequiresObservedTimestamp :
  is_ok (StateFromProto (wire_state None)) = false /\ is_ok (StateFromProto (wire_state (Some (NewTimestamp (unix 100))))) = true.
Proof. split; vm_compute; reflexivity. Qed.

Example TestTimestampFromProtoRequiresValue : TimestampFromProto None "test timestamp" = Err (MissingTimestamp "test timestamp").
Proof. reflexivity. Qed.
End Protocol.

(** ** [internal/config/config_test.go]: the example files, decoded *)
Definition or_zero (text : string) : Duration := match Config.UnmarshalYAML text with Ok d => d | Err _ => 0 end.

(** [configs/router.yaml] and [configs/docker-router.yaml]. *)
Definition router_file (http control : string) : Config.RouterConfig :=
  {| Config.rc_HTTPAddress := http; Config.rc_ControlAddress := control; Config.rc_Model := "mock-llm";
     Config.DefaultMaxOutputTokens := 32; Config.rc_MaxOutputTokens := 128; Config.MaxInputTokens := 2048;
     Config.MaxContextTokens := 4096; Config.RequestTimeout := or_zero "30s"; Config.MinRequestTimeout := or_zero "100ms";
     Config.MaxRequestTimeout := or_zero "60s"; Config.HeartbeatStaleAfter := or_zero "3s"; Config.SSEBufferSize := 32;
     Config.SlowClientTimeout := or_zero "5s"; Config.ShutdownTimeout := or_zero "10s";
     Config.rc_Routing := {| Config.Policy := "predicted_ttft"; Config.RoundRobinSeed := 0 |};
     Config.rc_Admission := test_limits 16384 4096 8192 |}.

(** The four files of the mock workers. *)
Definition worker_file (id data advertised control : string) (prefill seed : Z) : Config.WorkerConfig :=
  {| Config.wc_ID := id; Config.wc_DataAddress := data; Config.AdvertisedAddress := advertised;
     Config.RouterControlAddress := control; Config.wc_Model := "mock-llm"; Config.HeartbeatInterval := or_zero "500ms";
     Config.QueueCapacity := 64; Config.wc_PrefillTokensPerSecond := float_of_Z prefill;
     Config.wc_DecodeTokensPerSecond := float_of_Z 100; Config.wc_DecodeSchedulingQuantumTokens := 1;
     Config.CacheCapacityTokens := 8192; Config.CachePrefixLimit := 256; Config.Seed := seed;
     Config.Failure := {| Config.FailBeforeFirstCount := 0; Config.FailAfterTokens := 0;
                          Config.SlowdownMultiplier := float_of_Z 1 |} |}.

Example TestExampleConfigsValidate :
  Config.ValidateRouter (router_file "127.0.0.1:8080" "127.0.0.1:9090") = Ok tt /\
  Config.ValidateRouter (router_file "0.0.0.0:8080" "0.0.0.0:9090") = Ok tt /\
  Forall (fun c => Config.ValidateWorker c = Ok tt)
    [worker_file "worker-1" "127.0.0.1:9101" "" "127.0.0.1:9090" 1000 1;
     worker_file "worker-2" "127.0.0.1:9102" "" "127.0.0.1:9090" 700 2;
     worker_file "worker-1" "0.0.0.0:9101" "worker-1:9101" "router:9090" 1000 1;
     worker_file "worker-2" "0.0.0.0:9102" "worker-2:9102" "router:9090" 1000 2].
Proof.
  split; [vm_compute; reflexivity|]. split; [vm_compute; reflexivity|].
  repeat (apply Forall_cons_2; [vm_compute; reflexivity|]). apply Forall_nil_2.
Qed.

(** ** [cmd/loadgen/main_test.go]
    The simulator is a function of its state, so a second one agrees with the
    first; what is left of the test is that the workload has its items. *)
Example TestGeneratedWorkload :
  match LoadGen.workloadItems (fun r n => (r + 1, r mod n)) "high_prefix_sharing" 3 7 with
  | Ok (item :: items) => length items = 2%nat /\ Forall (fun m => Content m <> "") (LoadGen.wi_Messages item) /\
      LoadGen.wi_Messages item <> []
  | _ => False
  end.
Proof. vm_compute. split; [reflexivity|]. split; [apply Forall_cons_2; [discriminate|apply Forall_nil_2]|discriminate]. Qed.

(** ** [integration/e2e_test.go] *)
Section Integration.
#[local] Existing Instance SecondsNanos.

(** [startRouter]. *)
Definition startRouter (policy : string) : result string Server :=
  Gateway.New
    {| Config.rc_HTTPAddress := "127.0.0.1:0"; Config.rc_ControlAddress := "127.0.0.1:0"; Config.rc_Model := "mock-llm";
       Config.DefaultMaxOutputTokens := 8; Config.rc_MaxOutputTokens := 32; Config.MaxInputTokens := 1024;
       Config.MaxContextTokens := 2048; Config.RequestTimeout := 2 * Second; Config.MinRequestTimeout := Millisecond;
       Config.MaxRequestTimeout := 3 * Second; Config.HeartbeatStaleAfter := 500 * Millisecond; Config.SSEBufferSize := 4;
       Config.SlowClientTimeout := Second; Config.ShutdownTimeout := 2 * Second;
       Config.rc_Routing := {| Config.Policy := policy; Config.RoundRobinSeed := 0 |};
       Config.rc_Admission := test_limits 100000 100000 100000 |}.

(** [startWorker]: the worker, started, and the gateway that it registered with. *)
Definition startWorker (s : Server) (id port : string) (failure : Config.FailureConfig) : result string (MockWorker.Worker * Server) :=
  w ← MockWorker.New
    {| Config.wc_ID := id; Config.wc_DataAddress := "127.0.0.1:0"; Config.AdvertisedAddress := "";
       Config.RouterControlAddress := "127.0.0.1:9090"; Config.wc_Model := "mock-llm";
       Config.HeartbeatInterval := 20 * Millisecond; Config.QueueCapacity := 8;
       Config.wc_PrefillTokensPerSecond := float_of_Z 10000; Config.wc_DecodeTokensPerSecond := float_of_Z 1000;
       Config.wc_DecodeSchedulingQuantumTokens := 1; Config.CacheCapacityTokens := 4096; Config.CachePrefixLimit := 32;
       Config.Seed := 1; Config.Failure := failure |};
  let w := Membership.Start w ("127.0.0.1:" +:+ port) in
  let t := {| at_operation := unix 1; at_ready := unix 1; at_gauge := unix 1; at_response := unix 1 |} in
  let '(w, s, registered) := Membership.register_call ex_registry_text w s
    {| Membership.at_request := unix 1; Membership.at_state := unix 1 |} Membership.Delivered t in
  match registered with Ok _ => Ok (w, s) | Err _ => Err "register" end.

Definition failing (before after : Z) : Config.FailureConfig :=
  {| Config.FailBeforeFirstCount := before; Config.FailAfterTokens := after; Config.SlowdownMultiplier := float_of_Z 1 |}.

(** [stream]: the request of the tests, and the events that they count. *)
Definition test_incoming (maxTokens : Z) : incoming :=
  {| h_RequestID := "request-1"; h_Timeout := ""; h_Tenant := "";
     body := Ok {| in_Model := "mock-llm"; in_Messages := [ {| Role := "user"; Content := "hello from integration test" |} ];
                   in_Stream := Some true; in_MaxTokens := Some maxTokens |};
     after_body := TrailerEOF |}.

Record streamEvents := { tokens : nat; completion : bool; error : bool; done : bool }.

Definition is_token_write (w : http_event) : bool := match w with WriteSSE (SSEToken _) => true | _ => false end.
Definition is_completion_write (w : http_event) : bool := match w with WriteSSE (SSECompletion _) => true | _ => false end.
Definition is_error_write (w : http_event) : bool := match w with WriteSSE (SSEError _) => true | _ => false end.
Definition is_done_write (w : http_event) : bool := match w with WriteSSE SSEDone => true | _ => false end.

Definition status_of (ws : list http_event) : Z :=
  match ws with WriteAPIError e :: _ => ae_Status e | WriteStreamHeaders _ :: _ => StatusOK | _ => 0 end.

Definition events_seen (ws : list http_event) : streamEvents :=
  {| tokens := length (filter (fun w => is_token_write w = true) ws); completion := existsb is_completion_write ws;
     error := existsb is_error_write ws; done := existsb is_done_write ws |}.

Definition test_time (i : nat) : Time := unix 1 + Z.of_nat i * Millisecond.

(** The attempt that runs on [w], if it is the [n]th. *)
Definition on_worker (request : Request) (n : Z) (w : MockWorker.Worker) : attempt_env :=
  let events := events_of (fun _ => 0) test_time w (with_attempt request n) ECanceled 100 in
  {| e_before := id; e_select_now := unix 1; e_decision_seconds := fzero; e_dial := Ok (Z.to_nat n);
     e_dialing := id; e_generate := None; e_waiting := id; e_first := head events; e_ctx_retry := None;
     e_ctx_write := None; e_commit_now := unix 1; e_write_ok := true; e_rest := arrivals_of (unix 1) (tail events) |}.

Definition stream (s : Server) (first second : MockWorker.Worker) (maxTokens : Z) : result apiError (Z * streamEvents * nat) :=
  request ← parseRequest (s_config s) (Err "unused") (unix 1) (test_incoming maxTokens);
  let r := handleChat ex_code ex_text_of s
    {| c_started := unix 1; c_random := Err "unused"; c_parse_now := unix 1; c_incoming := test_incoming maxTokens;
       c_healthy_now := unix 1; c_reserving := id; c_reserve_now := unix 1; c_first := on_worker request 1 first;
       c_second := on_worker request 2 second; c_releasing := id |} in
  Ok (status_of (cr_writes r), events_seen (cr_writes r), length (cr_attempts r)).

(** One worker, registered. *)
Definition one_worker (policy : string) (failure : Config.FailureConfig) (maxTokens : Z) : result string (result apiError (Z * streamEvents * nat)) :=
  s ← startRouter policy;
  '(w, s) ← startWorker s "worker-a" "9101" failure;
  if (HealthyWorkers s (unix 1) =? 1)%nat then Ok (stream s w w maxTokens) else Err "waitFor".

Example TestHTTPToGRPCToSSE :
  one_worker Routing.PredictedTTFT (failing 0 0) 8 =
    Ok (Ok (200, {| tokens := 8; completion := true; error := false; done := true |}, 1%nat)).
Proof. vm_compute. reflexivity. Qed.

Example TestRetriesOnlyBeforeFirstToken :
  (s ← startRouter Routing.RoundRobin;
   '(a, s) ← startWorker s "worker-a" "9101" (failing 1 0);
   '(b, s) ← startWorker s "worker-b" "9102" (failing 0 0);
   if (HealthyWorkers s (unix 1) =? 2)%nat then Ok (stream s a b 4) else Err "waitFor") = Ok (Ok (200, {| tokens := 4; completion := true; error := false; done := true |}, 2%nat)).
Proof. vm_compute. reflexivity. Qed.

Example TestPreTokenFailureWithoutAlternateReturnsBadGateway :
  one_worker Routing.RoundRobin (failing 1 0) 4 =
    Ok (Ok (502, {| tokens := 0; completion := false; error := false; done := false |}, 1%nat)).
Proof. vm_compute. reflexivity. Qed.

Example TestNoRetryAfterStreamingBegins :
  one_worker Routing.RoundRobin (failing 0 1) 4 =
    Ok (Ok (200, {| tokens := 1; completion := false; error := true; done := true |}, 1%nat)).
Proof. vm_compute. reflexivity. Qed.
End Integration.
